(* ===== verification/_CoqProject ===== *)
-Q . S2P
Prelude.v
Replay.v
Config.v
Packet.v
Words.v
Libc.v
Keyhex.v
Logging.v
Routing.v
Sodium.v
Chacha20.v
Poly1305.v
Fe25519.v
Utils.v
Curve25519.v
Ge25519.v
Base25519.v
Primes.v
Scalars.v
Edwards.v
Montgomery.v
Basepoint.v
Agreement.v
Points.v
Encoding.v
Aead.v
Blake2b.v
Libsodium.v
Crypto.v
Kdf.v
Os.v
Inet.v
Transport.v
Tun.v
Peer.v
Handshake.v
Machine.v
Daemon.v
Calls.v
Refinement.v
Freshness.v
Loop.v
Service.v
Tunnel.v
Session.v
