(* ===== verification/Prelude.v ===== *)
(** * Verification of the vpn-tunnel daemon

    ** The program

    [src/src] is a layer-3 VPN daemon in the style of WireGuard.  [main.c] runs one loop
    over a UDP socket ([transport.c]) and a TUN device ([tun.c]).  A datagram is parsed
    ([packet.c]); a handshake initiation is answered ([handshake.c], on [kdf.c] and
    [crypto.c]) and installs a session in the peer table ([peer.c]); a data packet is looked
    up by its receiver index, checked against the session's replay window ([replay.c]),
    decrypted, committed to the window, and written to the TUN device if the inner source
    address is one the peer may use ([routing.c]).  A packet read from the TUN device is
    routed to a peer by its destination address, sealed under the session's next counter
    and sent.  [config.c] reads and prints keys, [logging.c] writes the log.  The
    cryptography is the libsodium under [src/deps].

    ** The library

    A C function is a Rocq function on explicit buffers.  A pointer that may be null is an
    [option] ([NULL] is [None]); a function that may read or write outside a buffer, shift
    by too much, or abort, returns an [option] whose [None] is undefined behaviour or
    [sodium_misuse]; a fixed-width integer is a [Z] with every wrap written out.  Code that
    calls the kernel is a [prog], a tree of system calls.

    - [Prelude]: machine integers, buffers, loops, their lemmas and tactics.
    - [Replay]: [replay.c].  [Config]: [config.h].  [Packet]: [packet.c].
      [Libc], [Inet]: the C library's number and address conversions, as glibc has them.
      [Keyhex]: [config.c].  [Logging]: [logging.c].  [Routing]: [routing.c].
    - [Sodium]: the interface to libsodium (class [Sodium], laws [SodiumLaws]) and
      [sodium_memcmp], [sodium_memzero].
    - [Words], [Chacha20], [Poly1305], [Aead], [Blake2b], [Fe25519], [Curve25519], [Ge25519],
      [Base25519], [Basepoint]: libsodium's own code for ChaCha20-Poly1305, BLAKE2b, the field
      of 2^255-19 in 51-bit limbs, X25519, the points of the Edwards curve, the table of the
      base point and public keys, and the RFC definitions they compute.
    - [Primes], [Edwards], [Montgomery], [Agreement]: the mathematics behind X25519, that the
      two moduli are prime, that the curve is a group, that the ladder and the table multiply
      in it, and so that Diffie-Hellman agrees.  [Libsodium] makes libsodium's code an
      instance of the interface, all of whose laws it satisfies.
    - [Utils], [Scalars], [Points], [Encoding]: more of libsodium's code around the same
      curve, [utils.c] (comparison, arithmetic on byte strings, padding) and the rest of
      [ed25519_ref10.c] that works in the group: scalars modulo the order of the base point,
      multiplication of any point, encoding and decoding, the tests of points, and the
      functions of [core_ed25519.c] built on them.
    - [Crypto]: [crypto.c].  [Kdf]: [kdf.c].  [Handshake]: [handshake.c].
      [Peer]: [peer.c].
    - [Os]: system calls, programs, their execution against a list of replies, and a weakest
      precondition against a protocol of what the kernel promises.  [Transport]:
      [transport.c].  [Tun]: [tun.c].
    - [Machine]: the daemon as a labelled step relation on its peer table, without buffers or
      system calls.  [Daemon]: [main.c], function by function.  [Calls]: which calls each
      function makes, and how many.  [Refinement]: each handler is a step of [Machine],
      prompted by what it received.  [Freshness]: what a replayed initiation does.  [Loop]: the
      loop as a run, why it is left, and [main].  [Service]: what the loop promises while it
      serves.  [Tunnel]: two daemons that share a session.  [Session]: two daemons from the
      handshake on.

    ** What is shown

    - The replay window implements its specification, the set of all counters ever given to
      it; no counter is accepted twice and reordering inside the window is harmless.
    - Parsers never leave their buffers, whatever the bytes and the length; each serialiser
      and its parser are inverse; a parser loses no field.
    - Addresses, prefixes, endpoints and keys: text round trips, and that matching a parsed
      prefix is equality of the leading bits.
    - ChaCha20, Poly1305 (in 44- and 42-bit limbs), their AEAD and BLAKE2b compute RFC 8439
      and RFC 7693 for every length and every split into updates, without overflow; sealing
      and opening are inverse; a bad tag is refused with the output zeroed.  The interface's
      laws follow ([Libsodium]).
    - X25519 computes RFC 7748 for every scalar and point, without overflow of a limb, and
      refuses the points of small order.  The field and the order of the base point are
      prime (Pocklington certificates), the addition of the Edwards curve is complete and
      associative, the ladder and the multiplication by the table compute the same
      multiples of the base point; hence both sides of an exchange of public keys compute
      the same secret, and never zero.  Nothing about the curve is assumed.
    - Arithmetic modulo the order of the base point (products, reduction, inverses) is exact,
      canonical and free of signed overflow, by an interval analysis of the same code proved
      sound.  Multiplication of any point multiplies in the group; decoding inverts encoding
      and the operations on encodings are the group's; the test of valid points accepts
      exactly the subgroup and its translate by the point of order two, which it should
      refuse.  Byte-string arithmetic is arithmetic modulo 256^n, and unpadding inverts
      padding.
    - The key derivation is HKDF's expansion over keyed BLAKE2b; nonces of different counters
      differ; the wrappers are inverse.
    - The handshake: both sides of an honest run derive the same keys, in opposite
      directions; an initiation is accepted exactly under the stated conditions, and an old
      one again exactly while the responder's clock is behind the time it carries.
    - The peer table: adding, looking up by key, index and destination, rekeying (one previous
      session is kept, and its keys still open packets), roaming.
    - Every descriptor opened on a failing path is closed.
    - The loop refines [Machine] against any kernel that keeps its promises, so over a whole
      run no counter is accepted twice in a session, none is used twice to seal under a
      session's key, every session index leads to its session and to no other, and what reaches
      the TUN device was authenticated by a peer and carries a source address of that peer.  The
      loop ends when the flag is cleared; then [main] wipes its keys and closes its
      descriptors, as it does on every other path on which it returns.  Since it never adds a
      peer, it forwards nothing.  Datagrams have the sizes of the protocol and are sent only in
      answer to a datagram or a packet.
    - Between two daemons that share a session, a packet read from one TUN device is written
      to the other exactly once, however often its datagram arrives ([Tunnel]); and a handshake
      between two daemons that know each other's keys leads there ([Session]).

    ** Bounds and fuel

    The unbounded loop of [main] takes a number of iterations; a statement about it holds for
    every number.  Running out of them is not leaving the loop: [main] is then [Running] and
    has cleaned up nothing, and this happens only if the flag was found set every time.  One
    iteration issues a bounded number of system calls ([Calls]).  The
    loops of the primitives take as fuel the number of blocks of their input plus one or two,
    and their equations show that the fuel is never exhausted.  Execution reads replies from a
    list; theorems about executions ask for a list that is long enough and give the length.

    ** Not modelled

    The body of the signal handler (the flag it clears is read from the environment); wiping
    of locals that are dead afterwards; the text of log messages.  Of libsodium: the
    random sources, the vector variants of modelled functions that may be selected at run
    time, the field arithmetic for machines without 128-bit integers, guarded allocation,
    and the primitives the daemon does not call, among them signatures, Elligator and
    Ristretto (whose building blocks in [Scalars], [Points] and [Encoding] are modelled).  Tests, fuzz targets, attack scripts and exercises
    hold none of the daemon's logic. *)

From stdpp Require Export base tactics option list numbers sets.
From Stdlib Require Export ZArith Lia ZifyBool.

#[global] Open Scope Z_scope.

(** ** Machine integers

    A C unsigned integer of width [w] is a [Z] in [0, 2^w); every C
    conversion or operation that wraps is written out with [wrap]. *)

Definition wrap (w x : Z) : Z := x mod 2 ^ w.

Definition u8 (x : Z) : Z := wrap 8 x.
Definition u16 (x : Z) : Z := wrap 16 x.
Definition u32 (x : Z) : Z := wrap 32 x.
Definition u64 (x : Z) : Z := wrap 64 x.

(** Conversion of a 64-bit value to a signed 64-bit type ([time_t]). *)
Definition s64 (x : Z) : Z :=
  let y := u64 x in if y <? 2 ^ 63 then y else y - 2 ^ 64.

(** Conversion to [int] (32 bits, two's complement). *)
Definition s32 (x : Z) : Z :=
  let y := u32 x in if y <? 2 ^ 31 then y else y - 2 ^ 32.

Definition is_uint (w x : Z) : Prop := 0 <= x < 2 ^ w.

#[global] Instance is_uint_dec (w x : Z) : Decision (is_uint w x).
Proof. unfold is_uint; apply _. Defined.

Abbreviation is_u8 := (is_uint 8).
Abbreviation is_u32 := (is_uint 32).
Abbreviation is_u64 := (is_uint 64).

Abbreviation bytes := (list Z).
Abbreviation bytes_ok := (Forall is_u8).

(** A shift whose amount is out of range is undefined behaviour in C. *)
Definition shl64 (x n : Z) : option Z :=
  if (0 <=? n) && (n <? 64) then Some (u64 (Z.shiftl x n)) else None.
Definition shr64 (x n : Z) : option Z :=
  if (0 <=? n) && (n <? 64) then Some (Z.shiftr x n) else None.

(** ** Error numbers (Linux values of [<errno.h>]) *)

Definition EINTR : Z := 4.
Definition EAGAIN : Z := 11.
Definition EWOULDBLOCK : Z := 11.
Definition EACCES : Z := 13.
Definition EFAULT : Z := 14.
Definition EINVAL : Z := 22.
Definition ENOSPC : Z := 28.
Definition EBADMSG : Z := 74.
Definition EMSGSIZE : Z := 90.
Definition EAFNOSUPPORT : Z := 97.

(** ** Memory

    A C buffer is the list of its bytes, a possibly-NULL pointer an
    [option].  A definition that can touch memory returns an [option]
    whose [None] is undefined behaviour: an access outside the buffer or a
    shift out of range.  Sequencing is stdpp's option monad. *)

Declare Scope c_scope.
Delimit Scope c_scope with C.

Section memory.
Context {A : Type}.
Implicit Types buf data : list A.

(** [buf[i]] *)
Definition rd buf (i : Z) : option A :=
  if 0 <=? i then buf !! Z.to_nat i else None.

(** [buf[i] = v] *)
Definition wr buf (i : Z) (v : A) : option (list A) :=
  if (0 <=? i) && (i <? Z.of_nat (length buf))
  then Some (<[Z.to_nat i := v]> buf) else None.

(** The [n] bytes at [buf + off], as [memcpy] reads them. *)
Definition slice buf (off n : Z) : option (list A) :=
  if (0 <=? off) && (0 <=? n) && (off + n <=? Z.of_nat (length buf))
  then Some (take (Z.to_nat n) (drop (Z.to_nat off) buf)) else None.

(** [memcpy(buf + off, data, length data)] *)
Definition blit buf (off : Z) data : option (list A) :=
  if (0 <=? off) && (off + Z.of_nat (length data) <=? Z.of_nat (length buf))
  then Some (take (Z.to_nat off) buf ++ data
             ++ drop (Z.to_nat off + length data) buf)
  else None.

(** [memcpy(dst + doff, src + soff, n)] *)
Definition memcpy (dst : list A) (doff : Z) (src : list A) (soff n : Z) : option (list A) :=
  d ← slice src soff n; blit dst doff d.

(** [memset(buf + off, v, n)] *)
Definition fill buf (off : Z) (v : A) (n : Z) : option (list A) :=
  blit buf off (replicate (Z.to_nat n) v).
End memory.

Notation "b .[ i ]" := (rd b i) (at level 1, i at level 200, left associativity, format "b .[ i ]") : c_scope.
Notation "x ≪ n" := (Z.shiftl x n) (at level 35) : c_scope.
Notation "x ≫ n" := (Z.shiftr x n) (at level 35) : c_scope.
Notation "x |' y" := (Z.lor x y) (at level 50, left associativity) : c_scope.
Notation "x &' y" := (Z.land x y) (at level 40, left associativity) : c_scope.
Notation "x ^' y" := (Z.lxor x y) (at level 50, left associativity) : c_scope.
Abbreviation NULL := None (only parsing).

(** ** Loops

    [for_range n body s] is [for (i = 0; i < n; i++) s = body(i, s)];
    [for_return n body] is a loop whose body may [return]. *)

Section loops.
Context {St R : Type}.

Fixpoint for_from (k i : nat) (body : nat → St → option St) (s : St) : option St :=
  match k with
  | O => Some s
  | S k' => s' ← body i s; for_from k' (S i) body s'
  end.

Definition for_range (n : nat) := for_from n 0.

Fixpoint return_from (k i : nat) (body : nat → option (option R)) : option (option R) :=
  match k with
  | O => Some None
  | S k' =>
      r ← body i;
      match r with
      | Some v => Some (Some v)
      | None => return_from k' (S i) body
      end
  end.

Definition for_return (n : nat) := return_from n 0.
End loops.

(** ** Automation *)

Create HintDb vpn.
Create Rewrite HintDb vpn_len.

(** Reduce the option monad, leaving the arithmetic alone. *)
Ltac bind_simpl :=
  cbn [mbind option_bind fmap option_fmap option_map mret option_ret fst snd andb orb negb].

(** Case analysis on the tests and option binds the C code performs. *)
Ltac c_cases :=
  repeat match goal with
  | H : Some _ = Some _ |- _ => injection H as H
  | H : None = Some _ |- _ => discriminate H
  | H : Some _ = None |- _ => discriminate H
  | H : mbind _ ?m = Some _ |- _ => apply bind_Some in H; destruct H as (? & ? & H)
  end; subst.

Ltac bool_to_prop :=
  repeat match goal with
  | H : _ && _ = true |- _ => apply andb_prop in H; destruct H
  | H : negb _ = true |- _ => apply negb_true_iff in H
  | H : negb _ = false |- _ => apply negb_false_iff in H
  | H : (_ =? _)%Z = true |- _ => apply Z.eqb_eq in H
  | H : (_ =? _)%Z = false |- _ => apply Z.eqb_neq in H
  | H : (_ <=? _)%Z = true |- _ => apply Z.leb_le in H
  | H : (_ <=? _)%Z = false |- _ => apply Z.leb_gt in H
  | H : (_ <? _)%Z = true |- _ => apply Z.ltb_lt in H
  | H : (_ <? _)%Z = false |- _ => apply Z.ltb_ge in H
  | H : (_ >? _)%Z = _ |- _ => rewrite Z.gtb_ltb in H
  | H : (_ >=? _)%Z = _ |- _ => rewrite Z.geb_leb in H
  end.

(** [lia] after lengths of the list operators have been computed. *)
Ltac len :=
  autorewrite with vpn_len in *; unfold is_uint in *; lia.

#[export] Hint Rewrite @length_app @length_replicate @length_take @length_drop
  @length_insert @length_cons @length_nil @length_fmap @length_reverse : vpn_len.

(** Decide a boolean test by arithmetic and rewrite with the answer. *)
Ltac decide_test :=
  repeat first
    [ apply andb_true_intro; split | apply orb_false_intro
    | apply (proj2 (negb_true_iff _)) | apply (proj2 (negb_false_iff _))
    | apply (proj2 (Z.leb_le _ _)) | apply (proj2 (Z.ltb_lt _ _))
    | apply (proj2 (Z.eqb_eq _ _)) | apply (proj2 (Z.leb_gt _ _))
    | apply (proj2 (Z.ltb_ge _ _)) | apply (proj2 (Z.eqb_neq _ _)) ]; len.
Ltac test_true t := replace t with true by (symmetry; decide_test).
Ltac test_false t := replace t with false by (symmetry; decide_test).

(** A decidable proposition about concrete data. *)
Ltac by_computation := apply (bool_decide_unpack _); vm_compute; exact I.

(** A bind of a computed result, rewritten rather than reduced: checking the reduction would
    evaluate the next computation. *)
Lemma some_bind {A B} (x : A) (f : A → option B) : Some x ≫= f = f x.
Proof. done. Qed.

(** ** Integers *)

Lemma wrap_small w x : is_uint w x → wrap w x = x.
Proof. intros H. unfold wrap. by apply Z.mod_small. Qed.

Lemma wrap_uint w x : 0 <= w → is_uint w (wrap w x).
Proof. intros. apply Z.mod_pos_bound. lia. Qed.

Lemma u8_uint x : is_u8 (u8 x).
Proof. apply wrap_uint; lia. Qed.
Lemma u32_uint x : is_u32 (u32 x).
Proof. apply wrap_uint; lia. Qed.
Lemma u64_uint x : is_u64 (u64 x).
Proof. apply wrap_uint; lia. Qed.
#[export] Hint Resolve u8_uint u32_uint u64_uint wrap_small : vpn.

Lemma u8_small x : is_u8 x → u8 x = x.
Proof. apply wrap_small. Qed.
Lemma u32_small x : is_u32 x → u32 x = x.
Proof. apply wrap_small. Qed.
Lemma u64_small x : is_u64 x → u64 x = x.
Proof. apply wrap_small. Qed.

Lemma is_uint_mono w w' x : 0 <= w <= w' → is_uint w x → is_uint w' x.
Proof.
  unfold is_uint. intros ? [? ?]; split; [done|].
  pose proof (Z.pow_le_mono_r 2 w w'). lia.
Qed.

(** Bits of an unsigned integer above its width are clear, and conversely. *)
Lemma is_uint_bits w x :
  0 <= w → is_uint w x ↔ 0 <= x ∧ ∀ i, w <= i → Z.testbit x i = false.
Proof.
  intros Hw. split.
  - intros [H0 H1]. split; [done|]. intros i Hi.
    rewrite <- (Z.mod_small x (2 ^ w)) by done. by apply Z.mod_pow2_bits_high.
  - intros [H0 H]. split; [done|].
    replace x with (x mod 2 ^ w); [apply Z.mod_pos_bound; lia|].
    apply Z.bits_inj'. intros i Hi. destruct (decide (i < w)).
    + rewrite Z.mod_pow2_bits_low; [done|lia].
    + rewrite Z.mod_pow2_bits_high, H; [done|lia..].
Qed.

Lemma uint_bit_high w x i : 0 <= w → is_uint w x → w <= i → Z.testbit x i = false.
Proof. intros Hw Hx. by apply is_uint_bits in Hx as [_ ?]; auto. Qed.

Lemma wrap_testbit w x i : 0 <= w → 0 <= i →
  Z.testbit (wrap w x) i = (i <? w) && Z.testbit x i.
Proof.
  intros. unfold wrap. destruct (Z.ltb_spec i w).
  - rewrite Z.mod_pow2_bits_low; [done|lia].
  - rewrite Z.mod_pow2_bits_high; [done|lia].
Qed.

Section uint_bitops.
Variables (w x y : Z).
Hypothesis (Hw : 0 <= w).
Hypothesis (Hx : is_uint w x).
Hypothesis (Hy : is_uint w y).

Lemma lor_uint : is_uint w (Z.lor x y).
Proof.
  apply is_uint_bits in Hx as [? Bx]; [|done].
  apply is_uint_bits in Hy as [? By]; [|done].
  apply is_uint_bits; [done|]. split; [by apply Z.lor_nonneg|].
  intros i Hi. rewrite Z.lor_spec, Bx, By; done.
Qed.

Lemma lxor_uint : is_uint w (Z.lxor x y).
Proof.
  apply is_uint_bits in Hx as [? Bx]; [|done].
  apply is_uint_bits in Hy as [? By]; [|done].
  apply is_uint_bits; [done|]. split; [by apply Z.lxor_nonneg|].
  intros i Hi. rewrite Z.lxor_spec, Bx, By; done.
Qed.
End uint_bitops.

Lemma land_uint w x y : 0 <= w → is_uint w x → is_uint w (Z.land x y).
Proof.
  intros Hw Hx. apply is_uint_bits in Hx as [? Bx]; [|done].
  apply is_uint_bits; [done|]. split; [apply Z.land_nonneg; auto|].
  intros i Hi. rewrite Z.land_spec, Bx; done.
Qed.

Lemma shiftr_uint w x n : 0 <= w → 0 <= n → is_uint w x → is_uint w (Z.shiftr x n).
Proof.
  intros Hw Hn Hx. apply is_uint_bits in Hx as [? Bx]; [|done].
  apply is_uint_bits; [done|]. split; [by apply Z.shiftr_nonneg|].
  intros i Hi. rewrite Z.shiftr_spec by lia. apply Bx. lia.
Qed.
#[export] Hint Resolve lor_uint lxor_uint land_uint shiftr_uint : vpn.

(** ** Bit-level equality

    [bits] pushes [Z.testbit] through the bitwise operators and drops the bits
    that lie outside an operand's width. *)

Lemma testbit_ff i : 0 <= i → Z.testbit 0xFF i = (i <? 8).
Proof.
  intros. change 0xFF with (Z.ones 8). rewrite Z.testbit_ones_nonneg by lia. done.
Qed.

Ltac bits_step :=
  match goal with
  | |- context [Z.testbit (Z.lor ?x ?y) ?i] => rewrite (Z.lor_spec x y i)
  | |- context [Z.testbit (Z.land ?x ?y) ?i] => rewrite (Z.land_spec x y i)
  | |- context [Z.testbit (Z.lxor ?x ?y) ?i] => rewrite (Z.lxor_spec x y i)
  | |- context [Z.testbit (wrap ?w ?x) ?i] => rewrite (wrap_testbit w x i) by lia
  | |- context [Z.testbit (Z.shiftl ?x ?n) ?i] => rewrite (Z.shiftl_spec x n i) by lia
  | |- context [Z.testbit (Z.shiftr ?x ?n) ?i] => rewrite (Z.shiftr_spec x n i) by lia
  | |- context [Z.testbit 0xFF ?i] => rewrite (testbit_ff i) by lia
  | |- context [Z.testbit ?x ?i] =>
      first [ rewrite (Z.testbit_neg_r x i) by lia
            | rewrite (uint_bit_high 8 x i) by (assumption || lia)
            | rewrite (uint_bit_high 32 x i) by (assumption || lia)
            | rewrite (uint_bit_high 64 x i) by (assumption || lia) ]
  | |- context [?a <? ?b] =>
      first [ test_true (a <? b) | test_false (a <? b) ]
  end.

Ltac bits :=
  unfold u8, u32, u64 in *; repeat bits_step;
  cbn [andb orb]; rewrite ?orb_false_r, ?andb_true_r; try done.

(** ** Buffers *)

Section memory_lemmas.
Context {A : Type}.
Implicit Types buf d l rest : list A.

Lemma rd_Some_lookup buf i x : rd buf i = Some x → buf !! Z.to_nat i = Some x ∧ 0 <= i.
Proof. unfold rd. case_match; [|done]. bool_to_prop. auto. Qed.

Lemma rd_lt buf i : 0 <= i < Z.of_nat (length buf) → ∃ x, rd buf i = Some x.
Proof.
  intros Hi. unfold rd. test_true (0 <=? i).
  destruct (lookup_lt_is_Some_2 buf (Z.to_nat i)) as [x Hx]; [lia|]. eauto.
Qed.

Lemma rd_nat buf (i : nat) : rd buf (Z.of_nat i) = buf !! i.
Proof. unfold rd. test_true (0 <=? Z.of_nat i). by rewrite Nat2Z.id. Qed.

Lemma rd_app_l l rest i : i < Z.of_nat (length l) → rd (l ++ rest) i = rd l i.
Proof. intros. unfold rd. case_match; [|done]. bool_to_prop. by rewrite lookup_app_l by lia. Qed.

Lemma rd_cons_0 x l : rd (x :: l) 0 = Some x.
Proof. done. Qed.

Lemma wr_lt buf i v : 0 <= i < Z.of_nat (length buf) →
  wr buf i v = Some (<[Z.to_nat i := v]> buf).
Proof.
  intros. unfold wr. by test_true ((0 <=? i) && (i <? Z.of_nat (length buf))).
Qed.

Lemma slice_ok buf off n :
  0 <= off → 0 <= n → off + n <= Z.of_nat (length buf) →
  slice buf off n = Some (take (Z.to_nat n) (drop (Z.to_nat off) buf)).
Proof.
  intros. unfold slice.
  by test_true ((0 <=? off) && (0 <=? n) && (off + n <=? Z.of_nat (length buf))).
Qed.

Lemma slice_length buf off n d : slice buf off n = Some d → Z.of_nat (length d) = n.
Proof.
  unfold slice. case_match; [|done]. bool_to_prop. intros; simplify_eq.
  rewrite length_take, length_drop. lia.
Qed.

Lemma slice_Forall (P : A → Prop) buf off n d :
  Forall P buf → slice buf off n = Some d → Forall P d.
Proof.
  unfold slice. case_match; [|done]. intros HP ?; simplify_eq.
  by apply Forall_take, Forall_drop.
Qed.

Lemma slice_rd buf off n d k :
  slice buf off n = Some d → 0 <= k < n → rd buf (off + k) = d !! Z.to_nat k.
Proof.
  unfold slice. case_match; [|done]. bool_to_prop. intros ? Hk; simplify_eq.
  unfold rd. test_true (0 <=? off + k).
  rewrite lookup_take_lt, lookup_drop by lia. f_equal. lia.
Qed.

Lemma slice_app_0 d rest off n :
  off = 0 → n = Z.of_nat (length d) → slice (d ++ rest) off n = Some d.
Proof.
  intros -> ->. rewrite slice_ok by len.
  by rewrite Nat2Z.id, Z2Nat.inj_0, drop_0, take_app_length.
Qed.

Lemma slice_all d n : n = Z.of_nat (length d) → slice d 0 n = Some d.
Proof. intros. rewrite <- (app_nil_r d) at 1. by apply slice_app_0. Qed.

Lemma slice_app_r l rest off n :
  Z.of_nat (length l) <= off →
  slice (l ++ rest) off n = slice rest (off - Z.of_nat (length l)) n.
Proof.
  intros Hl. unfold slice. rewrite length_app.
  replace (off + n <=? Z.of_nat (length l + length rest))
    with (off - Z.of_nat (length l) + n <=? Z.of_nat (length rest)) by lia.
  replace (0 <=? off - Z.of_nat (length l)) with (0 <=? off) by lia.
  case_match; [|done]. rewrite drop_app_ge by lia.
  do 3 f_equal. lia.
Qed.

Lemma slice_cons x rest off n :
  1 <= off → slice (x :: rest) off n = slice rest (off - 1) n.
Proof. intros. apply (slice_app_r [x] rest off n). simpl; lia. Qed.

Lemma slice_app_l l rest off n :
  0 <= off → 0 <= n → off + n <= Z.of_nat (length l) →
  slice (l ++ rest) off n = slice l off n.
Proof.
  intros. rewrite !slice_ok by len. f_equal.
  rewrite drop_app_le by lia. by rewrite take_app_le by len.
Qed.

Lemma blit_length buf off d buf' : blit buf off d = Some buf' → length buf' = length buf.
Proof.
  unfold blit. case_match; [|done]. bool_to_prop. intros; simplify_eq.
  rewrite !length_app, length_take, length_drop. lia.
Qed.

Lemma blit_Forall (P : A → Prop) buf off d buf' :
  blit buf off d = Some buf' → Forall P buf → Forall P d → Forall P buf'.
Proof.
  unfold blit. case_match; [|done]. intros [= <-] Hb Hd.
  repeat apply Forall_app_2; [by apply Forall_take|done|by apply Forall_drop].
Qed.

Lemma blit_0 d l rest :
  length d = length l → blit (l ++ rest) 0 d = Some (d ++ rest).
Proof.
  intros Hl. unfold blit.
  test_true ((0 <=? 0) && (0 + Z.of_nat (length d) <=? Z.of_nat (length (l ++ rest)))).
  by rewrite Z2Nat.inj_0, Nat.add_0_l, Hl, drop_app_length.
Qed.

Lemma blit_app_r l rest off d :
  Z.of_nat (length l) <= off →
  blit (l ++ rest) off d = (l ++.) <$> blit rest (off - Z.of_nat (length l)) d.
Proof.
  intros Hl. unfold blit. rewrite length_app.
  replace (off + Z.of_nat (length d) <=? Z.of_nat (length l + length rest))
    with (off - Z.of_nat (length l) + Z.of_nat (length d) <=? Z.of_nat (length rest)) by lia.
  replace (0 <=? off - Z.of_nat (length l)) with (0 <=? off) by lia.
  case_match; [|done]. bool_to_prop. cbn. f_equal.
  rewrite take_app_ge by lia. rewrite drop_app_ge by lia. rewrite <- app_assoc.
  do 2 f_equal; [f_equal; lia|]. f_equal. f_equal. lia.
Qed.

Lemma wr_app_r l rest k v : 0 <= k →
  wr (l ++ rest) (Z.of_nat (length l) + k) v = (l ++.) <$> wr rest k v.
Proof.
  intros Hk. unfold wr. rewrite length_app.
  replace (Z.of_nat (length l) + k <? Z.of_nat (length l + length rest))
    with (k <? Z.of_nat (length rest)) by lia.
  test_true (0 <=? Z.of_nat (length l) + k). test_true (0 <=? k). cbn.
  case_match; [|done]. cbn. f_equal.
  replace (Z.to_nat (Z.of_nat (length l) + k)) with (length l + Z.to_nat k)%nat by lia.
  by rewrite insert_app_r.
Qed.

(** Split a buffer at an access of [n] elements at [off]. *)
Lemma buf_split buf off n :
  0 <= off → 0 <= n → off + n <= Z.of_nat (length buf) →
  ∃ pre mid post, buf = pre ++ mid ++ post ∧
    Z.of_nat (length pre) = off ∧ Z.of_nat (length mid) = n.
Proof.
  intros. exists (take (Z.to_nat off) buf),
    (take (Z.to_nat n) (drop (Z.to_nat off) buf)),
    (drop (Z.to_nat n) (drop (Z.to_nat off) buf)).
  rewrite !take_drop. split; [done|]. len.
Qed.

Lemma blit_mid pre mid post d off :
  Z.of_nat (length pre) = off → length d = length mid →
  blit (pre ++ mid ++ post) off d = Some (pre ++ d ++ post).
Proof.
  intros Hp Hd. rewrite blit_app_r by lia. rewrite Hp, Z.sub_diag.
  by rewrite (blit_0 d mid post Hd).
Qed.

Lemma blit_nil buf off : 0 <= off <= Z.of_nat (length buf) → blit buf off [] = Some buf.
Proof.
  intros. unfold blit. test_true ((0 <=? off) && (off + Z.of_nat (length (A:=A) []) <=? Z.of_nat (length buf))).
  cbn. by rewrite Nat.add_0_r, take_drop.
Qed.

(** Writing at the start of a run of equal bytes (a buffer just zeroed). *)
Lemma blit_replicate d n z rest :
  (length d <= n)%nat →
  blit (replicate n z ++ rest) 0 d = Some (d ++ replicate (n - length d) z ++ rest).
Proof.
  intros Hd. replace n with (length d + (n - length d))%nat at 1 by lia.
  rewrite replicate_add, <- app_assoc. apply blit_0. by rewrite length_replicate.
Qed.

Lemma memcpy_all (dst src : list A) doff n : n = Z.of_nat (length src) →
  memcpy dst doff src 0 n = blit dst doff src.
Proof. intros. unfold memcpy. by rewrite slice_all. Qed.

Lemma fill_0 buf z n : 0 <= n <= Z.of_nat (length buf) →
  fill buf 0 z n = Some (replicate (Z.to_nat n) z ++ drop (Z.to_nat n) buf).
Proof.
  intros. unfold fill. rewrite <- (take_drop (Z.to_nat n) buf) at 1.
  apply blit_0. len.
Qed.
End memory_lemmas.

(** ** Loops *)

Section loop_lemmas.
Context {St R : Type}.

Lemma for_from_inv (P : nat → St → Prop) k i body s :
  P i s →
  (∀ j t, (i <= j < i + k)%nat → P j t → ∃ t', body j t = Some t' ∧ P (S j) t') →
  ∃ s', for_from k i body s = Some s' ∧ P (i + k)%nat s'.
Proof.
  revert i s. induction k as [|k IH]; intros i s Hs Hb; simpl.
  - exists s. by rewrite Nat.add_0_r.
  - destruct (Hb i s) as (s1 & -> & H1); [lia|done|]. simpl.
    rewrite <- Nat.add_succ_comm. apply IH; [done|].
    intros j t Hj. apply Hb. lia.
Qed.

(** The invariant rule for a counted loop: it terminates without undefined
    behaviour and establishes the invariant at [n]. *)
Lemma for_range_inv (P : nat → St → Prop) n body s :
  P O s →
  (∀ j t, (j < n)%nat → P j t → ∃ t', body j t = Some t' ∧ P (S j) t') →
  ∃ s', for_range n body s = Some s' ∧ P n s'.
Proof.
  intros Hs Hb. apply (for_from_inv P n 0 body s Hs).
  intros j t Hj. apply Hb. lia.
Qed.

Lemma for_from_ext k i (body body' : nat → St → option St) s :
  (∀ j t, (i <= j < i + k)%nat → body j t = body' j t) → for_from k i body s = for_from k i body' s.
Proof.
  revert i s. induction k as [|k IH]; intros i s Hb; [done|]. cbn [for_from]. rewrite Hb by lia.
  apply option_bind_ext_fun. intros t. apply IH. intros j u Hj. apply Hb. lia.
Qed.

Lemma for_range_ext n (body body' : nat → St → option St) s :
  (∀ j t, (j < n)%nat → body j t = body' j t) → for_range n body s = for_range n body' s.
Proof. intros H. apply for_from_ext. intros j t Hj. apply H. lia. Qed.

Lemma return_from_spec k i (body : nat → option (option R)) :
  (∀ j, (i <= j < i + k)%nat → is_Some (body j)) →
  (∃ j v, (i <= j < i + k)%nat ∧ body j = Some (Some v) ∧
     (∀ l, (i <= l < j)%nat → body l = Some None) ∧
     return_from k i body = Some (Some v)) ∨
  ((∀ j, (i <= j < i + k)%nat → body j = Some None) ∧
     return_from k i body = Some None).
Proof.
  revert i. induction k as [|k IH]; intros i Hb; simpl.
  { right. split; [lia|done]. }
  destruct (Hb i) as [r Hr]; [lia|]. rewrite Hr. simpl. destruct r as [v|].
  { left. exists i, v. split_and!; [lia..|done| |done]. lia. }
  destruct (IH (S i)) as [(j & v & ? & ? & Hl & ->)|[Hn ->]].
  { intros j ?. apply Hb. lia. }
  - left. exists j, v. split_and!; [lia..|done| |done].
    intros l Hl'. destruct (decide (l = i)) as [->|]; [done|]. apply Hl. lia.
  - right. split; [|done]. intros j Hj.
    destruct (decide (j = i)) as [->|]; [done|]. apply Hn. lia.
Qed.

(** A searching loop returns the first hit or falls through. *)
Lemma for_return_spec n (body : nat → option (option R)) :
  (∀ j, (j < n)%nat → is_Some (body j)) →
  (∃ j v, (j < n)%nat ∧ body j = Some (Some v) ∧
     (∀ l, (l < j)%nat → body l = Some None) ∧
     for_return n body = Some (Some v)) ∨
  ((∀ j, (j < n)%nat → body j = Some None) ∧ for_return n body = Some None).
Proof.
  intros Hb. destruct (return_from_spec n 0 body) as [(j & v & ? & ? & Hl & ?)|[Hn ?]].
  { intros; apply Hb; lia. }
  - left. exists j, v. split_and!; [lia|done| |done]. intros; apply Hl; lia.
  - right. split; [|done]. intros; apply Hn; lia.
Qed.
End loop_lemmas.

(** A searching loop over an array computes [list_find]. *)
Lemma for_return_list_find {A R} (P : A → Prop) `{∀ x, Decision (P x)} (l : list A)
    (v : nat → A → R) (body : nat → option (option R)) :
  (∀ i x, l !! i = Some x → body i = Some (if decide (P x) then Some (v i x) else None)) →
  for_return (length l) body = Some ((λ ix, v ix.1 ix.2) <$> list_find P l).
Proof.
  intros Hb. destruct (for_return_spec (length l) body) as [(j & r & Hj & Hr & Hl & ->)|[Hn ->]].
  - intros j Hj. destruct (lookup_lt_is_Some_2 l j Hj) as [x Hx]. rewrite (Hb j x Hx). eauto.
  - destruct (lookup_lt_is_Some_2 l j Hj) as [x Hx]. rewrite (Hb j x Hx) in Hr.
    case_decide as HP; [|done]. simplify_eq.
    rewrite (proj2 (list_find_Some P l j x)); [done|]. split_and!; [done..|].
    intros k y Hy Hk. specialize (Hl k Hk). rewrite (Hb k y Hy) in Hl. by case_decide.
  - rewrite (proj2 (list_find_None P l)); [done|]. apply Forall_lookup. intros i x Hx.
    specialize (Hn i (lookup_lt_Some _ _ _ Hx)). rewrite (Hb i x Hx) in Hn. by case_decide.
Qed.
