(* ===== verification/Replay.v ===== *)
(** * The anti-replay sliding window ([src/replay.c], [src/replay.h])

    [replay_filter_t] and its three operations, with the bitmap as the array
    of 32 words the C code shifts, and the refinement of the filter against
    the list of all counters it was ever given. *)

From S2P Require Import Prelude.
Local Open Scope c_scope.

(** ** The filter *)

Definition VPN_REPLAY_BITMAP_WORDS : Z := 32.
Definition VPN_REPLAY_WINDOW_SIZE : Z := VPN_REPLAY_BITMAP_WORDS * 64.

Record replay_filter_t := mk_replay_filter {
  last_counter : Z;
  bitmap : list Z
}.

Definition zero_bitmap : list Z := replicate (Z.to_nat VPN_REPLAY_BITMAP_WORDS) 0.

Definition replay_filter_zero : replay_filter_t := mk_replay_filter 0 zero_bitmap.

Definition replay_init (filter : option replay_filter_t) : option replay_filter_t :=
  match filter with
  | Some _ => Some replay_filter_zero
  | NULL => NULL
  end.

(** ** Operations *)

Definition replay_check (filter : option replay_filter_t) (counter : Z) : option Z :=
  match filter with
  | NULL => Some 0
  | Some f =>
      b0 ← (bitmap f).[0];
      if (last_counter f =? 0) && (b0 =? 0) then Some 1
      else if counter >? last_counter f then Some 1
      else
        let diff := u64 (last_counter f - counter) in
        if diff >=? VPN_REPLAY_WINDOW_SIZE then Some 0
        else
          let word_idx := diff / 64 in
          let bit_idx := diff mod 64 in
          w ← (bitmap f).[word_idx];
          m ← shl64 1 bit_idx;
          if negb (w &' m =? 0) then Some 0 else Some 1
  end.

(** One iteration of the loop that slides the bitmap. *)
Definition slide_word (old : list Z) (word_shift bit_shift : Z)
    (i : nat) (new_bitmap : list Z) : option (list Z) :=
  let i := Z.of_nat i in
  if i >=? word_shift then
    w ← old.[i - word_shift];
    v ← shl64 w bit_shift;
    v' ← (if (bit_shift >? 0) && (i >? word_shift)
          then w' ← old.[i - word_shift - 1];
               lo ← shr64 w' (64 - bit_shift);
               Some (v |' lo)
          else Some v);
    wr new_bitmap i v'
  else Some new_bitmap.

Definition slide_bitmap (old : list Z) (diff : Z) : option (list Z) :=
  let word_shift := diff / 64 in
  let bit_shift := diff mod 64 in
  for_range (Z.to_nat VPN_REPLAY_BITMAP_WORDS)
    (slide_word old word_shift bit_shift) zero_bitmap.

Definition replay_update (filter : option replay_filter_t) (counter : Z)
    : option (option replay_filter_t) :=
  match filter with
  | NULL => Some NULL
  | Some f =>
      b0 ← (bitmap f).[0];
      if (last_counter f =? 0) && (b0 =? 0) then
        bm ← wr (bitmap f) 0 1;
        Some (Some (mk_replay_filter counter bm))
      else if counter >? last_counter f then
        let diff := u64 (counter - last_counter f) in
        bm ← (if diff <? VPN_REPLAY_WINDOW_SIZE
              then slide_bitmap (bitmap f) diff
              else Some zero_bitmap);
        w0 ← bm.[0];
        bm' ← wr bm 0 (w0 |' 1);
        Some (Some (mk_replay_filter counter bm'))
      else
        let diff := u64 (last_counter f - counter) in
        if diff <? VPN_REPLAY_WINDOW_SIZE then
          let word_idx := diff / 64 in
          let bit_idx := diff mod 64 in
          w ← (bitmap f).[word_idx];
          m ← shl64 1 bit_idx;
          bm ← wr (bitmap f) word_idx (w |' m);
          Some (Some (mk_replay_filter (last_counter f) bm))
        else Some (Some f)
  end.

(** The filter after a sequence of updates from a fresh filter. *)
Definition replay_run (h : list Z) : option (option replay_filter_t) :=
  foldl (λ f c, f ≫= λ f, replay_update f c) (Some (Some replay_filter_zero)) h.

(** ** Abstract specification

    The window as a function of the history: a counter is acceptable when
    nothing was received, when it is ahead of everything received, or when it
    is less than 2048 behind the newest one and was not received. *)

Definition newest (h : list Z) : Z := foldr Z.max 0 h.

Definition window_accepts (h : list Z) (c : Z) : bool :=
  match h with
  | [] => true
  | _ => (newest h <? c)
         || ((newest h - c <? VPN_REPLAY_WINDOW_SIZE) && negb (bool_decide (c ∈ h)))
  end.

(** ** Invariant *)

Record filter_ok (f : replay_filter_t) : Prop := {
  filter_last_ok : is_u64 (last_counter f);
  filter_words : length (bitmap f) = 32%nat;
  filter_words_ok : Forall is_u64 (bitmap f)
}.

(** Bit [k] of the 2048-bit window. *)
Definition window_bit (bm : list Z) (k : Z) : bool :=
  match bm.[k / 64] with
  | Some w => Z.testbit w (k mod 64)
  | None => false
  end.

(** The filter represents exactly the history [h]. *)
Definition represents (f : replay_filter_t) (h : list Z) : Prop :=
  filter_ok f ∧
  (h = [] → f = replay_filter_zero) ∧
  (h ≠ [] →
     last_counter f = newest h ∧ last_counter f ∈ h ∧
     ∀ k, 0 <= k < 2048 →
       window_bit (bitmap f) k = bool_decide (last_counter f - k ∈ h)).

(** ** Bit-level lemmas *)

Lemma shl64_1 n : 0 <= n < 64 → shl64 1 n = Some (2 ^ n).
Proof.
  intros. unfold shl64. test_true ((0 <=? n) && (n <? 64)).
  rewrite Z.shiftl_1_l, u64_small; [done|].
  split; [lia|]. apply Z.pow_lt_mono_r; lia.
Qed.

Lemma land_pow2_test w n : 0 <= n →
  negb (Z.land w (2 ^ n) =? 0) = Z.testbit w n.
Proof.
  intros Hn. destruct (Z.testbit w n) eqn:E.
  - apply negb_true_iff, Z.eqb_neq. intros H0.
    assert (Z.testbit (Z.land w (2 ^ n)) n = true) as H.
    { by rewrite Z.land_spec, E, Z.pow2_bits_true. }
    by rewrite H0, Z.bits_0 in H.
  - apply negb_false_iff, Z.eqb_eq. apply Z.bits_inj'. intros i Hi.
    rewrite Z.land_spec, Z.bits_0. destruct (decide (i = n)) as [->|].
    + by rewrite E.
    + rewrite Z.pow2_bits_false by lia. apply andb_false_r.
Qed.

Lemma window_bit_rd bm k w : bm.[k / 64] = Some w →
  window_bit bm k = Z.testbit w (k mod 64).
Proof. unfold window_bit. by intros ->. Qed.

(** A window bit addressed by word and bit within the word. *)
Lemma window_bit_at (bm : list Z) (i : nat) w j : bm !! i = Some w → 0 <= j < 64 →
  window_bit bm (64 * Z.of_nat i + j) = Z.testbit w j.
Proof.
  intros Hw Hj.
  assert ((64 * Z.of_nat i + j) / 64 = Z.of_nat i) as Hd.
  { rewrite Z.mul_comm, Z.div_add_l by lia. rewrite (Z.div_small j) by lia. lia. }
  rewrite (window_bit_rd _ _ w) by (by rewrite Hd, rd_nat).
  f_equal. rewrite Z.mul_comm, Z.add_comm, Z.mod_add by lia. by apply Z.mod_small.
Qed.

Lemma window_index k : 0 <= k < 2048 →
  ∃ (i : nat) j, (i < 32)%nat ∧ 0 <= j < 64 ∧ k = 64 * Z.of_nat i + j.
Proof.
  intros. exists (Z.to_nat (k / 64)), (k mod 64).
  pose proof (Z.div_mod k 64). pose proof (Z.mod_pos_bound k 64).
  assert (0 <= k / 64 < 32) by (split; [apply Z.div_pos|apply Z.div_lt_upper_bound]; lia).
  split_and!; lia.
Qed.

(** ** Sliding the bitmap *)

Section slide.
Variables (old : list Z) (diff : Z).
Hypothesis (Hlen : length old = 32%nat).
Hypothesis (Hold : Forall is_u64 old).
Hypothesis (Hdiff : 0 <= diff < 2048).

Let ws := diff / 64.
Let bs := diff mod 64.

Lemma slide_split : diff = 64 * ws + bs ∧ 0 <= ws < 32 ∧ 0 <= bs < 64.
Proof.
  pose proof (Z.div_mod diff 64). pose proof (Z.mod_pos_bound diff 64).
  assert (0 <= diff / 64 < 32)
    by (split; [apply Z.div_pos|apply Z.div_lt_upper_bound]; lia).
  unfold ws, bs. lia.
Qed.

Lemma old_word i : 0 <= i < 32 → ∃ w, old.[i] = Some w ∧ is_u64 w ∧
  ∀ j, 0 <= j < 64 → window_bit old (64 * i + j) = Z.testbit w j.
Proof.
  intros Hi. destruct (rd_lt old i) as [w Hw]; [lia|]. exists w. split; [done|].
  destruct (rd_Some_lookup _ _ _ Hw) as [Hl _]. split.
  - by apply (Forall_lookup_1 _ _ _ _ Hold Hl).
  - intros j Hj. replace i with (Z.of_nat (Z.to_nat i)) by lia.
    by apply window_bit_at.
Qed.

(** The word computed for index [i >= word_shift]: its bits are those of the
    old window, [diff] positions lower. *)
Lemma slide_word_value (i : nat) nb :
  (i < 32)%nat → length nb = 32%nat → ws <= Z.of_nat i →
  ∃ v, slide_word old ws bs i nb = Some (<[i := v]> nb) ∧ is_u64 v ∧
    ∀ j, 0 <= j < 64 →
      Z.testbit v j = (diff <=? 64 * Z.of_nat i + j) &&
                      window_bit old (64 * Z.of_nat i + j - diff).
Proof.
  intros Hi Hnb Hge. destruct slide_split as (Hd & Hws & Hbs).
  destruct (old_word (Z.of_nat i - ws)) as (w & Hw & Hwu & Bw); [lia|].
  unfold slide_word. test_true (Z.of_nat i >=? ws). rewrite Hw. bind_simpl.
  unfold shl64. test_true ((0 <=? bs) && (bs <? 64)). bind_simpl.
  assert (∀ j, 0 <= j < 64 →
    Z.testbit (u64 (Z.shiftl w bs)) j = (bs <=? j) && Z.testbit w (j - bs)) as Bhi.
  { intros j Hj. unfold u64. rewrite wrap_testbit, Z.shiftl_spec by lia.
    test_true (j <? 64). bind_simpl. destruct (Z.leb_spec bs j); [done|].
    by rewrite Z.testbit_neg_r by lia. }
  destruct ((bs >? 0) && (Z.of_nat i >? ws)) eqn:E.
  - bool_to_prop.
    destruct (old_word (Z.of_nat i - ws - 1)) as (w' & Hw' & Hwu' & Bw'); [lia|].
    rewrite Hw'. bind_simpl. unfold shr64.
    test_true ((0 <=? 64 - bs) && (64 - bs <? 64)). bind_simpl.
    rewrite wr_lt, Nat2Z.id by lia. eexists; split; [done|]. split.
    { apply lor_uint; [lia|apply u64_uint|apply shiftr_uint; [lia..|done]]. }
    intros j Hj. rewrite Z.lor_spec, Bhi, Z.shiftr_spec by lia.
    test_true (diff <=? 64 * Z.of_nat i + j).
    destruct (Z.leb_spec bs j); bind_simpl.
    + rewrite (uint_bit_high 64 w' (j + (64 - bs))), orb_false_r by (done || lia).
      rewrite <- Bw by lia. f_equal. lia.
    + rewrite <- Bw' by lia. f_equal. lia.
  - bind_simpl. rewrite wr_lt, Nat2Z.id by lia. eexists; split; [done|]. split; [apply u64_uint|].
    intros j Hj. rewrite Bhi by done.
    destruct (Z.leb_spec bs j).
    + test_true (diff <=? 64 * Z.of_nat i + j). bind_simpl. rewrite <- Bw by lia.
      f_equal. lia.
    + assert (Z.of_nat i = ws) by lia.
      by test_false (diff <=? 64 * Z.of_nat i + j).
Qed.

(** The loop computes the whole window shifted by [diff]. *)
Lemma slide_bitmap_spec :
  ∃ nb, slide_bitmap old diff = Some nb ∧ length nb = 32%nat ∧ Forall is_u64 nb ∧
    ∀ k, 0 <= k < 2048 →
      window_bit nb k = (diff <=? k) && window_bit old (k - diff).
Proof.
  pose proof slide_split as (Hd & Hws & Hbs).
  edestruct (for_range_inv (λ n nb, length nb = 32%nat ∧ Forall is_u64 nb ∧
    ∀ (i : nat) j, (i < 32)%nat → 0 <= j < 64 →
      window_bit nb (64 * Z.of_nat i + j) =
        bool_decide (i < n)%nat &&
        ((diff <=? 64 * Z.of_nat i + j) && window_bit old (64 * Z.of_nat i + j - diff)))
    32 (slide_word old ws bs) zero_bitmap) as (nb & Hrun & Hl & Hu & Hb).
  - split_and!; [done|by repeat constructor|]. intros i j Hi Hj. simpl.
    rewrite (window_bit_at _ i 0); [apply Z.bits_0|by apply lookup_replicate|done].
  - intros n nb Hn (Hl & Hu & Hb). destruct (decide (ws <= Z.of_nat n)) as [Hge|Hlt].
    + destruct (slide_word_value n nb Hn Hl Hge) as (v & Hv & Hvu & Bv).
      exists (<[n:=v]> nb). split; [done|]. rewrite length_insert.
      split_and!; [done|by apply Forall_insert|]. intros i j Hi Hj.
      destruct (decide (i = n)) as [->|Hne].
      * rewrite (window_bit_at _ n v), Bv; [|done|apply list_lookup_insert_eq; lia|done].
        by rewrite bool_decide_true by lia.
      * destruct (lookup_lt_is_Some_2 nb i) as [w Hw]; [lia|].
        rewrite (window_bit_at _ i w) by (rewrite ?list_lookup_insert_ne; done).
        rewrite <- (window_bit_at nb i w) by done. rewrite Hb by done.
        f_equal. apply bool_decide_ext. lia.
    + exists nb. unfold slide_word. test_false (Z.of_nat n >=? ws).
      split_and!; [done..|]. intros i j Hi Hj. rewrite Hb by done.
      destruct (decide (i = n)) as [->|]; [|f_equal; apply bool_decide_ext; lia].
      test_false (diff <=? 64 * Z.of_nat n + j). by rewrite !andb_false_r.
  - exists nb. split_and!; [done..|]. intros k Hk.
    destruct (window_index k Hk) as (i & j & Hi & Hj & ->).
    rewrite Hb, bool_decide_true by done. done.
Qed.
End slide.

(** ** The operations on a well-formed filter *)

Lemma diff_small a b : is_u64 a → is_u64 b → b <= a → u64 (a - b) = a - b.
Proof. intros. apply u64_small. len. Qed.

Section ops.
Variables (f : replay_filter_t) (c : Z).
Hypothesis (Hf : filter_ok f).
Hypothesis (Hc : is_u64 c).

Definition unused : bool :=
  (last_counter f =? 0) && match (bitmap f).[0] with Some b => b =? 0 | None => false end.

Lemma word_of (k : Z) : 0 <= k < 2048 →
  0 <= k / 64 < 32 ∧ 0 <= k mod 64 < 64 ∧
  ∃ w, (bitmap f).[k / 64] = Some w ∧ is_u64 w ∧ window_bit (bitmap f) k = Z.testbit w (k mod 64).
Proof.
  intros Hk. pose proof (filter_words f Hf) as Hl.
  assert (0 <= k / 64 < 32) by (split; [apply Z.div_pos|apply Z.div_lt_upper_bound]; lia).
  split; [done|]. split; [apply Z.mod_pos_bound; lia|].
  destruct (rd_lt (bitmap f) (k / 64)) as [w Hw]; [lia|]. exists w.
  split; [done|]. split; [|by apply window_bit_rd].
  destruct (rd_Some_lookup _ _ _ Hw) as [Hlk _].
  by apply (Forall_lookup_1 _ _ _ _ (filter_words_ok f Hf) Hlk).
Qed.

Lemma first_word : ∃ w, (bitmap f).[0] = Some w ∧ is_u64 w.
Proof.
  destruct (word_of 0) as (_ & _ & w & Hw & Hu & _); [lia|]. by exists w.
Qed.

Lemma replay_check_eq :
  replay_check (Some f) c = Some
    (if unused then 1
     else if last_counter f <? c then 1
     else if VPN_REPLAY_WINDOW_SIZE <=? last_counter f - c then 0
     else if window_bit (bitmap f) (last_counter f - c) then 0 else 1).
Proof.
  pose proof (filter_last_ok f Hf). destruct first_word as (w0 & Hw0 & _).
  unfold replay_check, unused. rewrite Hw0. bind_simpl.
  case_match; [done|]. rewrite Z.gtb_ltb. destruct (Z.ltb_spec (last_counter f) c); [done|].
  rewrite diff_small by (done || lia). rewrite Z.geb_leb.
  destruct (Z.leb_spec VPN_REPLAY_WINDOW_SIZE (last_counter f - c)) as [|Hlt]; [done|].
  unfold VPN_REPLAY_WINDOW_SIZE, VPN_REPLAY_BITMAP_WORDS in Hlt.
  destruct (word_of (last_counter f - c)) as (Hi & Hj & w & Hw & _ & ->); [lia|].
  rewrite Hw. bind_simpl. rewrite shl64_1 by done. bind_simpl.
  rewrite land_pow2_test by lia. by case_match.
Qed.

(** Setting bit [k] of the window, as the out-of-order branch does. *)
Lemma set_window_bit k : 0 <= k < 2048 →
  ∃ w m bm, (bitmap f).[k / 64] = Some w ∧ shl64 1 (k mod 64) = Some m ∧
    wr (bitmap f) (k / 64) (w |' m) = Some bm ∧
    filter_ok (mk_replay_filter (last_counter f) bm) ∧
    ∀ j, 0 <= j < 2048 →
      window_bit bm j = bool_decide (j = k) || window_bit (bitmap f) j.
Proof.
  intros Hk. destruct (word_of k Hk) as (Hi & Hj & w & Hw & Hu & _).
  destruct Hf as [Hlast Hl Hall]. exists w, (2 ^ (k mod 64)).
  eexists. split; [done|]. split; [by apply shl64_1|].
  rewrite wr_lt by lia. split; [done|]. split.
  { split; simpl; [done|by rewrite length_insert|].
    apply Forall_insert; [done|]. apply lor_uint; [lia|done|].
    split; [lia|]. apply Z.pow_lt_mono_r; lia. }
  intros j Hjj. destruct (window_index j Hjj) as (i & b & Hib & Hb & ->).
  destruct (rd_Some_lookup _ _ _ Hw) as [Hlk _].
  destruct (decide (i = Z.to_nat (k / 64))) as [->|Hne].
  - rewrite (window_bit_at _ _ (w |' 2 ^ (k mod 64))) by
      (done || (apply list_lookup_insert_eq; lia)).
    rewrite (window_bit_at _ _ w) by done. rewrite Z.lor_spec, orb_comm. f_equal.
    rewrite Z.pow2_bits_eqb by lia. rewrite <- Z2Nat.inj_0 in *.
    pose proof (Z.div_mod k 64). case_bool_decide; lia.
  - destruct (lookup_lt_is_Some_2 (bitmap f) i) as [w' Hw']; [lia|].
    rewrite (window_bit_at _ i w') by (rewrite ?list_lookup_insert_ne; done).
    rewrite <- (window_bit_at (bitmap f) i w') by done.
    rewrite bool_decide_false; [done|]. pose proof (Z.div_mod k 64).
    intros ?. apply Hne. lia.
Qed.
End ops.

(** ** Refinement of the history *)

Lemma newest_snoc h c : 0 <= c → newest (h ++ [c]) = Z.max (newest h) c.
Proof. intros. induction h as [|x h IH]; simpl; lia. Qed.

Lemma newest_ge h c : c ∈ h → c <= newest h.
Proof. induction 1; simpl; lia. Qed.

Lemma zero_filter_ok : filter_ok replay_filter_zero.
Proof. split; [done|done|]. by repeat constructor. Qed.

Lemma represents_nil : represents replay_filter_zero [].
Proof. split_and!; [apply zero_filter_ok|done|done]. Qed.

Lemma zero_window_bit k : 0 <= k < 2048 → window_bit zero_bitmap k = false.
Proof.
  intros Hk. destruct (window_index k Hk) as (i & j & Hi & Hj & ->).
  rewrite (window_bit_at _ i 0); [apply Z.bits_0|by apply lookup_replicate|done].
Qed.

Section history.
Variables (f : replay_filter_t) (h : list Z).
Hypothesis (Hr : represents f h).

Lemma represents_unused : unused f = bool_decide (h = []).
Proof.
  destruct Hr as (Hok & Hnil & Hcons). case_bool_decide as E.
  { by rewrite (Hnil E). }
  destruct (Hcons E) as (Hlast & Hin & Hb). unfold unused.
  destruct (word_of f Hok 0) as (_ & _ & w & Hw & _ & Hbit); [lia|].
  change (0 / 64) with 0 in Hw. change (0 mod 64) with 0 in Hbit. rewrite Hw.
  apply andb_false_intro2, Z.eqb_neq. intros ->.
  rewrite Hb, Z.sub_0_r, bool_decide_true in Hbit by (done || lia).
  by rewrite Z.bits_0 in Hbit.
Qed.

Lemma represents_check c : is_u64 c →
  replay_check (Some f) c = Some (if window_accepts h c then 1 else 0).
Proof.
  intros Hc. pose proof Hr as (Hok & Hnil & Hcons).
  rewrite (replay_check_eq f c Hok Hc), represents_unused.
  unfold window_accepts. case_bool_decide as E; [by rewrite E|].
  destruct (Hcons E) as (Hlast & Hin & Hb). destruct h as [|x t] eqn:Hh; [done|].
  rewrite <- Hh in *. rewrite <- Hlast.
  destruct (Z.ltb_spec (last_counter f) c); [done|]. simpl.
  destruct (Z.leb_spec VPN_REPLAY_WINDOW_SIZE (last_counter f - c)) as [Hw|Hw].
  { by test_false (last_counter f - c <? VPN_REPLAY_WINDOW_SIZE). }
  test_true (last_counter f - c <? VPN_REPLAY_WINDOW_SIZE). simpl.
  unfold VPN_REPLAY_WINDOW_SIZE, VPN_REPLAY_BITMAP_WORDS in Hw.
  rewrite Hb by lia. replace (last_counter f - (last_counter f - c)) with c by lia.
  by case_bool_decide.
Qed.

(** The three branches of the update: first packet, newer counter, and
    counter inside or behind the window. *)
Lemma update_first c : h = [] → is_u64 c →
  ∃ f', replay_update (Some f) c = Some (Some f') ∧ represents f' [c].
Proof.
  intros Hh Hc. destruct Hr as (Hok & Hnil & _). rewrite (Hnil Hh).
  eexists. split; [reflexivity|]. split_and!; [|done|].
  - split; [done|done|]. by repeat constructor.
  - intros _. cbn [last_counter bitmap]. split_and!.
    + simpl. len.
    + by apply list_elem_of_singleton.
    + intros k Hk. destruct (window_index k Hk) as (i & j & Hi & Hj & ->).
      rewrite (bool_decide_ext _ (64 * Z.of_nat i + j = 0))
        by (rewrite list_elem_of_singleton; lia).
      destruct i as [|i].
      * rewrite (window_bit_at _ 0 1) by done. change 1 with (2 ^ 0).
        rewrite Z.pow2_bits_eqb by lia. case_bool_decide; lia.
      * rewrite (window_bit_at _ (S i) 0).
        -- rewrite Z.bits_0. case_bool_decide; lia.
        -- change (replicate 31 0 !! i = Some 0). apply lookup_replicate. lia.
        -- done.
Qed.

Lemma update_newer c : h ≠ [] → is_u64 c → last_counter f < c →
  ∃ f', replay_update (Some f) c = Some (Some f') ∧ represents f' (h ++ [c]).
Proof.
  intros Hh Hc Hlt. pose proof Hr as (Hok & _ & Hcons). pose proof Hok as [Hlo Hl Hall].
  destruct (Hcons Hh) as (Hlast & Hin & Hb).
  destruct (first_word f Hok) as (w0 & Hw0 & _).
  pose proof represents_unused as Hun. unfold unused in Hun. rewrite Hw0 in Hun.
  rewrite bool_decide_false in Hun by done.
  unfold replay_update. rewrite Hw0. bind_simpl. rewrite Hun.
  test_true (c >? last_counter f). rewrite diff_small by (done || lia).
  set (d := c - last_counter f).
  assert (∃ nb, (if d <? VPN_REPLAY_WINDOW_SIZE then slide_bitmap (bitmap f) d
                 else Some zero_bitmap) = Some nb ∧ length nb = 32%nat ∧ Forall is_u64 nb ∧
    ∀ k, 0 <= k < 2048 →
      window_bit nb k = bool_decide (0 < d <= k ∧ c - k ∈ h)) as (nb & -> & Hnl & Hnu & Hnb).
  { destruct (Z.ltb_spec d VPN_REPLAY_WINDOW_SIZE) as [Hd|Hd];
      unfold VPN_REPLAY_WINDOW_SIZE, VPN_REPLAY_BITMAP_WORDS in Hd.
    - destruct (slide_bitmap_spec (bitmap f) d) as (nb & ? & ? & ? & Hs); [done..|lia|].
      exists nb. split_and!; [done..|]. intros k Hk. rewrite Hs by done.
      destruct (Z.leb_spec d k); simpl.
      + rewrite Hb by lia. apply bool_decide_ext.
        replace (last_counter f - (k - d)) with (c - k) by lia. intuition lia.
      + rewrite bool_decide_false; [done|lia].
    - exists zero_bitmap. split_and!; [done..|by repeat constructor|].
      intros k Hk. rewrite zero_window_bit, bool_decide_false by (done || lia). done. }
  bind_simpl.
  destruct (set_window_bit (mk_replay_filter (last_counter f) nb)) with (k := 0)
    as (w & m & bm & Hw & Hm & Hbm & [_ Hbl Hbu] & Hbits); [by split|lia|].
  cbn [last_counter bitmap] in *. change (0 / 64) with 0 in *. change (0 mod 64) with 0 in *.
  rewrite shl64_1 in Hm by lia. injection Hm as <-. change (2 ^ 0) with 1 in Hbm.
  rewrite Hw. bind_simpl. rewrite Hbm. bind_simpl. eexists; split; [done|].
  split_and!; [by split|by intros [_ ?]%app_eq_nil|]. intros _. cbn [last_counter bitmap].
  rewrite newest_snoc by len. split_and!; [lia|by apply elem_of_app; right; left|].
  intros k Hk. rewrite Hbits, Hnb by done. rewrite <- bool_decide_or.
  apply bool_decide_ext. rewrite elem_of_app, list_elem_of_singleton. split.
  - intros [->|[? ?]]; [right; lia|by left].
  - intros [H1|H1]; [right|left; lia]. split; [|done].
    apply newest_ge in H1. lia.
Qed.

Lemma update_older c : h ≠ [] → is_u64 c → c <= last_counter f →
  ∃ f', replay_update (Some f) c = Some (Some f') ∧ represents f' (h ++ [c]).
Proof.
  intros Hh Hc Hle. pose proof Hr as (Hok & _ & Hcons). pose proof Hok as [Hlo Hl Hall].
  destruct (Hcons Hh) as (Hlast & Hin & Hb).
  destruct (first_word f Hok) as (w0 & Hw0 & _).
  pose proof represents_unused as Hun. unfold unused in Hun. rewrite Hw0 in Hun.
  rewrite bool_decide_false in Hun by done.
  unfold replay_update. rewrite Hw0. bind_simpl. rewrite Hun.
  test_false (c >? last_counter f). rewrite diff_small by (done || lia).
  destruct (Z.ltb_spec (last_counter f - c) VPN_REPLAY_WINDOW_SIZE) as [Hd|Hd];
    unfold VPN_REPLAY_WINDOW_SIZE, VPN_REPLAY_BITMAP_WORDS in Hd.
  - destruct (set_window_bit f Hok (last_counter f - c))
      as (w & m & bm & -> & Hm & Hbm & Hok' & Hbits); [lia|].
    bind_simpl. rewrite Hm. bind_simpl. rewrite Hbm. bind_simpl. eexists; split; [done|].
    split_and!; [done|by intros [_ ?]%app_eq_nil|]. intros _. cbn [last_counter bitmap].
    rewrite newest_snoc by len. split_and!; [lia|by apply elem_of_app; left|].
    intros k Hk. rewrite Hbits, Hb by done. rewrite <- bool_decide_or.
    apply bool_decide_ext. rewrite elem_of_app, list_elem_of_singleton. intuition lia.
  - exists f. split; [done|]. split_and!; [done|by intros [_ ?]%app_eq_nil|]. intros _.
    rewrite newest_snoc by len. split_and!; [lia|by apply elem_of_app; left|].
    intros k Hk. rewrite Hb by done.
    apply bool_decide_ext. rewrite elem_of_app, list_elem_of_singleton. intuition lia.
Qed.

Lemma represents_update c : is_u64 c →
  ∃ f', replay_update (Some f) c = Some (Some f') ∧ represents f' (h ++ [c]).
Proof.
  intros Hc. destruct (decide (h = [])) as [Hh|Hh].
  { rewrite Hh. by apply update_first. }
  destruct (Z.le_gt_cases c (last_counter f));
    [by apply update_older|by apply update_newer].
Qed.
End history.

Lemma replay_run_represents h : Forall is_u64 h →
  ∃ f, replay_run h = Some (Some f) ∧ represents f h.
Proof.
  induction h as [|c h IH] using rev_ind; intros Hh.
  { exists replay_filter_zero. split; [done|apply represents_nil]. }
  apply Forall_app in Hh as [Hh Hc]. rewrite Forall_singleton in Hc.
  destruct (IH Hh) as (f & Hrun & Hf).
  destruct (represents_update f h Hf c Hc) as (f' & Hup & Hf').
  exists f'. split; [|done]. unfold replay_run in *.
  rewrite foldl_app, Hrun. simpl. done.
Qed.

(** ** Properties *)

(** C5: after any sequence of updates from a fresh filter, [replay_check] decides
    exactly the history specification (nothing received, ahead of everything, or
    inside the 2048-window and not received), and no update or check of the
    sequence is undefined behaviour. *)
Theorem replay_refines_history (h : list Z) (c : Z) :
  Forall is_u64 h → is_u64 c →
  ∃ f, replay_run h = Some (Some f) ∧
       replay_check (Some f) c = Some (if window_accepts h c then 1 else 0).
Proof.
  intros Hh Hc. destruct (replay_run_represents h Hh) as (f & Hrun & Hf).
  exists f. split; [done|]. by apply represents_check.
Qed.

Lemma replay_refines_history_witness :
  ∃ f, replay_run [10; 5; 3000; 2999] = Some (Some f) ∧
       replay_check (Some f) 953 = Some (if window_accepts [10; 5; 3000; 2999] 953 then 1 else 0).
Proof. apply replay_refines_history; [by repeat constructor|done]. Defined.

(** once a counter has been recorded, no later sequence of updates makes
    [replay_check] accept it again. *)
Theorem replay_never_accepts_twice (before after : list Z) (c : Z) :
  Forall is_u64 (before ++ c :: after) →
  ∃ f, replay_run (before ++ c :: after) = Some (Some f) ∧ replay_check (Some f) c = Some 0.
Proof.
  intros Hall. destruct (replay_run_represents _ Hall) as (f & Hrun & Hf).
  exists f. split; [done|].
  assert (c ∈ before ++ c :: after) as Hin by (apply elem_of_app; right; left).
  rewrite (represents_check f _ Hf) by (rewrite Forall_forall in Hall; by apply Hall).
  pose proof (newest_ge _ _ Hin). unfold window_accepts.
  destruct (before ++ c :: after) eqn:E; [by apply app_eq_nil in E as [_ ?]|]. rewrite <- E in *.
  test_false (newest (before ++ c :: after) <? c). simpl.
  rewrite bool_decide_true by done. by rewrite andb_false_r.
Qed.

Lemma replay_never_accepts_twice_witness :
  ∃ f, replay_run ([1; 2] ++ 7 :: [100; 5000]) = Some (Some f) ∧ replay_check (Some f) 7 = Some 0.
Proof. apply replay_never_accepts_twice. by repeat constructor. Defined.

(** two counters that are distinct and at most 2047 apart can be accepted in
    either order: recording [b] does not make the filter reject an unseen [a]
    as long as everything received stays within the window above [a]. *)
Theorem replay_accepts_reordered (h : list Z) (a : Z) :
  Forall is_u64 h → is_u64 a → a ∉ h → Forall (λ b, b - a < VPN_REPLAY_WINDOW_SIZE) h →
  ∃ f, replay_run h = Some (Some f) ∧ replay_check (Some f) a = Some 1.
Proof.
  intros Hh Ha Hn Hw. destruct (replay_run_represents h Hh) as (f & Hrun & Hf).
  exists f. split; [done|]. rewrite (represents_check f _ Hf a Ha).
  destruct h as [|x t] eqn:E; [done|]. unfold window_accepts. rewrite <- E in *.
  rewrite (bool_decide_false (a ∈ h)) by done. simpl. rewrite andb_true_r.
  destruct (proj2 (proj2 Hf)) as (Hl & Hin & _); [by subst|].
  rewrite Forall_forall in Hw. specialize (Hw _ Hin). rewrite Hl in Hw.
  test_true (newest h - a <? VPN_REPLAY_WINDOW_SIZE). by rewrite orb_true_r.
Qed.

Lemma replay_accepts_reordered_witness :
  ∃ f, replay_run [100; 2100; 54] = Some (Some f) ∧ replay_check (Some f) 53 = Some 1.
Proof.
  apply replay_accepts_reordered;
    [by repeat constructor|done|by apply (bool_decide_unpack _)|by repeat constructor].
Defined.
