(* ===== verification/Config.v ===== *)
(** * Build-time constants ([src/config.h]) *)

From S2P Require Import Prelude.

Definition VPN_DEFAULT_OUTER_MTU : Z := 1500.
Definition VPN_WIRE_OVERHEAD : Z := 60.
Definition VPN_DEFAULT_INNER_MTU : Z := VPN_DEFAULT_OUTER_MTU - VPN_WIRE_OVERHEAD.
Definition VPN_MIN_IPV4_MTU : Z := 576.
Definition VPN_MAX_PACKET_SIZE : Z := 2048.
Definition VPN_MAX_PEERS : Z := 256.
Definition VPN_MAX_CIDRS_PER_PEER : Z := 64.
Definition VPN_KEY_LEN : Z := 32.
Definition VPN_PUBKEY_LEN : Z := 32.
Definition VPN_PRIVKEY_LEN : Z := 32.
Definition VPN_NONCE_LEN : Z := 12.
Definition VPN_AUTH_TAG_LEN : Z := 16.
Definition VPN_DEFAULT_PORT : Z := 51820.
