(* ===== verification/Packet.v ===== *)
(** * Wire packets ([src/packet.c], [src/packet.h])

    The little-endian helpers, the three packet layouts and their parsers and
    serialisers.  A parser takes the buffer, the length the caller claims and
    the output struct, and gives the return code with the output struct as it
    is left; [None] is an access outside a buffer. *)

From S2P Require Import Prelude Config.
Local Open Scope c_scope.

(** ** Layout *)

Inductive packet_type_t :=
| PACKET_TYPE_INVALID
| PACKET_TYPE_HANDSHAKE_INIT
| PACKET_TYPE_HANDSHAKE_RESP
| PACKET_TYPE_DATA
| PACKET_TYPE_KEEPALIVE.

#[global] Instance packet_type_eq_dec : EqDecision packet_type_t.
Proof. solve_decision. Defined.

Definition packet_type_byte (t : packet_type_t) : Z :=
  match t with
  | PACKET_TYPE_INVALID => 0
  | PACKET_TYPE_HANDSHAKE_INIT => 1
  | PACKET_TYPE_HANDSHAKE_RESP => 2
  | PACKET_TYPE_DATA => 3
  | PACKET_TYPE_KEEPALIVE => 4
  end.

Definition PACKET_HANDSHAKE_INIT_LEN : Z := 148.
Definition PACKET_HANDSHAKE_RESP_LEN : Z := 92.
Definition PACKET_DATA_HEADER_LEN : Z := 16.
Definition PACKET_DATA_MIN_LEN : Z := PACKET_DATA_HEADER_LEN + VPN_AUTH_TAG_LEN.
Definition PACKET_DATA_MAX_PAYLOAD : Z := VPN_DEFAULT_INNER_MTU.
Definition PACKET_DATA_MAX_LEN : Z := PACKET_DATA_MIN_LEN + PACKET_DATA_MAX_PAYLOAD.

Record packet_handshake_init_t := mk_handshake_init {
  hi_sender_index : Z;
  hi_unencrypted_ephemeral : bytes;
  hi_encrypted_static : bytes;
  hi_encrypted_timestamp : bytes;
  hi_mac1 : bytes;
  hi_mac2 : bytes
}.

Record packet_handshake_resp_t := mk_handshake_resp {
  hr_sender_index : Z;
  hr_receiver_index : Z;
  hr_unencrypted_ephemeral : bytes;
  hr_encrypted_nothing : bytes;
  hr_mac1 : bytes;
  hr_mac2 : bytes
}.

(** The zero-copy view: pointers are offsets into the parsed buffer. *)
Record packet_data_t := mk_packet_data {
  pd_receiver_index : Z;
  pd_counter : Z;
  pd_ciphertext : option Z;
  pd_ciphertext_len : Z;
  pd_auth_tag : Z
}.

(** ** Little-endian helpers *)

Definition le32_read (p : bytes) (o : Z) : option Z :=
  p0 ← p.[o]; p1 ← p.[o + 1]; p2 ← p.[o + 2]; p3 ← p.[o + 3];
  Some (p0 |' u32 (p1 ≪ 8) |' u32 (p2 ≪ 16) |' u32 (p3 ≪ 24)).

Definition le32_write (p : bytes) (o v : Z) : option bytes :=
  p ← wr p o (u8 (v &' 0xFF));
  p ← wr p (o + 1) (u8 ((v ≫ 8) &' 0xFF));
  p ← wr p (o + 2) (u8 ((v ≫ 16) &' 0xFF));
  wr p (o + 3) (u8 ((v ≫ 24) &' 0xFF)).

Definition le64_read (p : bytes) (o : Z) : option Z :=
  p0 ← p.[o]; p1 ← p.[o + 1]; p2 ← p.[o + 2]; p3 ← p.[o + 3];
  p4 ← p.[o + 4]; p5 ← p.[o + 5]; p6 ← p.[o + 6]; p7 ← p.[o + 7];
  Some (p0 |' u64 (p1 ≪ 8) |' u64 (p2 ≪ 16) |' u64 (p3 ≪ 24)
        |' u64 (p4 ≪ 32) |' u64 (p5 ≪ 40) |' u64 (p6 ≪ 48) |' u64 (p7 ≪ 56)).

Definition le64_write (p : bytes) (o v : Z) : option bytes :=
  p ← wr p o (u8 (v &' 0xFF));
  p ← wr p (o + 1) (u8 ((v ≫ 8) &' 0xFF));
  p ← wr p (o + 2) (u8 ((v ≫ 16) &' 0xFF));
  p ← wr p (o + 3) (u8 ((v ≫ 24) &' 0xFF));
  p ← wr p (o + 4) (u8 ((v ≫ 32) &' 0xFF));
  p ← wr p (o + 5) (u8 ((v ≫ 40) &' 0xFF));
  p ← wr p (o + 6) (u8 ((v ≫ 48) &' 0xFF));
  wr p (o + 7) (u8 ((v ≫ 56) &' 0xFF)).

(** ** Parsers and serialisers *)

Definition packet_peek_type (buf : option bytes) (len : Z) : option packet_type_t :=
  match buf with
  | NULL => Some PACKET_TYPE_INVALID
  | Some b =>
      if len <? 1 then Some PACKET_TYPE_INVALID
      else
        type ← b.[0];
        Some (if type =? 1 then PACKET_TYPE_HANDSHAKE_INIT
              else if type =? 2 then PACKET_TYPE_HANDSHAKE_RESP
              else if type =? 3 then PACKET_TYPE_DATA
              else if type =? 4 then PACKET_TYPE_KEEPALIVE
              else PACKET_TYPE_INVALID)
  end.

Definition packet_parse_handshake_init (buf : option bytes) (len : Z)
    (out : option packet_handshake_init_t) : option (Z * option packet_handshake_init_t) :=
  match buf, out with
  | Some b, Some _ =>
      if negb (len =? PACKET_HANDSHAKE_INIT_LEN) then Some (- EBADMSG, out)
      else
        type ← b.[0];
        if negb (type =? packet_type_byte PACKET_TYPE_HANDSHAKE_INIT)
        then Some (- EBADMSG, out)
        else
          sender ← le32_read b 4;
          ephemeral ← slice b 8 32;
          static ← slice b 40 48;
          timestamp ← slice b 88 28;
          mac1 ← slice b 116 16;
          mac2 ← slice b 132 16;
          Some (0, Some (mk_handshake_init sender ephemeral static timestamp mac1 mac2))
  | _, _ => Some (- EINVAL, out)
  end.

Definition packet_serialize_handshake_init (buf : option bytes) (buf_size : Z)
    (msg : option packet_handshake_init_t) : option (Z * option bytes) :=
  match buf, msg with
  | Some b, Some m =>
      if buf_size <? PACKET_HANDSHAKE_INIT_LEN then Some (- EINVAL, buf)
      else
        b ← fill b 0 0 PACKET_HANDSHAKE_INIT_LEN;
        b ← wr b 0 (packet_type_byte PACKET_TYPE_HANDSHAKE_INIT);
        b ← le32_write b 4 (hi_sender_index m);
        b ← memcpy b 8 (hi_unencrypted_ephemeral m) 0 32;
        b ← memcpy b 40 (hi_encrypted_static m) 0 48;
        b ← memcpy b 88 (hi_encrypted_timestamp m) 0 28;
        b ← memcpy b 116 (hi_mac1 m) 0 16;
        b ← memcpy b 132 (hi_mac2 m) 0 16;
        Some (PACKET_HANDSHAKE_INIT_LEN, Some b)
  | _, _ => Some (- EINVAL, buf)
  end.

Definition packet_parse_handshake_resp (buf : option bytes) (len : Z)
    (out : option packet_handshake_resp_t) : option (Z * option packet_handshake_resp_t) :=
  match buf, out with
  | Some b, Some _ =>
      if negb (len =? PACKET_HANDSHAKE_RESP_LEN) then Some (- EBADMSG, out)
      else
        type ← b.[0];
        if negb (type =? packet_type_byte PACKET_TYPE_HANDSHAKE_RESP)
        then Some (- EBADMSG, out)
        else
          sender ← le32_read b 4;
          receiver ← le32_read b 8;
          ephemeral ← slice b 12 32;
          nothing ← slice b 44 16;
          mac1 ← slice b 60 16;
          mac2 ← slice b 76 16;
          Some (0, Some (mk_handshake_resp sender receiver ephemeral nothing mac1 mac2))
  | _, _ => Some (- EINVAL, out)
  end.

Definition packet_serialize_handshake_resp (buf : option bytes) (buf_size : Z)
    (msg : option packet_handshake_resp_t) : option (Z * option bytes) :=
  match buf, msg with
  | Some b, Some m =>
      if buf_size <? PACKET_HANDSHAKE_RESP_LEN then Some (- EINVAL, buf)
      else
        b ← fill b 0 0 PACKET_HANDSHAKE_RESP_LEN;
        b ← wr b 0 (packet_type_byte PACKET_TYPE_HANDSHAKE_RESP);
        b ← le32_write b 4 (hr_sender_index m);
        b ← le32_write b 8 (hr_receiver_index m);
        b ← memcpy b 12 (hr_unencrypted_ephemeral m) 0 32;
        b ← memcpy b 44 (hr_encrypted_nothing m) 0 16;
        b ← memcpy b 60 (hr_mac1 m) 0 16;
        b ← memcpy b 76 (hr_mac2 m) 0 16;
        Some (PACKET_HANDSHAKE_RESP_LEN, Some b)
  | _, _ => Some (- EINVAL, buf)
  end.

Definition packet_parse_data (buf : option bytes) (len : Z)
    (out : option packet_data_t) : option (Z * option packet_data_t) :=
  match buf, out with
  | Some b, Some _ =>
      if len <? PACKET_DATA_MIN_LEN then Some (- EBADMSG, out)
      else if len >? PACKET_DATA_MAX_LEN then Some (- EMSGSIZE, out)
      else
        type ← b.[0];
        if negb (type =? packet_type_byte PACKET_TYPE_DATA)
           && negb (type =? packet_type_byte PACKET_TYPE_KEEPALIVE)
        then Some (- EBADMSG, out)
        else
          receiver_index ← le32_read b 4;
          counter ← le64_read b 8;
          let ciphertext_len := u64 (len - PACKET_DATA_MIN_LEN) in
          let ciphertext :=
            if ciphertext_len >? 0 then Some PACKET_DATA_HEADER_LEN else NULL in
          let auth_tag := PACKET_DATA_HEADER_LEN + ciphertext_len in
          Some (0, Some (mk_packet_data receiver_index counter ciphertext ciphertext_len auth_tag))
  | _, _ => Some (- EINVAL, out)
  end.

Definition packet_serialize_data (buf : option bytes) (buf_size receiver_index counter : Z)
    (ciphertext : option bytes) (ciphertext_len : Z) (auth_tag : option bytes)
    : option (Z * option bytes) :=
  match buf, auth_tag with
  | Some b, Some tag =>
      if (ciphertext_len >? 0) && negb (bool_decide (is_Some ciphertext))
      then Some (- EINVAL, buf)
      else
        let total_len := u64 (PACKET_DATA_HEADER_LEN + ciphertext_len + VPN_AUTH_TAG_LEN) in
        if buf_size <? total_len then Some (- ENOSPC, buf)
        else
          b ← fill b 0 0 PACKET_DATA_HEADER_LEN;
          b ← wr b 0 (if ciphertext_len =? 0 then packet_type_byte PACKET_TYPE_KEEPALIVE
                      else packet_type_byte PACKET_TYPE_DATA);
          b ← le32_write b 4 receiver_index;
          b ← le64_write b 8 counter;
          b ← (if ciphertext_len >? 0
               then ct ← ciphertext; memcpy b PACKET_DATA_HEADER_LEN ct 0 ciphertext_len
               else Some b);
          b ← memcpy b (PACKET_DATA_HEADER_LEN + ciphertext_len) tag 0 VPN_AUTH_TAG_LEN;
          Some (s32 total_len, Some b)
  | _, _ => Some (- EINVAL, buf)
  end.

(** ** Little-endian round trips *)

Definition le32_bytes (v : Z) : bytes :=
  [u8 (v &' 0xFF); u8 ((v ≫ 8) &' 0xFF); u8 ((v ≫ 16) &' 0xFF); u8 ((v ≫ 24) &' 0xFF)].

Definition le64_bytes (v : Z) : bytes :=
  [u8 (v &' 0xFF); u8 ((v ≫ 8) &' 0xFF); u8 ((v ≫ 16) &' 0xFF); u8 ((v ≫ 24) &' 0xFF);
   u8 ((v ≫ 32) &' 0xFF); u8 ((v ≫ 40) &' 0xFF); u8 ((v ≫ 48) &' 0xFF); u8 ((v ≫ 56) &' 0xFF)].

Lemma le32_bytes_ok v : bytes_ok (le32_bytes v).
Proof. repeat constructor; apply u8_uint. Qed.
Lemma le64_bytes_ok v : bytes_ok (le64_bytes v).
Proof. repeat constructor; apply u8_uint. Qed.

(** A writer fills exactly its four (eight) bytes of a buffer that has them. *)
Lemma le32_write_mid pre mid post o v :
  Z.of_nat (length pre) = o → length mid = 4%nat →
  le32_write (pre ++ mid ++ post) o v = Some (pre ++ le32_bytes v ++ post).
Proof.
  intros <- Hm. destruct mid as [|m0 [|m1 [|m2 [|m3 [|]]]]]; try discriminate Hm.
  unfold le32_write. rewrite <- (Z.add_0_r (Z.of_nat (length pre))) at 1.
  rewrite wr_app_r, wr_lt by len. bind_simpl.
  rewrite wr_app_r, wr_lt by len. bind_simpl.
  rewrite wr_app_r, wr_lt by len. bind_simpl.
  rewrite wr_app_r, wr_lt by len. done.
Qed.

Lemma le64_write_mid pre mid post o v :
  Z.of_nat (length pre) = o → length mid = 8%nat →
  le64_write (pre ++ mid ++ post) o v = Some (pre ++ le64_bytes v ++ post).
Proof.
  intros <- Hm.
  destruct mid as [|m0 [|m1 [|m2 [|m3 [|m4 [|m5 [|m6 [|m7 [|]]]]]]]]]; try discriminate Hm.
  unfold le64_write. rewrite <- (Z.add_0_r (Z.of_nat (length pre))) at 1.
  do 7 (rewrite wr_app_r, wr_lt by len; bind_simpl).
  rewrite wr_app_r, wr_lt by len. done.
Qed.

Lemma le32_read_slice p o b0 b1 b2 b3 :
  slice p o 4 = Some [b0; b1; b2; b3] →
  le32_read p o = Some (b0 |' u32 (b1 ≪ 8) |' u32 (b2 ≪ 16) |' u32 (b3 ≪ 24)).
Proof.
  intros Hs. unfold le32_read.
  pose proof (λ k, slice_rd _ _ _ _ k Hs) as Hrd.
  rewrite <- (Z.add_0_r o) at 1. rewrite !Hrd by lia. done.
Qed.

Lemma le64_read_slice p o b0 b1 b2 b3 b4 b5 b6 b7 :
  slice p o 8 = Some [b0; b1; b2; b3; b4; b5; b6; b7] →
  le64_read p o = Some (b0 |' u64 (b1 ≪ 8) |' u64 (b2 ≪ 16) |' u64 (b3 ≪ 24)
        |' u64 (b4 ≪ 32) |' u64 (b5 ≪ 40) |' u64 (b6 ≪ 48) |' u64 (b7 ≪ 56)).
Proof.
  intros Hs. unfold le64_read.
  pose proof (λ k, slice_rd _ _ _ _ k Hs) as Hrd.
  rewrite <- (Z.add_0_r o) at 1. rewrite !Hrd by lia. done.
Qed.

Lemma le32_read_bytes p o v :
  is_u32 v → slice p o 4 = Some (le32_bytes v) → le32_read p o = Some v.
Proof.
  intros Hv Hs. rewrite (le32_read_slice _ _ _ _ _ _ Hs). f_equal.
  apply Z.bits_inj'. intros i Hi.
  assert (i < 8 ∨ 8 <= i < 16 ∨ 16 <= i < 24 ∨ 24 <= i < 32 ∨ 32 <= i) as Hc by lia.
  destruct_or! Hc; bits; f_equal; lia.
Qed.

Lemma le64_read_bytes p o v :
  is_u64 v → slice p o 8 = Some (le64_bytes v) → le64_read p o = Some v.
Proof.
  intros Hv Hs. rewrite (le64_read_slice _ _ _ _ _ _ _ _ _ _ Hs). f_equal.
  apply Z.bits_inj'. intros i Hi.
  assert (i < 8 ∨ 8 <= i < 16 ∨ 16 <= i < 24 ∨ 24 <= i < 32 ∨ 32 <= i < 40 ∨
          40 <= i < 48 ∨ 48 <= i < 56 ∨ 56 <= i < 64 ∨ 64 <= i) as Hc by lia.
  destruct_or! Hc; bits; f_equal; lia.
Qed.

Lemma le32_bytes_read p o d :
  slice p o 4 = Some d → bytes_ok d →
  ∃ v, le32_read p o = Some v ∧ is_u32 v ∧ le32_bytes v = d.
Proof.
  intros Hs Hd. pose proof (slice_length _ _ _ _ Hs) as Hl.
  destruct d as [|b0 [|b1 [|b2 [|b3 [|]]]]]; try (simpl in Hl; lia).
  rewrite !Forall_cons in Hd. destruct Hd as (H0 & H1 & H2 & H3 & _).
  rewrite (le32_read_slice _ _ _ _ _ _ Hs). eexists; split; [done|]. split.
  { repeat apply lor_uint; try lia; try apply u32_uint. by apply (is_uint_mono 8). }
  unfold le32_bytes. repeat f_equal; apply Z.bits_inj'; intros i Hi;
    (destruct (decide (i < 8)); bits; f_equal; lia).
Qed.

Lemma le64_bytes_read p o d :
  slice p o 8 = Some d → bytes_ok d →
  ∃ v, le64_read p o = Some v ∧ is_u64 v ∧ le64_bytes v = d.
Proof.
  intros Hs Hd. pose proof (slice_length _ _ _ _ Hs) as Hl.
  destruct d as [|b0 [|b1 [|b2 [|b3 [|b4 [|b5 [|b6 [|b7 [|]]]]]]]]]; try (simpl in Hl; lia).
  rewrite !Forall_cons in Hd. destruct Hd as (H0 & H1 & H2 & H3 & H4 & H5 & H6 & H7 & _).
  rewrite (le64_read_slice _ _ _ _ _ _ _ _ _ _ Hs). eexists; split; [done|]. split.
  { repeat apply lor_uint; try lia; try apply u64_uint. by apply (is_uint_mono 8). }
  unfold le64_bytes. repeat f_equal; apply Z.bits_inj'; intros i Hi;
    (destruct (decide (i < 8)); bits; f_equal; lia).
Qed.

(** Reads inside the buffer are defined. *)
Lemma le32_read_in p o : 0 <= o → o + 4 <= Z.of_nat (length p) → is_Some (le32_read p o).
Proof.
  intros. unfold le32_read.
  destruct (rd_lt p o) as [? ->]; [lia|]. destruct (rd_lt p (o + 1)) as [? ->]; [lia|].
  destruct (rd_lt p (o + 2)) as [? ->]; [lia|]. destruct (rd_lt p (o + 3)) as [? ->]; [lia|].
  eauto.
Qed.

Lemma le64_read_in p o : 0 <= o → o + 8 <= Z.of_nat (length p) → is_Some (le64_read p o).
Proof.
  intros. unfold le64_read.
  destruct (rd_lt p o) as [? ->]; [lia|]. destruct (rd_lt p (o + 1)) as [? ->]; [lia|].
  destruct (rd_lt p (o + 2)) as [? ->]; [lia|]. destruct (rd_lt p (o + 3)) as [? ->]; [lia|].
  destruct (rd_lt p (o + 4)) as [? ->]; [lia|]. destruct (rd_lt p (o + 5)) as [? ->]; [lia|].
  destruct (rd_lt p (o + 6)) as [? ->]; [lia|]. destruct (rd_lt p (o + 7)) as [? ->]; [lia|].
  eauto.
Qed.

(** ** Wire images *)

Record init_ok (m : packet_handshake_init_t) : Prop := {
  init_sender : is_u32 (hi_sender_index m);
  init_ephemeral : length (hi_unencrypted_ephemeral m) = 32%nat;
  init_static : length (hi_encrypted_static m) = 48%nat;
  init_timestamp : length (hi_encrypted_timestamp m) = 28%nat;
  init_mac1 : length (hi_mac1 m) = 16%nat;
  init_mac2 : length (hi_mac2 m) = 16%nat
}.

Record resp_ok (m : packet_handshake_resp_t) : Prop := {
  resp_sender : is_u32 (hr_sender_index m);
  resp_receiver : is_u32 (hr_receiver_index m);
  resp_ephemeral : length (hr_unencrypted_ephemeral m) = 32%nat;
  resp_nothing : length (hr_encrypted_nothing m) = 16%nat;
  resp_mac1 : length (hr_mac1 m) = 16%nat;
  resp_mac2 : length (hr_mac2 m) = 16%nat
}.

Definition init_wire (m : packet_handshake_init_t) : bytes :=
  [1; 0; 0; 0] ++ le32_bytes (hi_sender_index m) ++ hi_unencrypted_ephemeral m
  ++ hi_encrypted_static m ++ hi_encrypted_timestamp m ++ hi_mac1 m ++ hi_mac2 m.

Definition resp_wire (m : packet_handshake_resp_t) : bytes :=
  [2; 0; 0; 0] ++ le32_bytes (hr_sender_index m) ++ le32_bytes (hr_receiver_index m)
  ++ hr_unencrypted_ephemeral m ++ hr_encrypted_nothing m ++ hr_mac1 m ++ hr_mac2 m.

Definition data_wire (receiver counter : Z) (ct tag : bytes) : bytes :=
  [if Z.of_nat (length ct) =? 0 then 4 else 3; 0; 0; 0]
  ++ le32_bytes receiver ++ le64_bytes counter ++ ct ++ tag.

(** Advance over the fields already written: the buffer is
    [done ++ zeros ++ rest] and the next field goes at the start of [zeros]. *)
Lemma blit_next (d : bytes) pre n rest off :
  Z.of_nat (length pre) = off → (length d <= n)%nat →
  blit (pre ++ replicate n 0 ++ rest) off d =
    Some ((pre ++ d) ++ replicate (n - length d) 0 ++ rest).
Proof.
  intros Hp Hd. rewrite blit_app_r by lia. rewrite Hp, Z.sub_diag.
  rewrite blit_replicate by done. simpl. by rewrite app_assoc.
Qed.

Lemma le32_write_next pre n rest off v :
  Z.of_nat (length pre) = off → (4 <= n)%nat →
  le32_write (pre ++ replicate n 0 ++ rest) off v =
    Some ((pre ++ le32_bytes v) ++ replicate (n - 4) 0 ++ rest).
Proof.
  intros Hp Hn. replace n with (4 + (n - 4))%nat at 1 by lia.
  rewrite replicate_add, <- (app_assoc (replicate 4 0)).
  rewrite le32_write_mid by done. by rewrite app_assoc.
Qed.

Lemma le64_write_next pre n rest off v :
  Z.of_nat (length pre) = off → (8 <= n)%nat →
  le64_write (pre ++ replicate n 0 ++ rest) off v =
    Some ((pre ++ le64_bytes v) ++ replicate (n - 8) 0 ++ rest).
Proof.
  intros Hp Hn. replace n with (8 + (n - 8))%nat at 1 by lia.
  rewrite replicate_add, <- (app_assoc (replicate 8 0)).
  rewrite le64_write_mid by done. by rewrite app_assoc.
Qed.

Lemma type_write n rest t : (4 <= n)%nat →
  wr (replicate n 0 ++ rest) 0 t = Some ([t; 0; 0; 0] ++ replicate (n - 4) 0 ++ rest).
Proof.
  intros Hn. rewrite wr_lt by len. f_equal.
  replace n with (4 + (n - 4))%nat at 1 by lia. done.
Qed.

Ltac field_len := rewrite ?length_app; simpl; lia.
(** Copy the next fixed-size field, whose length is the hypothesis [H]. *)
Ltac put_field H :=
  rewrite memcpy_all, blit_next by (rewrite ?H; field_len); bind_simpl.

Lemma serialize_init_eq b size m :
  PACKET_HANDSHAKE_INIT_LEN <= size → size <= Z.of_nat (length b) → init_ok m →
  packet_serialize_handshake_init (Some b) size (Some m) =
    Some (PACKET_HANDSHAKE_INIT_LEN, Some (init_wire m ++ drop 148 b)).
Proof.
  unfold PACKET_HANDSHAKE_INIT_LEN. intros Hs Hb [Hi He Hst Hts Hm1 Hm2].
  unfold packet_serialize_handshake_init, PACKET_HANDSHAKE_INIT_LEN. test_false (size <? 148).
  rewrite fill_0 by lia. bind_simpl. rewrite type_write by lia. bind_simpl.
  rewrite le32_write_next by (done || lia). bind_simpl.
  put_field He. put_field Hst. put_field Hts. put_field Hm1. put_field Hm2.
  rewrite He, Hst, Hts, Hm1, Hm2. simpl. unfold init_wire. by rewrite <- !app_assoc.
Qed.

Lemma serialize_resp_eq b size m :
  PACKET_HANDSHAKE_RESP_LEN <= size → size <= Z.of_nat (length b) → resp_ok m →
  packet_serialize_handshake_resp (Some b) size (Some m) =
    Some (PACKET_HANDSHAKE_RESP_LEN, Some (resp_wire m ++ drop 92 b)).
Proof.
  unfold PACKET_HANDSHAKE_RESP_LEN. intros Hs Hb [Hi Hr He Hn Hm1 Hm2].
  unfold packet_serialize_handshake_resp, PACKET_HANDSHAKE_RESP_LEN. test_false (size <? 92).
  rewrite fill_0 by lia. bind_simpl. rewrite type_write by lia. bind_simpl.
  rewrite le32_write_next by (done || lia). bind_simpl.
  rewrite le32_write_next by (done || lia). bind_simpl.
  put_field He. put_field Hn. put_field Hm1. put_field Hm2.
  rewrite He, Hn, Hm1, Hm2. simpl. unfold resp_wire. by rewrite <- !app_assoc.
Qed.

(** The optional ciphertext copy of the data serialiser. *)
Lemma copy_ciphertext (hdr old rest ct : bytes) ctp n :
  length hdr = 16%nat → length old = length ct → n = Z.of_nat (length ct) →
  ((∃ more, ctp = Some (ct ++ more)) ∨ (ctp = None ∧ ct = [])) →
  (if n >? 0 then ct' ← ctp; memcpy (hdr ++ old ++ rest) PACKET_DATA_HEADER_LEN ct' 0 n
   else Some (hdr ++ old ++ rest)) = Some (hdr ++ ct ++ rest).
Proof.
  intros Hh Ho -> Hct. destruct ct as [|c ct].
  { by destruct old. }
  destruct Hct as [[more ->]|[_ ?]]; [|done]. test_true (Z.of_nat (length (c :: ct)) >? 0). bind_simpl.
  unfold memcpy. rewrite slice_app_0 by done. bind_simpl. apply blit_mid; [by rewrite Hh|done].
Qed.

(** The old contents of the buffer, cut at the field boundaries of a data packet. *)
Lemma data_buffer_split (b : bytes) k : (k + 32 <= length b)%nat →
  ∃ old tag, drop 16 b = old ++ tag ++ drop (k + 32) b ∧ length old = k ∧ length tag = 16%nat.
Proof.
  intros Hk. exists (take k (drop 16 b)), (take 16 (drop k (drop 16 b))).
  split; [|split; rewrite ?length_take, ?length_drop; lia].
  replace (k + 32)%nat with (16 + k + 16)%nat by lia. rewrite <- !drop_drop.
  by rewrite !take_drop.
Qed.

Lemma s32_small x : 0 <= x < 2 ^ 31 → s32 x = x.
Proof. intros. unfold s32. rewrite u32_small by len. by test_true (x <? 2 ^ 31). Qed.

(** The data serialiser writes [data_wire] over the front of the buffer; the
    keepalive case is the empty ciphertext. *)
Lemma serialize_data_eq b size receiver counter ct tag ctp n :
  n = Z.of_nat (length ct) → length tag = 16%nat →
  n + 32 <= size → size <= Z.of_nat (length b) → size < 2 ^ 31 →
  ((∃ more, ctp = Some (ct ++ more)) ∨ (ctp = None ∧ ct = [])) →
  packet_serialize_data (Some b) size receiver counter ctp n (Some tag) =
    Some (n + 32, Some (data_wire receiver counter ct tag ++ drop (length ct + 32) b)).
Proof.
  intros Hn Ht Hs Hb H31 Hct. unfold packet_serialize_data.
  replace ((n >? 0) && negb (bool_decide (is_Some ctp))) with false.
  2: { symmetry. destruct Hct as [[more ->]|[-> ->]]; [|by rewrite Hn].
       rewrite bool_decide_true by eauto. apply andb_false_r. }
  change (PACKET_DATA_HEADER_LEN + n + VPN_AUTH_TAG_LEN) with (16 + n + 16).
  rewrite u64_small by len. test_false (size <? 16 + n + 16).
  rewrite fill_0 by (unfold PACKET_DATA_HEADER_LEN; lia). bind_simpl.
  change (Z.to_nat PACKET_DATA_HEADER_LEN) with 16%nat.
  rewrite type_write by lia. bind_simpl.
  rewrite le32_write_next by (done || lia). bind_simpl.
  rewrite le64_write_next by (done || lia). bind_simpl.
  change (replicate (16 - 4 - 4 - 8) 0) with (@nil Z). rewrite app_nil_l.
  destruct (data_buffer_split b (length ct)) as (old & otag & -> & Ho & Hot); [lia|].
  rewrite (copy_ciphertext _ old _ ct) by done. bind_simpl.
  rewrite memcpy_all by (rewrite Ht; done).
  rewrite (app_assoc _ ct), blit_mid by (rewrite ?length_app; simpl; unfold PACKET_DATA_HEADER_LEN; lia).
  bind_simpl. rewrite s32_small by lia. unfold data_wire. rewrite <- Hn.
  rewrite <- !app_assoc. do 2 f_equal. lia.
Qed.

(** ** Parsing a wire image *)

Lemma length_le32_bytes v : length (le32_bytes v) = 4%nat.
Proof. done. Qed.
Lemma length_le64_bytes v : length (le64_bytes v) = 8%nat.
Proof. done. Qed.
#[export] Hint Rewrite length_le32_bytes length_le64_bytes : vpn_len.

(** Find a field in a wire image: skip the fields in front of it. *)
Ltac seek :=
  repeat (rewrite slice_app_r by len); rewrite slice_app_0 by len; bind_simpl.

Lemma parse_init_wire m rest o : init_ok m →
  packet_parse_handshake_init (Some (init_wire m ++ rest)) 148 (Some o) = Some (0, Some m).
Proof.
  intros [Hi He Hst Hts Hm1 Hm2]. unfold packet_parse_handshake_init, init_wire.
  cbn [negb Z.eqb Pos.eqb PACKET_HANDSHAKE_INIT_LEN].
  rewrite <- !app_assoc. change (([1; 0; 0; 0] ++ ?x).[0]) with (Some 1). bind_simpl.
  rewrite (le32_read_bytes _ 4 (hi_sender_index m)) by (done || seek; done). bind_simpl.
  change (Z.eqb 1 (packet_type_byte PACKET_TYPE_HANDSHAKE_INIT)) with true. bind_simpl.
  do 5 seek. by destruct m.
Qed.

Lemma parse_resp_wire m rest o : resp_ok m →
  packet_parse_handshake_resp (Some (resp_wire m ++ rest)) 92 (Some o) = Some (0, Some m).
Proof.
  intros [Hi Hr He Hn Hm1 Hm2]. unfold packet_parse_handshake_resp, resp_wire.
  cbn [negb Z.eqb Pos.eqb PACKET_HANDSHAKE_RESP_LEN].
  rewrite <- !app_assoc. change (([2; 0; 0; 0] ++ ?x).[0]) with (Some 2). bind_simpl.
  change (Z.eqb 2 (packet_type_byte PACKET_TYPE_HANDSHAKE_RESP)) with true. bind_simpl.
  rewrite (le32_read_bytes _ 4 (hr_sender_index m)) by (done || seek; done). bind_simpl.
  rewrite (le32_read_bytes _ 8 (hr_receiver_index m)) by (done || seek; done). bind_simpl.
  do 4 seek. by destruct m.
Qed.

(** The view a parser gets of a data packet: where its two pointers lead. *)
Definition data_view (b : bytes) (d : packet_data_t) (ct tag : bytes) : Prop :=
  pd_ciphertext_len d = Z.of_nat (length ct) ∧
  pd_ciphertext d = (if pd_ciphertext_len d >? 0 then Some 16 else NULL) ∧
  slice b 16 (pd_ciphertext_len d) = Some ct ∧
  slice b (pd_auth_tag d) 16 = Some tag.

Lemma parse_data_wire receiver counter ct tag rest o n :
  is_u32 receiver → is_u64 counter → length tag = 16%nat →
  n = Z.of_nat (length ct) → n <= PACKET_DATA_MAX_PAYLOAD →
  ∃ d, packet_parse_data (Some (data_wire receiver counter ct tag ++ rest)) (n + 32) (Some o)
         = Some (0, Some d) ∧
       pd_receiver_index d = receiver ∧ pd_counter d = counter ∧
       data_view (data_wire receiver counter ct tag ++ rest) d ct tag.
Proof.
  intros Hr Hc Ht Hn Hmax. unfold packet_parse_data, data_wire.
  change PACKET_DATA_MAX_PAYLOAD with 1440 in *. change PACKET_DATA_MIN_LEN with 32 in *.
  change PACKET_DATA_MAX_LEN with 1472. change PACKET_DATA_HEADER_LEN with 16.
  test_false (n + 32 <? 32). test_false (n + 32 >? 1472).
  rewrite <- !app_assoc. set (ty := if Z.of_nat (length ct) =? 0 then 4 else 3).
  change (([ty; 0; 0; 0] ++ ?x).[0]) with (Some ty). bind_simpl.
  replace (negb (ty =? _) && negb (ty =? _)) with false
    by (unfold ty; by destruct (Z.of_nat (length ct) =? 0)).
  rewrite (le32_read_bytes _ _ receiver) by (done || seek; done). bind_simpl.
  rewrite (le64_read_bytes _ _ counter) by (done || seek; done). bind_simpl.
  eexists; split; [done|]. cbn [pd_receiver_index pd_counter].
  split_and!; [done..|]. unfold data_view. cbn [pd_ciphertext pd_ciphertext_len pd_auth_tag].
  rewrite u64_small by len. replace (n + 32 - 32) with n by lia.
  split_and!; [done|done| |].
  - repeat (rewrite slice_app_r by len). by rewrite slice_app_0 by len.
  - repeat (rewrite slice_app_r by len). by rewrite slice_app_0 by len.
Qed.

(** ** Totality of the parsers on untrusted input *)

(** What a parser may do with any buffer at least as long as the claimed length:
    no undefined behaviour, one of the listed codes, and the output struct
    written only on success. *)
Definition parser_safe {A} (codes : list Z) (out : option A) (r : option (Z * option A)) : Prop :=
  ∃ rc out', r = Some (rc, out') ∧ rc ∈ codes ∧ (rc ≠ 0 → out' = out) ∧ (rc = 0 → is_Some out').

Lemma parser_safe_err {A} codes (out : option A) rc :
  rc ∈ codes → rc ≠ 0 → parser_safe codes out (Some (rc, out)).
Proof. intros. eexists _, _. by split_and!. Qed.

Lemma parser_safe_ok {A} codes (out : option A) x :
  0 ∈ codes → parser_safe codes out (Some (0, Some x)).
Proof. intros. eexists _, _. split_and!; [done..|eauto]. Qed.

Lemma bind_is_Some {A B} (m : option A) (f : A → option B) (P : option B → Prop) :
  is_Some m → (∀ x, m = Some x → P (f x)) → P (m ≫= f).
Proof. intros [x ->] H. by apply H. Qed.

Lemma slice_in (b : bytes) off n :
  0 <= off → 0 <= n → off + n <= Z.of_nat (length b) → is_Some (slice b off n).
Proof. intros. rewrite slice_ok by done. eauto. Qed.

Lemma rd_in (b : bytes) i : 0 <= i < Z.of_nat (length b) → is_Some b.[i].
Proof. intros. by apply rd_lt. Qed.

(** Step over one read of a parser whose bounds follow from the length test. *)
Ltac parser_read :=
  apply bind_is_Some;
  [ first [apply slice_in | apply le32_read_in | apply le64_read_in | apply rd_in]; lia
  | intros ? _ ].

Lemma parse_init_safe b len o :
  len <= Z.of_nat (length b) →
  parser_safe [0; - EBADMSG] (Some o)
    (packet_parse_handshake_init (Some b) len (Some o)).
Proof.
  intros Hl. unfold packet_parse_handshake_init.
  case_match; bool_to_prop; [by apply parser_safe_err; [set_solver|]|].
  unfold PACKET_HANDSHAKE_INIT_LEN in *. parser_read.
  case_match; [by apply parser_safe_err; [set_solver|]|].
  do 6 parser_read. apply parser_safe_ok. set_solver.
Qed.

Lemma parse_resp_safe b len o :
  len <= Z.of_nat (length b) →
  parser_safe [0; - EBADMSG] (Some o)
    (packet_parse_handshake_resp (Some b) len (Some o)).
Proof.
  intros Hl. unfold packet_parse_handshake_resp.
  case_match; bool_to_prop; [by apply parser_safe_err; [set_solver|]|].
  unfold PACKET_HANDSHAKE_RESP_LEN in *. parser_read.
  case_match; [by apply parser_safe_err; [set_solver|]|].
  do 6 parser_read. apply parser_safe_ok. set_solver.
Qed.

Lemma parse_data_safe b len o :
  len <= Z.of_nat (length b) →
  parser_safe [0; - EBADMSG; - EMSGSIZE] (Some o)
    (packet_parse_data (Some b) len (Some o)).
Proof.
  intros Hl. unfold packet_parse_data.
  change PACKET_DATA_MIN_LEN with 32.
  case_match; bool_to_prop; [by apply parser_safe_err; [set_solver|]|].
  case_match; bool_to_prop; [by apply parser_safe_err; [set_solver|]|].
  parser_read. case_match; [by apply parser_safe_err; [set_solver|]|].
  do 2 parser_read. apply parser_safe_ok. set_solver.
Qed.

(** A successful handshake-initiation parse determines every byte of the packet
    but the three reserved ones. *)
Lemma parse_init_inv b o m :
  bytes_ok b → packet_parse_handshake_init (Some b) 148 (Some o) = Some (0, Some m) →
  148 <= Z.of_nat (length b) →
  init_ok m ∧ take 148 b = (1 :: take 3 (drop 1 b)) ++ drop 4 (init_wire m).
Proof.
  intros Hb Hp Hl. unfold packet_parse_handshake_init in Hp.
  cbn [negb Z.eqb Pos.eqb PACKET_HANDSHAKE_INIT_LEN] in Hp.
  destruct (b.[0]) as [t|] eqn:Ht; [|done]. cbn [mbind option_bind] in Hp.
  destruct (negb _) eqn:Et in Hp; [done|]. bool_to_prop. simpl in Et. subst t.
  destruct (slice_in b 4 4) as [d Hd]; [lia..|].
  destruct (le32_bytes_read b 4 d Hd) as (v & Hv & Hvu & Hvd).
  { by apply (slice_Forall _ _ _ _ _ Hb Hd). }
  rewrite Hv in Hp. cbn [mbind option_bind] in Hp.
  destruct (slice b 8 32) as [e|] eqn:He; [|done]. cbn [mbind option_bind] in Hp.
  destruct (slice b 40 48) as [s|] eqn:Hs; [|done]. cbn [mbind option_bind] in Hp.
  destruct (slice b 88 28) as [ts|] eqn:Hts; [|done]. cbn [mbind option_bind] in Hp.
  destruct (slice b 116 16) as [m1|] eqn:Hm1; [|done]. cbn [mbind option_bind] in Hp.
  destruct (slice b 132 16) as [m2|] eqn:Hm2; [|done]. cbn [mbind option_bind] in Hp.
  injection Hp as <-. split.
  { split; cbn; try done;
      match goal with |- length ?x = _ =>
        match goal with H : slice _ _ _ = Some x |- _ => apply slice_length in H; lia end end. }
  unfold init_wire. cbn [hi_sender_index hi_unencrypted_ephemeral hi_encrypted_static
    hi_encrypted_timestamp hi_mac1 hi_mac2]. rewrite drop_app_length' by done. rewrite Hvd.
  rewrite slice_ok in Hd, He, Hs, Hts, Hm1, Hm2 by lia.
  injection Hd as <-. injection He as <-. injection Hs as <-. injection Hts as <-.
  injection Hm1 as <-. injection Hm2 as <-.
  destruct b as [|b0 b]; [done|]. cbn in Ht. injection Ht as ->.
  cbn [drop take app]. f_equal.
  change (Z.to_nat 4) with 4%nat. change (Z.to_nat 8) with 8%nat. change (Z.to_nat 32) with 32%nat.
  change (Z.to_nat 40) with 40%nat. change (Z.to_nat 48) with 48%nat. change (Z.to_nat 88) with 88%nat.
  change (Z.to_nat 28) with 28%nat. change (Z.to_nat 116) with 116%nat.
  change (Z.to_nat 16) with 16%nat. change (Z.to_nat 132) with 132%nat.
  cbn [drop].
  change 147%nat with (3 + (4 + (32 + (48 + (28 + (16 + 16))))))%nat.
  rewrite <- !take_take_drop. rewrite !drop_drop. simpl Nat.add. done.
Qed.

(** ** Properties *)

(** a handshake initiation written into any large enough buffer is 148 bytes
    that peek as type 0x01 and parse back to the same message; bytes of the
    buffer beyond the packet are untouched. *)
Theorem handshake_init_roundtrip b size m o :
  PACKET_HANDSHAKE_INIT_LEN <= size <= Z.of_nat (length b) → init_ok m →
  ∃ b', packet_serialize_handshake_init (Some b) size (Some m)
          = Some (PACKET_HANDSHAKE_INIT_LEN, Some b') ∧
        packet_peek_type (Some b') PACKET_HANDSHAKE_INIT_LEN = Some PACKET_TYPE_HANDSHAKE_INIT ∧
        packet_parse_handshake_init (Some b') PACKET_HANDSHAKE_INIT_LEN (Some o)
          = Some (0, Some m) ∧
        drop 148 b' = drop 148 b ∧ length b' = length b.
Proof.
  intros [Hs Hb] Hm. eexists. split; [by apply serialize_init_eq|].
  split; [done|]. split; [by apply parse_init_wire|].
  destruct Hm as [Hi He Hst Hts Hm1 Hm2]. unfold init_wire, PACKET_HANDSHAKE_INIT_LEN in *.
  split; [|len]. apply drop_app_length'. len.
Qed.

Lemma handshake_init_roundtrip_witness :
  let m := mk_handshake_init 0x12345678 (replicate 32 0xAA) (replicate 48 0xBB)
             (replicate 28 0xCC) (replicate 16 0xDD) (replicate 16 0xEE) in
  ∃ b', packet_serialize_handshake_init (Some (replicate 164 7)) 164 (Some m)
          = Some (PACKET_HANDSHAKE_INIT_LEN, Some b') ∧
        packet_peek_type (Some b') PACKET_HANDSHAKE_INIT_LEN = Some PACKET_TYPE_HANDSHAKE_INIT ∧
        packet_parse_handshake_init (Some b') PACKET_HANDSHAKE_INIT_LEN (Some m)
          = Some (0, Some m) ∧
        drop 148 b' = drop 148 (replicate 164 7) ∧ length b' = length (replicate 164 7).
Proof. apply handshake_init_roundtrip; [by vm_compute|by constructor]. Defined.

(** the same round trip for a handshake response of 92 bytes. *)
Theorem handshake_resp_roundtrip b size m o :
  PACKET_HANDSHAKE_RESP_LEN <= size <= Z.of_nat (length b) → resp_ok m →
  ∃ b', packet_serialize_handshake_resp (Some b) size (Some m)
          = Some (PACKET_HANDSHAKE_RESP_LEN, Some b') ∧
        packet_peek_type (Some b') PACKET_HANDSHAKE_RESP_LEN = Some PACKET_TYPE_HANDSHAKE_RESP ∧
        packet_parse_handshake_resp (Some b') PACKET_HANDSHAKE_RESP_LEN (Some o)
          = Some (0, Some m) ∧
        drop 92 b' = drop 92 b ∧ length b' = length b.
Proof.
  intros [Hs Hb] Hm. eexists. split; [by apply serialize_resp_eq|].
  split; [done|]. split; [by apply parse_resp_wire|].
  destruct Hm as [Hi Hr He Hn Hm1 Hm2]. unfold resp_wire, PACKET_HANDSHAKE_RESP_LEN in *.
  split; [|len]. apply drop_app_length'. len.
Qed.

Lemma handshake_resp_roundtrip_witness :
  let m := mk_handshake_resp 0x11223344 0x55667788 (replicate 32 0x11)
             (replicate 16 0x22) (replicate 16 0x33) (replicate 16 0x44) in
  ∃ b', packet_serialize_handshake_resp (Some (replicate 92 0)) 92 (Some m)
          = Some (PACKET_HANDSHAKE_RESP_LEN, Some b') ∧
        packet_peek_type (Some b') PACKET_HANDSHAKE_RESP_LEN = Some PACKET_TYPE_HANDSHAKE_RESP ∧
        packet_parse_handshake_resp (Some b') PACKET_HANDSHAKE_RESP_LEN (Some m)
          = Some (0, Some m) ∧
        drop 92 b' = drop 92 (replicate 92 0) ∧ length b' = length (replicate 92 0).
Proof. apply handshake_resp_roundtrip; [by vm_compute|by constructor]. Defined.

(** C27: a data or keepalive packet of at most 1440 ciphertext bytes is parsed back
    with its receiver index and counter, and the two zero-copy pointers lead to
    exactly the ciphertext and the tag that were written. *)
Theorem data_packet_roundtrip b size receiver counter ct tag o :
  length tag = 16%nat → Z.of_nat (length ct) <= PACKET_DATA_MAX_PAYLOAD →
  Z.of_nat (length ct) + 32 <= size <= Z.of_nat (length b) → size < 2 ^ 31 →
  is_u32 receiver → is_u64 counter →
  ∃ b' d, packet_serialize_data (Some b) size receiver counter (Some ct)
            (Z.of_nat (length ct)) (Some tag) = Some (Z.of_nat (length ct) + 32, Some b') ∧
          packet_parse_data (Some b') (Z.of_nat (length ct) + 32) (Some o) = Some (0, Some d) ∧
          pd_receiver_index d = receiver ∧ pd_counter d = counter ∧ data_view b' d ct tag.
Proof.
  intros Ht Hmax [Hs Hb] H31 Hr Hc.
  destruct (parse_data_wire receiver counter ct tag (drop (length ct + 32) b) o
              (Z.of_nat (length ct))) as (d & Hp & ? & ? & Hv); [done..|].
  eexists _, d. split; [apply serialize_data_eq; try done|eauto].
  left. exists []. by rewrite app_nil_r.
Qed.

Lemma data_packet_roundtrip_witness :
  ∃ b' d, packet_serialize_data (Some (replicate 2048 0)) 2048 0xDEADBEEF 0x0123456789ABCDEF
            (Some (replicate 100 0x5A)) 100 (Some (replicate 16 0x7E)) = Some (132, Some b') ∧
          packet_parse_data (Some b') 132 (Some (mk_packet_data 0 0 None 0 0)) = Some (0, Some d) ∧
          pd_receiver_index d = 0xDEADBEEF ∧ pd_counter d = 0x0123456789ABCDEF ∧
          data_view b' d (replicate 100 0x5A) (replicate 16 0x7E).
Proof.
  by apply (data_packet_roundtrip (replicate 2048 0) 2048 0xDEADBEEF 0x0123456789ABCDEF
    (replicate 100 0x5A) (replicate 16 0x7E)); vm_compute.
Defined.

(** C28: whatever bytes arrive, and whatever length not above the buffer's is
    claimed, none of the three parsers reads outside the buffer; each returns one
    of its documented codes and leaves the output struct alone on error. *)
Theorem parsers_total_on_untrusted_input (b : bytes) (n : Z) oi orr od :
  n <= Z.of_nat (length b) →
  parser_safe [0; - EBADMSG] (Some oi) (packet_parse_handshake_init (Some b) n (Some oi)) ∧
  parser_safe [0; - EBADMSG] (Some orr) (packet_parse_handshake_resp (Some b) n (Some orr)) ∧
  parser_safe [0; - EBADMSG; - EMSGSIZE] (Some od) (packet_parse_data (Some b) n (Some od)).
Proof. intros. split_and!; [by apply parse_init_safe|by apply parse_resp_safe|by apply parse_data_safe]. Qed.

Lemma parsers_total_on_untrusted_input_witness :
  let b := [3; 255; 255; 255; 1; 2; 3; 4] ++ replicate 30 9 in
  let oi := mk_handshake_init 0 [] [] [] [] [] in
  let orr := mk_handshake_resp 0 0 [] [] [] [] in
  let od := mk_packet_data 0 0 None 0 0 in
  parser_safe [0; - EBADMSG] (Some oi) (packet_parse_handshake_init (Some b) 38 (Some oi)) ∧
  parser_safe [0; - EBADMSG] (Some orr) (packet_parse_handshake_resp (Some b) 38 (Some orr)) ∧
  parser_safe [0; - EBADMSG; - EMSGSIZE] (Some od) (packet_parse_data (Some b) 38 (Some od)).
Proof. apply parsers_total_on_untrusted_input. by vm_compute. Defined.

(** a successful initiation parse loses only the three reserved bytes: the
    packet is the type byte, those bytes, and the serialised fields. *)
Theorem parse_init_lossless b o m :
  bytes_ok b → length b = 148%nat →
  packet_parse_handshake_init (Some b) PACKET_HANDSHAKE_INIT_LEN (Some o) = Some (0, Some m) →
  init_ok m ∧ b = (1 :: take 3 (drop 1 b)) ++ drop 4 (init_wire m).
Proof.
  intros Hb Hl Hp. destruct (parse_init_inv b o m Hb Hp) as [Hm Hw]; [lia|].
  split; [done|]. by rewrite take_ge in Hw by lia.
Qed.

Lemma parse_init_lossless_witness :
  let b := [1; 9; 8; 7] ++ replicate 144 5 in
  let m := mk_handshake_init 0x05050505 (replicate 32 5) (replicate 48 5)
             (replicate 28 5) (replicate 16 5) (replicate 16 5) in
  init_ok m ∧ b = (1 :: take 3 (drop 1 b)) ++ drop 4 (init_wire m).
Proof.
  apply (parse_init_lossless _ (mk_handshake_init 0 [] [] [] [] []));
    [by repeat constructor|done|by vm_compute].
Defined.

(** the data parser accepts exactly the packets of 32 to 1472 bytes whose
    first byte is 0x03 or 0x04, and then header, ciphertext and tag tile the
    packet: 16 + ciphertext_len + 16 = len with the tag last. *)
Theorem parse_data_accepts (b : bytes) (n t : Z) o :
  n <= Z.of_nat (length b) → b.[0] = Some t →
  ((∃ d, packet_parse_data (Some b) n (Some o) = Some (0, Some d)) ↔
   32 <= n <= 1472 ∧ (t = 3 ∨ t = 4)) ∧
  (∀ d, packet_parse_data (Some b) n (Some o) = Some (0, Some d) →
     pd_ciphertext_len d = n - 32 ∧ pd_auth_tag d = n - 16 ∧
     pd_ciphertext d = if n >? 32 then Some 16 else NULL).
Proof.
  intros Hl Ht. unfold packet_parse_data. rewrite Ht. change PACKET_DATA_MIN_LEN with 32.
  change PACKET_DATA_MAX_LEN with 1472. change PACKET_DATA_HEADER_LEN with 16. bind_simpl.
  destruct (n <? 32) eqn:E1; bool_to_prop.
  { split; [split; [intros (d & [=])|lia]|intros d [=]]. }
  destruct (n >? 1472) eqn:E2; bool_to_prop.
  { split; [split; [intros (d & [=])|lia]|intros d [=]]. }
  destruct (negb _ && negb _) eqn:E3.
  { cbn in E3. bool_to_prop. split; [split; [intros (d & [=])|lia]|intros d [=]]. }
  cbn in E3. destruct (le32_read_in b 4) as [r Hr]; [lia..|]. rewrite Hr. bind_simpl.
  destruct (le64_read_in b 8) as [c Hc]; [lia..|]. rewrite Hc. bind_simpl.
  rewrite u64_small by len. split.
  - split; [intros _; split; lia|]. intros _. by eexists.
  - intros d [= <-]. cbn. split_and!; [done|lia|].
    replace (n >? 32) with (n - 32 >? 0) by lia. done.
Qed.

Lemma parse_data_accepts_witness :
  let b := [4; 0; 0; 0] ++ replicate 28 1 in
  let o := mk_packet_data 0 0 None 0 0 in
  ((∃ d, packet_parse_data (Some b) 32 (Some o) = Some (0, Some d)) ↔
   32 <= 32 <= 1472 ∧ (4 = 3 ∨ 4 = 4)) ∧
  (∀ d, packet_parse_data (Some b) 32 (Some o) = Some (0, Some d) →
     pd_ciphertext_len d = 32 - 32 ∧ pd_auth_tag d = 32 - 16 ∧
     pd_ciphertext d = if 32 >? 32 then Some 16 else NULL).
Proof. by apply (parse_data_accepts ([4; 0; 0; 0] ++ replicate 28 1) 32 4). Defined.
