(* ===== verification/Words.v ===== *)
(** * Words and bytes ([private/common.h] of libsodium)

    Rotations, and loads and stores of little-endian words; the value of a
    little-endian byte string, and arrays of words against the bytes they are
    loaded from. *)

From S2P Require Import Prelude Packet.
Local Open Scope c_scope.

Definition rotl32 (x b : Z) : Z := u32 (x ≪ b) |' (x ≫ (32 - b)).
Definition rotr64 (x b : Z) : Z := (x ≫ b) |' u64 (x ≪ (64 - b)).

Definition load32_le (src : bytes) (o : Z) : option Z :=
  s0 ← src.[o]; s1 ← src.[o + 1]; s2 ← src.[o + 2]; s3 ← src.[o + 3];
  Some (s0 |' u32 (s1 ≪ 8) |' u32 (s2 ≪ 16) |' u32 (s3 ≪ 24)).

Definition load64_le (src : bytes) (o : Z) : option Z :=
  s0 ← src.[o]; s1 ← src.[o + 1]; s2 ← src.[o + 2]; s3 ← src.[o + 3];
  s4 ← src.[o + 4]; s5 ← src.[o + 5]; s6 ← src.[o + 6]; s7 ← src.[o + 7];
  Some (s0 |' u64 (s1 ≪ 8) |' u64 (s2 ≪ 16) |' u64 (s3 ≪ 24)
        |' u64 (s4 ≪ 32) |' u64 (s5 ≪ 40) |' u64 (s6 ≪ 48) |' u64 (s7 ≪ 56)).

Definition store32_le (dst : bytes) (o w : Z) : option bytes :=
  dst ← wr dst o (u8 w); let w := w ≫ 8 in
  dst ← wr dst (o + 1) (u8 w); let w := w ≫ 8 in
  dst ← wr dst (o + 2) (u8 w); let w := w ≫ 8 in
  wr dst (o + 3) (u8 w).

Definition store64_le (dst : bytes) (o w : Z) : option bytes :=
  dst ← wr dst o (u8 w); let w := w ≫ 8 in
  dst ← wr dst (o + 1) (u8 w); let w := w ≫ 8 in
  dst ← wr dst (o + 2) (u8 w); let w := w ≫ 8 in
  dst ← wr dst (o + 3) (u8 w); let w := w ≫ 8 in
  dst ← wr dst (o + 4) (u8 w); let w := w ≫ 8 in
  dst ← wr dst (o + 5) (u8 w); let w := w ≫ 8 in
  dst ← wr dst (o + 6) (u8 w); let w := w ≫ 8 in
  wr dst (o + 7) (u8 w).

Definition xor_buf (out inp : bytes) (n : Z) : option bytes :=
  for_range (Z.to_nat n) (λ i out,
    x ← out.[Z.of_nat i]; y ← inp.[Z.of_nat i]; wr out (Z.of_nat i) (x ^' y)) out.

(** The value of a little-endian byte string. *)
Fixpoint le_val (b : bytes) : Z :=
  match b with
  | [] => 0
  | x :: b => x + 256 * le_val b
  end.

(** ** Rotations *)

Lemma rotl32_uint x b : 0 <= b <= 32 → is_u32 x → is_u32 (rotl32 x b).
Proof. intros Hb Hx. apply lor_uint; [lia|apply u32_uint|]. apply shiftr_uint; [lia|lia|done]. Qed.

Lemma rotr64_uint x b : 0 <= b <= 64 → is_u64 x → is_u64 (rotr64 x b).
Proof. intros Hb Hx. apply lor_uint; [lia| |apply u64_uint]. apply shiftr_uint; [lia|lia|done]. Qed.

(** ** Loads and stores *)

Lemma u8_mask w : u8 (w &' 0xFF) = u8 w.
Proof. unfold u8. apply Z.bits_inj'. intros i Hi. repeat bits_step. by destruct (i <? 8); rewrite ?andb_true_r. Qed.

Lemma load32_le_eq b o : load32_le b o = le32_read b o.
Proof. done. Qed.
Lemma load64_le_eq b o : load64_le b o = le64_read b o.
Proof. done. Qed.
Lemma store32_le_eq b o w : store32_le b o w = le32_write b o w.
Proof. unfold store32_le, le32_write. cbv zeta. by rewrite !Z.shiftr_shiftr, !u8_mask by lia. Qed.
Lemma store64_le_eq b o w : store64_le b o w = le64_write b o w.
Proof. unfold store64_le, le64_write. cbv zeta. by rewrite !Z.shiftr_shiftr, !u8_mask by lia. Qed.

(** ** Values *)

Lemma le_val_app a b : le_val (a ++ b) = le_val a + 2 ^ (8 * Z.of_nat (length a)) * le_val b.
Proof.
  induction a as [|x a IH]; [cbn [app le_val length]; lia|]. cbn [app le_val length]. rewrite IH.
  replace (2 ^ (8 * Z.of_nat (S (length a)))) with (256 * 2 ^ (8 * Z.of_nat (length a))).
  - ring.
  - replace (8 * Z.of_nat (S (length a))) with (8 + 8 * Z.of_nat (length a)) by lia.
    by rewrite Z.pow_add_r by lia.
Qed.

Lemma le_val_bound b : bytes_ok b → 0 <= le_val b < 2 ^ (8 * Z.of_nat (length b)).
Proof.
  induction 1 as [|x b Hx _ IH]; [done|]. cbn [le_val length].
  replace (8 * Z.of_nat (S (length b))) with (8 + 8 * Z.of_nat (length b)) by lia.
  rewrite Z.pow_add_r by lia. unfold is_uint in Hx. change (2 ^ 8) with 256 in *. lia.
Qed.

Lemma le_val_zero b : bytes_ok b → le_val b = 0 ↔ b = replicate (length b) 0.
Proof.
  induction 1 as [|x b Hx Hb IH]; [done|]. cbn [le_val length replicate]. unfold is_uint in Hx.
  pose proof (le_val_bound b Hb). split; intros E.
  - assert (x = 0) as -> by lia. f_equal. apply IH. lia.
  - injection E as -> E. apply IH in E. lia.
Qed.

Lemma lor_shift_add a b k : 0 <= k → 0 <= a < 2 ^ k → a |' (b ≪ k) = a + b * 2 ^ k.
Proof.
  intros Hk Ha. rewrite <- Z.shiftl_mul_pow2 by done. symmetry.
  rewrite <- Z.lxor_lor, Z.add_nocarry_lxor; [done|..]; apply Z.bits_inj'; intros i Hi;
    rewrite Z.land_spec, Z.bits_0, Z.shiftl_spec by lia;
    (destruct (decide (i < k)); [by rewrite (Z.testbit_neg_r b) by lia; rewrite andb_false_r|];
     by rewrite (uint_bit_high k a i) by (done || lia)).
Qed.

Lemma byte_shift_uint b k w : is_u8 b → 0 <= k → k + 8 <= w → is_uint w (b ≪ k).
Proof.
  intros [H0 H1] Hk Hw. rewrite Z.shiftl_mul_pow2 by done. split; [lia|].
  apply (Z.lt_le_trans _ (2 ^ 8 * 2 ^ k)); [nia|]. rewrite <- Z.pow_add_r by lia.
  apply Z.pow_le_mono_r; lia.
Qed.

Lemma le32_read_val b o d : slice b o 4 = Some d → bytes_ok d → le32_read b o = Some (le_val d).
Proof.
  intros Hs Hd. pose proof (slice_length _ _ _ _ Hs) as Hl.
  destruct d as [|b0 [|b1 [|b2 [|b3 [|]]]]]; try (simpl in Hl; lia).
  rewrite !Forall_cons in Hd. destruct Hd as (H0 & H1 & H2 & H3 & _).
  rewrite (le32_read_slice _ _ _ _ _ _ Hs). f_equal. cbn [le_val].
  rewrite !u32_small by (apply byte_shift_uint; [done|lia..]). unfold is_uint in *.
  rewrite (lor_shift_add _ b1), (lor_shift_add _ b2), (lor_shift_add _ b3); lia.
Qed.

Lemma le64_read_val b o d : slice b o 8 = Some d → bytes_ok d → le64_read b o = Some (le_val d).
Proof.
  intros Hs Hd. pose proof (slice_length _ _ _ _ Hs) as Hl.
  destruct d as [|b0 [|b1 [|b2 [|b3 [|b4 [|b5 [|b6 [|b7 [|]]]]]]]]]; try (simpl in Hl; lia).
  rewrite !Forall_cons in Hd. destruct Hd as (H0 & H1 & H2 & H3 & H4 & H5 & H6 & H7 & _).
  rewrite (le64_read_slice _ _ _ _ _ _ _ _ _ _ Hs). f_equal. cbn [le_val].
  rewrite !u64_small by (apply byte_shift_uint; [done|lia..]). unfold is_uint in *.
  rewrite (lor_shift_add _ b1), (lor_shift_add _ b2), (lor_shift_add _ b3), (lor_shift_add _ b4),
    (lor_shift_add _ b5), (lor_shift_add _ b6), (lor_shift_add _ b7); lia.
Qed.

Lemma le32_bytes_val d : length d = 4%nat → bytes_ok d → le32_bytes (le_val d) = d.
Proof.
  intros Hl Hd. destruct (le32_bytes_read d 0 d) as (v & Hv & _ & Hb); [apply slice_all; lia|done|].
  rewrite (le32_read_val d 0 d) in Hv; [congruence|apply slice_all; lia|done].
Qed.
Lemma le64_bytes_val d : length d = 8%nat → bytes_ok d → le64_bytes (le_val d) = d.
Proof.
  intros Hl Hd. destruct (le64_bytes_read d 0 d) as (v & Hv & _ & Hb); [apply slice_all; lia|done|].
  rewrite (le64_read_val d 0 d) in Hv; [congruence|apply slice_all; lia|done].
Qed.
Lemma le_val_le32 v : is_u32 v → le_val (le32_bytes v) = v.
Proof.
  intros Hv. pose proof (le32_read_bytes (le32_bytes v) 0 v Hv (slice_all (le32_bytes v) 4 eq_refl)) as H.
  rewrite (le32_read_val _ 0 (le32_bytes v)) in H by (apply le32_bytes_ok || by apply slice_all). congruence.
Qed.
Lemma le_val_le64 v : is_u64 v → le_val (le64_bytes v) = v.
Proof.
  intros Hv. pose proof (le64_read_bytes (le64_bytes v) 0 v Hv (slice_all (le64_bytes v) 8 eq_refl)) as H.
  rewrite (le64_read_val _ 0 (le64_bytes v)) in H by (apply le64_bytes_ok || by apply slice_all). congruence.
Qed.

(** ** Arrays of words *)

(** [w]-byte words at [off], [off + w], ... *)
Definition loads (load : bytes → Z → option Z) (w : Z) (n : nat) (b : bytes) (off : Z) : option (list Z) :=
  mapM (λ i, load b (off + w * Z.of_nat i)) (seq 0 n).
Definition stores (store : bytes → Z → Z → option bytes) (w : Z) (xs : list Z) (b : bytes) (off : Z)
    : option bytes :=
  for_range (length xs) (λ i b, x ← xs.[Z.of_nat i]; store b (off + w * Z.of_nat i) x) b.

(** The words of a byte string, [w] bytes each. *)
Fixpoint words (w n : nat) (b : bytes) : list Z :=
  match n with
  | O => []
  | S n => le_val (take w b) :: words w n (drop w b)
  end.

Lemma words_length w n b : length (words w n b) = n.
Proof. revert b. induction n as [|n IH]; intros b; cbn; [done|by rewrite IH]. Qed.

Lemma words_lookup w n b i : (i < n)%nat → words w n b !! i = Some (le_val (take w (drop (w * i) b))).
Proof.
  revert b i. induction n as [|n IH]; intros b i Hi; [lia|]. destruct i as [|i]; cbn [words lookup list_lookup].
  - by rewrite Nat.mul_0_r.
  - change ((le_val (take w b) :: words w n (drop w b)) !! S i) with (words w n (drop w b) !! i).
    rewrite IH by lia. by rewrite drop_drop, Nat.mul_succ_r, Nat.add_comm.
Qed.

Lemma words_app w n b rest : length b = (w * n)%nat → words w n (b ++ rest) = words w n b.
Proof.
  revert b. induction n as [|n IH]; intros b Hl; [done|]. cbn [words].
  rewrite take_app_le, drop_app_le by lia. f_equal. apply IH. rewrite length_drop. lia.
Qed.

Lemma words_uint w n b : bytes_ok b → length b = (w * n)%nat →
  Forall (is_uint (8 * Z.of_nat w)) (words w n b).
Proof.
  revert b. induction n as [|n IH]; intros b Hb Hl; cbn [words]; constructor.
  - pose proof (le_val_bound (take w b) (Forall_take _ _ _ Hb)) as H.
    rewrite length_take in H. by replace (w `min` length b)%nat with w in H by lia.
  - apply IH; [by apply Forall_drop|rewrite length_drop; lia].
Qed.

Section arrays.
Context (load : bytes → Z → option Z) (w : nat).
Hypothesis (Hload : ∀ b o d, slice b o (Z.of_nat w) = Some d → bytes_ok d → load b o = Some (le_val d)).

Lemma loads_words n b off : bytes_ok b → 0 <= off → off + Z.of_nat (w * n) <= Z.of_nat (length b) →
  loads load (Z.of_nat w) n b off = Some (words w n (drop (Z.to_nat off) b)).
Proof.
  intros Hb Ho Hl. unfold loads. apply mapM_Some. apply Forall2_same_length_lookup_2.
  - by rewrite words_length, length_seq.
  - intros i x y Hx Hy. apply lookup_seq in Hx as [-> Hi]. rewrite words_lookup in Hy by done.
    injection Hy as <-. cbn [Nat.add].
    assert (w * i + w <= w * n)%nat by (rewrite <- Nat.mul_succ_r; apply Nat.mul_le_mono_l; lia).
    apply Hload; [|by apply Forall_take, Forall_drop, Forall_drop].
    rewrite slice_ok by lia. rewrite drop_drop. do 3 f_equal; lia.
Qed.
End arrays.

Section array_stores.
Context (store : bytes → Z → Z → option bytes) (enc : Z → bytes) (w : nat).
Hypothesis (Henc : ∀ v, length (enc v) = w).
Hypothesis (Hstore : ∀ pre mid post o v, Z.of_nat (length pre) = o → length mid = w →
  store (pre ++ mid ++ post) o v = Some (pre ++ enc v ++ post)).

Lemma bind_enc_length xs : length (xs ≫= enc) = (w * length xs)%nat.
Proof.
  induction xs as [|x xs IH]; [cbn; lia|]. change ((x :: xs) ≫= enc) with (enc x ++ (xs ≫= enc)).
  rewrite length_app, IH, Henc. cbn [length]. lia.
Qed.

Lemma stores_words xs pre mid post off : Z.of_nat (length pre) = off → length mid = (w * length xs)%nat →
  stores store (Z.of_nat w) xs (pre ++ mid ++ post) off = Some (pre ++ (xs ≫= enc) ++ post).
Proof.
  intros Hp Hm. unfold stores.
  destruct (for_range_inv (λ i b, b = pre ++ (take i xs ≫= enc) ++ drop (w * i) mid ++ post) (length xs)
    (λ i b, x ← xs.[Z.of_nat i]; store b (off + Z.of_nat w * Z.of_nat i) x) (pre ++ mid ++ post))
    as (b & -> & ->).
  - by rewrite Nat.mul_0_r, drop_0.
  - intros i b Hi ->. rewrite rd_nat. destruct (lookup_lt_is_Some_2 xs i Hi) as [x Hx]. rewrite Hx. bind_simpl.
    assert (w * i + w <= w * length xs)%nat by (rewrite <- Nat.mul_succ_r; apply Nat.mul_le_mono_l; lia).
    eexists. split; [|reflexivity].
    replace (drop (w * i) mid) with (take w (drop (w * i) mid) ++ drop (w * S i) mid)
      by (rewrite Nat.mul_succ_r, <- drop_drop; apply take_drop).
    rewrite <- (app_assoc (take w _)), (app_assoc pre), Hstore.
    + rewrite (take_S_r xs i x Hx), bind_app. cbn. by rewrite app_nil_r, <- !app_assoc.
    + rewrite length_app, bind_enc_length, length_take. nia.
    + rewrite length_take, length_drop. lia.
  - by rewrite take_ge, drop_ge by lia.
Qed.
End array_stores.

(** ** Messages in blocks *)

(** The blocks of [n] bytes of a message, the last one perhaps shorter. *)
Fixpoint chunks_fuel (fuel n : nat) (l : bytes) : list bytes :=
  match fuel, l with
  | O, _ | _, [] => []
  | S fuel, _ => take n l :: chunks_fuel fuel n (drop n l)
  end.
Definition chunks (n : nat) (l : bytes) : list bytes := chunks_fuel (length l) n l.

Section chunks.
Variable (n : nat).
Hypothesis (Hn : (0 < n)%nat).

Lemma chunks_fuel_enough fuel l : (length l <= fuel)%nat → chunks_fuel fuel n l = chunks n l.
Proof.
  enough (∀ k fuel l, length l <= k → length l <= fuel → chunks_fuel fuel n l = chunks_fuel k n l)%nat
    as H by (intros; by apply H).
  clear fuel l. induction k as [|k IH]; intros fuel l Hk Hf.
  - by destruct l; [destruct fuel|simpl in Hk; lia].
  - destruct fuel as [|fuel], l as [|x l]; cbn [chunks_fuel]; try done; [simpl in Hf; lia|].
    f_equal. cbn [length] in *. apply IH; rewrite length_drop; cbn [length]; lia.
Qed.

Lemma chunks_cons b l : length b = n → chunks n (b ++ l) = b :: chunks n l.
Proof.
  intros Hb. unfold chunks at 1. rewrite length_app. destruct b as [|x b]; [simpl in Hb; lia|].
  cbn [app length Nat.add chunks_fuel]. change (x :: b ++ l) with ((x :: b) ++ l).
  rewrite take_app_length', drop_app_length' by done. f_equal. apply chunks_fuel_enough. lia.
Qed.

Lemma chunks_last b : (0 < length b <= n)%nat → chunks n b = [b].
Proof.
  intros Hb. unfold chunks. destruct b as [|x b]; [simpl in Hb; lia|].
  cbn [length chunks_fuel]. rewrite take_ge, drop_ge by (cbn [length] in *; lia). by destruct (length b).
Qed.

Lemma chunks_app k a l : length a = (n * k)%nat → chunks n (a ++ l) = chunks n a ++ chunks n l.
Proof.
  revert a. induction k as [|k IH]; intros a Ha; [destruct a; [done|simpl in Ha; lia]|].
  rewrite <- (take_drop n a), <- app_assoc.
  rewrite (chunks_cons (take n a) (drop n a ++ l)), (chunks_cons (take n a) (drop n a))
    by (rewrite length_take; lia).
  cbn [app]. f_equal. apply IH. rewrite length_drop. lia.
Qed.
End chunks.
