(* ===== verification/Libc.v ===== *)
(** * The C library functions on strings that the sources call

    A C string is the list of its bytes before the terminating NUL.  [strtoul]
    and [strtol] saturate as glibc's do on a 64-bit [long]; [sscanf]'s [%u] and
    [%02x] are those conversions stored into an [unsigned int], and [atoi] is
    [strtol] converted to [int]. *)

From stdpp Require Import strings.
From S2P Require Import Prelude.
Local Open Scope c_scope.

(** Bytes of a Rocq string literal. *)
Fixpoint of_string (s : string) : bytes :=
  match s with
  | EmptyString => []
  | String a s => Z.of_N (Ascii.N_of_ascii a) :: of_string s
  end.

Definition is_space (c : Z) : bool := (c =? 32) || ((9 <=? c) && (c <=? 13)).
Definition is_digit (c : Z) : bool := (48 <=? c) && (c <=? 57).

Fixpoint skip_space (s : bytes) : bytes :=
  match s with
  | c :: t => if is_space c then skip_space t else s
  | [] => []
  end.

(** An optional sign: whether it was a minus, and the rest. *)
Definition scan_sign (s : bytes) : bool * bytes :=
  match s with
  | c :: t => if c =? 45 then (true, t) else if c =? 43 then (false, t) else (false, s)
  | [] => (false, [])
  end.

Fixpoint scan_digits (acc : Z) (s : bytes) : Z * bytes :=
  match s with
  | c :: t => if is_digit c then scan_digits (acc * 10 + (c - 48)) t else (acc, s)
  | [] => (acc, [])
  end.

(** The value [strtoul] gives a magnitude that was read with a sign. *)
Definition strtoul_value (neg : bool) (v : Z) : Z :=
  if 2 ^ 64 <=? v then 2 ^ 64 - 1 else if neg then u64 (- v) else v.

Definition strtol_value (neg : bool) (v : Z) : Z :=
  if neg then (if 2 ^ 63 <=? v then - 2 ^ 63 else - v)
  else (if 2 ^ 63 <=? v then 2 ^ 63 - 1 else v).

(** [%u]: blanks, an optional sign, at least one digit. *)
Definition scan_u (s : bytes) : option (Z * bytes) :=
  let '(neg, t) := scan_sign (skip_space s) in
  match t with
  | c :: _ =>
      if is_digit c then let '(v, r) := scan_digits 0 t in Some (u32 (strtoul_value neg v), r)
      else None
  | [] => None
  end.

(** A literal character of a format. *)
Definition scan_char (c : Z) (s : bytes) : option bytes :=
  match s with
  | x :: t => if x =? c then Some t else None
  | [] => None
  end.

Definition atoi (s : bytes) : Z :=
  let '(neg, t) := scan_sign (skip_space s) in
  s32 (strtol_value neg (scan_digits 0 t).1).

(** Index of the first (last) occurrence of a character. *)
Fixpoint strchr (s : bytes) (c : Z) : option nat :=
  match s with
  | x :: t => if x =? c then Some 0%nat else S <$> strchr t c
  | [] => None
  end.

Fixpoint strrchr (s : bytes) (c : Z) : option nat :=
  match s with
  | x :: t =>
      match strrchr t c with
      | Some n => Some (S n)
      | None => if x =? c then Some 0%nat else None
      end
  | [] => None
  end.

(** [snprintf(buf, size, ...)] of the formatted text [s]: the text cut to
    [size - 1] bytes and a NUL are stored, the full length is returned. *)
Definition snprintf (buf : bytes) (size : Z) (s : bytes) : option (Z * bytes) :=
  if size =? 0 then Some (Z.of_nat (length s), buf)
  else b ← blit buf 0 (take (Z.to_nat (size - 1)) s ++ [0]);
       Some (Z.of_nat (length s), b).

(** [%u] of an [unsigned int]: ten digits are enough. *)
Fixpoint dec_digits (fuel : nat) (n : Z) : bytes :=
  match fuel with
  | O => []
  | S k => if n <? 10 then [48 + n] else dec_digits k (n / 10) ++ [48 + n mod 10]
  end.

Definition dec (n : Z) : bytes := dec_digits 10 n.
Arguments dec : simpl never.

(** ** Printing then scanning a number *)

Definition starts_digit (s : bytes) : bool :=
  match s with c :: _ => is_digit c | [] => false end.

Lemma scan_digits_app acc ds s : Forall (λ c, is_digit c = true) ds →
  scan_digits acc (ds ++ s) = scan_digits (foldl (λ a c, a * 10 + (c - 48)) acc ds) s.
Proof. intros H. revert acc. induction H as [|c ds Hc _ IH]; intros; simpl; [done|by rewrite Hc]. Qed.

Lemma scan_digits_stop acc s : starts_digit s = false → scan_digits acc s = (acc, s).
Proof. destruct s as [|c s]; simpl; [done|]. by intros ->. Qed.

Lemma dec_digits_spec k n : 0 <= n < 10 ^ Z.of_nat (S k) →
  Forall (λ c, is_digit c = true) (dec_digits (S k) n) ∧
  dec_digits (S k) n ≠ [] ∧
  ∀ a, ∃ p, foldl (λ a c, a * 10 + (c - 48)) a (dec_digits (S k) n) = a * p + n.
Proof.
  revert n. induction k as [|k IH]; intros n Hn.
  - simpl in Hn. cbn [dec_digits]. test_true (n <? 10). split_and!.
    + repeat constructor. unfold is_digit. lia.
    + done.
    + intros a. exists 10. simpl. lia.
  - cbn [dec_digits]. destruct (Z.ltb_spec n 10) as [Hlt|Hge].
    + split_and!; [|done|].
      * repeat constructor. unfold is_digit. lia.
      * intros a. exists 10. simpl. lia.
    + pose proof (Z.div_mod n 10). pose proof (Z.mod_pos_bound n 10).
      destruct (IH (n / 10)) as (Hd & Hne & Hf).
      { split; [apply Z.div_pos; lia|]. apply Z.div_lt_upper_bound; [lia|].
        rewrite <- Z.pow_succ_r by lia. rewrite <- Nat2Z.inj_succ. lia. }
      split_and!.
      * apply Forall_app. split; [done|]. repeat constructor. unfold is_digit. lia.
      * by intros [? ?]%app_eq_nil.
      * intros a. destruct (Hf a) as [p Hp]. exists (p * 10).
        rewrite foldl_app. cbn [dec_digits] in Hp. rewrite Hp. simpl. lia.
Qed.

Lemma dec_spec n : is_u32 n →
  Forall (λ c, is_digit c = true) (dec n) ∧ dec n ≠ [] ∧
  foldl (λ a c, a * 10 + (c - 48)) 0 (dec n) = n.
Proof.
  intros Hn. destruct (dec_digits_spec 9 n) as (H1 & H2 & H3).
  { unfold is_uint in Hn. change (10 ^ Z.of_nat 10) with 10000000000. lia. }
  split_and!; [done..|]. destruct (H3 0) as [p Hp]. unfold dec. lia.
Qed.

Lemma digit_not_space_sign c : is_digit c = true →
  is_space c = false ∧ (c =? 45) = false ∧ (c =? 43) = false.
Proof. unfold is_digit, is_space. lia. Qed.

Lemma scan_u_dec n s : is_u32 n → starts_digit s = false →
  scan_u (dec n ++ s) = Some (n, s).
Proof.
  intros Hn Hs. destruct (dec_spec n Hn) as (Hd & Hne & Hf).
  unfold scan_u. destruct (dec n) as [|c ds] eqn:E; [done|].
  pose proof Hd as Hd'. apply Forall_cons in Hd' as [Hc _].
  destruct (digit_not_space_sign c Hc) as (H1 & H2 & H3).
  simpl skip_space. rewrite H1. simpl scan_sign. rewrite H2, H3.
  change (c :: ds ++ s) with ((c :: ds) ++ s).
  cbn [app]. rewrite Hc. change (c :: ds ++ s) with ((c :: ds) ++ s).
  rewrite scan_digits_app by done. rewrite scan_digits_stop by done. rewrite Hf.
  unfold strtoul_value. test_false (2 ^ 64 <=? n). by rewrite u32_small.
Qed.

Lemma atoi_dec n s : 0 <= n < 2 ^ 31 → starts_digit s = false → atoi (dec n ++ s) = n.
Proof.
  intros Hn Hs. destruct (dec_spec n) as (Hd & Hne & Hf); [len|].
  unfold atoi. destruct (dec n) as [|c ds] eqn:E; [done|].
  pose proof Hd as Hd'. apply Forall_cons in Hd' as [Hc _].
  destruct (digit_not_space_sign c Hc) as (H1 & H2 & H3).
  simpl skip_space. rewrite H1. simpl scan_sign. rewrite H2, H3.
  change (c :: ds ++ s) with ((c :: ds) ++ s).
  rewrite scan_digits_app by done. rewrite scan_digits_stop by done. rewrite Hf. simpl.
  unfold strtol_value. test_false (2 ^ 63 <=? n). unfold s32. rewrite u32_small by len.
  by test_true (n <? 2 ^ 31).
Qed.

Lemma dec_not_char c n : is_u32 n → is_digit c = false → c ∉ dec n.
Proof.
  intros Hn Hc Hin. destruct (dec_spec n Hn) as (Hd & _ & _).
  rewrite Forall_forall in Hd. by rewrite Hd in Hc.
Qed.

Lemma strchr_app s c t : c ∉ s → strchr (s ++ c :: t) c = Some (length s).
Proof.
  induction s as [|x s IH]; intros Hn; simpl.
  - by rewrite Z.eqb_refl.
  - rewrite not_elem_of_cons in Hn. destruct Hn as [Hx Hs].
    test_false (x =? c). by rewrite IH.
Qed.

Lemma dec_byte_length n : 0 <= n < 256 → (length (dec n) <= 3)%nat.
Proof.
  intros Hn. unfold dec. cbn [dec_digits].
  destruct (Z.ltb_spec n 10); [simpl; lia|].
  destruct (Z.ltb_spec (n / 10) 10); [simpl; lia|].
  assert (n / 10 / 10 < 10) by (rewrite Z.div_div by lia; apply Z.div_lt_upper_bound; lia).
  test_true (n / 10 / 10 <? 10). simpl. lia.
Qed.

Lemma strrchr_none t c : c ∉ t → strrchr t c = None.
Proof.
  induction t as [|x t IH]; intros Hn; simpl; [done|].
  rewrite not_elem_of_cons in Hn. destruct Hn as [Hx Ht]. rewrite IH by done.
  by test_false (x =? c).
Qed.

Lemma strrchr_app s c t : c ∉ t → strrchr (s ++ c :: t) c = Some (length s).
Proof.
  intros Ht. induction s as [|x s IH]; simpl.
  - by rewrite strrchr_none, Z.eqb_refl.
  - by rewrite IH.
Qed.

(** The C string at the start of a buffer; reading one without a NUL runs off it. *)
Fixpoint cstr (b : bytes) : option bytes :=
  match b with
  | [] => None
  | c :: t => if c =? 0 then Some [] else (c ::.) <$> cstr t
  end.

Lemma cstr_Some b : 0 ∈ b → is_Some (cstr b).
Proof.
  induction b as [|c t IH]; intros H; simpl; [by apply not_elem_of_nil in H|].
  destruct (Z.eqb_spec c 0); [eauto|]. apply elem_of_cons in H as [?|H]; [congruence|].
  destruct (IH H) as [s ->]. eauto.
Qed.

Lemma cstr_prefix s t : 0 ∉ s → cstr (s ++ 0 :: t) = Some s.
Proof.
  induction s as [|c s IH]; intros H; simpl; [done|].
  rewrite not_elem_of_cons in H. destruct H as [Hc Hs]. test_false (c =? 0). by rewrite IH.
Qed.
