(* ===== verification/Keyhex.v ===== *)
(** * Keys as hexadecimal text ([src/config.c])

    [sscanf]'s [%02x] skips blanks, then takes at most two characters of an
    optionally signed hexadecimal number; "0x" with no room for a digit is a
    matching failure.  Log lines are left out. *)

From stdpp Require Import strings.
From S2P Require Import Prelude Config Libc Packet.
Local Open Scope c_scope.

Definition hex_val (c : Z) : option Z :=
  if is_digit c then Some (c - 48)
  else if (97 <=? c) && (c <=? 102) then Some (c - 87)
  else if (65 <=? c) && (c <=? 70) then Some (c - 55)
  else None.

(** [sscanf(s, "%02x", &v)]: the value stored when the conversion succeeds. *)
Definition scan_02x (s : bytes) : option Z :=
  let u := skip_space s in
  let '(neg, t) := scan_sign u in
  let signed_ v := if neg : bool then u32 (- v) else v in
  match t with
  | [] => None
  | c :: t' =>
      h ← hex_val c;
      if (length t <? length u)%nat then Some (signed_ h)
      else match t' with
           | [] => Some h
           | d :: _ =>
               if (c =? 48) && ((d =? 120) || (d =? 88)) then None
               else match hex_val d with
                    | Some l => Some (16 * h + l)
                    | None => Some h
                    end
           end
  end.

(** One lower-case digit; [%02x] of a byte. *)
Definition hex_digit (n : Z) : Z := if n <? 10 then 48 + n else 87 + n.
Definition hex2 (b : Z) : bytes := [hex_digit (b / 16); hex_digit (b mod 16)].

(** The loop of [config_parse_key_hex] from index [i], [k] bytes to go. *)
Fixpoint parse_key_from (k i : nat) (hex_str key : bytes) : option (Z * bytes) :=
  match k with
  | O => Some (0, key)
  | S k =>
      match scan_02x (drop (i * 2) hex_str) with
      | None => Some (- EINVAL, key)
      | Some byte_val => key ← wr key (Z.of_nat i) (u8 byte_val); parse_key_from k (S i) hex_str key
      end
  end.

Definition config_parse_key_hex (hex_str key : option bytes) : option (Z * option bytes) :=
  match hex_str, key with
  | Some s, Some k =>
      if negb (length s =? 64)%nat then Some (- EINVAL, key)
      else '(rc, k) ← parse_key_from 32 0 s k; Some (rc, Some k)
  | _, _ => Some (- EINVAL, key)
  end.

Definition config_key_to_hex (key hex_str : option bytes) : option (Z * option bytes) :=
  match key, hex_str with
  | Some k, Some b =>
      b ← for_range 32 (λ i b,
            x ← k.[Z.of_nat i];
            '(_, tail) ← snprintf (drop (i * 2) b) 3 (hex2 x);
            Some (take (i * 2) b ++ tail)) b;
      b ← wr b 64 0;
      Some (0, Some b)
  | _, _ => Some (- EINVAL, hex_str)
  end.

(** ** Scanning pairs of digits *)

Lemma hex_val_range c v : hex_val c = Some v →
  0 <= v < 16 ∧ is_space c = false ∧ c ≠ 43 ∧ c ≠ 45 ∧ c ≠ 120 ∧ c ≠ 88.
Proof.
  unfold hex_val, is_space, is_digit. intros H. repeat case_match; simplify_eq; bool_to_prop; lia.
Qed.

Lemma scan_02x_pair c d h l s : hex_val c = Some h → hex_val d = Some l →
  scan_02x (c :: d :: s) = Some (16 * h + l).
Proof.
  intros Hc Hd. destruct (hex_val_range c h Hc) as (Hh & Hsp & H1 & H2 & _).
  destruct (hex_val_range d l Hd) as (_ & _ & _ & _ & H3 & H4). unfold scan_02x.
  cbn [skip_space]. rewrite Hsp. unfold scan_sign.
  rewrite (proj2 (Z.eqb_neq c 45)), (proj2 (Z.eqb_neq c 43)), Hc by done. bind_simpl.
  rewrite Nat.ltb_irrefl, (proj2 (Z.eqb_neq d 120)), (proj2 (Z.eqb_neq d 88)), Hd by done.
  by rewrite andb_false_r.
Qed.

Lemma hex_val_digit n : 0 <= n < 16 → hex_val (hex_digit n) = Some n.
Proof.
  intros Hn. unfold hex_digit, hex_val, is_digit. destruct (Z.ltb_spec n 10).
  - test_true ((48 <=? 48 + n) && (48 + n <=? 57)). f_equal. lia.
  - test_false ((48 <=? 87 + n) && (87 + n <=? 57)).
    test_true ((97 <=? 87 + n) && (87 + n <=? 102)). f_equal. lia.
Qed.

(** The text of a key. *)
Definition hex_text (key : bytes) : bytes := key ≫= hex2.

Lemma hex_text_length key : length (hex_text key) = (2 * length key)%nat.
Proof. 
  induction key as [|b key IH]; [done|]. change (hex_text (b :: key)) with (hex2 b ++ hex_text key).
  rewrite length_app, IH. simpl. lia.
Qed.

(** Its characters are the digits and the letters a to f. *)
Lemma hex_digit_lower n : 0 <= n < 16 → 48 <= hex_digit n <= 57 ∨ 97 <= hex_digit n <= 102.
Proof. intros Hn. unfold hex_digit. destruct (Z.ltb_spec n 10); lia. Qed.

Lemma hex_text_lower key : bytes_ok key → Forall (λ c, 48 <= c <= 57 ∨ 97 <= c <= 102) (hex_text key).
Proof.
  induction 1 as [|b key [Hb0 Hb] _ IH]; [constructor|].
  change (hex_text (b :: key)) with (hex2 b ++ hex_text key). change (2 ^ 8) with 256 in Hb.
  repeat (apply Forall_cons; split; [apply hex_digit_lower|]); [| |exact IH];
    (split; [apply Z.div_pos || apply Z.mod_pos_bound; lia|]).
  - apply Z.div_lt_upper_bound; lia.
  - apply Z.mod_pos_bound; lia.
Qed.

(** The bytes that pairs of digits denote. *)
Fixpoint unhex (s : bytes) : option bytes :=
  match s with
  | [] => Some []
  | c :: d :: s => h ← hex_val c; l ← hex_val d; (16 * h + l ::.) <$> unhex s
  | _ => None
  end.

Lemma unhex_text key : bytes_ok key → unhex (hex_text key) = Some key.
Proof.
  induction 1 as [|b key Hb _ IH]; [done|]. destruct Hb as [H0 H1].
  change (hex_text (b :: key)) with (hex2 b ++ hex_text key). cbn [hex2 app unhex].
  pose proof (Z.div_mod b 16). pose proof (Z.mod_pos_bound b 16).
  assert (0 <= b / 16 < 16) by (split; [apply Z.div_pos; lia|apply Z.div_lt_upper_bound; lia]).
  rewrite !hex_val_digit by lia. bind_simpl. rewrite IH. cbn. do 2 f_equal. lia.
Qed.

Lemma unhex_lookup s key i : unhex s = Some key → (i < length key)%nat →
  ∃ b, key !! i = Some b ∧ is_u8 b ∧ scan_02x (drop (i * 2) s) = Some b.
Proof.
  revert s i. induction key as [|b key IH]; intros s i Hs Hi; [simpl in Hi; lia|].
  destruct s as [|c [|d s]]; [done..|]. cbn [unhex] in Hs.
  destruct (hex_val c) as [h|] eqn:Hc; [|done]. destruct (hex_val d) as [l|] eqn:Hd; [|done].
  cbn in Hs. destruct (unhex s) as [k|] eqn:Hk; [|done]. cbn in Hs. simplify_eq.
  destruct i as [|i]; [|apply (IH s i); [done|simpl in Hi; lia]].
  exists (16 * h + l). split; [done|]. split.
  - destruct (hex_val_range c h Hc), (hex_val_range d l Hd). split; lia.
  - by apply scan_02x_pair.
Qed.

Lemma parse_key_from_unhex s key i pre post : unhex s = Some key → length pre = i →
  (i <= length key)%nat → length post = (length key - i)%nat →
  parse_key_from (length key - i) i s (pre ++ post) = Some (0, pre ++ drop i key).
Proof.
  intros Hs. remember (length key - i)%nat as k eqn:Hk. revert i pre post Hk.
  induction k as [|k IH]; intros i pre post Hk Hp Hi Hl.
  - cbn [parse_key_from]. destruct post; [|done]. by rewrite drop_ge by lia.
  - destruct post as [|x post]; [done|]. cbn [parse_key_from].
    destruct (unhex_lookup s key i Hs ltac:(lia)) as (b & Hb & Hb8 & ->).
    rewrite <- Hp at 1. rewrite <- (Z.add_0_r (Z.of_nat (length pre))), wr_app_r by lia. cbn [fmap option_fmap option_map mbind option_bind].
    rewrite wr_lt by (simpl; lia). cbn [Z.to_nat insert list_insert fmap option_fmap option_map mbind option_bind].
    unfold u8. rewrite wrap_small by exact Hb8. rewrite (drop_S key b i Hb).
    change (<[Z.to_nat 0:=b]> (x :: post)) with ([b] ++ post). change (b :: drop (S i) key) with ([b] ++ drop (S i) key).
    rewrite !(app_assoc pre [b]). apply IH; [lia|rewrite length_app; simpl; lia|lia|simpl in Hl; lia].
Qed.

(** ** Printing *)

Lemma key_to_hex_eq key b : length key = 32%nat → length b = 65%nat →
  config_key_to_hex (Some key) (Some b) = Some (0, Some (hex_text key ++ [0])).
Proof.
  intros Hk Hb. unfold config_key_to_hex.
  destruct (for_range_inv (λ i b', length b' = 65%nat ∧ take (i * 2) b' = hex_text (take i key)) 32
    (λ i b, x ← key.[Z.of_nat i]; '(_, tail) ← snprintf (drop (i * 2) b) 3 (hex2 x);
            Some (take (i * 2) b ++ tail)) b) as (b' & -> & Hl & Ht).
  - by split.
  - intros i b' Hi [Hl Ht]. rewrite rd_nat.
    destruct (lookup_lt_is_Some_2 key i) as [x Hx]; [lia|]. rewrite Hx. bind_simpl.
    unfold snprintf. cbn [Z.eqb]. change (take (Z.to_nat (3 - 1)) (hex2 x)) with (hex2 x).
    rewrite <- (take_drop 3 (drop (i * 2) b')), blit_0 by (rewrite length_take, length_drop; cbn [hex2 app length]; lia).
    bind_simpl. eexists. split; [done|]. split.
    + rewrite !length_app, length_take, !length_drop. cbn [hex2 length]. lia.
    + rewrite Ht, (take_S_r key i x Hx). unfold hex_text at 2. rewrite bind_app. fold (hex_text (take i key)).
      rewrite take_app_ge by (rewrite hex_text_length, length_take; lia). f_equal.
      rewrite hex_text_length, length_take. replace (S i * 2 - 2 * (i `min` length key))%nat with 2%nat by lia.
      done.
  - bind_simpl. rewrite wr_lt by lia. bind_simpl. do 3 f_equal.
    rewrite (take_ge key) in Ht by lia. rewrite <- Ht. apply list_eq. intros j.
    destruct (decide (j = 64%nat)) as [->|Hj].
    + rewrite list_lookup_insert_eq by lia. rewrite lookup_app_r; rewrite length_take, Hl; done.
    + rewrite list_lookup_insert_ne by lia. destruct (decide (j < 64)%nat).
      * rewrite lookup_app_l by (rewrite length_take; lia). by rewrite lookup_take_lt.
      * by rewrite !lookup_ge_None_2 by (rewrite ?length_app, ?length_take; cbn [length]; lia).
Qed.

Lemma parse_key_hex_eq s key k0 : unhex s = Some key → length key = 32%nat → length s = 64%nat →
  length k0 = 32%nat → config_parse_key_hex (Some s) (Some k0) = Some (0, Some key).
Proof.
  intros Hs Hk Hl H0. unfold config_parse_key_hex. rewrite Hl, Nat.eqb_refl. cbn [negb].
  pose proof (parse_key_from_unhex s key 0 [] k0 Hs eq_refl ltac:(lia) ltac:(lia)) as H.
  rewrite Hk, Nat.sub_0_r in H. cbn [app] in H. by rewrite H, drop_0.
Qed.

(** ** Properties *)

(** C35: a key survives printing and parsing.  [config_key_to_hex] fills the 65
    bytes of its buffer with 64 lower-case hexadecimal digits (0 to 9, a to f) and a NUL, and
    [config_parse_key_hex] reads that text back to the same key, whatever the
    destination held. *)
Theorem key_hex_roundtrip key buf old :
  length key = 32%nat → bytes_ok key → length buf = 65%nat → length old = 32%nat →
  ∃ text, config_key_to_hex (Some key) (Some buf) = Some (0, Some (text ++ [0])) ∧
    length text = 64%nat ∧ Forall (λ c, 48 <= c <= 57 ∨ 97 <= c <= 102) text ∧
    config_parse_key_hex (Some text) (Some old) = Some (0, Some key).
Proof.
  intros Hk Hb Hl Ho. exists (hex_text key). split; [by apply key_to_hex_eq|].
  split; [rewrite hex_text_length; lia|]. split; [by apply hex_text_lower|].
  apply parse_key_hex_eq; [by apply unhex_text|done|rewrite hex_text_length; lia|done].
Qed.

Lemma key_hex_roundtrip_witness :
  ∃ text, config_key_to_hex (Some (replicate 32 171)) (Some (replicate 65 0)) = Some (0, Some (text ++ [0])) ∧
    length text = 64%nat ∧ Forall (λ c, 48 <= c <= 57 ∨ 97 <= c <= 102) text ∧
    config_parse_key_hex (Some text) (Some (replicate 32 0)) = Some (0, Some (replicate 32 171)).
Proof.
  apply (key_hex_roundtrip (replicate 32 171) (replicate 65 0) (replicate 32 0)); (done || by_computation).
Defined.

(** Text that is not 64 hexadecimal digits can be accepted: a sign takes the place
    of the first digit of a pair. *)
Theorem signed_pairs_accepted :
  config_parse_key_hex (Some (mjoin (replicate 32 (of_string "-1")))) (Some (replicate 32 0))
    = Some (0, Some (replicate 32 255)).
Proof. vm_compute. reflexivity. Qed.
