(* ===== verification/Logging.v ===== *)
(** * The log ([src/logging.c], [src/logging.h])

    The level in force is a value passed to [log_message]; the formatted time stamp
    ([strftime]) and the formatted message ([vfprintf]) are arguments, and the
    result is what is written to [stderr]. *)

From stdpp Require Import strings.
From S2P Require Import Prelude Libc.
Local Open Scope c_scope.

Inductive log_level_t :=
  | LOG_LEVEL_DEBUG | LOG_LEVEL_INFO | LOG_LEVEL_WARN | LOG_LEVEL_ERROR | LOG_LEVEL_NONE.

#[global] Instance log_level_eq_dec : EqDecision log_level_t.
Proof. solve_decision. Defined.

Definition level_value (l : log_level_t) : Z :=
  match l with
  | LOG_LEVEL_DEBUG => 0
  | LOG_LEVEL_INFO => 1
  | LOG_LEVEL_WARN => 2
  | LOG_LEVEL_ERROR => 3
  | LOG_LEVEL_NONE => 4
  end.

(** The static [current_log_level] before any call. *)
Definition current_log_level : log_level_t := LOG_LEVEL_INFO.
Definition log_set_level (current level : log_level_t) : log_level_t := level.
Definition log_get_level (current : log_level_t) : log_level_t := current.

Definition level_to_string (level : log_level_t) : bytes :=
  of_string match level with
            | LOG_LEVEL_DEBUG => "DEBUG"
            | LOG_LEVEL_INFO => "INFO "
            | LOG_LEVEL_WARN => "WARN "
            | LOG_LEVEL_ERROR => "ERROR"
            | LOG_LEVEL_NONE => "UNKNOWN"
            end.

(** [file] after its last slash, or else after its last backslash. *)
Definition log_filename (file : bytes) : bytes :=
  match strrchr file 47 with
  | Some n => drop (n + 1) file
  | None =>
      match strrchr file 92 with
      | Some n => drop (n + 1) file
      | None => file
      end
  end.

Definition log_message (current level : log_level_t) (file : bytes) (line : Z)
    (time_str message : bytes) : bytes :=
  if (level_value level <? level_value current) || (level_value level >=? level_value LOG_LEVEL_NONE)
  then []
  else
    of_string "[" ++ time_str ++ of_string "] [" ++ level_to_string level ++ of_string "] [" ++
    log_filename file ++ of_string ":" ++ dec line ++ of_string "] " ++ message ++ [10].

(** ** Lemmas *)

Lemma log_filename_path dir base : 47 ∉ base → log_filename (dir ++ 47 :: base) = base.
Proof.
  intros H. unfold log_filename. rewrite strrchr_app by done.
  by rewrite <- drop_drop, drop_app_length.
Qed.

(** Setting a level and logging at another: nothing below the level set is written,
    and nothing at all once it is [LOG_LEVEL_NONE]; what is written is one line whose
    header names the source file without its directories. *)
Lemma log_message_filtered current level level' dir base line time_str message :
  47 ∉ base →
  log_message (log_set_level current level) level' (dir ++ 47 :: base) line time_str message =
    if bool_decide (level_value level <= level_value level' ∧ level' ≠ LOG_LEVEL_NONE)
    then of_string "[" ++ time_str ++ of_string "] [" ++ level_to_string level' ++
         of_string "] [" ++ base ++ of_string ":" ++ dec line ++ of_string "] " ++ message ++ [10]
    else [].
Proof.
  intros Hb. unfold log_message, log_set_level. rewrite log_filename_path by done.
  by destruct level, level'.
Qed.
