(* ===== verification/Routing.v ===== *)
(** * IPv4 addresses and CIDR prefixes ([src/routing.c], [src/routing.h]) *)

From stdpp Require Import strings.
From S2P Require Import Prelude Libc.
Local Open Scope c_scope.

(** ** Definitions *)

Record vpn_cidr_t := mk_cidr {
  network : Z;
  mask : Z;
  prefix_len : Z
}.

#[global] Instance vpn_cidr_eq_dec : EqDecision vpn_cidr_t.
Proof. solve_decision. Defined.

(** [sscanf(str, "%u.%u.%u.%u", ...) == 4] and the four values. *)
Definition scan_quad (s : bytes) : option (Z * Z * Z * Z) :=
  '(a, s) ← scan_u s; s ← scan_char 46 s;
  '(b, s) ← scan_u s; s ← scan_char 46 s;
  '(c, s) ← scan_u s; s ← scan_char 46 s;
  '(d, _) ← scan_u s;
  Some (a, b, c, d).

Definition vpn_ip_parse (str : option bytes) : Z :=
  match str with
  | NULL => 0
  | Some s =>
      match scan_quad s with
      | None => 0
      | Some (a, b, c, d) =>
          if (a >? 255) || (b >? 255) || (c >? 255) || (d >? 255) then 0
          else u32 (a ≪ 24) |' u32 (b ≪ 16) |' u32 (c ≪ 8) |' d
      end
  end.

(** The text [snprintf] formats: ["%u.%u.%u.%u"]. *)
Definition ip_text (ip : Z) : bytes :=
  dec ((ip ≫ 24) &' 0xFF) ++ [46] ++ dec ((ip ≫ 16) &' 0xFF) ++ [46]
  ++ dec ((ip ≫ 8) &' 0xFF) ++ [46] ++ dec (ip &' 0xFF).

Definition vpn_ip_to_string (ip : Z) (buf : option bytes) (buf_len : Z)
    : option (Z * option bytes) :=
  match buf with
  | NULL => Some (- EINVAL, buf)
  | Some b =>
      if buf_len <? 16 then Some (- EINVAL, buf)
      else
        '(written, b') ← snprintf b buf_len (ip_text ip);
        if (written <? 0) || (written >=? buf_len) then Some (- ENOSPC, Some b')
        else Some (0, Some b')
  end.

(** The body of [vpn_cidr_parse] once the address text and prefix are known. *)
Definition cidr_of (ip_buf : bytes) (prefix : Z) (cidr : vpn_cidr_t) : Z * vpn_cidr_t :=
  if (prefix <? 0) || (prefix >? 32) then (- EINVAL, cidr)
  else
    let ip := vpn_ip_parse (Some ip_buf) in
    let mask :=
      if prefix =? 0 then 0
      else if prefix =? 32 then 0xFFFFFFFF
      else u32 (0xFFFFFFFF ≪ (32 - prefix)) in
    (0, mk_cidr (ip &' mask) mask prefix).

Definition vpn_cidr_parse (str : option bytes) (cidr : option vpn_cidr_t)
    : Z * option vpn_cidr_t :=
  match str, cidr with
  | Some s, Some c =>
      match strchr s 47 with
      | Some slash =>
          let len := Z.of_nat slash in
          if (len =? 0) || (len >=? 32) then (- EINVAL, cidr)
          else
            let ip_buf := take slash s in
            let prefix := atoi (drop (S slash) s) in
            let '(rc, c') := cidr_of ip_buf prefix c in (rc, Some c')
      | None =>
          let ip_buf := take 31 s in
          let '(rc, c') := cidr_of ip_buf 32 c in (rc, Some c')
      end
  | _, _ => (- EINVAL, cidr)
  end.

Definition vpn_cidr_match (cidr : option vpn_cidr_t) (ip : Z) : bool :=
  match cidr with
  | NULL => false
  | Some c => (ip &' mask c) =? network c
  end.

(** ** Well-formed prefixes

    The mask has [prefix_len] leading ones and the network no bit below it. *)
Record cidr_ok (c : vpn_cidr_t) : Prop := {
  cidr_prefix : 0 <= prefix_len c <= 32;
  cidr_mask : mask c = 2 ^ 32 - 2 ^ (32 - prefix_len c);
  cidr_network : is_u32 (network c) ∧ network c = network c &' mask c
}.

(** ** Addresses *)

Definition quad (a b c d : Z) : Z := u32 (a ≪ 24) |' u32 (b ≪ 16) |' u32 (c ≪ 8) |' d.

Lemma byte_of_uint x : is_u8 (x &' 0xFF).
Proof.
  apply is_uint_bits; [lia|]. split; [apply Z.land_nonneg; lia|].
  intros i Hi. rewrite Z.land_spec, testbit_ff by lia. test_false (i <? 8). apply andb_false_r.
Qed.

Lemma scan_quad_text a b c d :
  is_u8 a → is_u8 b → is_u8 c → is_u8 d →
  scan_quad (dec a ++ [46] ++ dec b ++ [46] ++ dec c ++ [46] ++ dec d) = Some (a, b, c, d).
Proof.
  intros Ha Hb Hc Hd. unfold scan_quad.
  rewrite scan_u_dec by (done || by apply (is_uint_mono 8)). bind_simpl. simpl scan_char. bind_simpl.
  rewrite scan_u_dec by (done || by apply (is_uint_mono 8)). bind_simpl. simpl scan_char. bind_simpl.
  rewrite scan_u_dec by (done || by apply (is_uint_mono 8)). bind_simpl. simpl scan_char. bind_simpl.
  rewrite <- (app_nil_r (dec d)).
  rewrite scan_u_dec by (done || by apply (is_uint_mono 8)). done.
Qed.

Lemma quad_bytes ip : is_u32 ip →
  quad ((ip ≫ 24) &' 0xFF) ((ip ≫ 16) &' 0xFF) ((ip ≫ 8) &' 0xFF) (ip &' 0xFF) = ip.
Proof.
  intros Hip. unfold quad. apply Z.bits_inj'. intros i Hi.
  assert (i < 8 ∨ 8 <= i < 16 ∨ 16 <= i < 24 ∨ 24 <= i < 32 ∨ 32 <= i) as Hc by lia.
  destruct_or! Hc; bits; rewrite ?andb_false_r; bits; f_equal; lia.
Qed.

Lemma quad_uint a b c d : is_u8 a → is_u8 b → is_u8 c → is_u8 d → is_u32 (quad a b c d).
Proof.
  intros. unfold quad. repeat apply lor_uint; try lia; try apply u32_uint.
  by apply (is_uint_mono 8).
Qed.

Lemma ip_parse_quad a b c d : is_u8 a → is_u8 b → is_u8 c → is_u8 d →
  vpn_ip_parse (Some (dec a ++ [46] ++ dec b ++ [46] ++ dec c ++ [46] ++ dec d)) = quad a b c d.
Proof.
  intros. unfold vpn_ip_parse. rewrite scan_quad_text by done. unfold is_uint in *.
  by replace ((a >? 255) || (b >? 255) || (c >? 255) || (d >? 255)) with false by lia.
Qed.

Lemma ip_parse_text ip : is_u32 ip → vpn_ip_parse (Some (ip_text ip)) = ip.
Proof.
  intros Hip. unfold ip_text. rewrite ip_parse_quad by apply byte_of_uint. by apply quad_bytes.
Qed.

Lemma ip_text_length ip : (length (ip_text ip) <= 15)%nat.
Proof.
  unfold ip_text. rewrite !length_app. cbn [length].
  pose proof (dec_byte_length _ (byte_of_uint (ip ≫ 24))).
  pose proof (dec_byte_length _ (byte_of_uint (ip ≫ 16))).
  pose proof (dec_byte_length _ (byte_of_uint (ip ≫ 8))).
  pose proof (dec_byte_length _ (byte_of_uint ip)). lia.
Qed.

Lemma ip_text_no_slash ip : 47 ∉ ip_text ip.
Proof.
  assert (∀ x, 47 ∉ dec (x &' 0xFF)) as Hd.
  { intros x. apply dec_not_char; [|done]. apply (is_uint_mono 8); [lia|apply byte_of_uint]. }
  unfold ip_text. rewrite !not_elem_of_app, !not_elem_of_cons.
  pose proof not_elem_of_nil (A := Z). auto 20 with lia.
Qed.

(** ** Masks *)

Lemma mask_shiftl p : 0 <= p <= 32 → 2 ^ 32 - 2 ^ (32 - p) = Z.shiftl (Z.ones p) (32 - p).
Proof.
  intros. rewrite Z.shiftl_mul_pow2, Z.ones_equiv by lia.
  replace (2 ^ 32) with (2 ^ p * 2 ^ (32 - p)); [lia|].
  rewrite <- Z.pow_add_r by lia. f_equal. lia.
Qed.

Lemma mask_bit p i : 0 <= p <= 32 → 0 <= i →
  Z.testbit (2 ^ 32 - 2 ^ (32 - p)) i = (32 - p <=? i) && (i <? 32).
Proof.
  intros Hp Hi. rewrite mask_shiftl, Z.shiftl_spec by lia.
  destruct (Z.leb_spec (32 - p) i).
  - rewrite Z.testbit_ones_nonneg by lia. lia.
  - by rewrite Z.testbit_neg_r by lia.
Qed.

Lemma mask_value p : 0 <= p <= 32 →
  (if p =? 0 then 0 else if p =? 32 then 0xFFFFFFFF else u32 (0xFFFFFFFF ≪ (32 - p)))
  = 2 ^ 32 - 2 ^ (32 - p).
Proof.
  intros Hp. destruct (Z.eqb_spec p 0) as [->|]; [done|].
  destruct (Z.eqb_spec p 32) as [->|]; [done|].
  apply Z.bits_inj'. intros i Hi. rewrite mask_bit by lia.
  unfold u32. rewrite wrap_testbit, Z.shiftl_spec by lia.
  change 0xFFFFFFFF with (Z.ones 32).
  destruct (Z.leb_spec (32 - p) i).
  - rewrite Z.testbit_ones_nonneg by lia. lia.
  - rewrite Z.testbit_neg_r by lia. lia.
Qed.

Lemma vpn_ip_parse_uint s : is_u32 (vpn_ip_parse s).
Proof.
  destruct s as [s|]; [|done]. unfold vpn_ip_parse.
  destruct (scan_quad s) as [[[[a b] c] d]|] eqn:E; [|done].
  destruct (_ || _) eqn:Er; [done|].
  assert (∀ t v r, scan_u t = Some (v, r) → 0 <= v) as Hpos.
  { intros t v r. unfold scan_u. destruct (scan_sign (skip_space t)) as [neg [|x t']]; [done|].
    case_match; [|done]. destruct (scan_digits 0 (x :: t')). intros [= <- _]. apply u32_uint. }
  unfold scan_quad in E. repeat (apply bind_Some in E; destruct E as ([? ?] & ? & E);
    try (apply bind_Some in E; destruct E as (? & ? & E))).
  injection E as -> -> -> ->.
  apply quad_uint; split; eauto; lia.
Qed.

Lemma cidr_of_ok ip_buf p c0 c : cidr_of ip_buf p c0 = (0, c) → cidr_ok c.
Proof.
  unfold cidr_of. pose proof (vpn_ip_parse_uint (Some ip_buf)) as Hip.
  generalize dependent (vpn_ip_parse (Some ip_buf)). intros ip Hip.
  destruct ((p <? 0) || (p >? 32)) eqn:Ep; [done|]. intros [= <-].
  assert (0 <= p <= 32) as Hp by lia. split; cbn [prefix_len mask network]; [done|by apply mask_value|].
  split; [by apply land_uint; [lia|]|].
  by rewrite <- Z.land_assoc, Z.land_diag.
Qed.

Lemma cidr_parse_ok s c0 c : vpn_cidr_parse (Some s) (Some c0) = (0, Some c) → cidr_ok c.
Proof.
  unfold vpn_cidr_parse. destruct (strchr s 47) as [k|].
  - case_match; [done|]. destruct (cidr_of _ _ _) as [rc c'] eqn:E. intros [= -> ->].
    by apply cidr_of_ok in E.
  - destruct (cidr_of _ _ _) as [rc c'] eqn:E. intros [= -> ->]. by apply cidr_of_ok in E.
Qed.

Section cidr_match.
Variables (c : vpn_cidr_t) (ip : Z).
Hypothesis (Hc : cidr_ok c).
Hypothesis (Hip : is_u32 ip).

Lemma cidr_mask_bit i : 0 <= i →
  Z.testbit (mask c) i = (32 - prefix_len c <=? i) && (i <? 32).
Proof. intros. rewrite (cidr_mask c Hc). apply mask_bit; [apply Hc|done]. Qed.

Lemma cidr_network_bit i : 0 <= i → i < 32 - prefix_len c →
  Z.testbit (network c) i = false.
Proof.
  intros Hi Hlt. destruct (cidr_network c Hc) as [_ ->].
  rewrite Z.land_spec, cidr_mask_bit by done.
  test_false (32 - prefix_len c <=? i). apply andb_false_r.
Qed.

Lemma cidr_match_shiftr :
  vpn_cidr_match (Some c) ip = true ↔
  ip ≫ (32 - prefix_len c) = network c ≫ (32 - prefix_len c).
Proof.
  pose proof (cidr_prefix c Hc) as Hp. destruct (cidr_network c Hc) as [Hn _].
  unfold vpn_cidr_match. rewrite Z.eqb_eq. split.
  - intros <-. apply Z.bits_inj'. intros i Hi.
    rewrite !Z.shiftr_spec, Z.land_spec, cidr_mask_bit by lia.
    test_true (32 - prefix_len c <=? i + (32 - prefix_len c)).
    destruct (Z.ltb_spec (i + (32 - prefix_len c)) 32); [by rewrite andb_true_r|].
    by rewrite (uint_bit_high 32 ip) by (done || lia).
  - intros Heq. apply Z.bits_inj'. intros i Hi. rewrite Z.land_spec, cidr_mask_bit by lia.
    destruct (Z.leb_spec (32 - prefix_len c) i).
    + apply (f_equal (λ x, Z.testbit x (i - (32 - prefix_len c)))) in Heq.
      rewrite !Z.shiftr_spec in Heq by lia.
      replace (i - (32 - prefix_len c) + (32 - prefix_len c)) with i in Heq by lia.
      destruct (Z.ltb_spec i 32); [by rewrite andb_true_r|].
      rewrite (uint_bit_high 32 (network c)) by (done || lia). apply andb_false_r.
    + rewrite cidr_network_bit by done. apply andb_false_r.
Qed.
End cidr_match.

Lemma scan_digits_nil acc : scan_digits acc [] = (acc, []).
Proof. done. Qed.

(** ** Properties *)

(** formatting any IPv4 address into a buffer of at least 16 bytes succeeds
    and stores a NUL-terminated text that [vpn_ip_parse] reads back. *)
Theorem ip_string_roundtrip ip b n :
  is_u32 ip → 16 <= n <= Z.of_nat (length b) →
  ∃ b', vpn_ip_to_string ip (Some b) n = Some (0, Some b') ∧
        take (S (length (ip_text ip))) b' = ip_text ip ++ [0] ∧
        vpn_ip_parse (Some (ip_text ip)) = ip.
Proof.
  intros Hip Hn. pose proof (ip_text_length ip) as Hl. unfold vpn_ip_to_string.
  test_false (n <? 16). unfold snprintf. test_false (n =? 0).
  rewrite take_ge by lia. unfold blit.
  match goal with |- context [if ?t then Some _ else None] =>
    replace t with true by (symmetry; rewrite length_app; cbn [length]; lia) end.
  bind_simpl. replace (_ || _) with false by lia. eexists. split; [done|].
  split; [|by apply ip_parse_text]. rewrite Z2Nat.inj_0, take_0, app_nil_l.
  apply take_app_length'. rewrite length_app. cbn [length]. lia.
Qed.

Lemma ip_string_roundtrip_witness :
  ∃ b', vpn_ip_to_string 0xC0A80132 (Some (replicate 16 255)) 16 = Some (0, Some b') ∧
        take (S (length (ip_text 0xC0A80132))) b' = ip_text 0xC0A80132 ++ [0] ∧
        vpn_ip_parse (Some (ip_text 0xC0A80132)) = 0xC0A80132.
Proof. by apply ip_string_roundtrip. Defined.

(** C33: a parsed prefix matches exactly the addresses that agree with its network
    on the leading [prefix_len] bits. *)
Theorem cidr_parse_match_is_prefix s c0 c ip :
  vpn_cidr_parse (Some s) (Some c0) = (0, Some c) → is_u32 ip →
  cidr_ok c ∧
  (vpn_cidr_match (Some c) ip = true ↔
   ip ≫ (32 - prefix_len c) = network c ≫ (32 - prefix_len c)).
Proof.
  intros Hp Hip. apply cidr_parse_ok in Hp. split; [done|]. by apply cidr_match_shiftr.
Qed.

Lemma cidr_parse_match_is_prefix_witness :
  let c := mk_cidr 0xC0A80100 0xFFFFFF00 24 in
  cidr_ok c ∧
  (vpn_cidr_match (Some c) 0xC0A80132 = true ↔
   0xC0A80132 ≫ (32 - prefix_len c) = network c ≫ (32 - prefix_len c)).
Proof.
  apply (cidr_parse_match_is_prefix (of_string "192.168.1.77/24") (mk_cidr 0 0 0)); by vm_compute.
Defined.

(** the text "A.B.C.D/P" of any address and prefix length parses to that
    prefix with the host bits of the address cleared. *)
Theorem cidr_text_parses ip p c0 :
  is_u32 ip → 0 <= p <= 32 →
  vpn_cidr_parse (Some (ip_text ip ++ [47] ++ dec p)) (Some c0) =
    (0, Some (mk_cidr (ip &' (2 ^ 32 - 2 ^ (32 - p))) (2 ^ 32 - 2 ^ (32 - p)) p)).
Proof.
  intros Hip Hp. unfold vpn_cidr_parse.
  change ([47] ++ dec p) with (47 :: dec p).
  rewrite (strchr_app (ip_text ip) 47 (dec p)) by apply ip_text_no_slash.
  pose proof (ip_text_length ip).
  assert (length (ip_text ip) ≠ 0%nat) as Hne.
  { unfold ip_text. rewrite !length_app. cbn [length]. lia. }
  replace (_ || _) with false by lia.
  rewrite take_app_length.
  rewrite (cons_middle 47 (ip_text ip)), app_assoc, drop_app_length' by (rewrite length_app; cbn [length]; lia).
  rewrite <- (app_nil_r (dec p)), atoi_dec by (done || lia).
  unfold cidr_of. replace (_ || _) with false by lia.
  rewrite ip_parse_text by done. cbv zeta. by rewrite mask_value.
Qed.

Lemma cidr_text_parses_witness :
  vpn_cidr_parse (Some (ip_text 0x0A000005 ++ [47] ++ dec 8)) (Some (mk_cidr 1 2 3)) =
    (0, Some (mk_cidr (0x0A000005 &' (2 ^ 32 - 2 ^ (32 - 8))) (2 ^ 32 - 2 ^ (32 - 8)) 8)).
Proof. by apply cidr_text_parses. Defined.

(** C38: text that is not an address, or a prefix length that is missing, is not
    rejected: an entry "X/" with any 1 to 31 characters X without a slash parses
    successfully to 0.0.0.0/0, which matches every address. *)
Theorem cidr_missing_prefix_matches_everything x c0 ip :
  47 ∉ x → (1 <= length x <= 31)%nat →
  vpn_cidr_parse (Some (x ++ [47])) (Some c0) = (0, Some (mk_cidr 0 0 0)) ∧
  vpn_cidr_match (Some (mk_cidr 0 0 0)) ip = true.
Proof.
  intros Hx Hl. split.
  - unfold vpn_cidr_parse. rewrite (strchr_app x 47 []) by done.
    replace (_ || _) with false by lia.
    rewrite drop_ge by (rewrite length_app; simpl; lia).
    change (atoi []) with 0. unfold cidr_of. cbn [Z.ltb Z.compare Z.gtb Z.eqb orb].
    by rewrite Z.land_0_r.
  - unfold vpn_cidr_match. cbn. by rewrite Z.land_0_r.
Qed.

Lemma cidr_missing_prefix_matches_everything_witness :
  vpn_cidr_parse (Some (of_string "10.0.0.0" ++ [47])) (Some (mk_cidr 9 9 9))
    = (0, Some (mk_cidr 0 0 0)) ∧
  vpn_cidr_match (Some (mk_cidr 0 0 0)) 0x08080808 = true.
Proof.
  apply cidr_missing_prefix_matches_everything;
    [by apply (bool_decide_unpack _)|cbn; lia].
Defined.
