(* ===== verification/Sodium.v ===== *)
(** * The libsodium primitives the daemon calls

    The bundled libsodium is the daemon's only cryptographic dependency.  Its
    constant-time comparison is small and is modelled here from its source.  The
    AEAD, the hash and the X25519 functions are a record of operations, the
    class [Sodium] ([Libsodium] instantiates it with libsodium's code), and [SodiumLaws] collects what the daemon relies on of
    them: lengths and return codes, decryption inverts encryption, a failed
    decryption leaves zeros, and Diffie-Hellman agreement. *)

From S2P Require Import Prelude.
Local Open Scope c_scope.

(** ** [sodium_memcmp] and [sodium_memzero] ([sodium/utils.c]) *)

Definition sodium_memcmp (b1 b2 : bytes) (len : Z) : option Z :=
  d ← for_range (Z.to_nat len)
        (λ i d, x ← b1.[Z.of_nat i]; y ← b2.[Z.of_nat i]; Some (u8 (d |' (x ^' y)))) 0;
  Some ((1 &' ((d - 1) ≫ 8)) - 1).

Definition sodium_memzero (p : bytes) (len : Z) : option bytes := fill p 0 0 len.

(** ** The interface *)

Record aead_out := mk_aead_out {
  ae_rc : Z;
  ae_c : bytes;
  ae_mac : bytes;
  ae_maclen : Z
}.

Class Sodium := {
  sodium_init : Z;
  (** message, additional data, nonce, key *)
  crypto_aead_chacha20poly1305_ietf_encrypt_detached : bytes → bytes → bytes → bytes → aead_out;
  (** ciphertext, tag, additional data, nonce, key: the code and the bytes stored in [m] *)
  crypto_aead_chacha20poly1305_ietf_decrypt_detached :
    bytes → bytes → bytes → bytes → bytes → Z * bytes;
  (** output length, input, key (empty for an unkeyed hash) *)
  crypto_generichash : Z → bytes → bytes → Z * bytes;
  (** scalar, point: the code and the bytes stored in [q], none if the point is refused *)
  crypto_scalarmult : bytes → bytes → Z * bytes;
  crypto_scalarmult_base : bytes → bytes;
  (** the 32 random bytes drawn: the code, the public and the secret key *)
  crypto_box_keypair : bytes → Z * bytes * bytes
}.

Class SodiumLaws (S : Sodium) : Prop := {
  sodium_init_ok : 0 <= sodium_init;
  aead_encrypt_ok : ∀ m ad n k, length n = 12%nat → length k = 32%nat →
    let r := crypto_aead_chacha20poly1305_ietf_encrypt_detached m ad n k in
    ae_rc r = 0 ∧ ae_maclen r = 16 ∧ length (ae_c r) = length m ∧ length (ae_mac r) = 16%nat;
  aead_decrypt_encrypt : ∀ m ad n k, length n = 12%nat → length k = 32%nat →
    let r := crypto_aead_chacha20poly1305_ietf_encrypt_detached m ad n k in
    crypto_aead_chacha20poly1305_ietf_decrypt_detached (ae_c r) (ae_mac r) ad n k = (0, m);
  aead_decrypt_length : ∀ c mac ad n k,
    length (crypto_aead_chacha20poly1305_ietf_decrypt_detached c mac ad n k).2 = length c;
  aead_decrypt_failed : ∀ c mac ad n k rc m,
    crypto_aead_chacha20poly1305_ietf_decrypt_detached c mac ad n k = (rc, m) →
    rc ≠ 0 → m = replicate (length c) 0;
  aead_encrypt_bytes : ∀ m ad n k, bytes_ok m →
    let r := crypto_aead_chacha20poly1305_ietf_encrypt_detached m ad n k in
    bytes_ok (ae_c r) ∧ bytes_ok (ae_mac r);
  aead_decrypt_bytes : ∀ c mac ad n k, bytes_ok c →
    bytes_ok (crypto_aead_chacha20poly1305_ietf_decrypt_detached c mac ad n k).2;
  generichash_bytes : ∀ outlen inp key, bytes_ok (crypto_generichash outlen inp key).2;
  generichash_ok : ∀ outlen inp key, 16 <= outlen <= 64 → (length key <= 64)%nat →
    let r := crypto_generichash outlen inp key in
    r.1 = 0 ∧ Z.of_nat (length r.2) = outlen;
  keypair_ok : ∀ rand, length rand = 32%nat →
    crypto_box_keypair rand = (0, crypto_scalarmult_base rand, rand);
  scalarmult_base_ok : ∀ a, length a = 32%nat →
    length (crypto_scalarmult_base a) = 32%nat ∧ bytes_ok (crypto_scalarmult_base a);
  scalarmult_length : ∀ a p, (crypto_scalarmult a p).1 = 0 → length (crypto_scalarmult a p).2 = 32%nat;
  scalarmult_stores : ∀ a p, (length (crypto_scalarmult a p).2 <= 32)%nat;
  dh_ok : ∀ a b, length a = 32%nat → length b = 32%nat →
    (crypto_scalarmult a (crypto_scalarmult_base b)).1 = 0;
  dh_agree : ∀ a b, length a = 32%nat → length b = 32%nat →
    crypto_scalarmult a (crypto_scalarmult_base b) = crypto_scalarmult b (crypto_scalarmult_base a)
}.

(** ** Constant-time comparison *)

Lemma u8_nonzero_sub d : is_u8 d → (1 &' ((d - 1) ≫ 8)) - 1 = if d =? 0 then 0 else -1.
Proof.
  intros Hd. destruct (Z.eqb_spec d 0) as [->|Hne]; [done|].
  replace ((d - 1) ≫ 8) with 0; [done|].
  rewrite Z.shiftr_div_pow2 by lia. symmetry. apply Z.div_small. len.
Qed.

Lemma lxor_zero_iff x y : Z.lxor x y = 0 ↔ x = y.
Proof. apply Z.lxor_eq_0_iff. Qed.

Lemma sodium_memcmp_spec b1 b2 len :
  bytes_ok b1 → bytes_ok b2 → 0 <= len →
  len <= Z.of_nat (length b1) → len <= Z.of_nat (length b2) →
  sodium_memcmp b1 b2 len =
    Some (if bool_decide (take (Z.to_nat len) b1 = take (Z.to_nat len) b2) then 0 else -1).
Proof.
  intros H1 H2 Hl0 Hl1 Hl2. unfold sodium_memcmp.
  edestruct (for_range_inv (λ n d, is_u8 d ∧ (d = 0 ↔ take n b1 = take n b2))
    (Z.to_nat len) (λ i d, x ← b1.[Z.of_nat i]; y ← b2.[Z.of_nat i]; Some (u8 (d |' (x ^' y)))) 0)
    as (d & Hrun & Hd & Heq).
  - split; [done|]. by rewrite !take_0.
  - intros j d Hj [Hd Heq].
    destruct (lookup_lt_is_Some_2 b1 j) as [x Hx]; [lia|].
    destruct (lookup_lt_is_Some_2 b2 j) as [y Hy]; [lia|].
    rewrite !rd_nat, Hx, Hy. bind_simpl. eexists; split; [done|].
    assert (is_u8 x) by (by apply (Forall_lookup_1 _ _ _ _ H1 Hx)).
    assert (is_u8 y) by (by apply (Forall_lookup_1 _ _ _ _ H2 Hy)).
    split; [apply u8_uint|].
    rewrite u8_small by (apply lor_uint; [lia|done|by apply lxor_uint; [lia|..]]).
    rewrite Z.lor_eq_0_iff, lxor_zero_iff, Heq.
    rewrite (take_S_r b1 j x), (take_S_r b2 j y) by done. split.
    + by intros [-> ->].
    + intros Hap. apply app_inj_2 in Hap as [-> Hap]; [|done]. split; [done|]. congruence.
  - rewrite Hrun. bind_simpl. rewrite u8_nonzero_sub by done. f_equal.
    case_bool_decide as E; [rewrite (proj2 Heq E); done|].
    destruct (Z.eqb_spec d 0); [|done]. exfalso. apply E. by apply Heq.
Qed.

(** Keys of equal length: the comparison is zero exactly on equal keys. *)
Lemma sodium_memcmp_keys b1 b2 len :
  bytes_ok b1 → bytes_ok b2 → Z.of_nat (length b1) = len → Z.of_nat (length b2) = len →
  sodium_memcmp b1 b2 len = Some (if bool_decide (b1 = b2) then 0 else -1).
Proof.
  intros. rewrite sodium_memcmp_spec by (done || lia). by rewrite !take_ge by lia.
Qed.

(** ** An instance

    Checksums in place of the cipher and the hash, and exclusive-or in place of
    X25519: enough to satisfy every law, so the laws are consistent. *)

Module Toy.
Definition sum (l : bytes) : Z := foldr Z.add 0 l.
Definition tag (c ad n k : bytes) : bytes :=
  replicate 16 (u8 (7 * sum c + 3 * sum ad + 5 * sum n + 11 * sum k)).

#[global] Instance toy : Sodium := {
  sodium_init := 0;
  crypto_aead_chacha20poly1305_ietf_encrypt_detached m ad n k :=
    let c := (λ x, x ^' u8 (sum k)) <$> m in mk_aead_out 0 c (tag c ad n k) 16;
  crypto_aead_chacha20poly1305_ietf_decrypt_detached c mac ad n k :=
    if bool_decide (mac = tag c ad n k) then (0, (λ x, x ^' u8 (sum k)) <$> c)
    else (-1, replicate (length c) 0);
  crypto_generichash outlen inp key :=
    (0, replicate (Z.to_nat outlen) (u8 (13 * sum inp + 17 * sum key + Z.of_nat (length inp))));
  crypto_scalarmult a p :=
    (0, (λ i, u8 (default 0 (a !! i)) ^' u8 (default 0 (p !! i))) <$> seq 0 32);
  crypto_scalarmult_base a := u8 <$> a;
  crypto_box_keypair rand := (0, u8 <$> rand, rand)
}.
End Toy.

#[global] Instance toy_laws : SodiumLaws Toy.toy.
Proof.
  split; cbn -[fmap Z.mul replicate].
  - done.
  - intros m ad n k _ _. by rewrite length_fmap.
  - intros m ad n k _ _. rewrite bool_decide_true by done. f_equal.
    rewrite <- list_fmap_compose. rewrite <- (list_fmap_id m) at 2.
    apply list_fmap_ext. intros i x _. unfold compose, id. by rewrite Z.lxor_assoc, Z.lxor_nilpotent, Z.lxor_0_r.
  - intros c mac ad n k. case_bool_decide; cbn; [apply length_fmap|apply length_replicate].
  - intros c mac ad n k rc m. case_bool_decide; by intros [= <- <-].
  - intros m ad n k Hm. split; [|apply (Forall_replicate _ 16), u8_uint].
    apply Forall_forall. intros x (y & -> & Hy)%list_elem_of_fmap.
    apply lxor_uint; [lia| |apply u8_uint]. rewrite Forall_forall in Hm. by apply Hm.
  - intros c mac ad n k Hc. case_bool_decide; cbn -[fmap]; [|by apply Forall_replicate].
    apply Forall_forall. intros x (y & -> & Hy)%list_elem_of_fmap.
    apply lxor_uint; [lia| |apply u8_uint]. rewrite Forall_forall in Hc. by apply Hc.
  - intros outlen inp key. apply Forall_replicate, u8_uint.
  - intros outlen inp key H _. rewrite length_replicate. split; [done|lia].
  - done.
  - intros a Ha. rewrite length_fmap. split; [done|].
    apply Forall_forall. intros x [y [-> _]]%list_elem_of_fmap. apply u8_uint.
  - intros a p _. by rewrite length_fmap.
  - intros a p. by rewrite length_fmap.
  - done.
  - intros a b Ha Hb. f_equal. apply list_fmap_ext. intros _ i _.
    rewrite !list_lookup_fmap.
    assert (∀ o : option Z, u8 (default 0 (u8 <$> o)) = u8 (default 0 o)) as Hu.
    { intros [x|]; [|done]. cbn. apply u8_small, u8_uint. }
    rewrite !Hu. apply Z.lxor_comm.
Qed.

(** ** Properties *)

(** the constant-time comparison reads only the first [len] bytes of two
    buffers and returns 0 when they agree and -1 otherwise. *)
Theorem memcmp_decides_equality b1 b2 len :
  bytes_ok b1 → bytes_ok b2 →
  0 <= len <= Z.of_nat (length b1) → len <= Z.of_nat (length b2) →
  sodium_memcmp b1 b2 len =
    Some (if bool_decide (take (Z.to_nat len) b1 = take (Z.to_nat len) b2) then 0 else -1).
Proof. intros ? ? [? ?] ?. by apply sodium_memcmp_spec. Qed.

Lemma memcmp_decides_equality_witness :
  sodium_memcmp [1; 2; 255; 4] [1; 2; 254; 9] 3 =
    Some (if bool_decide (take (Z.to_nat 3) [1; 2; 255; 4] = take (Z.to_nat 3) [1; 2; 254; 9])
          then 0 else -1).
Proof. apply memcmp_decides_equality; [by repeat constructor..|done|done]. Defined.
