(* ===== verification/Chacha20.v ===== *)
(** * ChaCha20 ([crypto_stream/chacha20/ref/chacha20_ref.c] and the dispatch in
      [stream_chacha20.c] of libsodium)

    The portable implementation, which the library starts with.  The context is the
    array of sixteen words.  [encrypt_loop] is the [for (;;)] of
    [chacha20_encrypt_bytes], one unit of fuel a block; [m] and [c] may be the same
    buffer, since a block is read before it is written.  [misuse] stands for
    [sodium_misuse], which aborts: like undefined behaviour it gives no result. *)

From S2P Require Import Prelude Packet Sodium Words.
Local Open Scope c_scope.

Definition misuse {A} : option A := None.

Definition PLUS (v w : Z) : Z := u32 (v + w).

Definition QUARTERROUND (x : list Z) (a b c d : Z) : option (list Z) :=
  xa ← x.[a]; xb ← x.[b]; xc ← x.[c]; xd ← x.[d];
  let xa := PLUS xa xb in
  let xd := rotl32 (xd ^' xa) 16 in
  let xc := PLUS xc xd in
  let xb := rotl32 (xb ^' xc) 12 in
  let xa := PLUS xa xb in
  let xd := rotl32 (xd ^' xa) 8 in
  let xc := PLUS xc xd in
  let xb := rotl32 (xb ^' xc) 7 in
  x ← wr x a xa; x ← wr x b xb; x ← wr x c xc; wr x d xd.

Definition double_round (x : list Z) : option (list Z) :=
  x ← QUARTERROUND x 0 4 8 12;
  x ← QUARTERROUND x 1 5 9 13;
  x ← QUARTERROUND x 2 6 10 14;
  x ← QUARTERROUND x 3 7 11 15;
  x ← QUARTERROUND x 0 5 10 15;
  x ← QUARTERROUND x 1 6 11 12;
  x ← QUARTERROUND x 2 7 8 13;
  QUARTERROUND x 3 4 9 14.

Definition chacha_keysetup (ctx : list Z) (k : bytes) : option (list Z) :=
  ctx ← wr ctx 0 0x61707865; ctx ← wr ctx 1 0x3320646e;
  ctx ← wr ctx 2 0x79622d32; ctx ← wr ctx 3 0x6b206574;
  k0 ← load32_le k 0; ctx ← wr ctx 4 k0;
  k1 ← load32_le k 4; ctx ← wr ctx 5 k1;
  k2 ← load32_le k 8; ctx ← wr ctx 6 k2;
  k3 ← load32_le k 12; ctx ← wr ctx 7 k3;
  k4 ← load32_le k 16; ctx ← wr ctx 8 k4;
  k5 ← load32_le k 20; ctx ← wr ctx 9 k5;
  k6 ← load32_le k 24; ctx ← wr ctx 10 k6;
  k7 ← load32_le k 28; wr ctx 11 k7.

Definition chacha_ivsetup (ctx : list Z) (iv : bytes) (counter : option bytes) : option (list Z) :=
  c0 ← match counter with NULL => Some 0 | Some b => load32_le b 0 end;
  c1 ← match counter with NULL => Some 0 | Some b => load32_le b 4 end;
  ctx ← wr ctx 12 c0; ctx ← wr ctx 13 c1;
  v0 ← load32_le iv 0; ctx ← wr ctx 14 v0;
  v1 ← load32_le iv 4; wr ctx 15 v1.

Definition chacha_ietf_ivsetup (ctx : list Z) (iv : bytes) (counter : option bytes) : option (list Z) :=
  c0 ← match counter with NULL => Some 0 | Some b => load32_le b 0 end;
  ctx ← wr ctx 12 c0;
  v0 ← load32_le iv 0; ctx ← wr ctx 13 v0;
  v1 ← load32_le iv 4; ctx ← wr ctx 14 v1;
  v2 ← load32_le iv 8; wr ctx 15 v2.

Fixpoint encrypt_loop (fuel : nat) (j : list Z) (m c : bytes) (off n : Z) : option (list Z * bytes) :=
  match fuel with
  | O => None
  | S fuel =>
      src ← (if n <? 64 then s ← slice m off n; blit (replicate 64 0) 0 s else slice m off 64);
      x ← for_range 10 (λ _ x, double_round x) j;
      let x := zip_with PLUS x j in
      w ← loads load32_le 4 16 src 0;
      let x := zip_with Z.lxor x w in
      j12 ← j.[12]; j13 ← j.[13];
      let j12 := PLUS j12 1 in
      let j13 := if j12 =? 0 then PLUS j13 1 else j13 in
      j ← wr j 12 j12; j ← wr j 13 j13;
      out ← stores store32_le 4 x (replicate 64 0) 0;
      if n <=? 64 then c ← blit c off (take (Z.to_nat n) out); Some (j, c)
      else c ← blit c off out; encrypt_loop fuel j m c (off + 64) (n - 64)
  end.

Definition chacha20_encrypt_bytes (ctx : list Z) (m c : bytes) (n : Z) : option (list Z * bytes) :=
  if n =? 0 then Some (ctx, c) else encrypt_loop (Z.to_nat (n / 64 + 1)) ctx m c 0 n.

Definition stream_ref (c : bytes) (clen : Z) (n k : bytes) : option (Z * bytes) :=
  if clen =? 0 then Some (0, c)
  else
    ctx ← chacha_keysetup (replicate 16 0) k; ctx ← chacha_ivsetup ctx n NULL;
    c ← fill c 0 0 clen;
    '(_, c) ← chacha20_encrypt_bytes ctx c c clen;
    Some (0, c).

Definition stream_ietf_ext_ref (c : bytes) (clen : Z) (n k : bytes) : option (Z * bytes) :=
  if clen =? 0 then Some (0, c)
  else
    ctx ← chacha_keysetup (replicate 16 0) k; ctx ← chacha_ietf_ivsetup ctx n NULL;
    c ← fill c 0 0 clen;
    '(_, c) ← chacha20_encrypt_bytes ctx c c clen;
    Some (0, c).

Definition stream_ref_xor_ic (c m : bytes) (mlen : Z) (n : bytes) (ic : Z) (k : bytes)
    : option (Z * bytes) :=
  if mlen =? 0 then Some (0, c)
  else
    let ic_high := u32 (ic ≫ 32) in
    let ic_low := u32 ic in
    ic_bytes ← store32_le (replicate 8 0) 0 ic_low; ic_bytes ← store32_le ic_bytes 4 ic_high;
    ctx ← chacha_keysetup (replicate 16 0) k; ctx ← chacha_ivsetup ctx n (Some ic_bytes);
    '(_, c) ← chacha20_encrypt_bytes ctx m c mlen;
    Some (0, c).

Definition stream_ietf_ext_ref_xor_ic (c m : bytes) (mlen : Z) (n : bytes) (ic : Z) (k : bytes)
    : option (Z * bytes) :=
  if mlen =? 0 then Some (0, c)
  else
    ic_bytes ← store32_le (replicate 4 0) 0 ic;
    ctx ← chacha_keysetup (replicate 16 0) k; ctx ← chacha_ietf_ivsetup ctx n (Some ic_bytes);
    '(_, c) ← chacha20_encrypt_bytes ctx m c mlen;
    Some (0, c).

(** [SODIUM_SIZE_MAX] of a 64-bit target, and [64 * 2^32]. *)
Definition crypto_stream_chacha20_MESSAGEBYTES_MAX : Z := 2 ^ 64 - 1.
Definition crypto_stream_chacha20_ietf_MESSAGEBYTES_MAX : Z := 64 * 2 ^ 32.

Definition crypto_stream_chacha20 (c : bytes) (clen : Z) (n k : bytes) : option (Z * bytes) :=
  if clen >? crypto_stream_chacha20_MESSAGEBYTES_MAX then misuse else stream_ref c clen n k.

Definition crypto_stream_chacha20_xor_ic (c m : bytes) (mlen : Z) (n : bytes) (ic : Z) (k : bytes)
    : option (Z * bytes) :=
  if mlen >? crypto_stream_chacha20_MESSAGEBYTES_MAX then misuse else stream_ref_xor_ic c m mlen n ic k.

Definition crypto_stream_chacha20_ietf_ext (c : bytes) (clen : Z) (n k : bytes) : option (Z * bytes) :=
  if clen >? crypto_stream_chacha20_MESSAGEBYTES_MAX then misuse else stream_ietf_ext_ref c clen n k.

Definition crypto_stream_chacha20_ietf_ext_xor_ic (c m : bytes) (mlen : Z) (n : bytes) (ic : Z) (k : bytes)
    : option (Z * bytes) :=
  if mlen >? crypto_stream_chacha20_MESSAGEBYTES_MAX then misuse
  else stream_ietf_ext_ref_xor_ic c m mlen n ic k.

Definition crypto_stream_chacha20_ietf (c : bytes) (clen : Z) (n k : bytes) : option (Z * bytes) :=
  if clen >? crypto_stream_chacha20_ietf_MESSAGEBYTES_MAX then misuse
  else crypto_stream_chacha20_ietf_ext c clen n k.

Definition crypto_stream_chacha20_ietf_xor_ic (c m : bytes) (mlen : Z) (n : bytes) (ic : Z) (k : bytes)
    : option (Z * bytes) :=
  if ic >? u64 (u64 (64 * u64 (1 ≪ 32)) / 64 - u64 (mlen + 63) / 64) then misuse
  else crypto_stream_chacha20_ietf_ext_xor_ic c m mlen n ic k.

Definition crypto_stream_chacha20_xor (c m : bytes) (mlen : Z) (n k : bytes) : option (Z * bytes) :=
  if mlen >? crypto_stream_chacha20_MESSAGEBYTES_MAX then misuse else stream_ref_xor_ic c m mlen n 0 k.

Definition crypto_stream_chacha20_ietf_ext_xor (c m : bytes) (mlen : Z) (n k : bytes) : option (Z * bytes) :=
  if mlen >? crypto_stream_chacha20_MESSAGEBYTES_MAX then misuse
  else stream_ietf_ext_ref_xor_ic c m mlen n 0 k.

Definition crypto_stream_chacha20_ietf_xor (c m : bytes) (mlen : Z) (n k : bytes) : option (Z * bytes) :=
  if mlen >? crypto_stream_chacha20_ietf_MESSAGEBYTES_MAX then misuse
  else crypto_stream_chacha20_ietf_ext_xor c m mlen n k.

(** ** The keystream (RFC 8439) *)

(** The state is a matrix of four rows of four words.  A round works on its four columns at
    once: each line below is one operation on whole rows. *)
Definition add_rows (x y : list Z) : list Z := zip_with (λ v w, (v + w) mod 2 ^ 32) x y.
Definition turn_words (n : Z) (x y : list Z) : list Z := zip_with (λ v w, rotl32 (Z.lxor v w) n) x y.

Definition column_round (a b c d : list Z) : list Z * list Z * list Z * list Z :=
  let a := add_rows a b in let d := turn_words 16 d a in
  let c := add_rows c d in let b := turn_words 12 b c in
  let a := add_rows a b in let d := turn_words 8 d a in
  let c := add_rows c d in let b := turn_words 7 b c in
  (a, b, c, d).

(** A round of the diagonals is a round of the columns between turns of the rows. *)
Definition turn_row (n : nat) (x : list Z) : list Z := drop n x ++ take n x.

Definition two_rounds (x : list Z) : list Z :=
  let '(a, b, c, d) := column_round (take 4 x) (take 4 (drop 4 x)) (take 4 (drop 8 x)) (drop 12 x) in
  let '(a, b, c, d) := column_round a (turn_row 1 b) (turn_row 2 c) (turn_row 3 d) in
  a ++ turn_row 3 b ++ turn_row 2 c ++ turn_row 1 d.

Definition rounds (j : list Z) : list Z := default j (for_range 10 (λ _ x, double_round x) j).

(** One block: the words after twenty rounds, plus the input words, serialised. *)
Definition chacha_block (j : list Z) : bytes := zip_with PLUS (rounds j) j ≫= le32_bytes.

(** The next block's context: the counter in word 12 carries into word 13. *)
Definition next_block (j : list Z) : list Z :=
  let j12 := PLUS (default 0 (j !! 12%nat)) 1 in
  let j13 := default 0 (j !! 13%nat) in
  <[13%nat := if j12 =? 0 then PLUS j13 1 else j13]> (<[12%nat := j12]> j).

Fixpoint keystream (blocks : nat) (j : list Z) : bytes :=
  match blocks with
  | O => []
  | S b => chacha_block j ++ keystream b (next_block j)
  end.

Definition nblocks (n : nat) : nat := ((n + 63) / 64)%nat.

(** [m] exclusive-or the keystream from context [j]. *)
Definition xor_stream (j : list Z) (m : bytes) : bytes :=
  zip_with Z.lxor m (keystream (nblocks (length m)) j).

(** RFC 8439, 2.3.2: the block of key 00..1f, nonce 000000090000004a00000000, counter 1. *)
Example chacha_block_rfc :
  (ctx ← chacha_keysetup (replicate 16 0) (seqZ 0 32);
   ctx ← chacha_ietf_ivsetup ctx [0; 0; 0; 9; 0; 0; 0; 0x4a; 0; 0; 0; 0] (Some [1; 0; 0; 0]);
   Some (chacha_block ctx)) =
  Some [0x10; 0xf1; 0xe7; 0xe4; 0xd1; 0x3b; 0x59; 0x15; 0x50; 0x0f; 0xdd; 0x1f; 0xa3; 0x20; 0x71; 0xc4;
        0xc7; 0xd1; 0xf4; 0xc7; 0x33; 0xc0; 0x68; 0x03; 0x04; 0x22; 0xaa; 0x9a; 0xc3; 0xd4; 0x6c; 0x4e;
        0xd2; 0x82; 0x64; 0x46; 0x07; 0x9f; 0xaa; 0x09; 0x14; 0xc2; 0xd7; 0x05; 0xd9; 0x8b; 0x02; 0xa2;
        0xb5; 0x12; 0x9c; 0xd1; 0xde; 0x16; 0x4e; 0xb9; 0xcb; 0xd0; 0x83; 0xe8; 0xa2; 0x50; 0x3c; 0x4e].
Proof. vm_compute. reflexivity. Qed.

(** ** Contexts stay well formed *)

Definition ctx_ok (j : list Z) : Prop := length j = 16%nat ∧ Forall is_u32 j.

Lemma ctx_rd j i : ctx_ok j → 0 <= i < 16 → ∃ v, j.[i] = Some v ∧ is_u32 v.
Proof.
  intros [Hl Hj] Hi. destruct (rd_lt j i) as [v Hv]; [lia|]. exists v. split; [done|].
  unfold rd in Hv. destruct (0 <=? i); [|done]. by apply (Forall_lookup_1 _ _ _ _ Hj Hv).
Qed.

Lemma ctx_wr j i v : ctx_ok j → 0 <= i < 16 → is_u32 v → ∃ j', wr j i v = Some j' ∧ ctx_ok j'.
Proof.
  intros [Hl Hj] Hi Hv. rewrite wr_lt by lia. eexists. split; [done|]. split; [by rewrite length_insert|].
  by apply Forall_insert.
Qed.

(** One read or write of a context. *)
Ltac ctx_step :=
  match goal with
  | |- context [rd ?x ?i] =>
      let v := fresh "v" in let H := fresh "H" in let H' := fresh "H'" in
      destruct (ctx_rd x i) as (v & H & H'); [assumption|lia|]; rewrite H; bind_simpl
  | |- context [wr ?x ?i ?v] =>
      let y := fresh "y" in let H := fresh "H" in let H' := fresh "H'" in
      destruct (ctx_wr x i v) as (y & H & H'); [assumption|lia|auto with vpn chacha|]; rewrite H; bind_simpl
  end.

Lemma PLUS_uint v w : is_u32 (PLUS v w).
Proof. apply u32_uint. Qed.
Lemma rotl32_lxor x y b : 0 <= b <= 32 → is_u32 x → is_u32 y → is_u32 (rotl32 (x ^' y) b).
Proof. intros. apply rotl32_uint; [done|]. apply lxor_uint; [lia|done..]. Qed.

Create HintDb chacha.
#[export] Hint Resolve PLUS_uint : chacha.
#[export] Hint Extern 2 (is_u32 (rotl32 _ _)) => apply rotl32_lxor; [lia|..] : chacha.

Lemma quarterround_ok x a b c d : ctx_ok x → 0 <= a < 16 → 0 <= b < 16 → 0 <= c < 16 → 0 <= d < 16 →
  ∃ x', QUARTERROUND x a b c d = Some x' ∧ ctx_ok x'.
Proof.
  intros Hx Ha Hb Hc Hd. unfold QUARTERROUND. do 4 ctx_step.
  ctx_step. ctx_step. ctx_step.
  match goal with |- context [wr ?y d ?v] => destruct (ctx_wr y d v) as (z & -> & Hz) end;
    [done|done|auto 12 with chacha|]. eauto.
Qed.

Lemma double_round_ok x : ctx_ok x → ∃ x', double_round x = Some x' ∧ ctx_ok x'.
Proof.
  intros Hx. unfold double_round.
  repeat match goal with H : ctx_ok ?y |- context [QUARTERROUND ?y ?a ?b ?c ?d] =>
    let z := fresh "z" in let E := fresh "E" in let Hz := fresh "Hz" in
    destruct (quarterround_ok y a b c d H) as (z & E & Hz); [lia..|]; rewrite E; clear E; bind_simpl
  end. eauto.
Qed.

(** *** The code's rounds are those of the rows *)

(** One quarter round, on four words. *)
Definition quarter (a b c d : Z) : Z * Z * Z * Z :=
  let a := PLUS a b in let d := rotl32 (d ^' a) 16 in
  let c := PLUS c d in let b := rotl32 (b ^' c) 12 in
  let a := PLUS a b in let d := rotl32 (d ^' a) 8 in
  let c := PLUS c d in let b := rotl32 (b ^' c) 7 in
  (a, b, c, d).

Lemma QUARTERROUND_quarter x a b c d xa xb xc xd :
  x.[a] = Some xa → x.[b] = Some xb → x.[c] = Some xc → x.[d] = Some xd →
  QUARTERROUND x a b c d =
    let '(ya, yb, yc, yd) := quarter xa xb xc xd in
    x ← wr x a ya; x ← wr x b yb; x ← wr x c yc; wr x d yd.
Proof. intros Ha Hb Hc Hd. unfold QUARTERROUND. by rewrite Ha, Hb, Hc, Hd. Qed.

Lemma column_round_quarters a0 a1 a2 a3 b0 b1 b2 b3 c0 c1 c2 c3 d0 d1 d2 d3 :
  column_round [a0; a1; a2; a3] [b0; b1; b2; b3] [c0; c1; c2; c3] [d0; d1; d2; d3] =
    let '(a0, b0, c0, d0) := quarter a0 b0 c0 d0 in let '(a1, b1, c1, d1) := quarter a1 b1 c1 d1 in
    let '(a2, b2, c2, d2) := quarter a2 b2 c2 d2 in let '(a3, b3, c3, d3) := quarter a3 b3 c3 d3 in
    ([a0; a1; a2; a3], [b0; b1; b2; b3], [c0; c1; c2; c3], [d0; d1; d2; d3]).
Proof. done. Qed.

(** Rewrites the next quarter round of the code to [quarter] and names its words. *)
Ltac quarter_step :=
  erewrite QUARTERROUND_quarter by reflexivity;
  destruct (quarter _ _ _ _) as [[[? ?] ?] ?];
  try (match goal with |- (?p ≫= _) = _ => let q := eval vm_compute in p in change p with q end;
       rewrite some_bind).

Lemma double_round_rows x : length x = 16%nat → double_round x = Some (two_rounds x).
Proof.
  intros Hl. do 16 (destruct x as [|? x]; [done|]). destruct x; [|done]. clear Hl.
  unfold two_rounds. cbn [take drop]. rewrite column_round_quarters. unfold double_round.
  do 4 quarter_step.
  unfold turn_row. cbn [take drop app]. rewrite column_round_quarters.
  do 4 quarter_step. done.
Qed.

Lemma rounds_rows j : ctx_ok j →
  ctx_ok (rounds j) ∧ for_range 10 (λ _ x, double_round x) j = Some (rounds j) ∧ rounds j = Nat.iter 10 two_rounds j.
Proof.
  intros Hj. destruct (for_range_inv (λ i x, ctx_ok x ∧ x = Nat.iter i two_rounds j) 10 (λ _ x, double_round x) j)
    as (x & Hx & Ho & E).
  - done.
  - intros i t _ [Ht E]. destruct (double_round_ok t Ht) as (t' & E' & Ht'). exists t'. split; [done|]. split; [done|].
    rewrite double_round_rows in E' by apply Ht. injection E' as <-. by rewrite E.
  - unfold rounds. rewrite Hx. done.
Qed.

Lemma rounds_ok j : ctx_ok j → for_range 10 (λ _ x, double_round x) j = Some (rounds j) ∧ ctx_ok (rounds j).
Proof. intros Hj. by destruct (rounds_rows j Hj) as (H1 & H2 & _). Qed.

Lemma chacha_block_rows j : ctx_ok j →
  chacha_block j = zip_with PLUS (Nat.iter 10 two_rounds j) j ≫= le32_bytes.
Proof. intros Hj. destruct (rounds_rows j Hj) as (_ & _ & E). unfold chacha_block. by rewrite E. Qed.

Lemma zip_PLUS_ok x j : length x = 16%nat → length j = 16%nat → ctx_ok (zip_with PLUS x j).
Proof.
  intros Hx Hj. split; [rewrite length_zip_with; lia|]. apply Forall_lookup. intros i v Hv.
  apply lookup_zip_with_Some in Hv as (a & b & -> & _). apply PLUS_uint.
Qed.

Lemma next_block_ok j : ctx_ok j → ctx_ok (next_block j) ∧
  (j12 ← j.[12]; j13 ← j.[13];
   let j12 := PLUS j12 1 in let j13 := if j12 =? 0 then PLUS j13 1 else j13 in
   j ← wr j 12 j12; wr j 13 j13) = Some (next_block j).
Proof.
  intros Hj. destruct (ctx_rd j 12 Hj) as (a & Ha & Hau); [lia|].
  destruct (ctx_rd j 13 Hj) as (b & Hb & Hbu); [lia|]. rewrite Ha, Hb. bind_simpl.
  unfold next_block. unfold rd in Ha, Hb. cbn [Z.leb Z.compare] in Ha, Hb.
  change (Z.to_nat 12) with 12%nat in Ha. change (Z.to_nat 13) with 13%nat in Hb. rewrite Ha, Hb. cbn [default].
  set (v := if _ =? 0 then _ else _).
  assert (is_u32 v) by (unfold v; destruct (_ =? 0); auto with chacha). destruct Hj as [Hl Hf]. split.
  - split; [by rewrite !length_insert|]. apply Forall_insert; [|done]. apply Forall_insert; auto with chacha.
  - rewrite wr_lt by lia. bind_simpl. by rewrite wr_lt by (rewrite length_insert; lia).
Qed.

Lemma chacha_block_length j : length j = 16%nat → length (rounds j) = 16%nat → length (chacha_block j) = 64%nat.
Proof.
  intros Hj Hr. unfold chacha_block. rewrite (bind_enc_length le32_bytes 4) by done.
  rewrite length_zip_with. lia.
Qed.

(** ** Exclusive-or of words and of their bytes *)

Lemma le32_bytes_lxor x y : le32_bytes (x ^' y) = zip_with Z.lxor (le32_bytes x) (le32_bytes y).
Proof.
  unfold le32_bytes. cbn [zip_with]. repeat f_equal; apply Z.bits_inj'; intros i Hi;
    unfold u8; repeat bits_step; by destruct (i <? 8); cbn [andb xorb]; rewrite ?andb_true_r, ?andb_false_r.
Qed.

Lemma bind_lxor xs ys : length xs = length ys →
  (zip_with Z.lxor xs ys ≫= le32_bytes) = zip_with Z.lxor (xs ≫= le32_bytes) (ys ≫= le32_bytes).
Proof.
  revert ys. induction xs as [|x xs IH]; intros [|y ys] Hl; try done.
  change (zip_with Z.lxor (x :: xs) (y :: ys) ≫= le32_bytes)
    with (le32_bytes (x ^' y) ++ (zip_with Z.lxor xs ys ≫= le32_bytes)).
  rewrite IH by (simpl in Hl; lia). by rewrite le32_bytes_lxor.
Qed.

Lemma words32_bytes n b : bytes_ok b → length b = (4 * n)%nat → (words 4 n b ≫= le32_bytes) = b.
Proof.
  revert b. induction n as [|n IH]; intros b Hb Hl; [by destruct b|]. cbn [words].
  change ((le_val (take 4 b) :: words 4 n (drop 4 b)) ≫= le32_bytes)
    with (le32_bytes (le_val (take 4 b)) ++ (words 4 n (drop 4 b) ≫= le32_bytes)).
  rewrite IH by (by apply Forall_drop || (rewrite length_drop; lia)).
  rewrite le32_bytes_val by (by apply Forall_take || (rewrite length_take; lia)). apply take_drop.
Qed.

(** ** The block loop computes the exclusive-or with the keystream *)

Lemma zip_lxor_comm a b : zip_with Z.lxor a b = zip_with Z.lxor b a.
Proof. revert b. induction a as [|x a IH]; intros [|y b]; cbn; [done..|]. by rewrite Z.lxor_comm, IH. Qed.

Lemma take_zip_lxor a b l : take (length a) (zip_with Z.lxor (a ++ b) l) = zip_with Z.lxor a l.
Proof. revert l. induction a as [|x a IH]; intros [|y l]; cbn; [done..|]. by rewrite IH. Qed.

Lemma block_stored j src : ctx_ok j → bytes_ok src → length src = 64%nat →
  stores store32_le 4 (zip_with Z.lxor (zip_with PLUS (rounds j) j) (words 4 16 src)) (replicate 64 0) 0 =
    Some (zip_with Z.lxor src (chacha_block j)).
Proof.
  intros Hj Hs Hl. destruct (rounds_ok j Hj) as [_ [Hr _]]. pose proof Hj as [Hjl _].
  rewrite <- (app_nil_r (replicate 64 0)).
  rewrite (stores_words store32_le le32_bytes 4 ltac:(done)
    ltac:(intros; rewrite store32_le_eq; by apply le32_write_mid) _ [] (replicate 64 0) [] 0).
  - cbn [app]. rewrite app_nil_r, bind_lxor, words32_bytes by (done || rewrite ?words_length, ?length_zip_with; lia).
    by rewrite zip_lxor_comm.
  - done.
  - rewrite !length_zip_with, words_length, length_replicate. lia.
Qed.

Lemma nblocks_small n : (0 < n <= 64)%nat → nblocks n = 1%nat.
Proof.
  intros H. unfold nblocks. symmetry. apply (Nat.div_unique (n + 63) 64 1 (n + 63 - 64)); lia.
Qed.
Lemma nblocks_large n : (64 < n)%nat → nblocks n = S (nblocks (n - 64)).
Proof.
  intros H. unfold nblocks. replace (n + 63)%nat with ((n - 64 + 63) + 1 * 64)%nat by lia.
  rewrite Nat.div_add by lia. lia.
Qed.

(** The bytes of [m] an iteration works on. *)
Lemma loop_source mpre mrest : bytes_ok mrest → (0 < length mrest)%nat →
  ∃ src, (if Z.of_nat (length mrest) <? 64
          then s ← slice (mpre ++ mrest) (Z.of_nat (length mpre)) (Z.of_nat (length mrest));
               blit (replicate 64 0) 0 s
          else slice (mpre ++ mrest) (Z.of_nat (length mpre)) 64) = Some src ∧
    length src = 64%nat ∧ bytes_ok src ∧
    src = take 64 mrest ++ replicate (64 - length mrest) 0.
Proof.
  intros Hb Hl. destruct (Z.ltb_spec (Z.of_nat (length mrest)) 64).
  - rewrite slice_app_r, Z.sub_diag, slice_all by lia. bind_simpl.
    rewrite <- (app_nil_r (replicate 64 0)), blit_replicate by lia. rewrite app_nil_r.
    eexists. split; [done|]. rewrite (take_ge mrest) by lia. split; [len|]. split; [|done].
    apply Forall_app_2; [done|]. by apply Forall_replicate.
  - rewrite slice_app_r, Z.sub_diag by lia. rewrite slice_ok by lia. cbn [drop Z.to_nat].
    change (Z.to_nat 64) with 64%nat. eexists. split; [done|].
    replace (64 - length mrest)%nat with 0%nat by lia. cbn [replicate]. rewrite app_nil_r.
    split; [len|]. split; [by apply Forall_take|done].
Qed.

Lemma encrypt_loop_eq fuel j mpre mrest cpre crest n : ctx_ok j → bytes_ok mrest →
  n = Z.of_nat (length mrest) → 0 < n → n <= 64 * Z.of_nat fuel →
  length cpre = length mpre → (length mrest <= length crest)%nat →
  ∃ j', encrypt_loop fuel j (mpre ++ mrest) (cpre ++ crest) (Z.of_nat (length mpre)) n =
    Some (j', cpre ++ xor_stream j mrest ++ drop (length mrest) crest).
Proof.
  revert j mpre mrest cpre crest n.
  induction fuel as [|fuel IH]; intros j mpre mrest cpre crest n Hj Hb Hn H0 Hf Hp Hc; [lia|]. subst n.
  cbn [encrypt_loop]. destruct (loop_source mpre mrest Hb) as (src & -> & Hsl & Hsb & Hs); [lia|]. bind_simpl.
  destruct (rounds_ok j Hj) as [-> Hr]. bind_simpl. cbv zeta.
  rewrite (loads_words load32_le 4 ltac:(intros; rewrite load32_le_eq; by apply le32_read_val)) by (done || lia).
  change (drop (Z.to_nat 0) src) with src. bind_simpl.
  destruct (next_block_ok j Hj) as [Hj' Hnext]. revert Hnext. cbv zeta.
  destruct (ctx_rd j 12 Hj) as (a & -> & _); [lia|]. destruct (ctx_rd j 13 Hj) as (b & -> & _); [lia|]. bind_simpl.
  destruct (wr j 12 (PLUS a 1)) as [j1|] eqn:E1; [|done]. bind_simpl. intros ->. bind_simpl.
  rewrite block_stored by done. bind_simpl.
  pose proof (chacha_block_length j (proj1 Hj) (proj1 Hr)) as Hbl.
  destruct (Z.leb_spec (Z.of_nat (length mrest)) 64) as [Hle|Hgt].
  - rewrite Nat2Z.id, Hs, (take_ge mrest) by lia. rewrite take_zip_lxor.
    assert (length (zip_with Z.lxor mrest (chacha_block j)) = length mrest) as Hzl
      by (rewrite length_zip_with; lia).
    replace (cpre ++ crest) with (cpre ++ take (length mrest) crest ++ drop (length mrest) crest)
      by (by rewrite take_drop).
    rewrite blit_mid by (rewrite ?length_take; lia). bind_simpl. eexists. do 3 f_equal.
    unfold xor_stream. rewrite nblocks_small by lia. cbn [keystream]. by rewrite app_nil_r.
  - assert (src = take 64 mrest) as Hs' by (rewrite Hs; replace (64 - length mrest)%nat with 0%nat by lia;
      apply app_nil_r). clear Hs.
    assert (length (zip_with Z.lxor src (chacha_block j)) = 64%nat) as Hzl by (rewrite length_zip_with; lia).
    replace (cpre ++ crest) with (cpre ++ take 64 crest ++ drop 64 crest) by (by rewrite take_drop).
    rewrite blit_mid by (rewrite ?length_take; lia). bind_simpl.
    replace (mpre ++ mrest) with ((mpre ++ take 64 mrest) ++ drop 64 mrest)
      by (by rewrite <- app_assoc, take_drop).
    rewrite (app_assoc cpre).
    replace (Z.of_nat (length mpre) + 64) with (Z.of_nat (length (mpre ++ take 64 mrest))) by len.
    destruct (IH (next_block j) (mpre ++ take 64 mrest) (drop 64 mrest)
      (cpre ++ zip_with Z.lxor src (chacha_block j)) (drop 64 crest)
      (Z.of_nat (length mrest) - 64)) as [j' ->]; [done|by apply Forall_drop|len|lia|lia| |len|].
    { rewrite !length_app, Hzl, length_take. lia. }
    exists j'. do 2 f_equal. rewrite <- app_assoc. f_equal. rewrite drop_drop, length_drop.
    replace (64 + (length mrest - 64))%nat with (length mrest) by lia. rewrite app_assoc. f_equal.
    unfold xor_stream. rewrite (nblocks_large (length mrest)), length_drop by lia. cbn [keystream].
    set (ks := keystream _ _).
    replace (zip_with Z.lxor mrest (chacha_block j ++ ks))
      with (zip_with Z.lxor (take 64 mrest ++ drop 64 mrest) (chacha_block j ++ ks)) by (by rewrite take_drop).
    rewrite zip_with_app by (rewrite length_take; lia). by rewrite Hs'.
Qed.

Lemma encrypt_bytes_eq ctx m c : ctx_ok ctx → bytes_ok m → (length m <= length c)%nat →
  ∃ ctx', chacha20_encrypt_bytes ctx m c (Z.of_nat (length m)) =
    Some (ctx', xor_stream ctx m ++ drop (length m) c).
Proof.
  intros Hc Hm Hl. unfold chacha20_encrypt_bytes. destruct (Z.eqb_spec (Z.of_nat (length m)) 0) as [H0|H0].
  - destruct m; [|simpl in H0; lia]. by exists ctx.
  - pose proof (Z.div_mod (Z.of_nat (length m)) 64). pose proof (Z.mod_pos_bound (Z.of_nat (length m)) 64).
    apply (encrypt_loop_eq _ ctx [] m [] c); (done || lia).
Qed.

(** ** Contexts from a key, a nonce and a counter *)

Definition sigma : list Z := [0x61707865; 0x3320646e; 0x79622d32; 0x6b206574].

(** RFC 8439: a 32-bit counter and a 96-bit nonce. *)
Definition ietf_ctx (k n : bytes) (ic : Z) : list Z := sigma ++ words 4 8 k ++ [ic] ++ words 4 3 n.
(** The original: a 64-bit counter and a 64-bit nonce. *)
Definition djb_ctx (k n : bytes) (ic : Z) : list Z :=
  sigma ++ words 4 8 k ++ [u32 ic; u32 (ic ≫ 32)] ++ words 4 2 n.

Lemma load32_at b o : bytes_ok b → 0 <= o → o + 4 <= Z.of_nat (length b) →
  load32_le b o = Some (le_val (take 4 (drop (Z.to_nat o) b))).
Proof.
  intros Hb Ho Hl. rewrite load32_le_eq. apply le32_read_val; [by rewrite slice_ok by lia|].
  by apply Forall_take, Forall_drop.
Qed.

Lemma keysetup_eq k : length k = 32%nat → bytes_ok k →
  chacha_keysetup (replicate 16 0) k = Some (sigma ++ words 4 8 k ++ replicate 4 0).
Proof.
  intros Hl Hk. unfold chacha_keysetup. rewrite !load32_at by (done || lia).
  cbn [words]. rewrite !drop_drop. reflexivity.
Qed.

Lemma ietf_setup_eq k n ic ctr : length k = 32%nat → bytes_ok k → length n = 12%nat → bytes_ok n → is_u32 ic →
  ctr = Some (le32_bytes ic) ∨ ctr = NULL ∧ ic = 0 →
  (ctx ← chacha_keysetup (replicate 16 0) k; chacha_ietf_ivsetup ctx n ctr) = Some (ietf_ctx k n ic).
Proof.
  intros Hkl Hk Hnl Hn Hic Hctr. rewrite keysetup_eq by done. bind_simpl. unfold chacha_ietf_ivsetup.
  assert (match ctr with NULL => Some 0 | Some b => load32_le b 0 end = Some ic) as ->.
  { destruct Hctr as [->|[-> ->]]; [|done]. rewrite load32_le_eq. by apply le32_read_bytes; [|apply slice_all]. }
  rewrite !load32_at by (done || lia). unfold ietf_ctx. cbn [words]. rewrite !drop_drop. reflexivity.
Qed.

Lemma djb_setup_eq k n ic ctr : length k = 32%nat → bytes_ok k → length n = 8%nat → bytes_ok n → is_u64 ic →
  ctr = Some (le32_bytes (u32 ic) ++ le32_bytes (u32 (ic ≫ 32))) ∨ ctr = NULL ∧ ic = 0 →
  (ctx ← chacha_keysetup (replicate 16 0) k; chacha_ivsetup ctx n ctr) = Some (djb_ctx k n ic).
Proof.
  intros Hkl Hk Hnl Hn Hic Hctr. rewrite keysetup_eq by done. bind_simpl. unfold chacha_ivsetup.
  assert (match ctr with NULL => Some 0 | Some b => load32_le b 0 end = Some (u32 ic) ∧
          match ctr with NULL => Some 0 | Some b => load32_le b 4 end = Some (u32 (ic ≫ 32))) as [-> ->].
  { destruct Hctr as [->|[-> ->]]; [|done]. rewrite !load32_le_eq.
    split; (apply le32_read_bytes; [apply u32_uint|]).
    - by apply slice_app_0.
    - rewrite slice_app_r by done. by apply slice_all. }
  rewrite !load32_at by (done || lia). unfold djb_ctx. cbn [words]. rewrite !drop_drop. reflexivity.
Qed.

Lemma sigma_ok : Forall is_u32 sigma.
Proof. by_computation. Qed.

Lemma ietf_ctx_ok k n ic : length k = 32%nat → bytes_ok k → length n = 12%nat → bytes_ok n → is_u32 ic →
  ctx_ok (ietf_ctx k n ic).
Proof.
  intros. split; [unfold ietf_ctx; by rewrite !length_app, !words_length|].
  repeat apply Forall_app_2; [apply sigma_ok|by apply (words_uint 4)|by apply Forall_singleton|by apply (words_uint 4)].
Qed.

Lemma djb_ctx_ok k n ic : length k = 32%nat → bytes_ok k → length n = 8%nat → bytes_ok n → ctx_ok (djb_ctx k n ic).
Proof.
  intros. split; [unfold djb_ctx; by rewrite !length_app, !words_length|].
  repeat apply Forall_app_2; [apply sigma_ok|by apply (words_uint 4)| |by apply (words_uint 4)].
  repeat constructor; apply u32_uint.
Qed.

(** ** The stream functions *)

Section streams.
Variables (k n c m : bytes).
Hypothesis (Hkl : length k = 32%nat).
Hypothesis (Hk : bytes_ok k).
Hypothesis (Hn : bytes_ok n).
Hypothesis (Hm : bytes_ok m).
Hypothesis (Hc : (length m <= length c)%nat).

Lemma stream_ietf_xor_eq ic : length n = 12%nat → is_u32 ic →
  stream_ietf_ext_ref_xor_ic c m (Z.of_nat (length m)) n ic k =
    Some (0, xor_stream (ietf_ctx k n ic) m ++ drop (length m) c).
Proof.
  intros Hnl Hic. unfold stream_ietf_ext_ref_xor_ic.
  destruct (Z.eqb_spec (Z.of_nat (length m)) 0) as [H0|_]; [by destruct m; [|simpl in H0; lia]|].
  rewrite store32_le_eq. rewrite <- (app_nil_r (replicate 4 0)).
  rewrite (le32_write_mid [] (replicate 4 0) []) by done. cbn [app]. rewrite app_nil_r. bind_simpl.
  pose proof (ietf_setup_eq k n ic (Some (le32_bytes ic)) Hkl Hk Hnl Hn Hic (or_introl eq_refl)) as Hs.
  destruct (chacha_keysetup (replicate 16 0) k) as [ctx|]; [|done]. bind_simpl. cbn [mbind option_bind] in Hs.
  rewrite Hs. bind_simpl. destruct (encrypt_bytes_eq (ietf_ctx k n ic) m c) as [ctx' ->];
    [by apply ietf_ctx_ok|done|done|]. done.
Qed.

Lemma stream_djb_xor_eq ic : length n = 8%nat → is_u64 ic →
  stream_ref_xor_ic c m (Z.of_nat (length m)) n ic k =
    Some (0, xor_stream (djb_ctx k n ic) m ++ drop (length m) c).
Proof.
  intros Hnl Hic. unfold stream_ref_xor_ic.
  destruct (Z.eqb_spec (Z.of_nat (length m)) 0) as [H0|_]; [by destruct m; [|simpl in H0; lia]|].
  cbv zeta. rewrite !store32_le_eq. change (replicate 8 0) with ([] ++ replicate 4 0 ++ replicate 4 0).
  rewrite le32_write_mid by done. bind_simpl. rewrite store32_le_eq.
  rewrite <- (app_nil_r (replicate 4 0)). cbn [app]. rewrite le32_write_mid by done. bind_simpl. rewrite app_nil_r.
  pose proof (djb_setup_eq k n ic _ Hkl Hk Hnl Hn Hic (or_introl eq_refl)) as Hs.
  destruct (chacha_keysetup (replicate 16 0) k) as [ctx|]; [|done]. bind_simpl. cbn [mbind option_bind] in Hs.
  rewrite Hs. bind_simpl. destruct (encrypt_bytes_eq (djb_ctx k n ic) m c) as [ctx' ->];
    [by apply djb_ctx_ok|done|done|]. done.
Qed.
End streams.

Lemma encrypt_loop_tail fuel j m tail c off n : 0 <= off → 0 <= n → off + n <= Z.of_nat (length m) →
  encrypt_loop fuel j (m ++ tail) c off n = encrypt_loop fuel j m c off n.
Proof.
  revert j c off n. induction fuel as [|fuel IH]; intros j c off n Ho Hn Hl; [done|]. cbn [encrypt_loop].
  replace (if n <? 64 then s ← slice (m ++ tail) off n; blit (replicate 64 0) 0 s else slice (m ++ tail) off 64)
    with (if n <? 64 then s ← slice m off n; blit (replicate 64 0) 0 s else slice m off 64)
    by (destruct (Z.ltb_spec n 64); by rewrite slice_app_l by lia).
  destruct (if n <? 64 then _ else _); [|done]. bind_simpl.
  destruct (Z.leb_spec n 64); [done|]. repeat (apply option_bind_ext_fun; intros ?). apply IH; lia.
Qed.

Lemma encrypt_in_place ctx z rest : ctx_ok ctx → bytes_ok z →
  ∃ ctx', chacha20_encrypt_bytes ctx (z ++ rest) (z ++ rest) (Z.of_nat (length z)) =
    Some (ctx', xor_stream ctx z ++ rest).
Proof.
  intros Hc Hz. destruct (encrypt_bytes_eq ctx z (z ++ rest)) as [ctx' H]; [done|done|len|].
  exists ctx'. rewrite drop_app_length in H. rewrite <- H. unfold chacha20_encrypt_bytes.
  destruct (_ =? 0); [done|]. by apply encrypt_loop_tail; len.
Qed.

Lemma stream_ietf_eq k n c len : length k = 32%nat → bytes_ok k → length n = 12%nat → bytes_ok n →
  (len <= length c)%nat →
  stream_ietf_ext_ref c (Z.of_nat len) n k =
    Some (0, xor_stream (ietf_ctx k n 0) (replicate len 0) ++ drop len c).
Proof.
  intros Hkl Hk Hnl Hn Hl. unfold stream_ietf_ext_ref.
  destruct (Z.eqb_spec (Z.of_nat len) 0) as [H0|_]; [by replace len with 0%nat by lia|].
  pose proof (ietf_setup_eq k n 0 NULL Hkl Hk Hnl Hn ltac:(done) (or_intror (conj eq_refl eq_refl))) as Hs.
  destruct (chacha_keysetup (replicate 16 0) k) as [ctx|]; [|done]. bind_simpl. cbn [mbind option_bind] in Hs.
  rewrite Hs. bind_simpl. rewrite fill_0 by lia. rewrite Nat2Z.id. bind_simpl.
  destruct (encrypt_in_place (ietf_ctx k n 0) (replicate len 0) (drop len c)) as [ctx' H];
    [by apply ietf_ctx_ok|by apply Forall_replicate|]. rewrite length_replicate in H. by rewrite H.
Qed.

Lemma stream_djb_eq k n c len : length k = 32%nat → bytes_ok k → length n = 8%nat → bytes_ok n →
  (len <= length c)%nat →
  stream_ref c (Z.of_nat len) n k =
    Some (0, xor_stream (djb_ctx k n 0) (replicate len 0) ++ drop len c).
Proof.
  intros Hkl Hk Hnl Hn Hl. unfold stream_ref.
  destruct (Z.eqb_spec (Z.of_nat len) 0) as [H0|_]; [by replace len with 0%nat by lia|].
  pose proof (djb_setup_eq k n 0 NULL Hkl Hk Hnl Hn ltac:(done) (or_intror (conj eq_refl eq_refl))) as Hs.
  destruct (chacha_keysetup (replicate 16 0) k) as [ctx|]; [|done]. bind_simpl. cbn [mbind option_bind] in Hs.
  rewrite Hs. bind_simpl. rewrite fill_0 by lia. rewrite Nat2Z.id. bind_simpl.
  destruct (encrypt_in_place (djb_ctx k n 0) (replicate len 0) (drop len c)) as [ctx' H];
    [by apply djb_ctx_ok|by apply Forall_replicate|]. rewrite length_replicate in H. by rewrite H.
Qed.

(** ** The stream is as long as the message, and undoes itself *)

Lemma keystream_length b j : ctx_ok j → length (keystream b j) = (64 * b)%nat.
Proof.
  revert j. induction b as [|b IH]; intros j Hj; [done|]. cbn [keystream]. rewrite length_app.
  rewrite IH by (by apply next_block_ok). destruct (rounds_ok j Hj) as [_ Hr].
  rewrite chacha_block_length by (apply Hj || apply Hr). lia.
Qed.

Lemma nblocks_covers n : (n <= 64 * nblocks n)%nat.
Proof. unfold nblocks. pose proof (Nat.div_mod (n + 63) 64). pose proof (Nat.mod_upper_bound (n + 63) 64). lia. Qed.

Lemma xor_stream_length j m : ctx_ok j → length (xor_stream j m) = length m.
Proof.
  intros Hj. unfold xor_stream. rewrite length_zip_with, keystream_length by done.
  pose proof (nblocks_covers (length m)). lia.
Qed.

Lemma zip_lxor_cancel a b : (length a <= length b)%nat → zip_with Z.lxor (zip_with Z.lxor a b) b = a.
Proof.
  revert b. induction a as [|x a IH]; intros [|y b] Hl; cbn in *; [done..|lia|].
  rewrite IH by lia. by rewrite Z.lxor_assoc, Z.lxor_nilpotent, Z.lxor_0_r.
Qed.

Lemma xor_stream_involutive j m : ctx_ok j → xor_stream j (xor_stream j m) = m.
Proof.
  intros Hj. unfold xor_stream at 1. rewrite xor_stream_length by done. unfold xor_stream.
  apply zip_lxor_cancel. rewrite keystream_length by done. apply nblocks_covers.
Qed.

Lemma bind_le32_ok xs : bytes_ok (xs ≫= le32_bytes).
Proof. apply Forall_bind, Forall_true. intros x. apply le32_bytes_ok. Qed.

Lemma keystream_ok b j : bytes_ok (keystream b j).
Proof. revert j. induction b as [|b IH]; intros j; [constructor|]. apply Forall_app_2; [apply bind_le32_ok|apply IH]. Qed.

Lemma zip_lxor_ok a b : bytes_ok a → bytes_ok b → bytes_ok (zip_with Z.lxor a b).
Proof.
  intros Ha. revert b. induction Ha as [|x a Hx Ha IH]; intros [|y b] Hb; cbn; try constructor.
  - apply Forall_cons in Hb as [Hy _]. apply lxor_uint; [lia|done..].
  - apply Forall_cons in Hb as [_ Hb]. by apply IH.
Qed.

Lemma xor_stream_ok j m : bytes_ok m → bytes_ok (xor_stream j m).
Proof. intros Hm. apply zip_lxor_ok; [done|apply keystream_ok]. Qed.

(** The last word of the counter a message may reach (64 * (2^32 - 1) bytes from block 1). *)
Lemma ietf_xor_ic_eq k n c m ic : length k = 32%nat → bytes_ok k → length n = 12%nat → bytes_ok n →
  bytes_ok m → (length m <= length c)%nat → is_u32 ic →
  Z.of_nat (nblocks (length m)) + ic <= 2 ^ 32 →
  crypto_stream_chacha20_ietf_xor_ic c m (Z.of_nat (length m)) n ic k =
    Some (0, xor_stream (ietf_ctx k n ic) m ++ drop (length m) c).
Proof.
  intros Hkl Hk Hnl Hn Hm Hc Hic Hmax. unfold crypto_stream_chacha20_ietf_xor_ic.
  pose proof (nblocks_covers (length m)) as Hcov. unfold is_uint in Hic.
  assert (Z.of_nat (nblocks (length m)) = (Z.of_nat (length m) + 63) / 64) as Hnb
    by (unfold nblocks; by rewrite Nat2Z.inj_div, Nat2Z.inj_add).
  rewrite (u64_small (Z.of_nat (length m) + 63)) by (split; lia). rewrite <- Hnb.
  change (u64 (64 * u64 (1 ≪ 32)) / 64) with (2 ^ 32). rewrite u64_small by (split; lia).
  replace (ic >? 2 ^ 32 - Z.of_nat (nblocks (length m))) with false by lia.
  unfold crypto_stream_chacha20_ietf_ext_xor_ic, crypto_stream_chacha20_MESSAGEBYTES_MAX.
  replace (Z.of_nat (length m) >? 2 ^ 64 - 1) with false by lia. by apply stream_ietf_xor_eq.
Qed.

(** The functions without an initial counter start at block 0. *)
Lemma ietf_xor_eq k n c m : length k = 32%nat → bytes_ok k → length n = 12%nat → bytes_ok n →
  bytes_ok m → (length m <= length c)%nat → Z.of_nat (length m) <= 64 * 2 ^ 32 →
  crypto_stream_chacha20_ietf_xor c m (Z.of_nat (length m)) n k =
    Some (0, xor_stream (ietf_ctx k n 0) m ++ drop (length m) c).
Proof.
  intros Hkl Hk Hnl Hn Hm Hc Hl. unfold crypto_stream_chacha20_ietf_xor, crypto_stream_chacha20_ietf_ext_xor,
    crypto_stream_chacha20_ietf_MESSAGEBYTES_MAX, crypto_stream_chacha20_MESSAGEBYTES_MAX.
  replace (_ >? 64 * 2 ^ 32) with false by lia. replace (_ >? 2 ^ 64 - 1) with false by lia.
  by apply stream_ietf_xor_eq.
Qed.

Lemma djb_xor_eq k n c m : length k = 32%nat → bytes_ok k → length n = 8%nat → bytes_ok n →
  bytes_ok m → (length m <= length c)%nat → Z.of_nat (length m) < 2 ^ 64 →
  crypto_stream_chacha20_xor c m (Z.of_nat (length m)) n k =
    Some (0, xor_stream (djb_ctx k n 0) m ++ drop (length m) c).
Proof.
  intros Hkl Hk Hnl Hn Hm Hc Hl. unfold crypto_stream_chacha20_xor, crypto_stream_chacha20_MESSAGEBYTES_MAX.
  replace (_ >? 2 ^ 64 - 1) with false by lia. by apply stream_djb_xor_eq.
Qed.

(** ** Properties *)

(** C22: The IETF stream: encryption from block [ic] is exclusive-or with the keystream of RFC 8439 for
    every message whose blocks do not exhaust the 32-bit counter, it leaves the rest of the
    output buffer alone, and applying it again gives the message back.  A block of the keystream
    is the sum of the state and the state after ten double rounds, each a round of the four
    columns and one of the four diagonals of its matrix of words. *)
Theorem chacha20_ietf_stream k n ic m c :
  length k = 32%nat → bytes_ok k → length n = 12%nat → bytes_ok n → is_u32 ic → bytes_ok m →
  (length m <= length c)%nat → Z.of_nat (nblocks (length m)) + ic <= 2 ^ 32 →
  ∃ ct, ct = zip_with Z.lxor m (keystream (nblocks (length m)) (ietf_ctx k n ic)) ∧ length ct = length m ∧
    crypto_stream_chacha20_ietf_xor_ic c m (Z.of_nat (length m)) n ic k = Some (0, ct ++ drop (length m) c) ∧
    crypto_stream_chacha20_ietf_xor_ic c ct (Z.of_nat (length m)) n ic k = Some (0, m ++ drop (length m) c) ∧
    (∀ j, ctx_ok j → chacha_block j = zip_with PLUS (Nat.iter 10 two_rounds j) j ≫= le32_bytes).
Proof.
  intros Hkl Hk Hnl Hn Hic Hm Hc Hmax. assert (ctx_ok (ietf_ctx k n ic)) as Hj by (by apply ietf_ctx_ok).
  exists (xor_stream (ietf_ctx k n ic) m). pose proof (xor_stream_length _ m Hj) as Hl.
  split_and!; [done|done|by apply ietf_xor_ic_eq| |apply chacha_block_rows]. rewrite <- Hl.
  rewrite ietf_xor_ic_eq by (rewrite ?Hl; done || by apply xor_stream_ok).
  by rewrite xor_stream_involutive.
Qed.

Lemma chacha20_ietf_stream_witness :
  ∃ ct, ct = zip_with Z.lxor (replicate 70 5) (keystream (nblocks (length (replicate 70 5)))
               (ietf_ctx (seqZ 0 32) (replicate 12 1) (2 ^ 32 - 2))) ∧
    length ct = length (replicate 70 5) ∧
    crypto_stream_chacha20_ietf_xor_ic (replicate 80 0) (replicate 70 5) (Z.of_nat (length (replicate 70 5)))
      (replicate 12 1) (2 ^ 32 - 2) (seqZ 0 32) = Some (0, ct ++ drop (length (replicate 70 5)) (replicate 80 0)) ∧
    crypto_stream_chacha20_ietf_xor_ic (replicate 80 0) ct (Z.of_nat (length (replicate 70 5)))
      (replicate 12 1) (2 ^ 32 - 2) (seqZ 0 32) =
      Some (0, replicate 70 5 ++ drop (length (replicate 70 5)) (replicate 80 0)) ∧
    (∀ j, ctx_ok j → chacha_block j = zip_with PLUS (Nat.iter 10 two_rounds j) j ≫= le32_bytes).
Proof. apply chacha20_ietf_stream; by_computation. Defined.
