(* ===== verification/Poly1305.v ===== *)
(** * Poly1305 ([crypto_onetimeauth/poly1305/donna] of libsodium)

    The 64-bit implementation ([poly1305_donna64.h], selected by [HAVE_TI_MODE]) with
    the buffering of [poly1305_donna.c].  The arrays [r], [h] and [pad] of the state are
    fields of the record; a pointer into a message is the message and an offset.
    [poly1305_mac] is the definition of RFC 8439; the code is shown to compute it in 44-
    and 42-bit limbs without overflow of any 64- or 128-bit word, for any split of the
    message into updates. *)

From S2P Require Import Prelude Packet Sodium Words.
Local Open Scope c_scope.

Definition u128 (x : Z) : Z := wrap 128 x.

Definition poly1305_block_size : Z := 16.

Record poly1305_state_internal_t := {
  r_0 : Z; r_1 : Z; r_2 : Z;
  h_0 : Z; h_1 : Z; h_2 : Z;
  pad_0 : Z; pad_1 : Z;
  leftover : Z;
  buffer : bytes;
  final : Z;
}.

Definition set_h (st : poly1305_state_internal_t) (h : Z * Z * Z) : poly1305_state_internal_t :=
  {| r_0 := r_0 st; r_1 := r_1 st; r_2 := r_2 st; h_0 := h.1.1; h_1 := h.1.2; h_2 := h.2;
     pad_0 := pad_0 st; pad_1 := pad_1 st; leftover := leftover st; buffer := buffer st;
     final := final st |}.
Definition set_buffer (st : poly1305_state_internal_t) (left : Z) (b : bytes) : poly1305_state_internal_t :=
  {| r_0 := r_0 st; r_1 := r_1 st; r_2 := r_2 st; h_0 := h_0 st; h_1 := h_1 st; h_2 := h_2 st;
     pad_0 := pad_0 st; pad_1 := pad_1 st; leftover := left; buffer := b; final := final st |}.
Definition set_final (st : poly1305_state_internal_t) (f : Z) : poly1305_state_internal_t :=
  {| r_0 := r_0 st; r_1 := r_1 st; r_2 := r_2 st; h_0 := h_0 st; h_1 := h_1 st; h_2 := h_2 st;
     pad_0 := pad_0 st; pad_1 := pad_1 st; leftover := leftover st; buffer := buffer st; final := f |}.

(** [poly1305_init] leaves [buffer] as it was. *)
Definition poly1305_init (st : poly1305_state_internal_t) (key : bytes) : option poly1305_state_internal_t :=
  t0 ← load64_le key 0; t1 ← load64_le key 8;
  p0 ← load64_le key 16; p1 ← load64_le key 24;
  Some {| r_0 := t0 &' 0xffc0fffffff;
          r_1 := ((t0 ≫ 44) |' u64 (t1 ≪ 20)) &' 0xfffffc0ffff;
          r_2 := (t1 ≫ 24) &' 0x00ffffffc0f;
          h_0 := 0; h_1 := 0; h_2 := 0; pad_0 := p0; pad_1 := p1;
          leftover := 0; buffer := buffer st; final := 0 |}.

(** [h += m[i]] *)
Definition add_block (hibit h0 h1 h2 t0 t1 : Z) : Z * Z * Z :=
  (u64 (h0 + (t0 &' 0xfffffffffff)),
   u64 (h1 + (((t0 ≫ 44) |' u64 (t1 ≪ 20)) &' 0xfffffffffff)),
   u64 (h2 + (((t1 ≫ 24) &' 0x3ffffffffff) |' hibit))).

(** [h *= r] *)
Definition mul_limbs (r0 r1 r2 s1 s2 h0 h1 h2 : Z) : Z * Z * Z :=
  let d0 := u128 (h0 * r0) in
  let d := u128 (h1 * s2) in let d0 := u128 (d0 + d) in
  let d := u128 (h2 * s1) in let d0 := u128 (d0 + d) in
  let d1 := u128 (h0 * r1) in
  let d := u128 (h1 * r0) in let d1 := u128 (d1 + d) in
  let d := u128 (h2 * s2) in let d1 := u128 (d1 + d) in
  let d2 := u128 (h0 * r2) in
  let d := u128 (h1 * r1) in let d2 := u128 (d2 + d) in
  let d := u128 (h2 * r0) in let d2 := u128 (d2 + d) in
  (d0, d1, d2).

(** (partial) [h %= p] *)
Definition partial_reduce (d0 d1 d2 : Z) : Z * Z * Z :=
  let c := u64 (d0 ≫ 44) in
  let h0 := u64 d0 &' 0xfffffffffff in
  let d1 := u128 (d1 + c) in
  let c := u64 (d1 ≫ 44) in
  let h1 := u64 d1 &' 0xfffffffffff in
  let d2 := u128 (d2 + c) in
  let c := u64 (d2 ≫ 42) in
  let h2 := u64 d2 &' 0x3ffffffffff in
  let h0 := u64 (h0 + u64 (c * 5)) in
  let c := h0 ≫ 44 in
  let h0 := h0 &' 0xfffffffffff in
  let h1 := u64 (h1 + c) in
  (h0, h1, h2).

Fixpoint blocks_loop (fuel : nat) (r0 r1 r2 s1 s2 hibit : Z) (h : Z * Z * Z) (m : bytes) (off n : Z)
    : option (Z * Z * Z) :=
  match fuel with
  | O => None
  | S fuel =>
      if n >=? poly1305_block_size then
        t0 ← load64_le m off; t1 ← load64_le m (off + 8);
        let '(h0, h1, h2) := h in
        let '(h0, h1, h2) := add_block hibit h0 h1 h2 t0 t1 in
        let '(d0, d1, d2) := mul_limbs r0 r1 r2 s1 s2 h0 h1 h2 in
        blocks_loop fuel r0 r1 r2 s1 s2 hibit (partial_reduce d0 d1 d2) m
          (off + poly1305_block_size) (n - poly1305_block_size)
      else Some h
  end.

(** [poly1305_blocks(st, m + off, n)] *)
Definition poly1305_blocks (st : poly1305_state_internal_t) (m : bytes) (off n : Z)
    : option poly1305_state_internal_t :=
  let hibit := if final st =? 0 then u64 (1 ≪ 40) else 0 in
  let s1 := u64 (r_1 st * (5 ≪ 2)) in
  let s2 := u64 (r_2 st * (5 ≪ 2)) in
  h ← blocks_loop (Z.to_nat (n / 16 + 1)) (r_0 st) (r_1 st) (r_2 st) s1 s2 hibit
        (h_0 st, h_1 st, h_2 st) m off n;
  Some (set_h st h).

(** [for (i = 0; i < n; i++) buffer[at + i] = m[off + i];] *)
Definition copy_in (buffer : bytes) (at_ : Z) (m : bytes) (off n : Z) : option bytes :=
  for_range (Z.to_nat n) (λ i buffer,
    x ← m.[off + Z.of_nat i]; wr buffer (at_ + Z.of_nat i) x) buffer.

(** "handle leftover": the state, how much of [m] was used, and whether to go on. *)
Definition update_leftover (st : poly1305_state_internal_t) (m : bytes) (n : Z)
    : option (poly1305_state_internal_t * Z * bool) :=
  let want := poly1305_block_size - leftover st in
  let want := if want >? n then n else want in
  b ← copy_in (buffer st) (leftover st) m 0 want;
  let st := set_buffer st (leftover st + want) b in
  if leftover st <? poly1305_block_size then Some (st, want, false)
  else
    st ← poly1305_blocks st (buffer st) 0 poly1305_block_size;
    Some (set_buffer st 0 (buffer st), want, true).

(** "process full blocks" and "store leftover", from [m + off]. *)
Definition update_full (st : poly1305_state_internal_t) (m : bytes) (off n : Z)
    : option poly1305_state_internal_t :=
  '(st, off, n) ←
    (if n >=? poly1305_block_size then
       let want := n &' (2 ^ 64 - 1 - (poly1305_block_size - 1)) in
       st ← poly1305_blocks st m off want;
       Some (st, off + want, n - want)
     else Some (st, off, n));
  if n =? 0 then Some st
  else
    b ← copy_in (buffer st) (leftover st) m off n;
    Some (set_buffer st (leftover st + n) b).

Definition poly1305_update (st : poly1305_state_internal_t) (m : bytes) (n : Z)
    : option poly1305_state_internal_t :=
  if leftover st =? 0 then update_full st m 0 n
  else
    '(st, want, more) ← update_leftover st m n;
    if negb more then Some st else update_full st m want (n - want).

(** Carry [h] fully. *)
Definition full_carry (h0 h1 h2 : Z) : Z * Z * Z :=
  let c := h1 ≫ 44 in let h1 := h1 &' 0xfffffffffff in
  let h2 := u64 (h2 + c) in
  let c := h2 ≫ 42 in let h2 := h2 &' 0x3ffffffffff in
  let h0 := u64 (h0 + u64 (c * 5)) in
  let c := h0 ≫ 44 in let h0 := h0 &' 0xfffffffffff in
  let h1 := u64 (h1 + c) in
  let c := h1 ≫ 44 in let h1 := h1 &' 0xfffffffffff in
  let h2 := u64 (h2 + c) in
  let c := h2 ≫ 42 in let h2 := h2 &' 0x3ffffffffff in
  let h0 := u64 (h0 + u64 (c * 5)) in
  let c := h0 ≫ 44 in let h0 := h0 &' 0xfffffffffff in
  let h1 := u64 (h1 + c) in
  (h0, h1, h2).

(** Select [h] if [h < p], or [h + -p] if [h >= p]. *)
Definition sub_p (h0 h1 h2 : Z) : Z * Z * Z :=
  let g0 := u64 (h0 + 5) in
  let c := g0 ≫ 44 in let g0 := g0 &' 0xfffffffffff in
  let g1 := u64 (h1 + c) in
  let c := g1 ≫ 44 in let g1 := g1 &' 0xfffffffffff in
  let g2 := u64 (u64 (h2 + c) - u64 (1 ≪ 42)) in
  let mask := u64 ((g2 ≫ (8 * 8 - 1)) - 1) in
  let g0 := g0 &' mask in let g1 := g1 &' mask in let g2 := g2 &' mask in
  let mask := u64 (Z.lnot mask) in
  ((h0 &' mask) |' g0, (h1 &' mask) |' g1, (h2 &' mask) |' g2).

(** [h = (h + pad) % 2^128], as two words. *)
Definition add_pad (t0 t1 h0 h1 h2 : Z) : Z * Z :=
  let h0 := u64 (h0 + (t0 &' 0xfffffffffff)) in
  let c := h0 ≫ 44 in let h0 := h0 &' 0xfffffffffff in
  let h1 := u64 (h1 + u64 ((((t0 ≫ 44) |' u64 (t1 ≪ 20)) &' 0xfffffffffff) + c)) in
  let c := h1 ≫ 44 in let h1 := h1 &' 0xfffffffffff in
  let h2 := u64 (h2 + u64 (((t1 ≫ 24) &' 0x3ffffffffff) + c)) in
  let h2 := h2 &' 0x3ffffffffff in
  (h0 |' u64 (h1 ≪ 44), (h1 ≫ 20) |' u64 (h2 ≪ 24)).

(** "process the remaining block" *)
Definition finish_block (st : poly1305_state_internal_t) : option poly1305_state_internal_t :=
  if leftover st =? 0 then Some st
  else
    b ← wr (buffer st) (leftover st) 1;
    b ← for_range (Z.to_nat (poly1305_block_size - (leftover st + 1))) (λ i b,
          wr b (leftover st + 1 + Z.of_nat i) 0) b;
    let st := set_final (set_buffer st (leftover st) b) 1 in
    poly1305_blocks st (buffer st) 0 poly1305_block_size.

(** The state is zeroed at the end; what is returned is [mac]. *)
Definition poly1305_finish (st : poly1305_state_internal_t) (mac : bytes) : option bytes :=
  st ← finish_block st;
  let '(h0, h1, h2) := full_carry (h_0 st) (h_1 st) (h_2 st) in
  let '(h0, h1, h2) := sub_p h0 h1 h2 in
  let '(w0, w1) := add_pad (pad_0 st) (pad_1 st) h0 h1 h2 in
  mac ← store64_le mac 0 w0; store64_le mac 8 w1.

(** A state as it is before [poly1305_init]: its contents are never read. *)
Definition uninit : poly1305_state_internal_t :=
  {| r_0 := 0; r_1 := 0; r_2 := 0; h_0 := 0; h_1 := 0; h_2 := 0; pad_0 := 0; pad_1 := 0;
     leftover := 0; buffer := replicate 16 0; final := 0 |}.

Definition crypto_onetimeauth_poly1305_donna (out m : bytes) (inlen : Z) (key : bytes) : option (Z * bytes) :=
  st ← poly1305_init uninit key;
  st ← poly1305_update st m inlen;
  out ← poly1305_finish st out;
  Some (0, out).

Definition crypto_onetimeauth_poly1305_donna_init (st : poly1305_state_internal_t) (key : bytes) :=
  st ← poly1305_init st key; Some (0, st).
Definition crypto_onetimeauth_poly1305_donna_update (st : poly1305_state_internal_t) (m : bytes) (inlen : Z) :=
  st ← poly1305_update st m inlen; Some (0, st).
Definition crypto_onetimeauth_poly1305_donna_final (st : poly1305_state_internal_t) (out : bytes) :=
  out ← poly1305_finish st out; Some (0, out).

(** ** RFC 8439, section 2.5 *)

Definition P1305 : Z := 2 ^ 130 - 5.

Definition clamp (r : Z) : Z := r &' 0x0ffffffc0ffffffc0ffffffc0fffffff.

Definition absorb (r acc : Z) (block : bytes) : Z := (acc + le_val (block ++ [1])) * r mod P1305.

Definition poly1305_mac (key m : bytes) : bytes :=
  let r := clamp (le_val (take 16 key)) in
  let s := le_val (take 16 (drop 16 key)) in
  let acc := foldl (absorb r) 0 (chunks 16 m) in
  let tag := (acc + s) mod 2 ^ 128 in
  le64_bytes (tag mod 2 ^ 64) ++ le64_bytes (tag / 2 ^ 64).

(** RFC 8439, 2.5.2. *)
Definition rfc_key : bytes :=
  [0x85; 0xd6; 0xbe; 0x78; 0x57; 0x55; 0x6d; 0x33; 0x7f; 0x44; 0x52; 0xfe; 0x42; 0xd5; 0x06; 0xa8;
   0x01; 0x03; 0x80; 0x8a; 0xfb; 0x0d; 0xb2; 0xfd; 0x4a; 0xbf; 0xf6; 0xaf; 0x41; 0x49; 0xf5; 0x1b].
Definition rfc_message : bytes :=
  [0x43; 0x72; 0x79; 0x70; 0x74; 0x6f; 0x67; 0x72; 0x61; 0x70; 0x68; 0x69; 0x63; 0x20; 0x46; 0x6f;
   0x72; 0x75; 0x6d; 0x20; 0x52; 0x65; 0x73; 0x65; 0x61; 0x72; 0x63; 0x68; 0x20; 0x47; 0x72; 0x6f;
   0x75; 0x70].
Definition rfc_tag : bytes :=
  [0xa8; 0x06; 0x1d; 0xc1; 0x30; 0x51; 0x36; 0xc6; 0xc2; 0x2b; 0x8b; 0xaf; 0x0c; 0x01; 0x27; 0xa9].

Example poly1305_mac_rfc : poly1305_mac rfc_key rfc_message = rfc_tag.
Proof. vm_compute. reflexivity. Qed.

Example poly1305_donna_rfc :
  crypto_onetimeauth_poly1305_donna (replicate 16 0) rfc_message 34 rfc_key = Some (0, rfc_tag).
Proof. vm_compute. reflexivity. Qed.

(** ** Limbs *)

(** [lia] with quotients and remainders by constants. *)
Ltac div_lia := Z.to_euclidean_division_equations; lia.

Definition hv (h0 h1 h2 : Z) : Z := h0 + 2 ^ 44 * h1 + 2 ^ 88 * h2.

Lemma mask44 x : x &' 0xfffffffffff = x mod 2 ^ 44.
Proof. change 0xfffffffffff with (Z.ones 44). by rewrite Z.land_ones by lia. Qed.
Lemma mask42 x : x &' 0x3ffffffffff = x mod 2 ^ 42.
Proof. change 0x3ffffffffff with (Z.ones 42). by rewrite Z.land_ones by lia. Qed.

(** The middle limb of two 64-bit words. *)
Lemma middle_limb t0 t1 : is_u64 t0 → is_u64 t1 →
  (t0 ≫ 44) |' u64 (t1 ≪ 20) = t0 / 2 ^ 44 + 2 ^ 20 * (t1 mod 2 ^ 44).
Proof.
  intros H0 H1. rewrite Z.shiftr_div_pow2 by lia. unfold is_uint in *.
  replace (u64 (t1 ≪ 20)) with ((t1 mod 2 ^ 44) ≪ 20).
  - rewrite lor_shift_add; div_lia.
  - unfold u64, wrap. rewrite !Z.shiftl_mul_pow2 by lia. change (2 ^ 64) with (2 ^ 44 * 2 ^ 20).
    by rewrite Z.mul_mod_distr_r by lia.
Qed.

(** Three limbs of two 64-bit words. *)
Lemma limbs_split t0 t1 : is_u64 t0 → is_u64 t1 →
  hv (t0 &' 0xfffffffffff) (((t0 ≫ 44) |' u64 (t1 ≪ 20)) &' 0xfffffffffff) ((t1 ≫ 24) &' 0x3ffffffffff) =
    t0 + 2 ^ 64 * t1.
Proof.
  intros H0 H1. rewrite middle_limb by done. rewrite !mask44, mask42, Z.shiftr_div_pow2 by lia.
  unfold hv, is_uint in *. div_lia.
Qed.

Definition limbs_ok (h0 h1 h2 : Z) : Prop := 0 <= h0 < 2 ^ 44 ∧ 0 <= h1 < 2 ^ 44 + 2 ^ 9 ∧ 0 <= h2 < 2 ^ 42.

Lemma land_low k x m : 0 <= k → 0 <= m < 2 ^ k → x &' m = (x mod 2 ^ k) &' m.
Proof.
  intros Hk Hm. rewrite <- Z.land_ones by done. rewrite <- Z.land_assoc. f_equal.
  rewrite Z.land_comm, Z.land_ones by done. by rewrite Z.mod_small.
Qed.

Lemma land_split k a b ma mb : 0 <= k → 0 <= a < 2 ^ k → 0 <= ma < 2 ^ k →
  (a + 2 ^ k * b) &' (ma + 2 ^ k * mb) = (a &' ma) + 2 ^ k * (b &' mb).
Proof.
  intros Hk Ha Hma. rewrite !(Z.mul_comm (2 ^ k)), <- !lor_shift_add; try done.
  - apply Z.bits_inj'. intros i Hi. rewrite Z.land_spec, !Z.lor_spec, !Z.shiftl_spec, !Z.land_spec by done.
    destruct (Z.ltb_spec i k).
    + rewrite !(Z.testbit_neg_r _ (i - k)) by lia. by rewrite !orb_false_r.
    + by rewrite (uint_bit_high k a i), (uint_bit_high k ma i) by done.
  - by apply land_uint.
Qed.

(** The clamped key, in limbs. *)
Lemma clamp_limbs t0 t1 : is_u64 t0 → is_u64 t1 →
  hv (t0 &' 0xffc0fffffff) (((t0 ≫ 44) |' u64 (t1 ≪ 20)) &' 0xfffffc0ffff) ((t1 ≫ 24) &' 0x00ffffffc0f) =
    clamp (t0 + 2 ^ 64 * t1).
Proof.
  intros H0 H1. rewrite <- limbs_split by done. unfold clamp, hv.
  change 0x0ffffffc0ffffffc0ffffffc0fffffff
    with (0xffc0fffffff + 2 ^ 44 * (0xfffffc0ffff + 2 ^ 44 * 0x00ffffffc0f)).
  set (a := t0 &' 0xfffffffffff). set (b := _ &' 0xfffffffffff). set (c := (t1 ≫ 24) &' 0x3ffffffffff).
  replace (a + 2 ^ 44 * b + 2 ^ 88 * c) with (a + 2 ^ 44 * (b + 2 ^ 44 * c)) by ring.
  assert (0 <= a < 2 ^ 44) by (unfold a; rewrite mask44; div_lia).
  assert (0 <= b < 2 ^ 44) by (unfold b; rewrite mask44; div_lia).
  rewrite !land_split by lia. unfold a, b, c.
  rewrite <- !Z.land_assoc. change (0xfffffffffff &' 0xffc0fffffff) with 0xffc0fffffff.
  change (0xfffffffffff &' 0xfffffc0ffff) with 0xfffffc0ffff.
  change (0x3ffffffffff &' 0x00ffffffc0f) with 0x00ffffffc0f. ring.
Qed.

Lemma land_le x m : 0 <= m → 0 <= x &' m <= m.
Proof.
  intros Hm. split; [apply Z.land_nonneg; by right|]. apply Z.ldiff_le; [done|].
  apply Z.bits_inj'. intros i Hi. rewrite Z.ldiff_spec, Z.land_spec, Z.bits_0.
  by destruct (Z.testbit x i), (Z.testbit m i).
Qed.

(** ** One block *)

Definition r_ok (r0 r1 r2 : Z) : Prop := 0 <= r0 < 2 ^ 44 ∧ 0 <= r1 < 2 ^ 44 ∧ 0 <= r2 < 2 ^ 40.

Lemma add_block_eq hibit h0 h1 h2 t0 t1 : limbs_ok h0 h1 h2 → is_u64 t0 → is_u64 t1 →
  hibit = 0 ∨ hibit = 2 ^ 40 →
  let '(a0, a1, a2) := add_block hibit h0 h1 h2 t0 t1 in
  hv a0 a1 a2 = hv h0 h1 h2 + (t0 + 2 ^ 64 * t1) + 2 ^ 88 * hibit ∧
  0 <= a0 < 2 ^ 45 ∧ 0 <= a1 < 2 ^ 45 + 2 ^ 9 ∧ 0 <= a2 < 2 ^ 43.
Proof.
  intros (H0 & H1 & H2) Ht0 Ht1 Hh. unfold add_block. cbv zeta.
  rewrite <- limbs_split by done. rewrite !mask44, mask42.
  assert (0 <= (t1 ≫ 24) mod 2 ^ 42 < 2 ^ 40) as Hsmall
    by (rewrite Z.shiftr_div_pow2 by lia; unfold is_uint in *; div_lia).
  replace ((t1 ≫ 24) mod 2 ^ 42 |' hibit) with ((t1 ≫ 24) mod 2 ^ 42 + hibit).
  - rewrite (u64_small (h0 + _)), (u64_small (h1 + _)), (u64_small (h2 + _)) by (unfold is_uint; div_lia).
    unfold hv. div_lia.
  - destruct Hh as [->| ->]; [by rewrite Z.lor_0_r, Z.add_0_r|].
    pose proof (lor_shift_add _ 1 40 ltac:(lia) Hsmall) as E. rewrite Z.shiftl_1_l in E. lia.
Qed.

Lemma mul_bound a b x y : 0 <= a < x → 0 <= b < y → 0 <= a * b < x * y.
Proof. intros. split; [lia|]. nia. Qed.

Lemma sum3_small a b c : 0 <= a < 2 ^ 92 → 0 <= b < 2 ^ 92 → 0 <= c < 2 ^ 92 →
  u128 (u128 (u128 a + u128 b) + u128 c) = a + b + c.
Proof.
  intros. unfold u128. rewrite !(wrap_small 128 a), !(wrap_small 128 b), !(wrap_small 128 c),
    !(wrap_small 128 (a + b)), !(wrap_small 128 (a + b + c)); unfold is_uint; lia.
Qed.

Lemma mul_limbs_eq r0 r1 r2 h0 h1 h2 : r_ok r0 r1 r2 →
  0 <= h0 < 2 ^ 45 → 0 <= h1 < 2 ^ 45 + 2 ^ 9 → 0 <= h2 < 2 ^ 43 →
  let '(d0, d1, d2) := mul_limbs r0 r1 r2 (r1 * 20) (r2 * 20) h0 h1 h2 in
  hv d0 d1 d2 mod P1305 = hv h0 h1 h2 * hv r0 r1 r2 mod P1305 ∧
  0 <= d0 < 2 ^ 93 ∧ 0 <= d1 < 2 ^ 93 ∧ 0 <= d2 < 2 ^ 90.
Proof.
  intros (Hr0 & Hr1 & Hr2) H0 H1 H2. unfold mul_limbs. cbv zeta.
  pose proof (mul_bound h0 r0 _ _ H0 Hr0). pose proof (mul_bound h0 r1 _ _ H0 Hr1).
  pose proof (mul_bound h0 r2 _ _ H0 Hr2). pose proof (mul_bound h1 r0 _ _ H1 Hr0).
  pose proof (mul_bound h1 r1 _ _ H1 Hr1). pose proof (mul_bound h1 r2 _ _ H1 Hr2).
  pose proof (mul_bound h2 r0 _ _ H2 Hr0). pose proof (mul_bound h2 r1 _ _ H2 Hr1).
  pose proof (mul_bound h2 r2 _ _ H2 Hr2). rewrite !Z.mul_assoc.
  rewrite !sum3_small by lia. split; [|lia].
  rewrite <- (Z_mod_plus_full _ (4 * (h1 * r2 + h2 * r1 + 2 ^ 44 * (h2 * r2))) P1305).
  f_equal. unfold hv, P1305. ring.
Qed.

Lemma u64_mod x k : 0 <= k <= 64 → u64 x mod 2 ^ k = x mod 2 ^ k.
Proof.
  intros Hk. unfold u64, wrap. apply Z.mod_mod_divide.
  exists (2 ^ (64 - k)). rewrite <- Z.pow_add_r by lia. f_equal. lia.
Qed.

Lemma partial_reduce_eq d0 d1 d2 : 0 <= d0 < 2 ^ 93 → 0 <= d1 < 2 ^ 93 → 0 <= d2 < 2 ^ 90 →
  let '(a0, a1, a2) := partial_reduce d0 d1 d2 in
  limbs_ok a0 a1 a2 ∧ hv a0 a1 a2 mod P1305 = hv d0 d1 d2 mod P1305.
Proof.
  intros H0 H1 H2. unfold partial_reduce. cbv zeta.
  rewrite !mask44, !mask42, !u64_mod, !Z.shiftr_div_pow2 by lia.
  rewrite (u64_small (d0 / _)) by (unfold is_uint; div_lia).
  set (e1 := u128 (d1 + d0 / 2 ^ 44)). assert (e1 = d1 + d0 / 2 ^ 44) as He1 by (apply wrap_small; unfold is_uint; div_lia).
  clearbody e1. rewrite (u64_small (e1 / _)) by (unfold is_uint; div_lia).
  set (e2 := u128 (d2 + e1 / 2 ^ 44)). assert (e2 = d2 + e1 / 2 ^ 44) as He2 by (apply wrap_small; unfold is_uint; div_lia).
  clearbody e2. rewrite (u64_small (e2 / _)) by (unfold is_uint; div_lia).
  rewrite (u64_small (e2 / _ * 5)) by (unfold is_uint; div_lia).
  rewrite (u64_small (d0 mod _ + _)) by (unfold is_uint; div_lia).
  rewrite (u64_small (e1 mod _ + _)) by (unfold is_uint; div_lia).
  split; [unfold limbs_ok; div_lia|].
  rewrite <- (Z_mod_plus_full _ (e2 / 2 ^ 42) P1305). f_equal. unfold hv, P1305. div_lia.
Qed.

Lemma block_step_eq r0 r1 r2 hibit h0 h1 h2 t0 t1 : r_ok r0 r1 r2 → limbs_ok h0 h1 h2 →
  is_u64 t0 → is_u64 t1 → hibit = 0 ∨ hibit = 2 ^ 40 →
  ∃ a0 a1 a2,
    (let '(h0, h1, h2) := add_block hibit h0 h1 h2 t0 t1 in
     let '(d0, d1, d2) := mul_limbs r0 r1 r2 (r1 * 20) (r2 * 20) h0 h1 h2 in partial_reduce d0 d1 d2) =
      (a0, a1, a2) ∧ limbs_ok a0 a1 a2 ∧
    hv a0 a1 a2 mod P1305 =
      (hv h0 h1 h2 + (t0 + 2 ^ 64 * t1) + 2 ^ 88 * hibit) * hv r0 r1 r2 mod P1305.
Proof.
  intros Hr Hh Ht0 Ht1 Hbit. pose proof (add_block_eq hibit _ _ _ t0 t1 Hh Ht0 Ht1 Hbit) as Ha.
  destruct (add_block hibit h0 h1 h2 t0 t1) as [[b0 b1] b2]. destruct Ha as (<- & Hb0 & Hb1 & Hb2).
  pose proof (mul_limbs_eq _ _ _ _ _ _ Hr Hb0 Hb1 Hb2) as Hm.
  destruct (mul_limbs _ _ _ _ _ _ _ _) as [[d0 d1] d2]. destruct Hm as (<- & Hd0 & Hd1 & Hd2).
  pose proof (partial_reduce_eq _ _ _ Hd0 Hd1 Hd2) as Hp.
  destruct (partial_reduce d0 d1 d2) as [[a0 a1] a2]. eauto 10.
Qed.

(** ** Blocks *)

Lemma load64_take m off : bytes_ok m → 0 <= off → off + 8 <= Z.of_nat (length m) →
  load64_le m off = Some (le_val (take 8 (drop (Z.to_nat off) m))) ∧
  is_u64 (le_val (take 8 (drop (Z.to_nat off) m))).
Proof.
  intros Hm Ho Hl. assert (bytes_ok (take 8 (drop (Z.to_nat off) m))) as Hb by (by apply Forall_take, Forall_drop).
  split.
  - rewrite load64_le_eq. apply le64_read_val; [|done]. by rewrite slice_ok by lia.
  - pose proof (le_val_bound _ Hb) as H. rewrite length_take, length_drop in H.
    by replace (8 * _) with 64 in H by lia.
Qed.

Lemma le_val_16 b : (16 <= length b)%nat →
  le_val (take 16 b) = le_val (take 8 b) + 2 ^ 64 * le_val (take 8 (drop 8 b)).
Proof.
  intros Hl. rewrite <- (take_drop 8 (take 16 b)), le_val_app, take_take, length_take.
  replace (8 * _) with 64 by lia. by rewrite skipn_firstn_comm.
Qed.

Lemma absorb_full r acc b : length b = 16%nat →
  absorb r acc b = (acc mod P1305 + le_val b + 2 ^ 128) * r mod P1305.
Proof.
  intros Hl. unfold absorb. rewrite le_val_app, Hl. change (le_val [1]) with 1.
  change (2 ^ (8 * Z.of_nat 16) * 1) with (2 ^ 128). rewrite <- (Z.mul_mod_idemp_l (acc + _)) by done.
  rewrite <- (Z.mul_mod_idemp_l (acc mod _ + _ + _)) by done. f_equal. f_equal.
  rewrite <- Z.add_assoc, Z.add_mod_idemp_l by done. done.
Qed.

Section blocks.
Variables (r0 r1 r2 : Z) (m : bytes).
Hypothesis (Hr : r_ok r0 r1 r2).
Hypothesis (Hm : bytes_ok m).

Lemma blocks_loop_eq k fuel h0 h1 h2 off : limbs_ok h0 h1 h2 → 0 <= off →
  off + 16 * Z.of_nat k <= Z.of_nat (length m) → (k < fuel)%nat →
  ∃ a0 a1 a2,
    blocks_loop fuel r0 r1 r2 (r1 * 20) (r2 * 20) (2 ^ 40) (h0, h1, h2) m off (16 * Z.of_nat k) =
      Some (a0, a1, a2) ∧ limbs_ok a0 a1 a2 ∧
    hv a0 a1 a2 mod P1305 =
      foldl (absorb (hv r0 r1 r2)) (hv h0 h1 h2 mod P1305)
        (chunks 16 (take (16 * k) (drop (Z.to_nat off) m))).
Proof.
  revert fuel h0 h1 h2 off. induction k as [|k IH]; intros fuel h0 h1 h2 off Hh Ho Hl Hf;
    destruct fuel as [|fuel]; try lia; cbn [blocks_loop].
  { exists h0, h1, h2. done. }
  replace (_ >=? poly1305_block_size) with true by (unfold poly1305_block_size; lia).
  destruct (load64_take m off Hm) as [-> Ht0]; [lia..|]. bind_simpl.
  destruct (load64_take m (off + 8) Hm) as [-> Ht1]; [lia..|]. bind_simpl.
  destruct (block_step_eq r0 r1 r2 (2 ^ 40) h0 h1 h2 _ _ Hr Hh Ht0 Ht1 (or_intror eq_refl))
    as (b0 & b1 & b2 & E & Hb & Hv).
  destruct (add_block _ _ _ _ _ _) as [[x0 x1] x2]. destruct (mul_limbs _ _ _ _ _ _ _ _) as [[y0 y1] y2].
  rewrite E. unfold poly1305_block_size.
  replace (16 * Z.of_nat (S k) - 16) with (16 * Z.of_nat k) by lia.
  destruct (IH fuel b0 b1 b2 (off + 16) Hb) as (a0 & a1 & a2 & -> & Ha & Hva); [lia..|].
  exists a0, a1, a2. split_and!; [done..|]. rewrite Hva, Hv. clear Hva Hv E.
  replace (16 * S k)%nat with (16 + 16 * k)%nat by lia.
  rewrite <- (take_take_drop (drop (Z.to_nat off) m) 16 (16 * k)), drop_drop.
  replace (Z.to_nat off + 16)%nat with (Z.to_nat (off + 16)) by lia.
  rewrite chunks_cons by (lia || rewrite length_take, length_drop; lia). cbn [foldl]. f_equal.
  rewrite absorb_full by (rewrite length_take, length_drop; lia).
  rewrite le_val_16 by (rewrite length_drop; lia). rewrite drop_drop.
  replace (Z.to_nat off + 8)%nat with (Z.to_nat (off + 8)) by lia. rewrite Z.mod_mod by done.
  change (2 ^ 88 * 2 ^ 40) with (2 ^ 128). set (t := _ + 2 ^ 64 * _).
  rewrite <- (Z.mul_mod_idemp_l (_ mod _ + _ + _)), <- (Z.add_assoc (_ mod _)), Z.add_mod_idemp_l, Z.add_assoc by done.
  by rewrite Z.mul_mod_idemp_l by done.
Qed.
End blocks.

(** ** The state while a message is absorbed *)

Definition keyed (key : bytes) (st : poly1305_state_internal_t) : Prop :=
  r_ok (r_0 st) (r_1 st) (r_2 st) ∧ hv (r_0 st) (r_1 st) (r_2 st) = clamp (le_val (take 16 key)) ∧
  is_u64 (pad_0 st) ∧ is_u64 (pad_1 st) ∧ pad_0 st + 2 ^ 64 * pad_1 st = le_val (take 16 (drop 16 key)) ∧
  length (buffer st) = 16%nat ∧ bytes_ok (buffer st) ∧ final st = 0.

Definition absorbed (key full : bytes) (st : poly1305_state_internal_t) : Prop :=
  limbs_ok (h_0 st) (h_1 st) (h_2 st) ∧
  hv (h_0 st) (h_1 st) (h_2 st) mod P1305 =
    foldl (absorb (clamp (le_val (take 16 key)))) 0 (chunks 16 full).

(** [msg] has been given to the updates: its whole blocks are in the accumulator and
    the rest is in the buffer. *)
Definition holds (key msg : bytes) (st : poly1305_state_internal_t) : Prop :=
  keyed key st ∧ ∃ full rest k, msg = full ++ rest ∧ length full = (16 * k)%nat ∧
    (length rest < 16)%nat ∧ leftover st = Z.of_nat (length rest) ∧
    take (length rest) (buffer st) = rest ∧ absorbed key full st.

Lemma copy_in_eq b at_ m off n : 0 <= at_ → 0 <= off → 0 <= n → off + n <= Z.of_nat (length m) →
  at_ + n <= Z.of_nat (length b) →
  copy_in b at_ m off n = blit b at_ (take (Z.to_nat n) (drop (Z.to_nat off) m)).
Proof.
  intros Ha Ho Hn Hm Hb. unfold copy_in.
  destruct (buf_split b at_ n Ha Hn Hb) as (pre & mid & post & -> & Hpre & Hmid).
  set (d := take (Z.to_nat n) (drop (Z.to_nat off) m)).
  assert (length d = Z.to_nat n) as Hd by (unfold d; rewrite length_take, length_drop; lia).
  rewrite blit_mid by lia.
  destruct (for_range_inv (λ i b, b = pre ++ (take i d ++ drop i mid) ++ post) (Z.to_nat n)
    (λ i b, x ← m.[off + Z.of_nat i]; wr b (at_ + Z.of_nat i) x) (pre ++ mid ++ post))
    as (b' & -> & ->); [done| |by rewrite take_ge, drop_ge, app_nil_r by lia].
  intros i b' Hi ->. destruct (lookup_lt_is_Some_2 d i) as [x Hx]; [lia|].
  replace (m.[off + Z.of_nat i]) with (Some x).
  2:{ rewrite <- Hx. unfold d. rewrite lookup_take_lt, lookup_drop by lia. unfold rd.
      test_true (0 <=? off + Z.of_nat i). f_equal. lia. }
  bind_simpl. rewrite <- Hpre, wr_app_r by lia. rewrite wr_lt by len.
  eexists. split; [reflexivity|]. f_equal. rewrite Nat2Z.id.
  destruct (lookup_lt_is_Some_2 mid i) as [y Hy]; [lia|].
  rewrite (drop_S mid y i Hy), (take_S_r d i x Hx), <- !app_assoc.
  rewrite insert_app_r_alt by len. by replace (i - length (take i d))%nat with 0%nat by len.
Qed.

Lemma blocks_absorb key full st m off k : keyed key st → absorbed key full st → bytes_ok m → 0 <= off →
  (∃ j, length full = 16 * j)%nat → off + 16 * Z.of_nat k <= Z.of_nat (length m) →
  ∃ st', poly1305_blocks st m off (16 * Z.of_nat k) = Some st' ∧ keyed key st' ∧
    absorbed key (full ++ take (16 * k) (drop (Z.to_nat off) m)) st' ∧
    leftover st' = leftover st ∧ buffer st' = buffer st.
Proof.
  intros (Hr & Hk & Hp & Hf) (Hh & Hv) Hm Ho [j Hj] Hl. unfold poly1305_blocks.
  destruct Hf as (Hp1 & Hpv & Hbl & Hbo & Hf0). rewrite Hf0, Z.eqb_refl.
  change (5 ≪ 2) with 20. change (u64 (1 ≪ 40)) with (2 ^ 40).
  rewrite !u64_small by (unfold r_ok, is_uint in *; lia).
  destruct (blocks_loop_eq _ _ _ m Hr Hm k (Z.to_nat (16 * Z.of_nat k / 16 + 1)) _ _ _ off Hh Ho Hl)
    as (a0 & a1 & a2 & -> & Ha & Hva).
  { rewrite Z.mul_comm, Z.div_mul by lia. lia. }
  bind_simpl. eexists. split; [reflexivity|]. split_and!; try done.
  split; [done|]. cbn [h_0 h_1 h_2 set_h fst snd]. rewrite Hva, Hv, Hk.
  by rewrite (chunks_app 16 ltac:(lia) j), foldl_app.
Qed.

Lemma set_buffer_keyed key st n b : keyed key st → length b = 16%nat → bytes_ok b → keyed key (set_buffer st n b).
Proof. unfold keyed. naive_solver. Qed.
Lemma set_buffer_absorbed key full st n b : absorbed key full (set_buffer st n b) ↔ absorbed key full st.
Proof. done. Qed.

(** [bytes & ~(poly1305_block_size - 1)] is the length of the whole blocks. *)
Lemma whole_blocks n : 0 <= n < 2 ^ 64 → n &' (2 ^ 64 - 1 - (poly1305_block_size - 1)) = 16 * (n / 16).
Proof.
  intros Hn. change (2 ^ 64 - 1 - (poly1305_block_size - 1)) with (0 + 2 ^ 4 * (2 ^ 60 - 1)).
  replace n with (n mod 2 ^ 4 + 2 ^ 4 * (n / 2 ^ 4)) at 1 by div_lia.
  rewrite land_split by div_lia. rewrite Z.land_0_r. change (2 ^ 60 - 1) with (Z.ones 60).
  rewrite Z.land_ones, Z.mod_small by (lia || div_lia). done.
Qed.

(** Storing what is left after the whole blocks. *)
Lemma store_leftover key full k st m off : keyed key st → absorbed key full st → bytes_ok m →
  length full = (16 * k)%nat → leftover st = 0 → 0 <= off → 0 <= Z.of_nat (length m) - off < 16 →
  ∃ st', (if Z.of_nat (length m) - off =? 0 then Some st
          else b ← copy_in (buffer st) (leftover st) m off (Z.of_nat (length m) - off);
               Some (set_buffer st (leftover st + (Z.of_nat (length m) - off)) b)) = Some st' ∧
    holds key (full ++ drop (Z.to_nat off) m) st'.
Proof.
  intros Hk Ha Hm Hf Hleft Ho Hn. rewrite Hleft. set (rest := drop (Z.to_nat off) m).
  assert (Z.of_nat (length rest) = Z.of_nat (length m) - off) as Hlen by (unfold rest; rewrite length_drop; lia).
  rewrite <- Hlen.
  pose proof Hk as (_ & _ & _ & _ & _ & Hbl & Hbo & _).
  destruct (Z.eqb_spec (Z.of_nat (length rest)) 0) as [H0|H0].
  - exists st. split; [done|]. split; [done|]. exists full, rest, k. rewrite Hleft.
    split_and!; [done..|lia|lia| |done]. by destruct rest.
  - rewrite copy_in_eq by (rewrite ?Hbl; lia). fold rest.
    rewrite take_ge by lia.
    rewrite <- (take_drop (length rest) (buffer st)), blit_0 by (rewrite length_take; lia).
    bind_simpl. eexists. split; [reflexivity|].
    split; [apply set_buffer_keyed; [done|rewrite length_app, length_drop; lia|]|].
    + apply Forall_app_2; [by apply Forall_drop|by apply Forall_drop].
    + exists full, rest, k. split_and!; [done..|lia|cbn; lia|cbn; by rewrite take_app_length|done].
Qed.

Lemma update_full_holds key full st m off k : keyed key st → absorbed key full st → bytes_ok m → 0 <= off →
  length full = (16 * k)%nat → leftover st = 0 → off <= Z.of_nat (length m) → Z.of_nat (length m) < 2 ^ 64 →
  ∃ st', update_full st m off (Z.of_nat (length m) - off) = Some st' ∧
    holds key (full ++ drop (Z.to_nat off) m) st'.
Proof.
  intros Hk Ha Hm Ho Hf Hleft Hl Hmax. unfold update_full.
  destruct (Z.geb_spec (Z.of_nat (length m) - off) poly1305_block_size) as [Hge|Hlt].
  2:{ unfold poly1305_block_size in Hlt. bind_simpl. apply (store_leftover key full k); (done || lia). }
  cbv zeta. rewrite whole_blocks by lia.
  set (q := Z.to_nat ((Z.of_nat (length m) - off) / 16)).
  assert (0 <= (Z.of_nat (length m) - off) - 16 * Z.of_nat q < 16) as Hq by (unfold q; div_lia).
  replace (16 * ((Z.of_nat (length m) - off) / 16)) with (16 * Z.of_nat q) by (unfold q; div_lia).
  destruct (blocks_absorb key full st m off q Hk Ha Hm Ho) as (st' & -> & Hk' & Ha' & Hl' & _); [eauto|lia|].
  bind_simpl. replace (Z.of_nat (length m) - off - 16 * Z.of_nat q)
    with (Z.of_nat (length m) - (off + 16 * Z.of_nat q)) by lia.
  destruct (store_leftover key (full ++ take (16 * q) (drop (Z.to_nat off) m)) (k + q) st' m (off + 16 * Z.of_nat q))
    as (st2 & E & Hst); try done; [|congruence|lia..|].
  - rewrite length_app, length_take, length_drop. lia.
  - exists st2. split; [done|]. replace (drop (Z.to_nat off) m)
      with (take (16 * q) (drop (Z.to_nat off) m) ++ drop (Z.to_nat (off + 16 * Z.of_nat q)) m).
    + by rewrite app_assoc.
    + rewrite <- (take_drop (16 * q) (drop (Z.to_nat off) m)) at 2. rewrite drop_drop. do 3 f_equal. lia.
Qed.

Lemma update_leftover_holds key msg st m : holds key msg st → leftover st ≠ 0 → bytes_ok m →
  ∃ st' want more, update_leftover st m (Z.of_nat (length m)) = Some (st', want, more) ∧
    0 <= want <= Z.of_nat (length m) ∧ keyed key st' ∧
    (if more then leftover st' = 0 ∧ ∃ k, length (msg ++ take (Z.to_nat want) m) = (16 * k)%nat ∧
                    absorbed key (msg ++ take (Z.to_nat want) m) st'
     else holds key (msg ++ m) st').
Proof.
  intros (Hk & full & rest & k & -> & Hf & Hr & Hlo & Hbuf & Ha) H0 Hm. unfold update_leftover.
  rewrite Hlo in *. unfold poly1305_block_size.
  set (want := if 16 - Z.of_nat (length rest) >? Z.of_nat (length m) then _ else _).
  assert (want = Z.min (16 - Z.of_nat (length rest)) (Z.of_nat (length m))) as Hw
    by (unfold want; destruct (Z.gtb_spec (16 - Z.of_nat (length rest)) (Z.of_nat (length m))); lia).
  clearbody want. pose proof Hk as (_ & _ & _ & _ & _ & Hbl & Hbo & _).
  rewrite copy_in_eq by lia. rewrite drop_0. set (d := take (Z.to_nat want) m).
  assert (length d = Z.to_nat want) as Hdl by (unfold d; rewrite length_take; lia).
  assert (bytes_ok d) as Hdo by (by apply Forall_take).
  assert (∃ post, buffer st = rest ++ post) as [post Hb].
  { exists (drop (length rest) (buffer st)). rewrite <- Hbuf at 1. by rewrite take_drop. }
  rewrite Hb in Hbl, Hbo |- *. rewrite length_app in Hbl. apply Forall_app in Hbo as [Hro Hpo].
  rewrite <- (take_drop (length d) post).
  rewrite blit_mid by (lia || rewrite length_take; lia). bind_simpl. cbn [leftover set_buffer buffer].
  assert (keyed key (set_buffer st (Z.of_nat (length rest) + want) (rest ++ d ++ drop (length d) post))) as Hks.
  { apply set_buffer_keyed; [done|rewrite !length_app, length_drop; lia|].
    repeat apply Forall_app_2; [done..|by apply Forall_drop]. }
  destruct (Z.ltb_spec (Z.of_nat (length rest) + want) 16) as [Hlt|Hge].
  - exists (set_buffer st (Z.of_nat (length rest) + want) (rest ++ d ++ drop (length d) post)), want, false.
    split_and!; [done|lia..|done|]. split; [done|]. exists full, (rest ++ m), k.
    assert (d = m) as -> by (unfold d; apply take_ge; lia).
    split_and!; [by rewrite app_assoc|done|rewrite length_app; lia|cbn; rewrite length_app; lia| |done].
    cbn [buffer set_buffer]. by rewrite (app_assoc rest m), take_app_length.
  - destruct (blocks_absorb key full _ (rest ++ d ++ drop (length d) post) 0 1 Hks Ha) as (st' & Hst & Hk' & Ha' & _ & Hb');
      [apply Hks|done|eauto|cbn; rewrite !length_app, length_drop; lia|].
    change (16 * Z.of_nat 1) with 16 in Hst. rewrite Hst. bind_simpl.
    eexists _, want, true. split; [reflexivity|]. split; [lia|]. split.
    + apply set_buffer_keyed; [done|apply Hk'..].
    + split; [done|]. exists (k + 1)%nat. rewrite length_app, length_app. split; [fold d; lia|].
      fold d. apply set_buffer_absorbed. rewrite <- app_assoc.
      rewrite drop_0, (app_assoc rest d), take_app_le, take_ge in Ha' by (rewrite length_app; lia). done.
Qed.

Lemma update_holds key msg st m : holds key msg st → bytes_ok m → Z.of_nat (length m) < 2 ^ 64 →
  ∃ st', poly1305_update st m (Z.of_nat (length m)) = Some st' ∧ holds key (msg ++ m) st'.
Proof.
  intros Hst Hm Hmax. unfold poly1305_update. destruct (Z.eqb_spec (leftover st) 0) as [H0|H0].
  - destruct Hst as (Hk & full & rest & k & -> & Hf & Hr & Hlo & _ & Ha).
    destruct rest; [|simpl in Hlo; lia]. rewrite app_nil_r.
    pose proof (update_full_holds key full st m 0 k Hk Ha Hm) as H. rewrite Z.sub_0_r in H.
    apply H; (done || lia).
  - destruct (update_leftover_holds key msg st m Hst H0 Hm) as (st' & want & more & -> & Hw & Hk & Hmore).
    bind_simpl. destruct more; cbn [negb]; [|eauto].
    destruct Hmore as (Hl & k & Hlen & Ha).
    destruct (update_full_holds key _ st' m want k Hk Ha Hm) as (st2 & E & H2); [lia|done..|lia|lia|].
    exists st2. split; [done|]. by rewrite <- app_assoc, take_drop in H2.
Qed.

(** ** The tag *)

Definition carried (h0 h1 h2 : Z) : Prop := 0 <= h0 < 2 ^ 44 ∧ 0 <= h1 <= 2 ^ 44 ∧ 0 <= h2 < 2 ^ 42.

(** One pass of carries from the middle limb round to it. *)
Lemma carry_round h0 h1 h2 : 0 <= h0 < 2 ^ 44 → 0 <= h1 < 2 ^ 44 + 2 ^ 9 → 0 <= h2 < 2 ^ 42 →
  let c := h1 ≫ 44 in let a1 := h1 &' 0xfffffffffff in
  let a2 := u64 (h2 + c) in
  let c := a2 ≫ 42 in let a2 := a2 &' 0x3ffffffffff in
  let a0 := u64 (h0 + u64 (c * 5)) in
  let c := a0 ≫ 44 in let a0 := a0 &' 0xfffffffffff in
  let a1 := u64 (a1 + c) in
  carried a0 a1 a2 ∧ hv a0 a1 a2 mod P1305 = hv h0 h1 h2 mod P1305.
Proof.
  intros H0 H1 H2. cbv zeta. rewrite !mask44, !mask42, !Z.shiftr_div_pow2 by lia.
  rewrite (u64_small (h2 + _)) by (unfold is_uint; div_lia).
  set (e := h2 + h1 / 2 ^ 44). assert (e = h2 + h1 / 2 ^ 44) as He by done. clearbody e.
  rewrite (u64_small (e / _ * 5)) by (unfold is_uint; div_lia).
  rewrite (u64_small (h0 + _)) by (unfold is_uint; div_lia).
  rewrite (u64_small (h1 mod _ + _)) by (unfold is_uint; div_lia).
  split; [unfold carried; div_lia|].
  rewrite <- (Z_mod_plus_full _ (e / 2 ^ 42) P1305). f_equal. unfold hv, P1305. div_lia.
Qed.

Lemma full_carry_eq h0 h1 h2 : limbs_ok h0 h1 h2 →
  let '(a0, a1, a2) := full_carry h0 h1 h2 in
  carried a0 a1 a2 ∧ hv a0 a1 a2 mod P1305 = hv h0 h1 h2 mod P1305.
Proof.
  intros (H0 & H1 & H2). unfold full_carry. cbv zeta.
  destruct (carry_round h0 h1 h2 H0 H1 H2) as [(B0 & B1 & B2) <-]. cbv zeta in B0, B1, B2.
  apply carry_round; [apply B0|split; [apply B1|eapply Z.le_lt_trans; [apply B1|lia]]|apply B2].
Qed.

Lemma land_ones64 x : is_u64 x → x &' (2 ^ 64 - 1) = x.
Proof. intros Hx. change (2 ^ 64 - 1) with (Z.ones 64). rewrite Z.land_ones by lia. by apply Z.mod_small. Qed.

Lemma sub_p_eq h0 h1 h2 : carried h0 h1 h2 →
  let '(a0, a1, a2) := sub_p h0 h1 h2 in
  carried a0 a1 a2 ∧ hv a0 a1 a2 = hv h0 h1 h2 mod P1305.
Proof.
  intros (H0 & H1 & H2). unfold sub_p. cbv zeta. rewrite !mask44, !Z.shiftr_div_pow2 by lia.
  rewrite (u64_small (h0 + 5)) by (unfold is_uint; lia).
  rewrite (u64_small (h1 + _)) by (unfold is_uint; div_lia).
  set (c := (h1 + (h0 + 5) / 2 ^ 44) / 2 ^ 44).
  assert (c = (h1 + (h0 + 5) / 2 ^ 44) / 2 ^ 44) as Hc by done. clearbody c.
  rewrite (u64_small (h2 + c)) by (unfold is_uint; div_lia).
  change (u64 (1 ≪ 42)) with (2 ^ 42). change (8 * 8 - 1) with 63.
  destruct (decide (2 ^ 42 <= h2 + c)) as [Hge|Hlt].
  - rewrite (u64_small (h2 + c - 2 ^ 42)) by (unfold is_uint; div_lia).
    replace ((h2 + c - 2 ^ 42) / 2 ^ 63) with 0 by div_lia.
    change (u64 (0 - 1)) with (2 ^ 64 - 1). change (u64 (Z.lnot (2 ^ 64 - 1))) with 0.
    rewrite !Z.land_0_r, !Z.lor_0_l, !land_ones64 by (unfold is_uint; div_lia).
    split; [unfold carried; div_lia|]. apply Z.mod_unique with 1; unfold P1305, hv; div_lia.
  - assert (u64 (h2 + c - 2 ^ 42) = h2 + c - 2 ^ 42 + 2 ^ 64) as ->.
    { unfold u64, wrap. symmetry. apply Z.mod_unique with (-1); div_lia. }
    replace ((h2 + c - 2 ^ 42 + 2 ^ 64) / 2 ^ 63) with 1 by div_lia.
    change (u64 (1 - 1)) with 0. change (u64 (Z.lnot 0)) with (2 ^ 64 - 1).
    rewrite !Z.land_0_r, !Z.lor_0_r, !land_ones64 by (unfold is_uint; lia).
    split; [done|]. symmetry. apply Z.mod_small. unfold P1305, hv. div_lia.
Qed.

(** The low 128 bits of three limbs, as two words. *)
Lemma pack_limbs a0 a1 a2 : 0 <= a0 < 2 ^ 44 → 0 <= a1 < 2 ^ 44 → 0 <= a2 →
  let w0 := a0 |' u64 (a1 ≪ 44) in let w1 := (a1 ≫ 20) |' u64 (a2 ≪ 24) in
  is_u64 w0 ∧ is_u64 w1 ∧ w0 + 2 ^ 64 * w1 = hv a0 a1 a2 mod 2 ^ 128.
Proof.
  intros H0 H1 H2. cbv zeta.
  assert (∀ x k, 0 <= k <= 64 → u64 (x ≪ k) = (x mod 2 ^ (64 - k)) ≪ k) as Hs.
  { intros x k Hk. unfold u64, wrap. rewrite !Z.shiftl_mul_pow2 by lia.
    replace (2 ^ 64) with (2 ^ (64 - k) * 2 ^ k) by (rewrite <- Z.pow_add_r by lia; f_equal; lia).
    by rewrite Z.mul_mod_distr_r by lia. }
  rewrite !Hs, Z.shiftr_div_pow2 by lia. change (64 - 44) with 20. change (64 - 24) with 40.
  rewrite !lor_shift_add by div_lia. split; [unfold is_uint; div_lia|]. split; [unfold is_uint; div_lia|].
  unfold hv. div_lia.
Qed.

Lemma add_pad_eq t0 t1 h0 h1 h2 : carried h0 h1 h2 → is_u64 t0 → is_u64 t1 →
  let '(w0, w1) := add_pad t0 t1 h0 h1 h2 in
  is_u64 w0 ∧ is_u64 w1 ∧ w0 + 2 ^ 64 * w1 = (hv h0 h1 h2 + (t0 + 2 ^ 64 * t1)) mod 2 ^ 128.
Proof.
  intros (H0 & H1 & H2) Ht0 Ht1. unfold add_pad. cbv zeta. rewrite <- (limbs_split t0 t1) by done.
  rewrite !mask44, !mask42. set (p0 := t0 mod 2 ^ 44). set (p1 := (_ |' u64 (t1 ≪ 20)) mod 2 ^ 44).
  set (p2 := (t1 ≫ 24) mod 2 ^ 42).
  assert (0 <= p0 < 2 ^ 44) as B0 by (apply Z.mod_pos_bound; lia).
  assert (0 <= p1 < 2 ^ 44) as B1 by (apply Z.mod_pos_bound; lia).
  assert (0 <= p2 < 2 ^ 42) as B2 by (apply Z.mod_pos_bound; lia). clearbody p0 p1 p2.
  rewrite (u64_small (h0 + p0)), (Z.shiftr_div_pow2 (h0 + p0) 44) by (unfold is_uint; lia).
  rewrite (u64_small (p1 + _)) by (unfold is_uint; div_lia).
  rewrite (u64_small (h1 + _)) by (unfold is_uint; div_lia).
  set (e1 := h1 + (p1 + (h0 + p0) / 2 ^ 44)). assert (e1 = h1 + (p1 + (h0 + p0) / 2 ^ 44)) as He1 by done. clearbody e1.
  rewrite (Z.shiftr_div_pow2 e1 44), (u64_small (p2 + _)) by (unfold is_uint; div_lia).
  rewrite (u64_small (h2 + _)) by (unfold is_uint; div_lia).
  set (e2 := h2 + (p2 + e1 / 2 ^ 44)). assert (e2 = h2 + (p2 + e1 / 2 ^ 44)) as He2 by done. clearbody e2.
  destruct (pack_limbs ((h0 + p0) mod 2 ^ 44) (e1 mod 2 ^ 44) (e2 mod 2 ^ 42)) as (W0 & W1 & ->); [div_lia..|].
  split_and!; [done..|]. replace (hv h0 h1 h2 + hv p0 p1 p2)
    with (hv ((h0 + p0) mod 2 ^ 44) (e1 mod 2 ^ 44) (e2 mod 2 ^ 42) + 4 * (e2 / 2 ^ 42) * 2 ^ 128).
  - by rewrite Z_mod_plus_full.
  - unfold hv. div_lia.
Qed.

Lemma le_val_zeros k : le_val (replicate k 0) = 0.
Proof. induction k as [|k IH]; [done|]. cbn [replicate le_val]. by rewrite IH. Qed.

(** The last block: the bytes left, a one, and zeros. *)
Lemma pad_last b rest : length b = 16%nat → (length rest < 16)%nat → take (length rest) b = rest →
  (b ← wr b (Z.of_nat (length rest)) 1;
   for_range (Z.to_nat (poly1305_block_size - (Z.of_nat (length rest) + 1))) (λ i b,
     wr b (Z.of_nat (length rest) + 1 + Z.of_nat i) 0) b) =
  Some (rest ++ [1] ++ replicate (15 - length rest) 0).
Proof.
  intros Hb Hr Ht. rewrite <- (take_drop (length rest) b), Ht.
  destruct (drop (length rest) b) as [|x post] eqn:Hd; [apply (f_equal length) in Hd; rewrite length_drop in Hd; cbn in Hd; lia|].
  apply (f_equal length) in Hd. rewrite length_drop in Hd. cbn [length] in Hd.
  replace (Z.of_nat (length rest)) with (Z.of_nat (length rest) + 0) at 1 by lia.
  rewrite wr_app_r by lia. rewrite wr_lt by (cbn [length]; lia). bind_simpl.
  change (<[Z.to_nat 0:=1]> (x :: post)) with (1 :: post).
  destruct (for_range_inv (λ i b, b = rest ++ [1] ++ replicate i 0 ++ drop i post)
    (Z.to_nat (poly1305_block_size - (Z.of_nat (length rest) + 1)))
    (λ i b, wr b (Z.of_nat (length rest) + 1 + Z.of_nat i) 0) (rest ++ 1 :: post)) as (b' & -> & ->).
  - done.
  - intros i b' Hi ->. unfold poly1305_block_size in Hi.
    replace (Z.of_nat (length rest) + 1 + Z.of_nat i) with (Z.of_nat (length (rest ++ [1] ++ replicate i 0)) + 0) by len.
    replace (rest ++ [1] ++ replicate i 0 ++ drop i post)
      with ((rest ++ [1] ++ replicate i 0) ++ drop i post) by (by rewrite <- !app_assoc).
    rewrite wr_app_r by lia. destruct (lookup_lt_is_Some_2 post i) as [y Hy]; [lia|].
    rewrite (drop_S post y i Hy), wr_lt by (cbn [length]; lia). eexists. split; [reflexivity|].
    change (<[Z.to_nat 0:=0]> (y :: drop (S i) post)) with (0 :: drop (S i) post).
    rewrite replicate_S_end, <- !app_assoc. done.
  - unfold poly1305_block_size. replace (Z.to_nat _) with (15 - length rest)%nat by lia.
    rewrite drop_ge by lia. by rewrite app_nil_r.
Qed.

Lemma last_block key full rest k st : keyed key st → absorbed key full st → length full = (16 * k)%nat →
  bytes_ok rest → (0 < length rest < 16)%nat →
  let b := rest ++ [1] ++ replicate (15 - length rest) 0 in
  ∃ st', poly1305_blocks (set_final (set_buffer st (Z.of_nat (length rest)) b) 1) b 0 poly1305_block_size = Some st' ∧
    absorbed key (full ++ rest) st' ∧ pad_0 st' = pad_0 st ∧ pad_1 st' = pad_1 st.
Proof.
  intros (Hr & Hk & _) (Hh & Hv) Hf Hro Hrl b. unfold poly1305_blocks. cbn [final set_final set_buffer r_0 r_1 r_2 h_0 h_1 h_2].
  change (1 =? 0) with false. change (5 ≪ 2) with 20. rewrite !u64_small by (unfold r_ok, is_uint in *; lia).
  change (Z.to_nat (poly1305_block_size / 16 + 1)) with 2%nat. cbn [blocks_loop].
  change (poly1305_block_size >=? poly1305_block_size) with true.
  assert (length b = 16%nat) as Hbl by (unfold b; rewrite !length_app, length_replicate; cbn; lia).
  assert (bytes_ok b) as Hbo.
  { unfold b. repeat apply Forall_app_2; [done|by repeat constructor|by apply Forall_replicate]. }
  destruct (load64_take b 0 Hbo) as [-> Ht0]; [lia..|]. bind_simpl.
  destruct (load64_take b (0 + 8) Hbo) as [-> Ht1]; [lia..|]. bind_simpl.
  destruct (block_step_eq _ _ _ 0 _ _ _ _ _ Hr Hh Ht0 Ht1 (or_introl eq_refl)) as (a0 & a1 & a2 & E & Ha & Hva).
  destruct (add_block _ _ _ _ _ _) as [[x0 x1] x2]. destruct (mul_limbs _ _ _ _ _ _ _ _) as [[y0 y1] y2].
  rewrite E. change (poly1305_block_size - poly1305_block_size >=? poly1305_block_size) with false. bind_simpl.
  eexists. split; [reflexivity|]. split; [|done]. split; [done|]. cbn [h_0 h_1 h_2 set_h fst snd]. rewrite Hva.
  rewrite (chunks_app 16 ltac:(lia) k), foldl_app, (chunks_last 16 ltac:(lia) rest) by (done || lia).
  cbn [foldl]. rewrite <- Hv, Hk. unfold absorb. rewrite Z.mul_0_r, Z.add_0_r.
  change (Z.to_nat (0 + 8)) with 8%nat. change (Z.to_nat 0) with 0%nat. rewrite drop_0.
  rewrite <- le_val_16 by lia. rewrite take_ge by lia.
  replace (le_val b) with (le_val (rest ++ [1])).
  - rewrite <- (Z.mul_mod_idemp_l (_ mod _ + _)), Z.add_mod_idemp_l by done. by rewrite Z.mul_mod_idemp_l by done.
  - unfold b. rewrite app_assoc, (le_val_app (rest ++ [1])), le_val_zeros. lia.
Qed.

Lemma finish_block_holds key msg st : holds key msg st →
  ∃ st', finish_block st = Some st' ∧ absorbed key msg st' ∧ pad_0 st' = pad_0 st ∧ pad_1 st' = pad_1 st.
Proof.
  intros (Hk & full & rest & k & -> & Hf & Hr & Hlo & Hbuf & Ha). unfold finish_block.
  pose proof Hk as (_ & _ & _ & _ & _ & Hbl & Hbo & _).
  rewrite Hlo. destruct (Z.eqb_spec (Z.of_nat (length rest)) 0) as [H0|H0].
  - destruct rest; [|simpl in H0; lia]. rewrite app_nil_r. eauto.
  - pose proof (pad_last (buffer st) rest Hbl Hr Hbuf) as E.
    destruct (wr (buffer st) (Z.of_nat (length rest)) 1); [|done]. bind_simpl. cbn [mbind option_bind] in E.
    rewrite E. bind_simpl. apply (last_block key full rest k st); try done; [|lia].
    rewrite <- Hbuf. by apply Forall_take.
Qed.

Lemma finish_holds key msg st mac : holds key msg st → (16 <= length mac)%nat →
  poly1305_finish st mac = Some (poly1305_mac key msg ++ drop 16 mac).
Proof.
  intros Hst Hmac. unfold poly1305_finish. pose proof Hst as ((_ & _ & Hp0 & Hp1 & Hp & _) & _).
  destruct (finish_block_holds key msg st Hst) as (st' & -> & [Hh Hv] & E0 & E1).
  bind_simpl. rewrite E0, E1. pose proof (full_carry_eq _ _ _ Hh) as Hc.
  destruct (full_carry _ _ _) as [[c0 c1] c2]. destruct Hc as [Hc Ec].
  pose proof (sub_p_eq _ _ _ Hc) as Hs. destruct (sub_p _ _ _) as [[s0 s1] s2]. destruct Hs as [Hs Es].
  pose proof (add_pad_eq _ _ _ _ _ Hs Hp0 Hp1) as Hw. destruct (add_pad _ _ _ _ _) as [w0 w1].
  destruct Hw as (W0 & W1 & Ew). rewrite Es, Ec, Hv, Hp in Ew.
  destruct (buf_split mac 8 8) as (a & b & c & -> & Hal & Hbl); [lia..|]. rewrite !store64_le_eq.
  pose proof (le64_write_mid [] a (b ++ c) 0 w0 eq_refl) as E. cbn [app] in E. rewrite E by lia. bind_simpl.
  rewrite store64_le_eq, le64_write_mid by (done || lia).
  unfold poly1305_mac. rewrite <- Ew. unfold is_uint in W0, W1.
  replace ((w0 + 2 ^ 64 * w1) mod 2 ^ 64) with w0 by div_lia.
  replace ((w0 + 2 ^ 64 * w1) / 2 ^ 64) with w1 by div_lia. rewrite <- app_assoc.
  by rewrite (app_assoc a b c), drop_app_length' by (rewrite length_app; lia).
Qed.

(** ** Authentication *)

Lemma init_holds key st : (32 <= length key)%nat → bytes_ok key → length (buffer st) = 16%nat →
  bytes_ok (buffer st) → ∃ st', poly1305_init st key = Some st' ∧ holds key [] st'.
Proof.
  intros Hkl Hko Hbl Hbo. unfold poly1305_init.
  destruct (load64_take key 0 Hko) as [-> H0]; [lia..|]. bind_simpl.
  destruct (load64_take key 8 Hko) as [-> H1]; [lia..|]. bind_simpl.
  destruct (load64_take key 16 Hko) as [-> H2]; [lia..|]. bind_simpl.
  destruct (load64_take key 24 Hko) as [-> H3]; [lia..|]. bind_simpl.
  eexists. split; [reflexivity|]. split.
  2:{ exists [], [], 0%nat. split_and!; [done|done|cbn; lia|done|done|]. split; [|done]. unfold limbs_ok. cbn. lia. }
  unfold keyed. cbn [r_0 r_1 r_2 pad_0 pad_1 buffer final]. split_and!; try done.
  - unfold r_ok. split_and!; try (by apply land_le); (eapply Z.le_lt_trans; [by apply land_le|done]).
  - rewrite clamp_limbs by done. by rewrite le_val_16 by lia.
  - rewrite le_val_16 by (rewrite length_drop; lia). by rewrite drop_drop.
Qed.

Fixpoint update_all (st : poly1305_state_internal_t) (ms : list bytes) : option poly1305_state_internal_t :=
  match ms with
  | [] => Some st
  | m :: ms => st ← poly1305_update st m (Z.of_nat (length m)); update_all st ms
  end.

Lemma update_all_holds key msg st ms : holds key msg st → Forall bytes_ok ms →
  Forall (λ m, Z.of_nat (length m) < 2 ^ 64) ms →
  ∃ st', update_all st ms = Some st' ∧ holds key (msg ++ mjoin ms) st'.
Proof.
  intros Hst Hms. revert msg st Hst. induction Hms as [|m ms Hm Hms IH]; intros msg st Hst Hl.
  - exists st. by rewrite app_nil_r.
  - apply Forall_cons in Hl as [Hl Hls]. cbn [update_all].
    destruct (update_holds key msg st m Hst Hm Hl) as (st1 & -> & H1). bind_simpl.
    destruct (IH _ _ H1 Hls) as (st' & -> & H2). exists st'. split; [done|]. by rewrite <- app_assoc in H2.
Qed.

Lemma onetimeauth_eq out m key : (32 <= length key)%nat → bytes_ok key → bytes_ok m →
  Z.of_nat (length m) < 2 ^ 64 → (16 <= length out)%nat →
  crypto_onetimeauth_poly1305_donna out m (Z.of_nat (length m)) key =
    Some (0, poly1305_mac key m ++ drop 16 out).
Proof.
  intros Hkl Hko Hm Hl Ho. unfold crypto_onetimeauth_poly1305_donna.
  destruct (init_holds key uninit Hkl Hko) as (st & -> & Hst); [done|by apply Forall_replicate|]. bind_simpl.
  destruct (update_holds key [] st m Hst Hm Hl) as (st' & -> & Hst'). bind_simpl.
  by rewrite (finish_holds key m st' out Hst' Ho).
Qed.

(** An update reads only the bytes it is given. *)
Lemma load64_app m rest o : 0 <= o → o + 8 <= Z.of_nat (length m) → load64_le (m ++ rest) o = load64_le m o.
Proof. intros. unfold load64_le. by rewrite !rd_app_l by lia. Qed.

Lemma blocks_loop_app fuel r0 r1 r2 s1 s2 hibit h m rest off n : 0 <= off →
  off + n <= Z.of_nat (length m) →
  blocks_loop fuel r0 r1 r2 s1 s2 hibit h (m ++ rest) off n = blocks_loop fuel r0 r1 r2 s1 s2 hibit h m off n.
Proof.
  revert h off n. induction fuel as [|fuel IH]; intros [[h0 h1] h2] off n Ho Hn; [done|]. cbn [blocks_loop].
  destruct (Z.geb_spec n poly1305_block_size) as [H|]; [|done]. unfold poly1305_block_size in *.
  rewrite !load64_app by lia. repeat (apply option_bind_ext_fun; intros ?).
  destruct (add_block _ _ _ _ _ _) as [[? ?] ?]. destruct (mul_limbs _ _ _ _ _ _ _ _) as [[? ?] ?].
  apply IH; lia.
Qed.

Lemma poly1305_blocks_app st m rest off n : 0 <= off → off + n <= Z.of_nat (length m) →
  poly1305_blocks st (m ++ rest) off n = poly1305_blocks st m off n.
Proof. intros. unfold poly1305_blocks. by rewrite blocks_loop_app. Qed.

Lemma copy_in_app b at_ m rest off n : 0 <= off → off + n <= Z.of_nat (length m) →
  copy_in b at_ (m ++ rest) off n = copy_in b at_ m off n.
Proof.
  intros Ho Hn. unfold copy_in. apply for_range_ext. intros i t Hi. by rewrite rd_app_l by lia.
Qed.

Lemma update_full_app st m rest off n : 0 <= off → 0 <= n < 2 ^ 64 → off + n <= Z.of_nat (length m) →
  update_full st (m ++ rest) off n = update_full st m off n.
Proof.
  intros Ho Hn Hl. unfold update_full. cbv zeta. rewrite whole_blocks by done.
  destruct (Z.geb_spec n poly1305_block_size); bind_simpl.
  - rewrite poly1305_blocks_app by div_lia. destruct (poly1305_blocks st m off _); [|done]. bind_simpl.
    case_match; [done|]. by rewrite copy_in_app by div_lia.
  - case_match; [done|]. by rewrite copy_in_app by lia.
Qed.

Lemma poly1305_update_app st m rest : Z.of_nat (length m) < 2 ^ 64 → 0 <= leftover st <= 16 →
  poly1305_update st (m ++ rest) (Z.of_nat (length m)) = poly1305_update st m (Z.of_nat (length m)).
Proof.
  intros Hl Hlo. unfold poly1305_update. case_match; [by apply update_full_app; lia|].
  unfold update_leftover. cbv zeta. unfold poly1305_block_size.
  set (want := if 16 - leftover st >? Z.of_nat (length m) then _ else _).
  assert (0 <= want <= Z.of_nat (length m)) as Hw
    by (unfold want; destruct (Z.gtb_spec (16 - leftover st) (Z.of_nat (length m))); lia).
  rewrite copy_in_app by lia. destruct (copy_in _ _ m _ _); [|done]. bind_simpl. case_match; [done|].
  destruct (poly1305_blocks _ _ _ _); [|done]. bind_simpl. cbn [negb]. by apply update_full_app; lia.
Qed.

(** An update with a prefix of a buffer. *)
Lemma update_prefix_holds key msg st m n : holds key msg st → bytes_ok m → 0 <= n <= Z.of_nat (length m) →
  n < 2 ^ 64 → ∃ st', poly1305_update st m n = Some st' ∧ holds key (msg ++ take (Z.to_nat n) m) st'.
Proof.
  intros Hst Hm Hn Hmax. pose proof Hst as (_ & full & rest & k & _ & _ & Hr & Hlo & _).
  destruct (update_holds key msg st (take (Z.to_nat n) m) Hst) as (st' & Hu & Hst');
    [by apply Forall_take|rewrite length_take; lia|]. exists st'. split; [|done]. rewrite <- Hu.
  rewrite <- (poly1305_update_app st (take (Z.to_nat n) m) (drop (Z.to_nat n) m)), take_drop
    by (rewrite ?length_take; lia).
  f_equal. rewrite length_take. lia.
Qed.

(** C20: The streaming interface computes the RFC 8439 tag of the concatenation of the pieces it
    is given, however the message is cut, whatever the state held before [init]: no limb
    operation overflows, and only the first sixteen bytes of the output are written. *)
Theorem poly1305_streaming key st ms out :
  (32 <= length key)%nat → bytes_ok key → length (buffer st) = 16%nat → bytes_ok (buffer st) →
  Forall bytes_ok ms → Forall (λ m, Z.of_nat (length m) < 2 ^ 64) ms → (16 <= length out)%nat →
  (st ← poly1305_init st key; st ← update_all st ms; poly1305_finish st out) =
    Some (poly1305_mac key (mjoin ms) ++ drop 16 out).
Proof.
  intros Hkl Hko Hbl Hbo Hms Hl Ho. destruct (init_holds key st Hkl Hko Hbl Hbo) as (st1 & -> & H1). bind_simpl.
  destruct (update_all_holds key [] st1 ms H1 Hms Hl) as (st2 & -> & H2). bind_simpl.
  by apply finish_holds.
Qed.

(** The RFC message in three pieces: a partial block, a piece that crosses a block, the rest. *)
Lemma poly1305_streaming_witness :
  (32 <= length rfc_key)%nat ∧
  (st ← poly1305_init uninit rfc_key;
   st ← update_all st [take 5 rfc_message; take 20 (drop 5 rfc_message); drop 25 rfc_message];
   poly1305_finish st (replicate 16 0)) =
    Some (poly1305_mac rfc_key rfc_message ++ []).
Proof.
  split; [by_computation|].
  apply (poly1305_streaming rfc_key uninit
    [take 5 rfc_message; take 20 (drop 5 rfc_message); drop 25 rfc_message] (replicate 16 0));
    by_computation.
Defined.

Lemma poly1305_mac_length key m : length (poly1305_mac key m) = 16%nat.
Proof. done. Qed.
Lemma poly1305_mac_ok key m : bytes_ok (poly1305_mac key m).
Proof. apply Forall_app_2; apply le64_bytes_ok. Qed.
