(* ===== verification/Fe25519.v ===== *)
(** * The field of integers modulo 2^255 - 19
    ([private/ed25519_ref10_fe_51.h] and [ed25519/ref10/fe_51/fe.h] of libsodium)

    A field element is five limbs of 51 bits in 64-bit words (the representation
    [HAVE_TI_MODE] selects), products are formed in 128 bits.  Every operation is
    shown to compute the operation of the field on bounded limbs, without any word
    overflowing; [fe25519_tobytes] gives the one reduced encoding. *)

From S2P Require Import Prelude Packet Sodium Words Poly1305.
Local Open Scope c_scope.

Record fe25519 := mk_fe { fe_0 : Z; fe_1 : Z; fe_2 : Z; fe_3 : Z; fe_4 : Z }.

Definition mask51 : Z := 0x7ffffffffffff.

Definition fe25519_0 : fe25519 := mk_fe 0 0 0 0 0.
Definition fe25519_1 : fe25519 := mk_fe 1 0 0 0 0.

Definition fe25519_add (f g : fe25519) : fe25519 :=
  mk_fe (u64 (fe_0 f + fe_0 g)) (u64 (fe_1 f + fe_1 g)) (u64 (fe_2 f + fe_2 g))
        (u64 (fe_3 f + fe_3 g)) (u64 (fe_4 f + fe_4 g)).

Definition fe25519_sub (f g : fe25519) : fe25519 :=
  let h0 := fe_0 g in let h1 := fe_1 g in let h2 := fe_2 g in let h3 := fe_3 g in
  let h4 := fe_4 g in
  let h1 := u64 (h1 + (h0 ≫ 51)) in let h0 := h0 &' mask51 in
  let h2 := u64 (h2 + (h1 ≫ 51)) in let h1 := h1 &' mask51 in
  let h3 := u64 (h3 + (h2 ≫ 51)) in let h2 := h2 &' mask51 in
  let h4 := u64 (h4 + (h3 ≫ 51)) in let h3 := h3 &' mask51 in
  let h0 := u64 (h0 + u64 (19 * (h4 ≫ 51))) in let h4 := h4 &' mask51 in
  mk_fe (u64 (u64 (fe_0 f + 0xfffffffffffda) - h0)) (u64 (u64 (fe_1 f + 0xffffffffffffe) - h1))
        (u64 (u64 (fe_2 f + 0xffffffffffffe) - h2)) (u64 (u64 (fe_3 f + 0xffffffffffffe) - h3))
        (u64 (u64 (fe_4 f + 0xffffffffffffe) - h4)).

Definition fe25519_neg (f : fe25519) : fe25519 := fe25519_sub fe25519_0 f.

(** [f] after a conditional move of [g]. *)
Definition fe25519_cmov (f g : fe25519) (b : Z) : fe25519 :=
  let mask := u64 (- b) in
  let x0 := (fe_0 f ^' fe_0 g) &' mask in let x1 := (fe_1 f ^' fe_1 g) &' mask in
  let x2 := (fe_2 f ^' fe_2 g) &' mask in let x3 := (fe_3 f ^' fe_3 g) &' mask in
  let x4 := (fe_4 f ^' fe_4 g) &' mask in
  mk_fe (fe_0 f ^' x0) (fe_1 f ^' x1) (fe_2 f ^' x2) (fe_3 f ^' x3) (fe_4 f ^' x4).

(** [f] and [g] after a conditional swap. *)
Definition fe25519_cswap (f g : fe25519) (b : Z) : fe25519 * fe25519 :=
  let mask := u64 (- b) in
  let x0 := (fe_0 f ^' fe_0 g) &' mask in let x1 := (fe_1 f ^' fe_1 g) &' mask in
  let x2 := (fe_2 f ^' fe_2 g) &' mask in let x3 := (fe_3 f ^' fe_3 g) &' mask in
  let x4 := (fe_4 f ^' fe_4 g) &' mask in
  (mk_fe (fe_0 f ^' x0) (fe_1 f ^' x1) (fe_2 f ^' x2) (fe_3 f ^' x3) (fe_4 f ^' x4),
   mk_fe (fe_0 g ^' x0) (fe_1 g ^' x1) (fe_2 g ^' x2) (fe_3 g ^' x3) (fe_4 g ^' x4)).

Definition fe25519_copy (f : fe25519) : fe25519 := f.

(** [r += a * b] in 128 bits. *)
Definition mul_acc (r a b : Z) : Z := u128 (r + u128 (a * b)).

(** The carries at the end of [fe25519_mul], [fe25519_sq] and [fe25519_sq2]. *)
Definition carry_limbs (r0 r1 r2 r3 r4 : Z) : fe25519 :=
  let r00 := u64 r0 &' mask51 in let carry := r0 ≫ 51 in
  let r1 := u128 (r1 + carry) in
  let r01 := u64 r1 &' mask51 in let carry := r1 ≫ 51 in
  let r2 := u128 (r2 + carry) in
  let r02 := u64 r2 &' mask51 in let carry := r2 ≫ 51 in
  let r3 := u128 (r3 + carry) in
  let r03 := u64 r3 &' mask51 in let carry := r3 ≫ 51 in
  let r4 := u128 (r4 + carry) in
  let r04 := u64 r4 &' mask51 in let carry := r4 ≫ 51 in
  let r00 := u64 (r00 + u64 (19 * u64 carry)) in
  let carry := r00 ≫ 51 in let r00 := r00 &' mask51 in
  let r01 := u64 (r01 + u64 carry) in
  let carry := r01 ≫ 51 in let r01 := r01 &' mask51 in
  let r02 := u64 (r02 + u64 carry) in
  mk_fe r00 r01 r02 r03 r04.

Definition fe25519_mul (f g : fe25519) : fe25519 :=
  let f0 := fe_0 f in let f1 := fe_1 f in let f2 := fe_2 f in let f3 := fe_3 f in let f4 := fe_4 f in
  let g0 := fe_0 g in let g1 := fe_1 g in let g2 := fe_2 g in let g3 := fe_3 g in let g4 := fe_4 g in
  let f1_19 := u64 (19 * f1) in let f2_19 := u64 (19 * f2) in
  let f3_19 := u64 (19 * f3) in let f4_19 := u64 (19 * f4) in
  let r0 := u128 (f0 * g0) in let r0 := mul_acc r0 f1_19 g4 in let r0 := mul_acc r0 f2_19 g3 in
  let r0 := mul_acc r0 f3_19 g2 in let r0 := mul_acc r0 f4_19 g1 in
  let r1 := u128 (f0 * g1) in let r1 := mul_acc r1 f1 g0 in let r1 := mul_acc r1 f2_19 g4 in
  let r1 := mul_acc r1 f3_19 g3 in let r1 := mul_acc r1 f4_19 g2 in
  let r2 := u128 (f0 * g2) in let r2 := mul_acc r2 f1 g1 in let r2 := mul_acc r2 f2 g0 in
  let r2 := mul_acc r2 f3_19 g4 in let r2 := mul_acc r2 f4_19 g3 in
  let r3 := u128 (f0 * g3) in let r3 := mul_acc r3 f1 g2 in let r3 := mul_acc r3 f2 g1 in
  let r3 := mul_acc r3 f3 g0 in let r3 := mul_acc r3 f4_19 g4 in
  let r4 := u128 (f0 * g4) in let r4 := mul_acc r4 f1 g3 in let r4 := mul_acc r4 f2 g2 in
  let r4 := mul_acc r4 f3 g1 in let r4 := mul_acc r4 f4 g0 in
  carry_limbs r0 r1 r2 r3 r4.

(** The five sums of [fe25519_sq] and [fe25519_sq2]. *)
Definition square_limbs (f : fe25519) : Z * Z * Z * Z * Z :=
  let f0 := fe_0 f in let f1 := fe_1 f in let f2 := fe_2 f in let f3 := fe_3 f in let f4 := fe_4 f in
  let f0_2 := u64 (f0 ≪ 1) in let f1_2 := u64 (f1 ≪ 1) in
  let f1_38 := u64 (38 * f1) in let f2_38 := u64 (38 * f2) in let f3_38 := u64 (38 * f3) in
  let f3_19 := u64 (19 * f3) in let f4_19 := u64 (19 * f4) in
  let r0 := u128 (f0 * f0) in let r0 := mul_acc r0 f1_38 f4 in let r0 := mul_acc r0 f2_38 f3 in
  let r1 := u128 (f0_2 * f1) in let r1 := mul_acc r1 f2_38 f4 in let r1 := mul_acc r1 f3_19 f3 in
  let r2 := u128 (f0_2 * f2) in let r2 := mul_acc r2 f1 f1 in let r2 := mul_acc r2 f3_38 f4 in
  let r3 := u128 (f0_2 * f3) in let r3 := mul_acc r3 f1_2 f2 in let r3 := mul_acc r3 f4_19 f4 in
  let r4 := u128 (f0_2 * f4) in let r4 := mul_acc r4 f1_2 f3 in let r4 := mul_acc r4 f2 f2 in
  (r0, r1, r2, r3, r4).

Definition fe25519_sq (f : fe25519) : fe25519 :=
  let '(r0, r1, r2, r3, r4) := square_limbs f in carry_limbs r0 r1 r2 r3 r4.

Definition fe25519_sq2 (f : fe25519) : fe25519 :=
  let '(r0, r1, r2, r3, r4) := square_limbs f in
  carry_limbs (u128 (r0 ≪ 1)) (u128 (r1 ≪ 1)) (u128 (r2 ≪ 1)) (u128 (r3 ≪ 1)) (u128 (r4 ≪ 1)).

Definition fe25519_mul32 (f : fe25519) (n : Z) : fe25519 :=
  let a := u128 (fe_0 f * n) in let h0 := u64 a &' mask51 in
  let a := u128 (u128 (fe_1 f * n) + u64 (a ≫ 51)) in let h1 := u64 a &' mask51 in
  let a := u128 (u128 (fe_2 f * n) + u64 (a ≫ 51)) in let h2 := u64 a &' mask51 in
  let a := u128 (u128 (fe_3 f * n) + u64 (a ≫ 51)) in let h3 := u64 a &' mask51 in
  let a := u128 (u128 (fe_4 f * n) + u64 (a ≫ 51)) in let h4 := u64 a &' mask51 in
  let h0 := u64 (h0 + u128 ((a ≫ 51) * 19)) in
  mk_fe h0 h1 h2 h3 h4.

Definition fe25519_frombytes (s : bytes) : option fe25519 :=
  w0 ← load64_le s 0; w1 ← load64_le s 6; w2 ← load64_le s 12; w3 ← load64_le s 19;
  w4 ← load64_le s 24;
  Some (mk_fe (w0 &' mask51) ((w1 ≫ 3) &' mask51) ((w2 ≫ 6) &' mask51) ((w3 ≫ 1) &' mask51)
          ((w4 ≫ 12) &' mask51)).

(** The carries that appear four times in [fe25519_reduce], on 128-bit words; the
    carry out of the top limb is returned beside the limbs. *)
Definition carry_pass (t : fe25519) : fe25519 * Z :=
  let t0 := fe_0 t in let t1 := fe_1 t in let t2 := fe_2 t in let t3 := fe_3 t in let t4 := fe_4 t in
  let t1 := u128 (t1 + (t0 ≫ 51)) in let t0 := t0 &' mask51 in
  let t2 := u128 (t2 + (t1 ≫ 51)) in let t1 := t1 &' mask51 in
  let t3 := u128 (t3 + (t2 ≫ 51)) in let t2 := t2 &' mask51 in
  let t4 := u128 (t4 + (t3 ≫ 51)) in let t3 := t3 &' mask51 in
  (mk_fe t0 t1 t2 t3 (t4 &' mask51), t4 ≫ 51).

(** [t[0] += 19 * (t[4] >> 51)], after the carries. *)
Definition fold_pass (t : fe25519) : fe25519 :=
  let '(t, c) := carry_pass t in
  mk_fe (u128 (fe_0 t + u128 (19 * c))) (fe_1 t) (fe_2 t) (fe_3 t) (fe_4 t).

(** [t[0] += 19ULL] *)
Definition add_19 (t : fe25519) : fe25519 :=
  mk_fe (u128 (fe_0 t + 19)) (fe_1 t) (fe_2 t) (fe_3 t) (fe_4 t).

(** [t[0] += 0x8000000000000 - 19ULL; t[1] += 0x8000000000000 - 1ULL; ...] *)
Definition add_p (t : fe25519) : fe25519 :=
  mk_fe (u128 (fe_0 t + (0x8000000000000 - 19))) (u128 (fe_1 t + (0x8000000000000 - 1)))
    (u128 (fe_2 t + (0x8000000000000 - 1))) (u128 (fe_3 t + (0x8000000000000 - 1)))
    (u128 (fe_4 t + (0x8000000000000 - 1))).

(** [h[0] = t[0]; ...], from 128 to 64 bits. *)
Definition narrow (t : fe25519) : fe25519 :=
  mk_fe (u64 (fe_0 t)) (u64 (fe_1 t)) (u64 (fe_2 t)) (u64 (fe_3 t)) (u64 (fe_4 t)).

Definition fe25519_reduce (f : fe25519) : fe25519 :=
  let t := fold_pass f in
  let t := fold_pass t in
  let t := add_19 t in
  let t := fold_pass t in
  let t := add_p t in
  narrow (carry_pass t).1.

Definition fe25519_tobytes (s : bytes) (h : fe25519) : option bytes :=
  let t := fe25519_reduce h in
  let t0 := fe_0 t |' u64 (fe_1 t ≪ 51) in
  let t1 := (fe_1 t ≫ 13) |' u64 (fe_2 t ≪ 38) in
  let t2 := (fe_2 t ≫ 26) |' u64 (fe_3 t ≪ 25) in
  let t3 := (fe_3 t ≫ 39) |' u64 (fe_4 t ≪ 12) in
  s ← store64_le s 0 t0; s ← store64_le s 8 t1; s ← store64_le s 16 t2; store64_le s 24 t3.

(** [sodium_is_zero] of [sodium/utils.c]. *)
Definition sodium_is_zero (n : bytes) (nlen : Z) : option Z :=
  d ← for_range (Z.to_nat nlen) (λ i d, x ← n.[Z.of_nat i]; Some (u8 (d |' x))) 0;
  Some (1 &' ((d - 1) ≫ 8)).

Definition fe25519_isnegative (f : fe25519) : option Z :=
  s ← fe25519_tobytes (replicate 32 0) f; x ← s.[0]; Some (x &' 1).

Definition fe25519_iszero (f : fe25519) : option Z :=
  s ← fe25519_tobytes (replicate 32 0) f; sodium_is_zero s 32.

(** [for (i = 1; i < n; ++i) fe25519_sq(t, t);] *)
Definition sq_times (n : nat) (t : fe25519) : fe25519 := Nat.iter (n - 1) fe25519_sq t.

Definition fe25519_invert (z : fe25519) : fe25519 :=
  let t0 := fe25519_sq z in
  let t1 := fe25519_sq t0 in
  let t1 := fe25519_sq t1 in
  let t1 := fe25519_mul z t1 in
  let t0 := fe25519_mul t0 t1 in
  let t2 := fe25519_sq t0 in
  let t1 := fe25519_mul t1 t2 in
  let t2 := fe25519_sq t1 in
  let t2 := sq_times 5 t2 in
  let t1 := fe25519_mul t2 t1 in
  let t2 := fe25519_sq t1 in
  let t2 := sq_times 10 t2 in
  let t2 := fe25519_mul t2 t1 in
  let t3 := fe25519_sq t2 in
  let t3 := sq_times 20 t3 in
  let t2 := fe25519_mul t3 t2 in
  let t2 := sq_times 11 t2 in
  let t1 := fe25519_mul t2 t1 in
  let t2 := fe25519_sq t1 in
  let t2 := sq_times 50 t2 in
  let t2 := fe25519_mul t2 t1 in
  let t3 := fe25519_sq t2 in
  let t3 := sq_times 100 t3 in
  let t2 := fe25519_mul t3 t2 in
  let t2 := sq_times 51 t2 in
  let t1 := fe25519_mul t2 t1 in
  let t1 := sq_times 6 t1 in
  fe25519_mul t1 t0.

(** [z^((p - 5) / 8)] *)
Definition fe25519_pow22523 (z : fe25519) : fe25519 :=
  let t0 := fe25519_sq z in
  let t1 := fe25519_sq t0 in
  let t1 := fe25519_sq t1 in
  let t1 := fe25519_mul z t1 in
  let t0 := fe25519_mul t0 t1 in
  let t0 := fe25519_sq t0 in
  let t0 := fe25519_mul t1 t0 in
  let t1 := fe25519_sq t0 in
  let t1 := sq_times 5 t1 in
  let t0 := fe25519_mul t1 t0 in
  let t1 := fe25519_sq t0 in
  let t1 := sq_times 10 t1 in
  let t1 := fe25519_mul t1 t0 in
  let t2 := fe25519_sq t1 in
  let t2 := sq_times 20 t2 in
  let t1 := fe25519_mul t2 t1 in
  let t1 := sq_times 11 t1 in
  let t0 := fe25519_mul t1 t0 in
  let t1 := fe25519_sq t0 in
  let t1 := sq_times 50 t1 in
  let t1 := fe25519_mul t1 t0 in
  let t2 := fe25519_sq t1 in
  let t2 := sq_times 100 t2 in
  let t1 := fe25519_mul t2 t1 in
  let t1 := sq_times 51 t1 in
  let t0 := fe25519_mul t1 t0 in
  let t0 := fe25519_sq t0 in
  let t0 := fe25519_sq t0 in
  fe25519_mul t0 z.

(** ** The field *)

Definition p25519 : Z := 2 ^ 255 - 19.

Definition fadd (x y : Z) : Z := (x + y) mod p25519.
Definition fsub (x y : Z) : Z := (x - y) mod p25519.
Definition fmul (x y : Z) : Z := (x * y) mod p25519.

Definition fe_val (t : fe25519) : Z :=
  fe_0 t + 2 ^ 51 * fe_1 t + 2 ^ 102 * fe_2 t + 2 ^ 153 * fe_3 t + 2 ^ 204 * fe_4 t.

(** The element a list of limbs stands for. *)
Definition fe_mod (t : fe25519) : Z := fe_val t mod p25519.

(** Limbs of at most [k] bits. *)
Definition limbs (k : Z) (t : fe25519) : Prop :=
  0 <= fe_0 t < 2 ^ k ∧ 0 <= fe_1 t < 2 ^ k ∧ 0 <= fe_2 t < 2 ^ k ∧ 0 <= fe_3 t < 2 ^ k ∧
  0 <= fe_4 t < 2 ^ k.

Lemma limbs_le k k' t : 0 <= k <= k' → limbs k t → limbs k' t.
Proof.
  intros Hk (H0 & H1 & H2 & H3 & H4). pose proof (Z.pow_le_mono_r 2 k k' ltac:(lia) ltac:(lia)).
  unfold limbs. lia.
Qed.

Lemma mask51_mod x : x &' mask51 = x mod 2 ^ 51.
Proof. change mask51 with (Z.ones 51). by rewrite Z.land_ones by lia. Qed.

Lemma p25519_pos : 0 < p25519.
Proof. done. Qed.

Lemma mod_eq_mul k x y : x = y + k * p25519 → x mod p25519 = y mod p25519.
Proof. intros ->. apply Z_mod_plus_full. Qed.

Lemma fmul_mod x y : fmul (x mod p25519) (y mod p25519) = (x * y) mod p25519.
Proof. symmetry. apply Zmult_mod. Qed.
Lemma fadd_mod x y : fadd (x mod p25519) (y mod p25519) = (x + y) mod p25519.
Proof. symmetry. apply Zplus_mod. Qed.
Lemma fsub_mod x y : fsub (x mod p25519) (y mod p25519) = (x - y) mod p25519.
Proof. symmetry. apply Zminus_mod. Qed.

(** Congruence modulo the prime, for rewriting under the operations. *)
Definition eqp (x y : Z) : Prop := x mod p25519 = y mod p25519.

#[global] Instance eqp_equivalence : Equivalence eqp.
Proof. split; unfold eqp; [by intros x|by intros x y|intros x y z ? ?; congruence]. Qed.
#[global] Instance eqp_add : Proper (eqp ==> eqp ==> eqp) Z.add.
Proof. intros x x' Hx y y' Hy. unfold eqp in *. by rewrite Zplus_mod, Hx, Hy, <- Zplus_mod. Qed.
#[global] Instance eqp_sub : Proper (eqp ==> eqp ==> eqp) Z.sub.
Proof. intros x x' Hx y y' Hy. unfold eqp in *. by rewrite Zminus_mod, Hx, Hy, <- Zminus_mod. Qed.
#[global] Instance eqp_mul : Proper (eqp ==> eqp ==> eqp) Z.mul.
Proof. intros x x' Hx y y' Hy. unfold eqp in *. by rewrite Zmult_mod, Hx, Hy, <- Zmult_mod. Qed.

Lemma eqp_mod x : eqp (x mod p25519) x.
Proof. apply Zmod_mod. Qed.

Lemma eq_eqp x y : x = y → eqp x y.
Proof. by intros ->. Qed.
Lemma fadd_eqp x y : eqp (fadd x y) (x + y).
Proof. apply eqp_mod. Qed.
Lemma fsub_eqp x y : eqp (fsub x y) (x - y).
Proof. apply eqp_mod. Qed.
Lemma fmul_eqp x y : eqp (fmul x y) (x * y).
Proof. apply eqp_mod. Qed.
#[global] Instance fadd_proper : Proper (eqp ==> eqp ==> eqp) fadd.
Proof. intros x x' Hx y y' Hy. by rewrite !fadd_eqp, Hx, Hy. Qed.
#[global] Instance fsub_proper : Proper (eqp ==> eqp ==> eqp) fsub.
Proof. intros x x' Hx y y' Hy. by rewrite !fsub_eqp, Hx, Hy. Qed.
#[global] Instance fmul_proper : Proper (eqp ==> eqp ==> eqp) fmul.
Proof. intros x x' Hx y y' Hy. by rewrite !fmul_eqp, Hx, Hy. Qed.

(** Congruent reduced numbers are equal. *)
Lemma eqp_reduced x y : 0 <= x < p25519 → 0 <= y < p25519 → eqp x y → x = y.
Proof. unfold eqp. intros Hx Hy. by rewrite !Z.mod_small by lia. Qed.
Lemma fmul_eq_eqp x y z w : eqp (x * y) (z * w) → fmul x y = fmul z w.
Proof. done. Qed.

(** Equations between products of the field, by the ring of integers. *)
Ltac field_ring :=
  apply fmul_eq_eqp; rewrite ?fmul_eqp, ?fadd_eqp, ?fsub_eqp;
  apply eq_eqp; ring.

(** ** Addition and subtraction *)

Lemma fe_0_eq : limbs 51 fe25519_0 ∧ fe_mod fe25519_0 = 0.
Proof. by split. Qed.
Lemma fe_1_eq : limbs 51 fe25519_1 ∧ fe_mod fe25519_1 = 1.
Proof. by split. Qed.

Lemma fe_add_eq f g : limbs 52 f → limbs 52 g →
  limbs 53 (fe25519_add f g) ∧ fe_mod (fe25519_add f g) = fadd (fe_mod f) (fe_mod g).
Proof.
  intros (F0 & F1 & F2 & F3 & F4) (G0 & G1 & G2 & G3 & G4). unfold fe_mod. rewrite fadd_mod.
  unfold fe25519_add, limbs, fe_val. cbn [fe_0 fe_1 fe_2 fe_3 fe_4].
  rewrite !u64_small by (unfold is_uint; lia). split; [lia|]. f_equal. ring.
Qed.

Lemma fe_sub_bound k f g : 52 <= k <= 53 → limbs k f → limbs 54 g →
  limbs (k + 1) (fe25519_sub f g) ∧ fe_mod (fe25519_sub f g) = fsub (fe_mod f) (fe_mod g).
Proof.
  intros Hk (F0 & F1 & F2 & F3 & F4) (G0 & G1 & G2 & G3 & G4). unfold fe_mod. rewrite fsub_mod.
  pose proof (Z.pow_le_mono_r 2 52 k ltac:(lia) ltac:(lia)) as M1.
  pose proof (Z.pow_le_mono_r 2 k 53 ltac:(lia) ltac:(lia)) as M2.
  unfold limbs. rewrite (Z.pow_add_r 2 k 1) by lia. set (M := 2 ^ k) in *. clearbody M.
  unfold fe25519_sub, fe_val. cbv zeta. cbn [fe_0 fe_1 fe_2 fe_3 fe_4].
  rewrite !mask51_mod, !Z.shiftr_div_pow2 by lia.
  set (h1 := u64 (fe_1 g + _)). assert (h1 = fe_1 g + fe_0 g / 2 ^ 51) as E1
    by (apply wrap_small; unfold is_uint; div_lia). clearbody h1.
  set (h2 := u64 (fe_2 g + _)). assert (h2 = fe_2 g + h1 / 2 ^ 51) as E2
    by (apply wrap_small; unfold is_uint; div_lia). clearbody h2.
  set (h3 := u64 (fe_3 g + _)). assert (h3 = fe_3 g + h2 / 2 ^ 51) as E3
    by (apply wrap_small; unfold is_uint; div_lia). clearbody h3.
  set (h4 := u64 (fe_4 g + _)). assert (h4 = fe_4 g + h3 / 2 ^ 51) as E4
    by (apply wrap_small; unfold is_uint; div_lia). clearbody h4.
  rewrite (u64_small (19 * _)) by (unfold is_uint; div_lia).
  rewrite !(u64_small (_ mod _ + _)) by (unfold is_uint; div_lia).
  rewrite !(u64_small (_ + _)) by (unfold is_uint; lia).
  rewrite !(u64_small (_ - _)) by (unfold is_uint; div_lia).
  split; [div_lia|]. apply (mod_eq_mul (2 + h4 / 2 ^ 51)). unfold p25519. div_lia.
Qed.

Lemma fe_sub_eq f g : limbs 52 f → limbs 54 g →
  limbs 53 (fe25519_sub f g) ∧ fe_mod (fe25519_sub f g) = fsub (fe_mod f) (fe_mod g).
Proof. by apply (fe_sub_bound 52). Qed.
Lemma fe_sub53_eq f g : limbs 53 f → limbs 54 g →
  limbs 54 (fe25519_sub f g) ∧ fe_mod (fe25519_sub f g) = fsub (fe_mod f) (fe_mod g).
Proof. by apply (fe_sub_bound 53). Qed.

(** One bit more on the left gives one bit more in the result. *)
Lemma fe_add53_eq f g : limbs 53 f → limbs 53 g →
  limbs 54 (fe25519_add f g) ∧ fe_mod (fe25519_add f g) = fadd (fe_mod f) (fe_mod g).
Proof.
  intros (F0 & F1 & F2 & F3 & F4) (G0 & G1 & G2 & G3 & G4). unfold fe_mod. rewrite fadd_mod.
  unfold fe25519_add, limbs, fe_val. cbn [fe_0 fe_1 fe_2 fe_3 fe_4].
  rewrite !u64_small by (unfold is_uint; lia). split; [lia|]. f_equal. ring.
Qed.

Lemma fe_neg_eq f : limbs 54 f →
  limbs 53 (fe25519_neg f) ∧ fe_mod (fe25519_neg f) = fsub 0 (fe_mod f).
Proof. intros Hf. by apply fe_sub_eq. Qed.

(** ** Multiplication *)

Lemma mul_acc_eq r a b : 0 <= r < 2 ^ 127 → 0 <= a * b < 2 ^ 127 → mul_acc r a b = r + a * b.
Proof.
  intros Hr Hab. unfold mul_acc, u128. by rewrite !wrap_small by (unfold is_uint; rewrite ?wrap_small; unfold is_uint; lia).
Qed.

(** The final carries keep the value and make the limbs small. *)
Lemma carry_limbs_eq r0 r1 r2 r3 r4 :
  0 <= r0 < 2 ^ 115 → 0 <= r1 < 2 ^ 115 → 0 <= r2 < 2 ^ 115 → 0 <= r3 < 2 ^ 115 →
  0 <= r4 < 6 * 2 ^ 108 →
  limbs 52 (carry_limbs r0 r1 r2 r3 r4) ∧
  fe_mod (carry_limbs r0 r1 r2 r3 r4) = fe_mod (mk_fe r0 r1 r2 r3 r4).
Proof.
  intros H0 H1 H2 H3 H4. unfold carry_limbs, fe_mod, limbs, fe_val. cbv zeta.
  cbn [fe_0 fe_1 fe_2 fe_3 fe_4]. rewrite !mask51_mod, !u64_mod, !Z.shiftr_div_pow2 by lia.
  set (e1 := u128 (r1 + _)). assert (e1 = r1 + r0 / 2 ^ 51) as E1
    by (apply wrap_small; unfold is_uint; div_lia). clearbody e1.
  set (e2 := u128 (r2 + _)). assert (e2 = r2 + e1 / 2 ^ 51) as E2
    by (apply wrap_small; unfold is_uint; div_lia). clearbody e2.
  set (e3 := u128 (r3 + _)). assert (e3 = r3 + e2 / 2 ^ 51) as E3
    by (apply wrap_small; unfold is_uint; div_lia). clearbody e3.
  set (e4 := u128 (r4 + _)). assert (e4 = r4 + e3 / 2 ^ 51) as E4
    by (apply wrap_small; unfold is_uint; div_lia). clearbody e4.
  rewrite (u64_small (e4 / _)) by (unfold is_uint; div_lia).
  rewrite (u64_small (19 * _)) by (unfold is_uint; div_lia).
  set (a0 := u64 (r0 mod _ + _)). assert (a0 = r0 mod 2 ^ 51 + 19 * (e4 / 2 ^ 51)) as E5
    by (apply wrap_small; unfold is_uint; div_lia). clearbody a0.
  rewrite (u64_small (a0 / _)) by (unfold is_uint; div_lia).
  set (a1 := u64 (e1 mod _ + _)). assert (a1 = e1 mod 2 ^ 51 + a0 / 2 ^ 51) as E6
    by (apply wrap_small; unfold is_uint; div_lia). clearbody a1.
  rewrite (u64_small (a1 / _)) by (unfold is_uint; div_lia).
  rewrite (u64_small (e2 mod _ + _)) by (unfold is_uint; div_lia).
  split; [div_lia|]. apply (mod_eq_mul (- (e4 / 2 ^ 51))). unfold p25519. div_lia.
Qed.

(** Limb products, and their sums in 128 bits. *)
Lemma mul53 x y : 0 <= x < 2 ^ 53 → 0 <= y < 2 ^ 53 → 0 <= x * y < 2 ^ 106.
Proof. intros Hx Hy. exact (mul_bound x y _ _ Hx Hy). Qed.
Lemma mul53_by k x y : 0 < k → 0 <= x < 2 ^ 53 → 0 <= y < 2 ^ 53 → 0 <= k * x * y < k * 2 ^ 106.
Proof. intros Hk Hx Hy. pose proof (mul53 x y Hx Hy). nia. Qed.

Lemma acc3 M a0 b0 a1 b1 a2 b2 : M <= 2 ^ 120 →
  0 <= a0 * b0 < M → 0 <= a1 * b1 < M → 0 <= a2 * b2 < M →
  mul_acc (mul_acc (u128 (a0 * b0)) a1 b1) a2 b2 = a0 * b0 + a1 * b1 + a2 * b2 ∧
  0 <= a0 * b0 + a1 * b1 + a2 * b2 < 3 * M.
Proof.
  intros HM H0 H1 H2. unfold u128. rewrite wrap_small by (unfold is_uint; lia).
  rewrite (mul_acc_eq (a0 * b0)) by lia. rewrite mul_acc_eq by lia. lia.
Qed.

Lemma acc5 M a0 b0 a1 b1 a2 b2 a3 b3 a4 b4 : M <= 2 ^ 120 →
  0 <= a0 * b0 < M → 0 <= a1 * b1 < M → 0 <= a2 * b2 < M → 0 <= a3 * b3 < M → 0 <= a4 * b4 < M →
  mul_acc (mul_acc (mul_acc (mul_acc (u128 (a0 * b0)) a1 b1) a2 b2) a3 b3) a4 b4 =
    a0 * b0 + a1 * b1 + a2 * b2 + a3 * b3 + a4 * b4 ∧
  0 <= a0 * b0 + a1 * b1 + a2 * b2 + a3 * b3 + a4 * b4 < 5 * M.
Proof.
  intros HM H0 H1 H2 H3 H4. destruct (acc3 M a0 b0 a1 b1 a2 b2) as [-> Hs]; [done..|].
  rewrite (mul_acc_eq _ a3) by lia. rewrite mul_acc_eq by lia. lia.
Qed.

Lemma mul19_small x : 0 <= x < 2 ^ 53 → u64 (19 * x) = 19 * x.
Proof. intros. apply u64_small. unfold is_uint. lia. Qed.
Lemma mul38_small x : 0 <= x < 2 ^ 53 → u64 (38 * x) = 38 * x.
Proof. intros. apply u64_small. unfold is_uint. lia. Qed.
Lemma double_small x : 0 <= x < 2 ^ 53 → u64 (x ≪ 1) = 2 * x.
Proof. intros. rewrite Z.shiftl_mul_pow2 by lia. rewrite u64_small; [lia|]. unfold is_uint. lia. Qed.

Lemma mul19_small54 x : 0 <= x < 2 ^ 54 → u64 (19 * x) = 19 * x.
Proof. intros. apply u64_small. unfold is_uint. lia. Qed.

(** Each product of two 53-bit limbs times at most 38. *)
Lemma product_bound k M x y : 0 < k → k * 2 ^ 106 <= M → 0 <= x < 2 ^ 53 → 0 <= y < 2 ^ 53 →
  0 <= k * x * y < M.
Proof. intros Hk HM Hx Hy. pose proof (mul53_by k x y Hk Hx Hy). lia. Qed.
Lemma product_bound_1 M x y : 2 ^ 106 <= M → 0 <= x < 2 ^ 53 → 0 <= y < 2 ^ 53 → 0 <= x * y < M.
Proof. intros HM Hx Hy. pose proof (mul53 x y Hx Hy). lia. Qed.

Lemma product_bound54 k M x y : 0 < k → k * 2 ^ 108 <= M → 0 <= x < 2 ^ 54 → 0 <= y < 2 ^ 54 →
  0 <= k * x * y < M.
Proof. intros Hk HM Hx Hy. pose proof (mul_bound x y _ _ Hx Hy). nia. Qed.
Lemma product_bound54_1 M x y : 2 ^ 108 <= M → 0 <= x < 2 ^ 54 → 0 <= y < 2 ^ 54 → 0 <= x * y < M.
Proof. intros HM Hx Hy. pose proof (mul_bound x y _ _ Hx Hy). lia. Qed.

Ltac by_product :=
  first [apply product_bound; [done|done|assumption|assumption]
        |apply product_bound_1; [done|assumption|assumption]
        |apply product_bound54; [done|done|assumption|assumption]
        |apply product_bound54_1; [done|assumption|assumption]].

Lemma fe_mul54_eq f g : limbs 54 f → limbs 54 g →
  limbs 52 (fe25519_mul f g) ∧ fe_mod (fe25519_mul f g) = fmul (fe_mod f) (fe_mod g).
Proof.
  destruct f as [f0 f1 f2 f3 f4], g as [g0 g1 g2 g3 g4].
  intros (F0 & F1 & F2 & F3 & F4) (G0 & G1 & G2 & G3 & G4). unfold fe25519_mul. cbv zeta.
  cbn [fe_0 fe_1 fe_2 fe_3 fe_4] in *. rewrite !mul19_small54 by assumption.
  destruct (acc5 (19 * 2 ^ 108) f0 g0 (19 * f1) g4 (19 * f2) g3 (19 * f3) g2 (19 * f4) g1)
    as [-> H0]; [done|by_product..|].
  destruct (acc5 (19 * 2 ^ 108) f0 g1 f1 g0 (19 * f2) g4 (19 * f3) g3 (19 * f4) g2)
    as [-> H1]; [done|by_product..|].
  destruct (acc5 (19 * 2 ^ 108) f0 g2 f1 g1 f2 g0 (19 * f3) g4 (19 * f4) g3)
    as [-> H2]; [done|by_product..|].
  destruct (acc5 (19 * 2 ^ 108) f0 g3 f1 g2 f2 g1 f3 g0 (19 * f4) g4)
    as [-> H3]; [done|by_product..|].
  destruct (acc5 (2 ^ 108) f0 g4 f1 g3 f2 g2 f3 g1 f4 g0)
    as [-> H4]; [done|by_product..|].
  clear F0 F1 F2 F3 F4 G0 G1 G2 G3 G4.
  edestruct carry_limbs_eq as [Hl Hv]; [..|split; [exact Hl|rewrite Hv]]; [lia..|].
  unfold fe_mod. rewrite fmul_mod. unfold fe_val. cbn [fe_0 fe_1 fe_2 fe_3 fe_4].
  apply (mod_eq_mul (- (f1 * g4 + f2 * g3 + f3 * g2 + f4 * g1 + 2 ^ 51 * (f2 * g4 + f3 * g3 + f4 * g2)
    + 2 ^ 102 * (f3 * g4 + f4 * g3) + 2 ^ 153 * (f4 * g4)))).
  unfold p25519. ring.
Qed.

Lemma fe_mul_eq f g : limbs 53 f → limbs 53 g →
  limbs 52 (fe25519_mul f g) ∧ fe_mod (fe25519_mul f g) = fmul (fe_mod f) (fe_mod g).
Proof. intros Hf Hg. by apply fe_mul54_eq; apply (limbs_le 53). Qed.

(** The five sums are those of [fe25519_mul], with equal products collected. *)
Lemma square_limbs_eq f : limbs 53 f → ∃ r0 r1 r2 r3 r4, square_limbs f = (r0, r1, r2, r3, r4) ∧
  0 <= r0 < 2 ^ 113 ∧ 0 <= r1 < 2 ^ 113 ∧ 0 <= r2 < 2 ^ 113 ∧ 0 <= r3 < 2 ^ 113 ∧ 0 <= r4 < 2 ^ 109 ∧
  ∃ k, fe_val (mk_fe r0 r1 r2 r3 r4) = fe_val f * fe_val f + k * p25519.
Proof.
  destruct f as [f0 f1 f2 f3 f4]. intros (F0 & F1 & F2 & F3 & F4). unfold square_limbs. cbv zeta.
  cbn [fe_0 fe_1 fe_2 fe_3 fe_4] in *.
  rewrite !mul19_small, !mul38_small, !double_small by assumption.
  destruct (acc3 (38 * 2 ^ 106) f0 f0 (38 * f1) f4 (38 * f2) f3) as [-> H0]; [done|by_product..|].
  destruct (acc3 (38 * 2 ^ 106) (2 * f0) f1 (38 * f2) f4 (19 * f3) f3) as [-> H1]; [done|by_product..|].
  destruct (acc3 (38 * 2 ^ 106) (2 * f0) f2 f1 f1 (38 * f3) f4) as [-> H2]; [done|by_product..|].
  destruct (acc3 (38 * 2 ^ 106) (2 * f0) f3 (2 * f1) f2 (19 * f4) f4) as [-> H3]; [done|by_product..|].
  destruct (acc3 (2 * 2 ^ 106) (2 * f0) f4 (2 * f1) f3 f2 f2) as [-> H4]; [done|by_product..|].
  clear F0 F1 F2 F3 F4. do 5 eexists. split; [reflexivity|]. do 5 (split; [lia|]).
  exists (- (2 * f1 * f4 + 2 * f2 * f3 + 2 ^ 51 * (2 * f2 * f4 + f3 * f3) + 2 ^ 102 * (2 * f3 * f4)
    + 2 ^ 153 * (f4 * f4))).
  unfold fe_val, p25519. cbn [fe_0 fe_1 fe_2 fe_3 fe_4]. ring.
Qed.

Lemma fe_sq_eq f : limbs 53 f →
  limbs 52 (fe25519_sq f) ∧ fe_mod (fe25519_sq f) = fmul (fe_mod f) (fe_mod f).
Proof.
  intros Hf. destruct (square_limbs_eq f Hf) as (r0 & r1 & r2 & r3 & r4 & Hs & H0 & H1 & H2 & H3 & H4 & k & Hv).
  unfold fe25519_sq. rewrite Hs. destruct (carry_limbs_eq r0 r1 r2 r3 r4) as [Hl ->]; [lia..|].
  split; [done|]. unfold fe_mod. rewrite Hv, fmul_mod. apply Z_mod_plus_full.
Qed.

Lemma fe_sq2_eq f : limbs 53 f →
  limbs 52 (fe25519_sq2 f) ∧ fe_mod (fe25519_sq2 f) = fmul 2 (fmul (fe_mod f) (fe_mod f)).
Proof.
  intros Hf. destruct (square_limbs_eq f Hf) as (r0 & r1 & r2 & r3 & r4 & Hs & H0 & H1 & H2 & H3 & H4 & k & Hv).
  assert (∀ r, 0 <= r < 2 ^ 113 → u128 (r ≪ 1) = 2 * r) as Hd.
  { intros r Hr. rewrite Z.shiftl_mul_pow2 by lia. unfold u128.
    rewrite wrap_small by (unfold is_uint; lia). lia. }
  unfold fe25519_sq2. rewrite Hs, !Hd by lia.
  destruct (carry_limbs_eq (2 * r0) (2 * r1) (2 * r2) (2 * r3) (2 * r4)) as [Hl ->]; [lia..|].
  split; [done|]. unfold fe_mod. rewrite fmul_mod.
  change (fmul 2 ?x) with (fmul (2 mod p25519) x). rewrite fmul_mod.
  apply (mod_eq_mul (2 * k)). unfold fe_val in *. cbn [fe_0 fe_1 fe_2 fe_3 fe_4] in *. lia.
Qed.

Lemma fe_mul32_eq f n : limbs 53 f → 0 <= n < 2 ^ 32 →
  limbs 52 (fe25519_mul32 f n) ∧ fe_mod (fe25519_mul32 f n) = fmul (fe_mod f) n.
Proof.
  intros (F0 & F1 & F2 & F3 & F4) Hn.
  pose proof (mul_bound _ _ _ _ F0 Hn) as M0. pose proof (mul_bound _ _ _ _ F1 Hn) as M1.
  pose proof (mul_bound _ _ _ _ F2 Hn) as M2. pose proof (mul_bound _ _ _ _ F3 Hn) as M3.
  pose proof (mul_bound _ _ _ _ F4 Hn) as M4.
  rewrite <- (Z.mod_small n p25519) by (unfold p25519; lia). unfold fe_mod. rewrite fmul_mod.
  rewrite (Z.mod_small n p25519) by (unfold p25519; lia).
  unfold fe25519_mul32, limbs, fe_val. cbv zeta. cbn [fe_0 fe_1 fe_2 fe_3 fe_4].
  rewrite Z.mul_add_distr_r, !Z.mul_add_distr_r, <- !Z.mul_assoc.
  set (p0 := fe_0 f * n) in *. set (p1 := fe_1 f * n) in *. set (p2 := fe_2 f * n) in *.
  set (p3 := fe_3 f * n) in *. set (p4 := fe_4 f * n) in *. clearbody p0 p1 p2 p3 p4.
  clear F0 F1 F2 F3 F4. rewrite !mask51_mod, !u64_mod, !Z.shiftr_div_pow2 by lia. unfold u128.
  rewrite !(wrap_small 128 p0), !(wrap_small 128 p1), !(wrap_small 128 p2), !(wrap_small 128 p3),
    !(wrap_small 128 p4) by (unfold is_uint; lia).
  rewrite (u64_small (p0 / _)) by (unfold is_uint; div_lia).
  set (a1 := wrap 128 (p1 + _)). assert (a1 = p1 + p0 / 2 ^ 51) as E1
    by (apply wrap_small; unfold is_uint; div_lia). clearbody a1.
  rewrite (u64_small (a1 / _)) by (unfold is_uint; div_lia).
  set (a2 := wrap 128 (p2 + _)). assert (a2 = p2 + a1 / 2 ^ 51) as E2
    by (apply wrap_small; unfold is_uint; div_lia). clearbody a2.
  rewrite (u64_small (a2 / _)) by (unfold is_uint; div_lia).
  set (a3 := wrap 128 (p3 + _)). assert (a3 = p3 + a2 / 2 ^ 51) as E3
    by (apply wrap_small; unfold is_uint; div_lia). clearbody a3.
  rewrite (u64_small (a3 / _)) by (unfold is_uint; div_lia).
  set (a4 := wrap 128 (p4 + _)). assert (a4 = p4 + a3 / 2 ^ 51) as E4
    by (apply wrap_small; unfold is_uint; div_lia). clearbody a4.
  rewrite (wrap_small 128 (a4 / _ * 19)) by (unfold is_uint; div_lia).
  rewrite (u64_small (p0 mod _ + _)) by (unfold is_uint; div_lia).
  split; [div_lia|]. apply (mod_eq_mul (- (a4 / 2 ^ 51))). unfold p25519. div_lia.
Qed.

(** ** The reduced representative *)

Lemma fe_val_bound t : limbs 51 t → 0 <= fe_val t < 2 ^ 255.
Proof. intros (H0 & H1 & H2 & H3 & H4). unfold fe_val. lia. Qed.

(** The limbs of the value modulo 2^255, and what is above. *)
Lemma carry_pass_eq t : limbs 100 t →
  limbs 51 (carry_pass t).1 ∧ 0 <= (carry_pass t).2 < 2 ^ 100 ∧
  fe_val t = fe_val (carry_pass t).1 + 2 ^ 255 * (carry_pass t).2.
Proof.
  intros (H0 & H1 & H2 & H3 & H4). unfold carry_pass, limbs, fe_val. cbv zeta.
  cbn [fe_0 fe_1 fe_2 fe_3 fe_4 fst snd]. rewrite !mask51_mod, !Z.shiftr_div_pow2 by lia.
  set (t1 := u128 (fe_1 t + _)). assert (t1 = fe_1 t + fe_0 t / 2 ^ 51) as E1
    by (apply wrap_small; unfold is_uint; div_lia). clearbody t1.
  set (t2 := u128 (fe_2 t + _)). assert (t2 = fe_2 t + t1 / 2 ^ 51) as E2
    by (apply wrap_small; unfold is_uint; div_lia). clearbody t2.
  set (t3 := u128 (fe_3 t + _)). assert (t3 = fe_3 t + t2 / 2 ^ 51) as E3
    by (apply wrap_small; unfold is_uint; div_lia). clearbody t3.
  set (t4 := u128 (fe_4 t + _)). assert (t4 = fe_4 t + t3 / 2 ^ 51) as E4
    by (apply wrap_small; unfold is_uint; div_lia). clearbody t4.
  div_lia.
Qed.

Lemma div_mod_255 v r c : v = r + 2 ^ 255 * c → 0 <= r < 2 ^ 255 → r = v mod 2 ^ 255 ∧ c = v / 2 ^ 255.
Proof. intros -> Hr. div_lia. Qed.

Lemma fold_pass_eq t : limbs 64 t →
  limbs 52 (fold_pass t) ∧ fe_val (fold_pass t) = fe_val t mod 2 ^ 255 + 19 * (fe_val t / 2 ^ 255).
Proof.
  intros Ht. destruct (carry_pass_eq t) as (Hl & Hc & Hv); [by eapply limbs_le; [|done]|].
  destruct (div_mod_255 _ _ _ Hv (fe_val_bound _ Hl)) as [Hm Hd].
  assert (0 <= (carry_pass t).2 < 2 ^ 14) as Hc'.
  { rewrite Hd. destruct Ht as (H0 & H1 & H2 & H3 & H4). unfold fe_val. div_lia. }
  rewrite <- Hm, <- Hd. unfold fold_pass. clear Hv Hm Hd Hc. destruct (carry_pass t) as [r c].
  cbn [fst snd] in *. destruct Hl as (H0 & H1 & H2 & H3 & H4). unfold u128.
  rewrite !wrap_small by (unfold is_uint; rewrite ?wrap_small; unfold is_uint; lia).
  unfold limbs, fe_val. cbn [fe_0 fe_1 fe_2 fe_3 fe_4]. lia.
Qed.

(** The comment of the code, as arithmetic: after two folds the value is below 2^255;
    the last steps subtract the modulus when it is not below that. *)
Lemma reduce_arith v v1 v2 v3 : 0 <= v < 2 ^ 270 →
  v1 = v mod 2 ^ 255 + 19 * (v / 2 ^ 255) → v2 = v1 mod 2 ^ 255 + 19 * (v1 / 2 ^ 255) →
  v3 = (v2 + 19) mod 2 ^ 255 + 19 * ((v2 + 19) / 2 ^ 255) →
  (v3 + (2 ^ 255 - 19)) mod 2 ^ 255 = v mod p25519.
Proof.
  intros Hv H1 H2 H3.
  assert (0 <= v1 < 2 ^ 255 + 2 ^ 20) as B1 by div_lia.
  assert (0 <= v2 < 2 ^ 255) as B2 by div_lia.
  assert (v mod p25519 = v2 mod p25519) as ->.
  { apply (mod_eq_mul (v / 2 ^ 255 + v1 / 2 ^ 255)). unfold p25519. div_lia. }
  destruct (Z.lt_ge_cases v2 p25519) as [Hs|Hb].
  - rewrite (Z.mod_small v2) by lia. unfold p25519 in *.
    assert (v3 = v2 + 19) as -> by div_lia.
    replace (v2 + 19 + (2 ^ 255 - 19)) with (v2 + 1 * 2 ^ 255) by ring.
    rewrite Z_mod_plus_full. apply Z.mod_small. lia.
  - replace (v2 mod p25519) with (v2 - p25519).
    + unfold p25519 in *. assert (v3 = v2 + 19 - 2 ^ 255 + 19) as -> by div_lia.
      replace (v2 + 19 - 2 ^ 255 + 19 + (2 ^ 255 - 19)) with (v2 - (2 ^ 255 - 19) + 1 * 2 ^ 255) by ring.
      rewrite Z_mod_plus_full, Z.mod_small; lia.
    + symmetry. rewrite <- (Z_mod_plus_full v2 (-1)). rewrite Z.mod_small; unfold p25519 in *; lia.
Qed.

Lemma add_19_eq t : limbs 52 t → limbs 64 (add_19 t) ∧ fe_val (add_19 t) = fe_val t + 19.
Proof.
  intros (? & ? & ? & ? & ?). unfold add_19, limbs, fe_val, u128. cbn [fe_0 fe_1 fe_2 fe_3 fe_4].
  rewrite wrap_small by (unfold is_uint; lia). lia.
Qed.

Lemma add_p_eq t : limbs 52 t → limbs 100 (add_p t) ∧ fe_val (add_p t) = fe_val t + (2 ^ 255 - 19).
Proof.
  intros (? & ? & ? & ? & ?). unfold add_p, limbs, fe_val, u128. cbn [fe_0 fe_1 fe_2 fe_3 fe_4].
  rewrite !wrap_small by (unfold is_uint; lia). lia.
Qed.

Lemma narrow_eq t : limbs 51 t → narrow t = t.
Proof.
  intros (? & ? & ? & ? & ?). unfold narrow. rewrite !u64_small by (unfold is_uint; lia).
  by destruct t.
Qed.

Lemma fe_reduce_eq f : limbs 64 f → limbs 51 (fe25519_reduce f) ∧ fe_val (fe25519_reduce f) = fe_mod f.
Proof.
  intros Hf. unfold fe25519_reduce. destruct (fold_pass_eq f Hf) as [L1 V1].
  destruct (fold_pass_eq (fold_pass f)) as [L2 V2]; [by eapply limbs_le; [|done]|].
  destruct (add_19_eq _ L2) as [L3 V3]. destruct (fold_pass_eq _ L3) as [L4 V4].
  destruct (add_p_eq _ L4) as [L5 V5]. destruct (carry_pass_eq _ L5) as (L6 & _ & V6).
  destruct (div_mod_255 _ _ _ V6 (fe_val_bound _ L6)) as [V7 _].
  rewrite narrow_eq by exact L6. split; [exact L6|]. rewrite V7, V5. unfold fe_mod.
  apply (reduce_arith _ (fe_val (fold_pass f)) (fe_val (fold_pass (fold_pass f))) _);
    [|exact V1|exact V2|by rewrite V4, V3].
  destruct Hf as (? & ? & ? & ? & ?). unfold fe_val. lia.
Qed.

(** ** Bytes *)

(** A word made of two adjacent limbs. *)
Lemma pack_word lo hi a b : 0 <= a <= 64 → b = 64 - a → 0 <= lo < 2 ^ a → 0 <= hi →
  lo |' u64 (hi ≪ a) = lo + 2 ^ a * (hi mod 2 ^ b).
Proof.
  intros Ha -> Hlo Hhi.
  assert (u64 (hi ≪ a) = (hi mod 2 ^ (64 - a)) ≪ a) as ->.
  { unfold u64, wrap. rewrite !Z.shiftl_mul_pow2 by lia.
    replace (2 ^ 64) with (2 ^ (64 - a) * 2 ^ a) by (rewrite <- Z.pow_add_r by lia; f_equal; lia).
    apply Z.mul_mod_distr_r; lia. }
  rewrite lor_shift_add by lia. ring.
Qed.

(** The four words of five reduced limbs. *)
Lemma pack_words t : limbs 51 t →
  le_val (le64_bytes (fe_0 t |' u64 (fe_1 t ≪ 51)) ++ le64_bytes ((fe_1 t ≫ 13) |' u64 (fe_2 t ≪ 38)) ++
          le64_bytes ((fe_2 t ≫ 26) |' u64 (fe_3 t ≪ 25)) ++ le64_bytes ((fe_3 t ≫ 39) |' u64 (fe_4 t ≪ 12)))
    = fe_val t.
Proof.
  intros (H0 & H1 & H2 & H3 & H4). rewrite !Z.shiftr_div_pow2 by lia.
  rewrite (pack_word (fe_0 t) _ 51 13), (pack_word (fe_1 t / 2 ^ 13) _ 38 26),
    (pack_word (fe_2 t / 2 ^ 26) _ 25 39), (pack_word (fe_3 t / 2 ^ 39) _ 12 52) by (lia || div_lia).
  rewrite !le_val_app, !length_le64_bytes, !le_val_le64 by (unfold is_uint; div_lia).
  change (8 * Z.of_nat 8) with 64. unfold fe_val.
  pose proof (Z.div_mod (fe_1 t) (2 ^ 13) ltac:(done)). pose proof (Z.div_mod (fe_2 t) (2 ^ 26) ltac:(done)).
  pose proof (Z.div_mod (fe_3 t) (2 ^ 39) ltac:(done)).
  rewrite (Z.mod_small (fe_4 t)) by lia. lia.
Qed.

(** [x] as [n] little-endian bytes. *)
Fixpoint le_bytes (n : nat) (x : Z) : bytes :=
  match n with
  | O => []
  | S n => x mod 256 :: le_bytes n (x / 256)
  end.

Lemma le_bytes_length n x : length (le_bytes n x) = n.
Proof. revert x. induction n as [|n IH]; intros x; cbn; [done|by rewrite IH]. Qed.
Lemma le_bytes_ok n x : bytes_ok (le_bytes n x).
Proof.
  revert x. induction n as [|n IH]; intros x; cbn [le_bytes]; constructor; [|done].
  apply Z.mod_pos_bound. lia.
Qed.
Lemma le_bytes_val n b : bytes_ok b → length b = n → le_bytes n (le_val b) = b.
Proof.
  intros H <-. induction H as [|x b Hx Hb IH]; [done|]. cbn [length le_bytes le_val]. unfold is_uint in Hx.
  rewrite (Z.mul_comm 256), Z_mod_plus_full, Z.div_add, Z.mod_small, Z.div_small by lia.
  by rewrite Z.add_0_l, IH.
Qed.
Lemma le_val_bytes n x : 0 <= x < 2 ^ (8 * Z.of_nat n) → le_val (le_bytes n x) = x.
Proof.
  revert x. induction n as [|n IH]; intros x Hx; cbn [le_bytes le_val]; [change (2 ^ _) with 1 in Hx; lia|].
  rewrite IH; [rewrite (Z.div_mod x 256) at 3 by lia; lia|].
  replace (8 * Z.of_nat (S n)) with (8 * Z.of_nat n + 8) in Hx by lia.
  rewrite Z.pow_add_r in Hx by lia. split; [apply Z.div_pos; lia|].
  apply Z.div_lt_upper_bound; [lia|]. change (2 ^ 8) with 256 in Hx. lia.
Qed.

(** Four words stored one after the other. *)
Lemma store_words4 s w0 w1 w2 w3 : length s = 32%nat →
  (s ← store64_le s 0 w0; s ← store64_le s 8 w1; s ← store64_le s 16 w2; store64_le s 24 w3) =
    Some (le64_bytes w0 ++ le64_bytes w1 ++ le64_bytes w2 ++ le64_bytes w3).
Proof.
  intros Hs.
  assert (s = take 8 s ++ take 8 (drop 8 s) ++ take 8 (drop 16 s) ++ drop 24 s) as ->.
  { rewrite <- (take_drop 8 s) at 1. f_equal. rewrite <- (take_drop 8 (drop 8 s)) at 1. f_equal.
    rewrite drop_drop. rewrite <- (take_drop 8 (drop (8 + 8) s)) at 1. f_equal. by rewrite drop_drop. }
  set (a := take 8 s). set (b := take 8 (drop 8 s)). set (c := take 8 (drop 16 s)). set (d := drop 24 s).
  assert (length a = 8%nat ∧ length b = 8%nat ∧ length c = 8%nat ∧ length d = 8%nat) as (Ha & Hb & Hc & Hd)
    by (unfold a, b, c, d; rewrite !length_take, !length_drop; lia).
  clearbody a b c d. rewrite !store64_le_eq.
  pose proof (le64_write_mid [] a (b ++ c ++ d) 0 w0 eq_refl Ha) as E0. cbn [app] in E0. rewrite E0. bind_simpl.
  rewrite store64_le_eq, le64_write_mid by done. bind_simpl.
  rewrite store64_le_eq, (app_assoc (le64_bytes w0)), le64_write_mid by done. bind_simpl.
  rewrite store64_le_eq, (app_assoc _ (le64_bytes w2)), <- (app_nil_r d), le64_write_mid by done.
  by rewrite app_nil_r, <- !app_assoc.
Qed.

Lemma fe_tobytes_eq s h : length s = 32%nat → limbs 64 h →
  fe25519_tobytes s h = Some (le_bytes 32 (fe_mod h)).
Proof.
  intros Hs Hh. destruct (fe_reduce_eq h Hh) as [Hl <-]. unfold fe25519_tobytes. cbv zeta.
  rewrite store_words4 by done. f_equal. rewrite <- pack_words by exact Hl. symmetry.
  apply le_bytes_val; [repeat apply Forall_app_2; apply le64_bytes_ok|].
  by rewrite !length_app, !length_le64_bytes.
Qed.

(** Part of a byte string, as part of its value. *)
Lemma le_val_part s o n : bytes_ok s → (o + n <= length s)%nat →
  le_val (take n (drop o s)) = le_val s / 2 ^ (8 * Z.of_nat o) mod 2 ^ (8 * Z.of_nat n).
Proof.
  intros Hs Hl. rewrite <- (take_drop o s) at 2. rewrite le_val_app, length_take.
  replace (o `min` length s)%nat with o by lia.
  pose proof (le_val_bound (take o s) (Forall_take _ _ _ Hs)) as Ho. rewrite length_take in Ho.
  replace (o `min` length s)%nat with o in Ho by lia.
  rewrite (Z.mul_comm (2 ^ _)), Z.div_add, (Z.div_small (le_val (take o s))), Z.add_0_l by lia.
  rewrite <- (take_drop n (drop o s)) at 2. rewrite le_val_app, length_take, length_drop.
  replace (n `min` (length s - o))%nat with n by lia.
  pose proof (le_val_bound (take n (drop o s)) (Forall_take _ _ _ (Forall_drop _ _ _ Hs))) as Hn.
  rewrite length_take, length_drop in Hn. replace (n `min` (length s - o))%nat with n in Hn by lia.
  rewrite (Z.mul_comm (2 ^ _)), Z_mod_plus_full, Z.mod_small by lia. done.
Qed.

Lemma limb_of_word x a k : 0 <= a → 0 <= k <= 13 →
  ((x / 2 ^ a mod 2 ^ 64) ≫ k) &' mask51 = x / 2 ^ (a + k) mod 2 ^ 51.
Proof.
  intros Ha Hk. rewrite mask51_mod. rewrite <- !Z.shiftr_div_pow2 by lia. rewrite <- !Z.land_ones by lia.
  apply Z.bits_inj'. intros i Hi. rewrite !Z.land_spec, !Z.shiftr_spec, Z.land_spec, Z.shiftr_spec by lia.
  rewrite !Z.testbit_ones_nonneg by lia. replace (i + k + a) with (i + (a + k)) by lia.
  destruct (i <? 51) eqn:E; [|by rewrite !andb_false_r]. by test_true (i + k <? 64); rewrite andb_true_r.
Qed.

Lemma digits51 x : x mod 2 ^ 255 =
  x mod 2 ^ 51 + 2 ^ 51 * (x / 2 ^ 51 mod 2 ^ 51) + 2 ^ 102 * (x / 2 ^ 102 mod 2 ^ 51) +
  2 ^ 153 * (x / 2 ^ 153 mod 2 ^ 51) + 2 ^ 204 * (x / 2 ^ 204 mod 2 ^ 51).
Proof.
  replace (2 ^ 255) with (2 ^ 51 * (2 ^ 51 * (2 ^ 51 * (2 ^ 51 * 2 ^ 51)))) by reflexivity.
  rewrite !Z.rem_mul_r, !Z.div_div by lia.
  change (2 ^ 51 * 2 ^ 51) with (2 ^ 102). change (2 ^ 102 * 2 ^ 51) with (2 ^ 153).
  change (2 ^ 153 * 2 ^ 51) with (2 ^ 204). ring.
Qed.

(** Reading ignores the top bit. *)
Lemma fe_frombytes_eq s : length s = 32%nat → bytes_ok s → ∃ h, fe25519_frombytes s = Some h ∧
  limbs 51 h ∧ fe_val h = le_val s mod 2 ^ 255.
Proof.
  intros Hs Hb. unfold fe25519_frombytes.
  assert (∀ o, (o + 8 <= 32)%nat → load64_le s (Z.of_nat o) = Some (le_val s / 2 ^ (8 * Z.of_nat o) mod 2 ^ 64)) as Hw.
  { intros o Ho. destruct (load64_take s (Z.of_nat o) Hb) as [-> _]; [lia..|].
    rewrite Nat2Z.id, le_val_part by (done || lia). done. }
  change (load64_le s 0) with (load64_le s (Z.of_nat 0)). change (load64_le s 6) with (load64_le s (Z.of_nat 6)).
  change (load64_le s 12) with (load64_le s (Z.of_nat 12)). change (load64_le s 19) with (load64_le s (Z.of_nat 19)).
  change (load64_le s 24) with (load64_le s (Z.of_nat 24)).
  rewrite (Hw 0%nat), (Hw 6%nat), (Hw 12%nat), (Hw 19%nat), (Hw 24%nat) by lia. bind_simpl.
  eexists. split; [reflexivity|]. set (x := le_val s). clearbody x.
  change (8 * Z.of_nat 0) with 0. pose proof (limb_of_word x 0 0 ltac:(lia) ltac:(lia)) as L0.
  rewrite Z.shiftr_0_r in L0. rewrite L0, !limb_of_word by lia. change (0 + 0) with 0.
  change (8 * Z.of_nat 6 + 3) with 51.
  change (8 * Z.of_nat 12 + 6) with 102. change (8 * Z.of_nat 19 + 1) with 153.
  change (8 * Z.of_nat 24 + 12) with 204.
  unfold limbs, fe_val. cbn [fe_0 fe_1 fe_2 fe_3 fe_4].
  split; [split_and!; apply Z.mod_pos_bound; lia|].
  replace (x / 2 ^ 0) with x by (by rewrite Z.div_1_r). by rewrite digits51.
Qed.

(** ** Selection without branches *)

Lemma select_word (b : bool) x y : is_u64 x → is_u64 y →
  x ^' ((x ^' y) &' u64 (- Z.b2z b)) = if b then y else x.
Proof.
  intros Hx Hy. destruct b; cbn [Z.b2z].
  - change (u64 (Z.opp 1)) with (Z.ones 64). rewrite Z.land_ones by lia.
    rewrite Z.mod_small by (by apply lxor_uint). by rewrite <- Z.lxor_assoc, Z.lxor_nilpotent, Z.lxor_0_l.
  - change (u64 (Z.opp 0)) with 0. by rewrite Z.land_0_r, Z.lxor_0_r.
Qed.

Lemma select_word_r (b : bool) x y : is_u64 x → is_u64 y →
  y ^' ((x ^' y) &' u64 (- Z.b2z b)) = if b then x else y.
Proof. intros. rewrite (Z.lxor_comm x y). by apply select_word. Qed.

Lemma fe_cmov_eq f g (b : bool) : limbs 64 f → limbs 64 g →
  fe25519_cmov f g (Z.b2z b) = if b then g else f.
Proof.
  destruct f, g. intros (? & ? & ? & ? & ?) (? & ? & ? & ? & ?). unfold fe25519_cmov. cbv zeta.
  cbn [fe_0 fe_1 fe_2 fe_3 fe_4] in *. rewrite !select_word by done. by destruct b.
Qed.

Lemma fe_cswap_eq f g (b : bool) : limbs 64 f → limbs 64 g →
  fe25519_cswap f g (Z.b2z b) = if b then (g, f) else (f, g).
Proof.
  destruct f, g. intros (? & ? & ? & ? & ?) (? & ? & ? & ? & ?). unfold fe25519_cswap. cbv zeta.
  cbn [fe_0 fe_1 fe_2 fe_3 fe_4] in *. rewrite !select_word, !select_word_r by done. by destruct b.
Qed.

(** ** Zero and parity *)

Lemma is_zero_loop b n : bytes_ok b → (n <= length b)%nat →
  ∃ d, for_range n (λ i d, x ← b.[Z.of_nat i]; Some (u8 (d |' x))) 0 = Some d ∧ is_u8 d ∧
       (d = 0 ↔ take n b = replicate n 0).
Proof.
  intros Hb Hn. apply (for_range_inv (λ n d, is_u8 d ∧ (d = 0 ↔ take n b = replicate n 0))); [done|].
  intros i d Hi [Hd Hz].
  rewrite rd_nat. destruct (lookup_lt_is_Some_2 b i) as [x Hx]; [lia|]. rewrite Hx. bind_simpl.
  eexists. split; [done|]. assert (is_u8 x) by (by apply (Forall_lookup_1 _ _ _ _ Hb Hx)).
  split; [apply u8_uint|]. rewrite u8_small by (by apply lor_uint).
  rewrite Z.lor_eq_0_iff, Hz, (take_S_r b i x) by done. rewrite replicate_S_end. split.
  - by intros [-> ->].
  - intros E. apply app_inj_2 in E as [-> E]; [|done]. split; [done|congruence].
Qed.

Lemma nonzero_flag d : is_u8 d → 1 &' ((d - 1) ≫ 8) = if d =? 0 then 1 else 0.
Proof. intros Hd. pose proof (u8_nonzero_sub d Hd). destruct (d =? 0); lia. Qed.

Lemma is_zero_eq b : bytes_ok b →
  sodium_is_zero b (Z.of_nat (length b)) = Some (if le_val b =? 0 then 1 else 0).
Proof.
  intros Hb. unfold sodium_is_zero. rewrite Nat2Z.id.
  destruct (is_zero_loop b (length b) Hb) as (d & -> & Hd & Hz); [done|]. bind_simpl.
  rewrite nonzero_flag by done. rewrite take_ge in Hz by done. rewrite <- le_val_zero in Hz by done.
  f_equal. destruct (Z.eqb_spec d 0), (Z.eqb_spec (le_val b) 0); tauto.
Qed.

Lemma fe_mod_bound f : 0 <= fe_mod f < p25519.
Proof. by apply Z.mod_pos_bound. Qed.

Lemma fe_iszero_eq f : limbs 64 f → fe25519_iszero f = Some (if fe_mod f =? 0 then 1 else 0).
Proof.
  intros Hf. unfold fe25519_iszero. rewrite fe_tobytes_eq by done. bind_simpl.
  pose proof (is_zero_eq (le_bytes 32 (fe_mod f)) (le_bytes_ok _ _)) as H.
  rewrite le_bytes_length, le_val_bytes in H; [exact H|].
  pose proof (fe_mod_bound f). unfold p25519 in *. change (8 * Z.of_nat 32) with 256. lia.
Qed.

Lemma fe_isnegative_eq f : limbs 64 f → fe25519_isnegative f = Some (fe_mod f mod 2).
Proof.
  intros Hf. unfold fe25519_isnegative. rewrite fe_tobytes_eq by done. bind_simpl.
  cbn [le_bytes]. rewrite rd_cons_0. bind_simpl. change 1 with (Z.ones 1). rewrite Z.land_ones by lia.
  change (2 ^ 1) with 2. f_equal. apply Z.mod_mod_divide. by exists 128.
Qed.

(** ** Powers *)

(** [f] stands for [z^e]. *)
Definition power (z e : Z) (f : fe25519) : Prop := limbs 53 f ∧ fe_mod f = z ^ e mod p25519.

Lemma power_mul z a b f g : 0 <= a → 0 <= b → power z a f → power z b g → power z (a + b) (fe25519_mul f g).
Proof.
  intros Ha Hb [Lf Ef] [Lg Eg]. destruct (fe_mul_eq f g Lf Lg) as [Hl Hv].
  split; [by apply (limbs_le 52)|]. by rewrite Hv, Ef, Eg, fmul_mod, Z.pow_add_r.
Qed.

Lemma power_sq z a f : 0 <= a → power z a f → power z (2 * a) (fe25519_sq f).
Proof.
  intros Ha [Lf Ef]. destruct (fe_sq_eq f Lf) as [Hl Hv].
  split; [by apply (limbs_le 52)|]. rewrite Hv, Ef, fmul_mod, <- Z.pow_add_r by done. do 2 f_equal. lia.
Qed.

Lemma power_sq_times n z a f : 0 <= a → power z a f → power z (2 ^ Z.of_nat (n - 1) * a) (sq_times n f).
Proof.
  intros Ha Hf. unfold sq_times. induction (n - 1)%nat as [|k IH].
  - change (2 ^ Z.of_nat 0) with 1. by rewrite Z.mul_1_l.
  - rewrite Nat2Z.inj_succ, Z.pow_succ_r, <- Z.mul_assoc by lia. apply power_sq; [|exact IH].
    apply Z.mul_nonneg_nonneg; [by apply Z.pow_nonneg|done].
Qed.

Lemma fe_power f : limbs 53 f → power (fe_mod f) 1 f.
Proof.
  intros Hf. split; [done|]. rewrite Z.pow_1_r. symmetry. apply Z.mod_small, fe_mod_bound.
Qed.

(** One operation of an addition chain: its exponent, computed. *)
Ltac chain_op :=
  lazymatch goal with
  | |- power _ _ (fe25519_mul _ _) => eapply power_mul; [| |eassumption|eassumption]
  | |- power _ _ (fe25519_sq _) => eapply power_sq; [|eassumption]
  | |- power _ _ (sq_times _ _) => eapply power_sq_times; [|eassumption]
  end; vm_compute; discriminate.
Ltac chain_let :=
  lazymatch goal with
  | |- power ?z ?e (let t := ?v in @?b t) =>
      let H := fresh "P" in let t := fresh "t" in
      eassert (power z _ v) as H by chain_op;
      change (power z e (b v));
      lazymatch type of H with
      | power _ ?n _ => let n' := eval vm_compute in n in change (power z n' v) in H
      end;
      revert H; generalize v; intros t H; cbv beta
  end.

Lemma fe_invert_eq z : limbs 53 z → power (fe_mod z) (p25519 - 2) (fe25519_invert z).
Proof.
  intros Hz. pose proof (fe_power z Hz) as P. cbv beta delta [fe25519_invert]. repeat chain_let.
  change (p25519 - 2) with (57896044618658097711785492504343953926634992332820282019728792003956564819936 + 11).
  by apply power_mul.
Qed.

Lemma fe_pow22523_eq z : limbs 53 z → power (fe_mod z) ((p25519 - 5) / 8) (fe25519_pow22523 z).
Proof.
  intros Hz. pose proof (fe_power z Hz) as P. cbv beta delta [fe25519_pow22523]. repeat chain_let.
  change ((p25519 - 5) / 8) with ((p25519 - 5) / 8 - 1 + 1). by apply power_mul.
Qed.

(** ** Properties *)

(** C14: the representation of field elements is closed under the operations.  From elements
    with limbs below 2^52, every operation of [fe_51] returns words within the bound its
    callers rely on (2^52 after a product, 2^53 after a sum, a difference or a negation,
    which products take again, 2^51 after reduction and decoding), and the value they
    stand for is the field's; encoding writes 32 bytes, the one reduced encoding, and
    decoding ignores the top bit. *)
Theorem field_operations_typed f g n s : limbs 52 f → limbs 52 g → 0 <= n < 2 ^ 32 →
  length s = 32%nat → bytes_ok s →
  (limbs 53 (fe25519_add f g) ∧ fe_mod (fe25519_add f g) = fadd (fe_mod f) (fe_mod g)) ∧
  (limbs 53 (fe25519_sub f g) ∧ fe_mod (fe25519_sub f g) = fsub (fe_mod f) (fe_mod g)) ∧
  (limbs 53 (fe25519_neg f) ∧ fe_mod (fe25519_neg f) = fsub 0 (fe_mod f)) ∧
  (∀ f g, limbs 53 f → limbs 53 g →
     limbs 52 (fe25519_mul f g) ∧ fe_mod (fe25519_mul f g) = fmul (fe_mod f) (fe_mod g)) ∧
  (∀ f, limbs 53 f → limbs 52 (fe25519_sq f) ∧ fe_mod (fe25519_sq f) = fmul (fe_mod f) (fe_mod f)) ∧
  (limbs 52 (fe25519_sq2 f) ∧ fe_mod (fe25519_sq2 f) = fmul 2 (fmul (fe_mod f) (fe_mod f))) ∧
  (limbs 52 (fe25519_mul32 f n) ∧ fe_mod (fe25519_mul32 f n) = fmul (fe_mod f) n) ∧
  (limbs 51 (fe25519_reduce f) ∧ fe_val (fe25519_reduce f) = fe_mod f) ∧
  (limbs 53 (fe25519_invert f) ∧ fe_mod (fe25519_invert f) = fe_mod f ^ (p25519 - 2) mod p25519) ∧
  fe25519_tobytes s f = Some (le_bytes 32 (fe_mod f)) ∧
  (∃ h, fe25519_frombytes s = Some h ∧ limbs 51 h ∧ fe_val h = le_val s mod 2 ^ 255).
Proof.
  intros Hf Hg Hn Hs Hsb.
  assert (limbs 53 f) by (by apply (limbs_le 52)). assert (limbs 54 f) by (by apply (limbs_le 52)).
  assert (limbs 54 g) by (by apply (limbs_le 52)). assert (limbs 64 f) by (by apply (limbs_le 52)).
  split; [by apply fe_add_eq|]. split; [by apply fe_sub_eq|]. split; [by apply fe_neg_eq|].
  split; [apply fe_mul_eq|]. split; [apply fe_sq_eq|]. split; [by apply fe_sq2_eq|].
  split; [by apply fe_mul32_eq|]. split; [by apply fe_reduce_eq|]. split; [by apply fe_invert_eq|].
  split; [by apply fe_tobytes_eq|by apply fe_frombytes_eq].
Qed.

Lemma field_operations_typed_witness :
  let f := mk_fe (2 ^ 52 - 1) (2 ^ 52 - 1) 5 (2 ^ 52 - 1) (2 ^ 52 - 1) in
  let g := mk_fe 0 (2 ^ 52 - 1) 7 1 (2 ^ 52 - 1) in
  let s := replicate 32 255 in
  (limbs 53 (fe25519_add f g) ∧ fe_mod (fe25519_add f g) = fadd (fe_mod f) (fe_mod g)) ∧
  (limbs 53 (fe25519_sub f g) ∧ fe_mod (fe25519_sub f g) = fsub (fe_mod f) (fe_mod g)) ∧
  (limbs 53 (fe25519_neg f) ∧ fe_mod (fe25519_neg f) = fsub 0 (fe_mod f)) ∧
  (∀ f g, limbs 53 f → limbs 53 g →
     limbs 52 (fe25519_mul f g) ∧ fe_mod (fe25519_mul f g) = fmul (fe_mod f) (fe_mod g)) ∧
  (∀ f, limbs 53 f → limbs 52 (fe25519_sq f) ∧ fe_mod (fe25519_sq f) = fmul (fe_mod f) (fe_mod f)) ∧
  (limbs 52 (fe25519_sq2 f) ∧ fe_mod (fe25519_sq2 f) = fmul 2 (fmul (fe_mod f) (fe_mod f))) ∧
  (limbs 52 (fe25519_mul32 f 121666) ∧ fe_mod (fe25519_mul32 f 121666) = fmul (fe_mod f) 121666) ∧
  (limbs 51 (fe25519_reduce f) ∧ fe_val (fe25519_reduce f) = fe_mod f) ∧
  (limbs 53 (fe25519_invert f) ∧ fe_mod (fe25519_invert f) = fe_mod f ^ (p25519 - 2) mod p25519) ∧
  fe25519_tobytes s f = Some (le_bytes 32 (fe_mod f)) ∧
  (∃ h, fe25519_frombytes s = Some h ∧ limbs 51 h ∧ fe_val h = le_val s mod 2 ^ 255).
Proof. apply field_operations_typed; [by_computation..|done|by_computation]. Defined.
