(* ===== verification/Utils.v ===== *)
(** * Byte strings as numbers, and padding ([sodium/utils.c] of libsodium)

    Constant-time comparison, increment, addition and subtraction of little-endian
    numbers, and ISO/IEC 7816-4 padding.  Each is the portable code; [uint_fast16_t]
    has 64 bits.  Numbers are compared and computed modulo [256^len]; padding and its
    removal are inverse. *)

From S2P Require Import Prelude Packet Sodium Words Poly1305 Fe25519.
Local Open Scope c_scope.

(** ** The code *)

(** One iteration of [sodium_compare], for the index [i]. *)
Definition compare_step (b1 b2 : bytes) (i : Z) (st : Z * Z) : option (Z * Z) :=
  let '(gt, eq) := st in
  x1 ← b1.[i];
  x2 ← b2.[i];
  let gt := u8 (gt |' ((u32 (x2 - x1) ≫ 8) &' eq)) in
  let eq := u8 (eq &' (u32 ((x2 ^' x1) - 1) ≫ 8)) in
  Some (gt, eq).

Definition sodium_compare (b1 b2 : bytes) (len : Z) : option Z :=
  '(gt, eq) ← for_range (Z.to_nat len) (λ j, compare_step b1 b2 (len - 1 - Z.of_nat j)) (0, 1);
  Some (gt + gt + eq - 1).

Definition sodium_increment (n : bytes) (nlen : Z) : option bytes :=
  '(n, _) ← for_range (Z.to_nat nlen) (λ i nc,
    let '(n, c) := nc in
    x ← n.[Z.of_nat i];
    let c := u64 (c + x) in
    n ← wr n (Z.of_nat i) (u8 c);
    Some (n, c ≫ 8)) (n, 1);
  Some n.

Definition sodium_add (a b : bytes) (len : Z) : option bytes :=
  '(a, _) ← for_range (Z.to_nat len) (λ i ac,
    let '(a, c) := ac in
    x ← a.[Z.of_nat i];
    y ← b.[Z.of_nat i];
    let c := u64 (c + u64 (x + y)) in
    a ← wr a (Z.of_nat i) (u8 c);
    Some (a, c ≫ 8)) (a, 0);
  Some a.

Definition sodium_sub (a b : bytes) (len : Z) : option bytes :=
  '(a, _) ← for_range (Z.to_nat len) (λ i ac,
    let '(a, c) := ac in
    x ← a.[Z.of_nat i];
    y ← b.[Z.of_nat i];
    let c := u64 (u64 (x - y) - c) in
    a ← wr a (Z.of_nat i) (u8 c);
    Some (a, (c ≫ 8) &' 1)) (a, 0);
  Some a.

(** The loop of [sodium_pad] from [tail] down. *)
Definition pad_step (xpadlen xpadded_len : Z) (i : nat) (st : bytes * Z) : option (bytes * Z) :=
  let '(buf, mask) := st in
  let barrier_mask := u8 (u64 ((Z.of_nat i ^' xpadlen) - 1) ≫ 56) in
  x ← buf.[xpadded_len - Z.of_nat i];
  buf ← wr buf (xpadded_len - Z.of_nat i) ((x &' mask) |' (0x80 &' barrier_mask));
  Some (buf, mask |' barrier_mask).

(** Returns the code, the padded length stored (if any) and the buffer. *)
Definition sodium_pad (buf : bytes) (unpadded_buflen blocksize max_buflen : Z)
    : option (Z * option Z * bytes) :=
  if blocksize <=? 0 then Some (-1, None, buf)
  else
    let xpadlen := u64 (blocksize - 1) in
    let xpadlen :=
      if (blocksize &' u64 (blocksize - 1)) =? 0
      then u64 (xpadlen - (unpadded_buflen &' u64 (blocksize - 1)))
      else u64 (xpadlen - unpadded_buflen mod blocksize) in
    if u64 (2 ^ 64 - 1 - unpadded_buflen) <=? xpadlen then None
    else
      let xpadded_len := u64 (unpadded_buflen + xpadlen) in
      if max_buflen <=? xpadded_len then Some (-1, None, buf)
      else
        '(buf, _) ← for_range (Z.to_nat blocksize) (pad_step xpadlen xpadded_len) (buf, 0);
        Some (0, Some (u64 (xpadded_len + 1)), buf).

(** The state of [sodium_unpad]'s loop: [acc], [pad_len], [valid]. *)
Definition unpad_step (buf : bytes) (tail : Z) (i : nat) (st : Z * Z * Z) : option (Z * Z * Z) :=
  let '(acc, pad_len, valid) := st in
  c ← buf.[tail - Z.of_nat i];
  let is_barrier :=
    ((u32 (acc - 1) &' u64 (pad_len - 1) &' u32 ((c ^' 0x80) - 1)) ≫ 8) &' 1 in
  let acc := acc |' c in
  let pad_len := pad_len |' (Z.of_nat i &' u64 (1 + (2 ^ 64 - 1 - is_barrier))) in
  let valid := valid |' u8 is_barrier in
  Some (acc, pad_len, valid).

Definition sodium_unpad (buf : bytes) (padded_buflen blocksize : Z) : option (Z * option Z) :=
  if (padded_buflen <? blocksize) || (blocksize <=? 0) then Some (-1, None)
  else
    '(_, pad_len, valid) ← for_range (Z.to_nat blocksize) (unpad_step buf (padded_buflen - 1)) (0, 0, 0);
    Some (s32 (valid - 1), Some (u64 (padded_buflen - 1 - pad_len))).

(** ** Comparison *)

Lemma land_1 z : z &' 1 = z mod 2.
Proof. by apply (Z.land_ones z 1). Qed.

(** Constant-time tests on bytes, by enumeration of the differences. *)
Lemma borrow_flag x1 x2 : is_u8 x1 → is_u8 x2 → ∀ e : bool,
  (u32 (x2 - x1) ≫ 8) &' Z.b2z e = Z.b2z ((x2 <? x1) && e).
Proof.
  intros H1 H2 e. unfold is_uint in *. rewrite Z.shiftr_div_pow2 by lia. unfold u32, wrap.
  destruct e; [|by rewrite Z.land_0_r, andb_false_r]. cbn [Z.b2z]. rewrite andb_true_r.
  rewrite land_1.
  destruct (Z.ltb_spec x2 x1).
  - replace ((x2 - x1) mod 2 ^ 32) with (x2 - x1 + 2 ^ 32) by (apply (Z.mod_unique _ _ (-1)); lia).
    replace ((x2 - x1 + 2 ^ 32) / 2 ^ 8) with (2 ^ 24 - 1); [done|]. apply (Z.div_unique _ _ _ (x2 - x1 + 256)); lia.
  - by rewrite (Z.mod_small (x2 - x1)), Z.div_small by lia.
Qed.

Lemma equal_flag x1 x2 : is_u8 x1 → is_u8 x2 → ∀ e : bool,
  u8 (Z.b2z e &' (u32 ((x2 ^' x1) - 1) ≫ 8)) = Z.b2z ((x1 =? x2) && e).
Proof.
  intros H1 H2 e. assert (is_u8 (x2 ^' x1)) as Hx by (by apply lxor_uint; [lia|..]).
  rewrite Z.land_comm. destruct e; [|by rewrite Z.land_0_r, andb_false_r]. cbn [Z.b2z]. rewrite andb_true_r.
  rewrite land_1, Z.shiftr_div_pow2 by lia.
  destruct (Z.eqb_spec x1 x2) as [->|Hne].
  - by rewrite Z.lxor_nilpotent.
  - assert (x2 ^' x1 ≠ 0) by (rewrite lxor_zero_iff; congruence). unfold is_uint in Hx.
    rewrite u32_small by (unfold is_uint; lia). by rewrite Z.div_small by lia.
Qed.

Lemma compare_step_eq b1 b2 i x1 x2 A B : b1 !! i = Some x1 → b2 !! i = Some x2 → is_u8 x1 → is_u8 x2 →
  compare_step b1 b2 (Z.of_nat i) (Z.b2z (B <? A), Z.b2z (A =? B)) =
    Some (Z.b2z (x2 + 256 * B <? x1 + 256 * A), Z.b2z (x1 + 256 * A =? x2 + 256 * B)).
Proof.
  intros H1 H2 U1 U2. unfold compare_step. rewrite !rd_nat, H1, H2. cbn [mbind option_bind].
  rewrite borrow_flag, equal_flag by done. unfold is_uint in *.
  replace (x1 + 256 * A =? x2 + 256 * B) with ((x1 =? x2) && (A =? B)) by lia. do 2 f_equal.
  replace (x2 + 256 * B <? x1 + 256 * A) with ((B <? A) || ((x2 <? x1) && (A =? B))) by lia.
  by destruct (B <? A), ((x2 <? x1) && (A =? B)).
Qed.

Lemma sodium_compare_eq b1 b2 : bytes_ok b1 → bytes_ok b2 → length b1 = length b2 →
  sodium_compare b1 b2 (Z.of_nat (length b1)) =
    Some (match le_val b1 ?= le_val b2 with Lt => -1 | Eq => 0 | Gt => 1 end).
Proof.
  intros H1 H2 Hl. unfold sodium_compare. rewrite Nat2Z.id. set (n := length b1) in *.
  destruct (for_range_inv (λ j st, st = (Z.b2z (le_val (drop (n - j) b2) <? le_val (drop (n - j) b1)),
      Z.b2z (le_val (drop (n - j) b1) =? le_val (drop (n - j) b2)))) n
    (λ j, compare_step b1 b2 (Z.of_nat n - 1 - Z.of_nat j)) (0, 1)) as (st & -> & ->).
  - by rewrite Nat.sub_0_r, !drop_ge by lia.
  - intros j st Hj ->. eexists. split; [|reflexivity].
    replace (Z.of_nat n - 1 - Z.of_nat j) with (Z.of_nat (n - S j)) by lia.
    destruct (lookup_lt_is_Some_2 b1 (n - S j)) as [x1 Hx1]; [lia|].
    destruct (lookup_lt_is_Some_2 b2 (n - S j)) as [x2 Hx2]; [lia|].
    rewrite (drop_S _ _ _ Hx1), (drop_S _ _ _ Hx2). replace (S (n - S j)) with (n - j)%nat by lia. cbn [le_val].
    apply compare_step_eq; [done|done|exact (Forall_lookup_1 _ _ _ _ H1 Hx1)|exact (Forall_lookup_1 _ _ _ _ H2 Hx2)].
  - cbn [mbind option_bind]. rewrite Nat.sub_diag, !drop_0. f_equal.
    destruct (Z.compare_spec (le_val b1) (le_val b2)); cbn; lia.
Qed.

(** ** Carries *)

(** A loop that rewrites the bytes of [a] in turn, [V i c] being the number left to
    write when the carry is [c]. *)
Lemma carry_loop (V : nat → Z → Z) (inv : Z → Prop) (a : bytes) c0 (body : nat → bytes * Z → option (bytes * Z)) :
  inv c0 →
  (∀ i x a' c, a !! i = Some x → a' !! i = Some x → inv c → ∃ d c',
     body i (a', c) = (a'' ← wr a' (Z.of_nat i) d; Some (a'', c')) ∧ inv c' ∧
     d = V i c mod 256 ∧ V (S i) c' = V i c / 256) →
  ∃ c, for_range (length a) body (a, c0) = Some (le_bytes (length a) (V O c0), c).
Proof.
  intros H0 Hb.
  destruct (for_range_inv (λ i st, inv st.2 ∧ ∃ pre, length pre = i ∧ st.1 = pre ++ drop i a ∧
    pre ++ le_bytes (length a - i) (V i st.2) = le_bytes (length a) (V O c0)) (length a) body (a, c0))
    as ([a' c] & -> & _ & pre & Hpl & Ha' & He).
  - split; [exact H0|]. exists []. by rewrite Nat.sub_0_r.
  - intros i [a' c] Hi (Hc & pre & Hpl & Ha' & He). cbn [fst snd] in *. subst a'.
    destruct (lookup_lt_is_Some_2 a i Hi) as [x Hx].
    rewrite (drop_S _ _ _ Hx) in *.
    destruct (Hb i x (pre ++ x :: drop (S i) a) c Hx) as (d & c' & -> & Hc' & -> & Hv);
      [by rewrite lookup_app_r, Hpl, Nat.sub_diag by lia|exact Hc|].
    replace (Z.of_nat i) with (Z.of_nat (length pre) + 0) by lia.
    rewrite wr_app_r by lia. rewrite wr_lt by (cbn [length]; lia).
    cbn [fmap option_fmap option_map mbind option_bind Z.to_nat insert list_insert].
    eexists. split; [reflexivity|]. cbn [fst snd]. split; [exact Hc'|].
    eexists (pre ++ [_]). rewrite length_app, Hpl, <- !app_assoc. cbn [app length].
    split; [lia|]. split; [reflexivity|]. rewrite <- He. f_equal.
    replace (length a - i)%nat with (S (length a - S i)) by lia. cbn [le_bytes]. by rewrite Hv.
  - cbn [fst snd] in *. exists c. do 2 f_equal. rewrite Nat.sub_diag in He. cbn [le_bytes] in He.
    by rewrite Ha', drop_all.
Qed.

Lemma le_val_drop a i x : a !! i = Some x → le_val (drop i a) = x + 256 * le_val (drop (S i) a).
Proof. intros Hx. by rewrite (drop_S _ _ _ Hx). Qed.

Lemma sodium_increment_eq n : bytes_ok n →
  sodium_increment n (Z.of_nat (length n)) = Some (le_bytes (length n) (le_val n + 1)).
Proof.
  intros Hn. unfold sodium_increment. rewrite Nat2Z.id.
  match goal with |- context [for_range _ ?body _] =>
    destruct (carry_loop (λ i c, le_val (drop i n) + c) (λ c, 0 <= c <= 1) n 1 body) as (c & ->) end; [lia| |done].
  intros i x a' c Hx Ha' Hc. pose proof (Forall_lookup_1 _ _ _ _ Hn Hx) as Hxb. unfold is_uint in Hxb.
  rewrite rd_nat, Ha'. cbn [mbind option_bind]. rewrite u64_small by (unfold is_uint; lia).
  do 2 eexists. split; [reflexivity|]. rewrite Z.shiftr_div_pow2, (le_val_drop n i x Hx) by lia.
  unfold u8, wrap. change (2 ^ 8) with 256. split_and!; div_lia.
Qed.

Lemma sodium_add_eq a b : bytes_ok a → bytes_ok b → length a = length b →
  sodium_add a b (Z.of_nat (length a)) = Some (le_bytes (length a) (le_val a + le_val b)).
Proof.
  intros Ha Hb Hl. unfold sodium_add. rewrite Nat2Z.id.
  match goal with |- context [for_range _ ?body _] =>
    destruct (carry_loop (λ i c, le_val (drop i a) + le_val (drop i b) + c) (λ c, 0 <= c <= 1) a 0 body) as (c & ->) end; [lia| |by rewrite !drop_0, Z.add_0_r].
  intros i x a' c Hx Ha' Hc. destruct (lookup_lt_is_Some_2 b i) as [y Hy]; [by apply lookup_lt_Some in Hx; lia|].
  pose proof (Forall_lookup_1 _ _ _ _ Ha Hx) as Hxb. pose proof (Forall_lookup_1 _ _ _ _ Hb Hy) as Hyb. unfold is_uint in *.
  rewrite !rd_nat, Ha', Hy. cbn [mbind option_bind]. rewrite !u64_small by (unfold is_uint; lia || (rewrite u64_small; unfold is_uint; lia)).
  do 2 eexists. split; [reflexivity|]. rewrite Z.shiftr_div_pow2, (le_val_drop a i x Hx), (le_val_drop b i y Hy) by lia.
  unfold u8, wrap. change (2 ^ 8) with 256. split_and!; div_lia.
Qed.

Lemma sodium_sub_eq a b : bytes_ok a → bytes_ok b → length a = length b →
  sodium_sub a b (Z.of_nat (length a)) = Some (le_bytes (length a) (le_val a - le_val b)).
Proof.
  intros Ha Hb Hl. unfold sodium_sub. rewrite Nat2Z.id.
  match goal with |- context [for_range _ ?body _] =>
    destruct (carry_loop (λ i c, le_val (drop i a) - le_val (drop i b) - c) (λ c, 0 <= c <= 1) a 0 body) as (c & ->) end; [lia| |by rewrite !drop_0, Z.sub_0_r].
  intros i x a' c Hx Ha' Hc. destruct (lookup_lt_is_Some_2 b i) as [y Hy]; [by apply lookup_lt_Some in Hx; lia|].
  pose proof (Forall_lookup_1 _ _ _ _ Ha Hx) as Hxb. pose proof (Forall_lookup_1 _ _ _ _ Hb Hy) as Hyb. unfold is_uint in *.
  rewrite !rd_nat, Ha', Hy. cbn [mbind option_bind].
  assert (u64 (u64 (x - y) - c) = (x - y - c) mod 2 ^ 64) as -> by (unfold u64, wrap; apply Zminus_mod_idemp_l).
  do 2 eexists. split; [reflexivity|]. rewrite land_1.
  rewrite Z.shiftr_div_pow2, (le_val_drop a i x Hx), (le_val_drop b i y Hy) by lia.
  unfold u8, wrap. change (2 ^ 8) with 256. split_and!; div_lia.
Qed.

(** Taking a number away from a sum that may have wrapped. *)
Lemma le_bytes_wrap n x y : le_bytes n (le_val (le_bytes n (x + y)) - y) = le_bytes n x.
Proof.
  assert (∀ n x, le_val (le_bytes n x) = x mod 2 ^ (8 * Z.of_nat n)) as E1.
  { clear. induction n as [|n IH]; intros x; [by rewrite Z.mod_1_r|]. cbn [le_bytes le_val]. rewrite IH.
    replace (8 * Z.of_nat (S n)) with (8 + 8 * Z.of_nat n) by lia. rewrite Z.pow_add_r by lia.
    change (2 ^ 8) with 256. by rewrite Z.rem_mul_r by lia. }
  assert (∀ x, le_bytes n x = le_bytes n (x mod 2 ^ (8 * Z.of_nat n))) as E2.
  { intros z. rewrite <- E1, le_bytes_val; [done|apply le_bytes_ok|apply le_bytes_length]. }
  rewrite E1, E2, Zminus_mod_idemp_l, <- E2. f_equal. ring.
Qed.

(** ** Padding *)

(** A power of two has one bit. *)
Lemma one_bit x : 0 < x → x &' (x - 1) = 0 → x = 2 ^ Z.log2 x.
Proof.
  intros Hx H. pose proof (Z.log2_spec x Hx) as [H1 H2]. pose proof (Z.log2_nonneg x) as Hl.
  destruct (Z.eq_dec x (2 ^ Z.log2 x)) as [|Hne]; [done|exfalso].
  assert (Z.testbit (x &' (x - 1)) (Z.log2 x) = true) as Hb; [|by rewrite H, Z.bits_0 in Hb].
  rewrite Z.land_spec, Z.bit_log2 by lia. cbn [andb].
  replace (Z.log2 x) with (Z.log2 (x - 1)); [apply Z.bit_log2; lia|].
  apply Z.log2_unique; [done|]. rewrite <- Z.add_1_r in *. lia.
Qed.

Lemma land_pred x m : 0 < x → x &' (x - 1) = 0 → m &' (x - 1) = m mod x.
Proof.
  intros Hx H. pose proof (Z.log2_nonneg x). rewrite (one_bit x Hx H) at 1 2.
  rewrite <- Z.land_ones by done. by rewrite Z.ones_equiv.
Qed.

Lemma barrier_byte i x : 0 <= i < 2 ^ 56 → 0 <= x < 2 ^ 56 →
  u8 (u64 ((i ^' x) - 1) ≫ 56) = if i =? x then 255 else 0.
Proof.
  intros Hi Hx. destruct (Z.eqb_spec i x) as [->|Hne]; [by rewrite Z.lxor_nilpotent|].
  assert (is_uint 56 (i ^' x)) as H by (by apply lxor_uint; [lia|..]).
  assert (i ^' x ≠ 0) by (by rewrite lxor_zero_iff). unfold is_uint in H.
  rewrite u64_small, Z.shiftr_div_pow2, Z.div_small by (unfold is_uint; lia). done.
Qed.

Lemma land_255 y : is_u8 y → y &' 255 = y.
Proof. intros Hy. transitivity (y mod 2 ^ 8); [by apply (Z.land_ones y 8)|by apply Z.mod_small]. Qed.

Section pad.
Variables (buf : bytes) (m x : nat).
Hypothesis (Hbuf : bytes_ok buf) (Hlen : (m + x < length buf)%nat).

Definition padded_buf : bytes := take m buf ++ 0x80 :: replicate x 0 ++ drop (m + x + 1) buf.

(** The buffer after [i] iterations. *)
Definition padding (i : nat) : bytes * Z :=
  if (i <=? x)%nat then (take (m + x + 1 - i) buf ++ replicate i 0 ++ drop (m + x + 1) buf, 0)
  else (padded_buf, 255).

Lemma padding_0 : padding 0 = (buf, 0).
Proof.
  unfold padding. cbn [Nat.leb replicate app]. by rewrite Nat.sub_0_r, take_drop.
Qed.

(** Zeros before the barrier, the barrier, and nothing after it. *)
Lemma pad_step_eq (i : nat) : Z.of_nat x < 2 ^ 56 → Z.of_nat i < 2 ^ 56 → (i <= m + x)%nat →
  pad_step (Z.of_nat x) (Z.of_nat (m + x)) i (padding i) = Some (padding (S i)).
Proof.
  intros Hx Hi Him. unfold pad_step, padding. rewrite barrier_byte by lia.
  replace (Z.of_nat (m + x) - Z.of_nat i) with (Z.of_nat (m + x - i)) by lia.
  destruct (Nat.leb_spec i x) as [Hle|Hgt].
  - destruct (lookup_lt_is_Some_2 buf (m + x - i)) as [y Hy]; [lia|].
    replace (m + x + 1 - i)%nat with (S (m + x - i)) by lia. rewrite (take_S_r _ _ _ Hy), <- app_assoc. cbn [app].
    assert (length (take (m + x - i) buf) = m + x - i)%nat as Hl by (rewrite length_take; lia).
    rewrite rd_nat, lookup_app_r, Hl, Nat.sub_diag by lia. cbn [lookup list_lookup mbind option_bind].
    replace (Z.of_nat (m + x - i)) with (Z.of_nat (length (take (m + x - i) buf)) + 0) by lia.
    rewrite wr_app_r by lia. rewrite wr_lt by (cbn [length]; lia).
    cbn [fmap option_fmap option_map mbind option_bind Z.to_nat insert list_insert]. rewrite Z.land_0_r.
    destruct (Z.eqb_spec (Z.of_nat i) (Z.of_nat x)), (Nat.leb_spec (S i) x); try lia.
    + assert (i = x) as -> by lia. unfold padded_buf. by replace (m + x - x)%nat with m by lia.
    + by replace (m + x + 1 - S i)%nat with (m + x - i)%nat by lia.
  - destruct (Nat.leb_spec (S i) x); [lia|]. destruct (Z.eqb_spec (Z.of_nat i) (Z.of_nat x)); [lia|].
    destruct (lookup_lt_is_Some_2 padded_buf (m + x - i)) as [y Hy]; [unfold padded_buf; len|].
    rewrite rd_nat, Hy. cbn [mbind option_bind]. rewrite Z.land_0_r, !Z.lor_0_r.
    assert (is_u8 y) as Hyb.
    { unfold padded_buf in Hy. rewrite lookup_app_l, lookup_take_lt in Hy by len.
      exact (Forall_lookup_1 _ _ _ _ Hbuf Hy). }
    rewrite (land_255 y Hyb).
    rewrite wr_lt by (apply lookup_lt_Some in Hy; lia). rewrite Nat2Z.id, (list_insert_id _ _ _ Hy). reflexivity.
Qed.
End pad.

(** The number of bytes up to the barrier. *)
Definition pad_bytes (m bs : Z) : Z := bs - 1 - m mod bs.

Lemma sodium_pad_eq buf m bs mx : bytes_ok buf → 0 < bs <= 2 ^ 56 → 0 <= m → m + bs < 2 ^ 64 →
  mx <= Z.of_nat (length buf) →
  sodium_pad buf m bs mx =
    if mx <=? m + pad_bytes m bs then Some (-1, None, buf)
    else Some (0, Some (m + pad_bytes m bs + 1), padded_buf buf (Z.to_nat m) (Z.to_nat (pad_bytes m bs))).
Proof.
  intros Hb Hbs Hm Hmb Hmx. unfold sodium_pad. pose proof (Z.mod_pos_bound m bs) as Hr.
  test_false (bs <=? 0). rewrite (u64_small (bs - 1)) by (unfold is_uint; lia). cbv zeta.
  assert ((if (bs &' (bs - 1)) =? 0 then u64 (bs - 1 - (m &' (bs - 1))) else u64 (bs - 1 - m mod bs)) = pad_bytes m bs) as ->.
  { unfold pad_bytes. destruct (Z.eqb_spec (bs &' (bs - 1)) 0) as [E|]; [rewrite (land_pred bs m) by (done || lia)|];
      apply u64_small; unfold is_uint; lia. }
  assert (0 <= pad_bytes m bs < bs ∧ bs <= m + pad_bytes m bs + 1) as Hp.
  { pose proof (Z.mod_le m bs). unfold pad_bytes. lia. }
  revert Hp. generalize (pad_bytes m bs). intros x Hp.
  rewrite (u64_small (2 ^ 64 - 1 - m)) by (unfold is_uint; lia). test_false (2 ^ 64 - 1 - m <=? x).
  rewrite !(u64_small (m + x)) by (unfold is_uint; lia). destruct (Z.leb_spec mx (m + x)) as [|Hlt]; [done|].
  rewrite (u64_small (m + x + 1)) by (unfold is_uint; lia).
  destruct (for_range_inv (λ i st, st = padding buf (Z.to_nat m) (Z.to_nat x) i) (Z.to_nat bs) (pad_step x (m + x)) (buf, 0))
    as (st & -> & ->).
  - symmetry. apply padding_0.
  - intros i st Hi ->. eexists. split; [|reflexivity].
    rewrite <- (pad_step_eq buf (Z.to_nat m) (Z.to_nat x)) by (done || lia). f_equal; lia.
  - cbn [mbind option_bind]. unfold padding. destruct (Nat.leb_spec (Z.to_nat bs) (Z.to_nat x)); [lia|done].
Qed.

(** ** Removing the padding *)

(** How many zeros come before a barrier byte, if one does. *)
Fixpoint barrier (l : bytes) : option nat :=
  match l with
  | [] => None
  | c :: l => if c =? 0 then S <$> barrier l else if c =? 0x80 then Some O else None
  end.

Lemma barrier_zeros k l : barrier (replicate k 0 ++ l) = Nat.add k <$> barrier l.
Proof.
  induction k as [|k IH]; [cbn; by destruct (barrier l)|]. cbn. rewrite IH. by destruct (barrier l).
Qed.

(** What the loop has found in the bytes [l] it has seen. *)
Definition unpad_state (l : bytes) (st : Z * Z * Z) : Prop :=
  let '(acc, pad_len, valid) := st in
  is_u8 acc ∧ (acc = 0 ↔ l = replicate (length l) 0) ∧
  (pad_len, valid) = match barrier l with Some k => (Z.of_nat k, 1) | None => (0, 0) end.

Lemma barrier_flag acc c pad_len : is_u8 acc → is_u8 c → (acc = 0 → pad_len = 0) →
  ((u32 (acc - 1) &' u64 (pad_len - 1) &' u32 ((c ^' 0x80) - 1)) ≫ 8) &' 1 = Z.b2z ((acc =? 0) && (c =? 0x80)).
Proof.
  intros Ha Hc Hp. rewrite land_1. unfold is_uint in Ha, Hc. destruct (Z.eqb_spec acc 0) as [->|Hne].
  - rewrite Hp by done. change (u32 (0 - 1) &' u64 (0 - 1)) with (Z.ones 32). rewrite Z.land_comm, Z.land_ones by lia.
    rewrite (Z.mod_small _ (2 ^ 32)) by apply u32_uint. rewrite Z.shiftr_div_pow2 by lia. cbn [andb].
    assert (is_u8 (c ^' 0x80)) as Hx by (by apply lxor_uint; [lia|..]). unfold is_uint in Hx.
    destruct (Z.eqb_spec c 0x80) as [->|Hne]; [done|].
    assert (c ^' 0x80 ≠ 0) by (by rewrite lxor_zero_iff).
    by rewrite u32_small, Z.div_small by (unfold is_uint; lia).
  - rewrite (u32_small (acc - 1)) by (unfold is_uint; lia). cbn [andb]. rewrite <- Z.land_assoc.
    assert (is_uint 8 ((acc - 1) &' (u64 (pad_len - 1) &' u32 ((c ^' 128) - 1)))) as Hs.
    { apply land_uint; [lia|]. unfold is_uint. lia. }
    unfold is_uint in Hs. by rewrite Z.shiftr_div_pow2, Z.div_small by lia.
Qed.

Lemma barrier_lt l k : barrier l = Some k → (k < length l)%nat.
Proof.
  revert k. induction l as [|c l IH]; intros k; cbn; [done|]. destruct (c =? 0).
  - destruct (barrier l) as [j|]; cbn; [|done]. intros [= <-]. specialize (IH j eq_refl). lia.
  - destruct (c =? 128); [|done]. intros [= <-]. lia.
Qed.

Lemma barrier_snoc l c : barrier (l ++ [c]) =
  match barrier l with
  | Some k => Some k
  | None => if bool_decide (l = replicate (length l) 0) && (c =? 0x80) then Some (length l) else None
  end.
Proof.
  induction l as [|x l IH].
  - cbn. destruct (Z.eqb_spec c 0) as [->|]; [done|]. by destruct (c =? 128).
  - cbn [app barrier length replicate]. rewrite IH. destruct (Z.eqb_spec x 0) as [->|Hne].
    + destruct (barrier l); [done|]. cbn [fmap option_fmap option_map].
      rewrite (bool_decide_ext (0 :: l = 0 :: replicate (length l) 0) (l = replicate (length l) 0))
        by (split; [by intros [= ?]|by intros <-]).
      by destruct (bool_decide _ && _).
    + destruct (x =? 128); [done|]. by rewrite bool_decide_false by congruence.
Qed.

Lemma barrier_nonzero l : l = replicate (length l) 0 → barrier l = None.
Proof. intros E. rewrite E. generalize (length l). intros k. induction k as [|k IH]; [done|]. cbn. by rewrite IH. Qed.

Lemma unpad_step_eq buf (t i : nat) l c st : (Z.of_nat i < 2 ^ 64) → (i <= t)%nat → i = length l →
  buf !! (t - i)%nat = Some c → is_u8 c → unpad_state l st →
  ∃ st', unpad_step buf (Z.of_nat t) i st = Some st' ∧ unpad_state (l ++ [c]) st'.
Proof.
  destruct st as [[acc pad_len] valid]. intros Hi Hit Hil Hc Hcb (Ha & Hz & Hs). unfold unpad_step.
  replace (Z.of_nat t - Z.of_nat i) with (Z.of_nat (t - i)) by lia. rewrite rd_nat, Hc. cbn [mbind option_bind].
  assert (acc = 0 → barrier l = None) as Hn by (intros ?%Hz; by apply barrier_nonzero).
  assert (acc = 0 → pad_len = 0) as Hp by (intros E; rewrite (Hn E) in Hs; by injection Hs).
  rewrite barrier_flag by done. eexists. split; [reflexivity|]. unfold unpad_state.
  split; [by apply lor_uint; [lia|..]|]. split.
  - rewrite Z.lor_eq_0_iff, Hz, length_app. cbn [length]. rewrite Nat.add_1_r. split.
    + intros [-> ->]. rewrite length_replicate, replicate_S_end. done.
    + rewrite replicate_S_end. intros [H1 H2]%app_inj_2; [|done]. injection H2 as ->. done.
  - rewrite barrier_snoc. rewrite (bool_decide_ext _ (acc = 0)) by (symmetry; exact Hz).
    case_bool_decide as E; [replace (acc =? 0) with true by lia|replace (acc =? 0) with false by lia]; cbn [andb].
    + rewrite (Hn E) in *. injection Hs as -> ->. destruct (c =? 128); cbn [Z.b2z].
      * change (u64 (1 + (2 ^ 64 - 1 - 1))) with (Z.ones 64). rewrite Z.lor_0_l, Z.land_ones, Z.mod_small by lia.
        by rewrite Hil.
      * by rewrite Z.land_0_r.
    + change (u64 (1 + (2 ^ 64 - 1 - Z.b2z false))) with 0. change (u8 (Z.b2z false)) with 0.
      rewrite Z.land_0_r, !Z.lor_0_r, Hs. by destruct (barrier l).
Qed.

Lemma sodium_unpad_eq buf n bs : bytes_ok buf → (0 < bs <= n)%nat → (n <= length buf)%nat → Z.of_nat n < 2 ^ 64 →
  sodium_unpad buf (Z.of_nat n) (Z.of_nat bs) =
    match barrier (take bs (reverse (take n buf))) with
    | Some k => Some (0, Some (Z.of_nat n - 1 - Z.of_nat k))
    | None => Some (-1, Some (Z.of_nat n - 1))
    end.
Proof.
  intros Hb Hbs Hn Hn64. unfold sodium_unpad. test_false ((Z.of_nat n <? Z.of_nat bs) || (Z.of_nat bs <=? 0)).
  rewrite Nat2Z.id. set (l := reverse (take n buf)). assert (length l = n) as Hl by (unfold l; len).
  destruct (for_range_inv (λ i st, unpad_state (take i l) st) bs (unpad_step buf (Z.of_nat n - 1)) (0, 0, 0))
    as ([[acc pl] v] & -> & _ & _ & Hs).
  - split; [done|]. by rewrite take_0.
  - intros i st Hi Hst. destruct (lookup_lt_is_Some_2 l i) as [c Hc]; [lia|]. rewrite (take_S_r _ _ _ Hc).
    replace (Z.of_nat n - 1) with (Z.of_nat (n - 1)) by lia.
    assert (buf !! (n - 1 - i)%nat = Some c) as Hc'.
    { unfold l in Hc. rewrite reverse_lookup in Hc by len. rewrite length_take, lookup_take_lt in Hc by len.
      rewrite <- Hc. f_equal. lia. }
    apply (unpad_step_eq buf (n - 1) i (take i l) c); [lia|lia|len|done|exact (Forall_lookup_1 _ _ _ _ Hb Hc')|done].
  - cbn [mbind option_bind]. destruct (barrier (take bs l)) as [k|] eqn:Hk; injection Hs as -> ->; [|by rewrite Z.sub_0_r, u64_small by (unfold is_uint; lia)].
    assert (k < bs)%nat by (apply barrier_lt in Hk; rewrite length_take in Hk; lia).
    rewrite u64_small by (unfold is_uint; lia). done.
Qed.

(** ** Properties *)

(** libsodium's byte strings are little-endian numbers: for strings of equal length
    [sodium_compare] returns the sign of the difference, [sodium_increment],
    [sodium_add] and [sodium_sub] compute modulo [256^len], none reads or writes outside
    the strings, and subtracting what was added gives the string back. *)
Theorem byte_string_arithmetic a b : bytes_ok a → bytes_ok b → length a = length b →
  let len := Z.of_nat (length a) in
  sodium_compare a b len = Some (match le_val a ?= le_val b with Lt => -1 | Eq => 0 | Gt => 1 end) ∧
  sodium_increment a len = Some (le_bytes (length a) (le_val a + 1)) ∧
  sodium_add a b len = Some (le_bytes (length a) (le_val a + le_val b)) ∧
  sodium_sub a b len = Some (le_bytes (length a) (le_val a - le_val b)) ∧
  (s ← sodium_add a b len; sodium_sub s b len) = Some a.
Proof.
  intros Ha Hb Hl len. split; [by apply sodium_compare_eq|]. split; [by apply sodium_increment_eq|].
  split; [by apply sodium_add_eq|]. split; [by apply sodium_sub_eq|].
  unfold len. rewrite sodium_add_eq by done. cbn [mbind option_bind].
  pose proof (sodium_sub_eq (le_bytes (length a) (le_val a + le_val b)) b (le_bytes_ok _ _) Hb) as E.
  rewrite le_bytes_length in E. rewrite E by done. f_equal.
  transitivity (le_bytes (length a) (le_val a)); [apply le_bytes_wrap|by apply le_bytes_val].
Qed.

Lemma byte_string_arithmetic_witness :
  let a := [255; 255; 255; 7] in let b := [1; 0; 255; 250] in
  sodium_compare a b 4 = Some (match le_val a ?= le_val b with Lt => -1 | Eq => 0 | Gt => 1 end) ∧
  sodium_increment a 4 = Some (le_bytes 4 (le_val a + 1)) ∧
  sodium_add a b 4 = Some (le_bytes 4 (le_val a + le_val b)) ∧
  sodium_sub a b 4 = Some (le_bytes 4 (le_val a - le_val b)) ∧
  (s ← sodium_add a b 4; sodium_sub s b 4) = Some a.
Proof. apply byte_string_arithmetic; by_computation. Defined.

(** C36: removing the padding of [sodium_pad] gives the length back.  For every message of
    [m] bytes in a buffer of [mx], the padded length is the next multiple of the block size
    above [m].  When it does not fit, [sodium_pad] fails and leaves the buffer alone; when it
    fits, [sodium_pad] succeeds and stores that length, keeps the message and what follows the
    padding, and [sodium_unpad] returns 0 and [m]. *)
Theorem padding_roundtrip buf m bs mx : bytes_ok buf → 0 < bs <= 2 ^ 56 → 0 <= m → m + bs < 2 ^ 64 →
  mx <= Z.of_nat (length buf) →
  let n := (m / bs + 1) * bs in
  m < n <= m + bs ∧
  (mx < n → sodium_pad buf m bs mx = Some (-1, None, buf)) ∧
  (n <= mx → ∃ buf', sodium_pad buf m bs mx = Some (0, Some n, buf') ∧ length buf' = length buf ∧
    take (Z.to_nat m) buf' = take (Z.to_nat m) buf ∧ drop (Z.to_nat n) buf' = drop (Z.to_nat n) buf ∧
    sodium_unpad buf' n bs = Some (0, Some m)).
Proof.
  intros Hb Hbs Hm Hmb Hmx. rewrite sodium_pad_eq by done.
  pose proof (Z.mod_pos_bound m bs) as Hr. pose proof (Z.mod_le m bs) as Hr'.
  assert ((m / bs + 1) * bs = m + pad_bytes m bs + 1) as ->.
  { unfold pad_bytes. pose proof (Z_div_mod_eq_full m bs). lia. }
  assert (0 <= pad_bytes m bs < bs ∧ bs <= m + pad_bytes m bs + 1) as Hp by (unfold pad_bytes; lia).
  revert Hp. generalize (pad_bytes m bs). cbv zeta. intros x Hp. split; [lia|].
  destruct (Z.leb_spec mx (m + x)); (split; [done || lia|]); [lia|]. intros _.
  exists (padded_buf buf (Z.to_nat m) (Z.to_nat x)). split; [done|]. unfold padded_buf.
  assert (length (take (Z.to_nat m) buf) = Z.to_nat m) as Hl by len.
  split; [len|]. split; [by rewrite take_app_length'|]. split.
  - replace (Z.to_nat (m + x + 1)) with (Z.to_nat m + S (Z.to_nat x))%nat by lia.
    rewrite drop_app_add' by done. cbn [drop]. rewrite drop_app_length' by len. f_equal. lia.
  - replace (m + x + 1) with (Z.of_nat (Z.to_nat m + S (Z.to_nat x))) by lia. rewrite <- (Z2Nat.id bs) by lia.
    rewrite sodium_unpad_eq; [| |lia|len|lia].
    + rewrite (take_app_add' (take (Z.to_nat m) buf)) by done. cbn [take]. rewrite take_app_length' by len.
      rewrite reverse_app, reverse_cons, reverse_replicate, <- app_assoc. cbn [app].
      rewrite take_app_ge by len. rewrite length_replicate, barrier_zeros.
      replace (Z.to_nat bs - Z.to_nat x)%nat with (S (Z.to_nat bs - Z.to_nat x - 1)) by lia. cbn [take barrier].
      cbn [Z.eqb Pos.eqb fmap option_fmap option_map]. do 3 f_equal. lia.
    + apply Forall_app_2; [by apply Forall_take|]. apply Forall_cons_2; [done|].
      apply Forall_app_2; [by apply Forall_replicate|by apply Forall_drop].
Qed.

Lemma padding_roundtrip_witness :
  let buf := [1; 2; 3; 4; 5; 99; 98; 97; 96; 95] in
  sodium_pad buf 5 8 7 = Some (-1, None, buf) ∧
  ∃ buf', sodium_pad buf 5 8 10 = Some (0, Some 8, buf') ∧ length buf' = length buf ∧
    take (Z.to_nat 5) buf' = take (Z.to_nat 5) buf ∧ drop (Z.to_nat 8) buf' = drop (Z.to_nat 8) buf ∧
    sodium_unpad buf' 8 8 = Some (0, Some 5).
Proof.
  intros buf. destruct (padding_roundtrip buf 5 8 7) as (_ & H1 & _); [by_computation..|].
  destruct (padding_roundtrip buf 5 8 10) as (_ & _ & H2); [by_computation..|].
  split; [by apply H1|by apply H2].
Defined.
