(* ===== verification/Curve25519.v ===== *)
(** * X25519 ([crypto_scalarmult/curve25519] of libsodium)

    The portable implementation of [x25519_ref10.c] behind [crypto_scalarmult]: the
    table of points of small order, the clamped scalar, and the ladder with its
    conditional swaps, on the field elements of [Fe25519].  [x25519] is the function
    of RFC 7748 on numbers; the code is shown to compute it.  Multiplication of the
    base point goes through precomputed Edwards points, in [Basepoint]. *)

From Stdlib Require Import Zpow_facts.
From S2P Require Import Prelude Packet Sodium Words Poly1305 Fe25519.
Local Open Scope c_scope.

(** ** The code *)

Definition blacklist : list bytes :=
  [replicate 32 0x00;
   0x01 :: replicate 31 0x00;
   [0xe0; 0xeb; 0x7a; 0x7c; 0x3b; 0x41; 0xb8; 0xae; 0x16; 0x56; 0xe3] ++
   [0xfa; 0xf1; 0x9f; 0xc4; 0x6a; 0xda; 0x09; 0x8d; 0xeb; 0x9c; 0x32] ++
   [0xb1; 0xfd; 0x86; 0x62; 0x05; 0x16; 0x5f; 0x49; 0xb8; 0x00];
   [0x5f; 0x9c; 0x95; 0xbc; 0xa3; 0x50; 0x8c; 0x24; 0xb1; 0xd0; 0xb1] ++
   [0x55; 0x9c; 0x83; 0xef; 0x5b; 0x04; 0x44; 0x5c; 0xc4; 0x58; 0x1c] ++
   [0x8e; 0x86; 0xd8; 0x22; 0x4e; 0xdd; 0xd0; 0x9f; 0x11; 0x57];
   0xec :: replicate 30 0xff ++ [0x7f];
   0xed :: replicate 30 0xff ++ [0x7f];
   0xee :: replicate 30 0xff ++ [0x7f]].

(** [for (i = 0; i < 7; i++) c[i] |= x ^ blacklist[i][j];] *)
Definition compare_column (table : list bytes) (x : Z) (j : Z) (c : bytes) : option bytes :=
  for_range 7 (λ i c,
    row ← table.[Z.of_nat i]; y ← row.[j]; ci ← c.[Z.of_nat i];
    wr c (Z.of_nat i) (u8 (ci |' (x ^' y)))) c.

(** The comparison with a table of seven encodings; the code is the same in
    [ge25519_has_small_order], with its own table. *)
Definition scan_table (table : list bytes) (s : bytes) : option Z :=
  c ← for_range 31 (λ j c, x ← s.[Z.of_nat j]; compare_column table x (Z.of_nat j) c) (replicate 7 0);
  x ← s.[31];
  c ← compare_column table (x &' 0x7f) 31 c;
  k ← for_range 7 (λ i k, ci ← c.[Z.of_nat i]; Some (k |' u32 (ci - 1))) 0;
  Some ((k ≫ 8) &' 1).

Definition has_small_order (s : bytes) : option Z := scan_table blacklist s.

Record ladder_state := mk_ladder {
  l_x2 : fe25519; l_z2 : fe25519; l_x3 : fe25519; l_z3 : fe25519; l_swap : Z
}.

(** The two conditional swaps. *)
Definition swap_points (st : ladder_state) (swap : Z) : ladder_state :=
  let '(x2, x3) := fe25519_cswap (l_x2 st) (l_x3 st) swap in
  let '(z2, z3) := fe25519_cswap (l_z2 st) (l_z3 st) swap in
  mk_ladder x2 z2 x3 z3 swap.

(** The body of the loop after the swaps. *)
Definition ladder_arith (x1 : fe25519) (b : Z) (st : ladder_state) : ladder_state :=
  let swap := b in
  let tmp0 := fe25519_sub (l_x3 st) (l_z3 st) in
  let tmp1 := fe25519_sub (l_x2 st) (l_z2 st) in
  let x2 := fe25519_add (l_x2 st) (l_z2 st) in
  let z2 := fe25519_add (l_x3 st) (l_z3 st) in
  let z3 := fe25519_mul tmp0 x2 in
  let z2 := fe25519_mul z2 tmp1 in
  let tmp0 := fe25519_sq tmp1 in
  let tmp1 := fe25519_sq x2 in
  let x3 := fe25519_add z3 z2 in
  let z2 := fe25519_sub z3 z2 in
  let x2 := fe25519_mul tmp1 tmp0 in
  let tmp1 := fe25519_sub tmp1 tmp0 in
  let z2 := fe25519_sq z2 in
  let z3 := fe25519_mul32 tmp1 121666 in
  let x3 := fe25519_sq x3 in
  let tmp0 := fe25519_add tmp0 z3 in
  let z3 := fe25519_mul x1 z2 in
  let z2 := fe25519_mul tmp1 tmp0 in
  mk_ladder x2 z2 x3 z3 swap.

(** The body of the loop, for the bit [b]. *)
Definition ladder_body (x1 : fe25519) (b : Z) (st : ladder_state) : ladder_state :=
  let swap := l_swap st ^' b in
  let st := swap_points st swap in
  ladder_arith x1 b st.

(** [n] copied to [t], [t[0] &= 248; t[31] &= 127; t[31] |= 64;] *)
Definition clamp_scalar (t n : bytes) : option bytes :=
  t ← copy_in t 0 n 0 32;
  x ← t.[0]; t ← wr t 0 (x &' 248);
  x ← t.[31]; t ← wr t 31 (x &' 127);
  x ← t.[31]; wr t 31 (x |' 64).

(** Iteration [i] of the loop over the bits of [t], from bit 254 down. *)
Definition ladder_iteration (t : bytes) (x1 : fe25519) (i : nat) (st : ladder_state)
    : option ladder_state :=
  let pos := 254 - Z.of_nat i in
  x ← t.[pos / 8];
  let b := x ≫ (pos &' 7) in
  let b := b &' 1 in
  Some (ladder_body x1 b st).

Definition crypto_scalarmult_curve25519_ref10 (q n p : bytes) : option (Z * bytes) :=
  small ← has_small_order p;
  if negb (small =? 0) then Some (-1, q)
  else
    t ← clamp_scalar (replicate 32 0) n;
    x1 ← fe25519_frombytes p;
    st ← for_range 255 (ladder_iteration t x1)
         (mk_ladder fe25519_1 fe25519_0 (fe25519_copy x1) fe25519_1 0);
    let st := swap_points st (l_swap st) in
    let z2 := fe25519_invert (l_z2 st) in
    let x2 := fe25519_mul (l_x2 st) z2 in
    q ← fe25519_tobytes q x2;
    Some (0, q).

Definition crypto_scalarmult_curve25519 (q n p : bytes) : option (Z * bytes) :=
  '(rc, q) ← crypto_scalarmult_curve25519_ref10 q n p;
  if negb (rc =? 0) then Some (-1, q)
  else
    d ← for_range 32 (λ i d, x ← q.[Z.of_nat i]; Some (u8 (d |' x))) 0;
    Some (- (1 &' ((d - 1) ≫ 8)), q).

(** ** RFC 7748, section 5 *)

(** One step of the ladder on the projective coordinates of two points whose
    difference has the coordinate [x1]: the double of the first, and the sum. *)
Definition ladder_step (x1 : Z) (P Q : Z * Z) : (Z * Z) * (Z * Z) :=
  let '(x2, z2) := P in
  let '(x3, z3) := Q in
  let A := fadd x2 z2 in let AA := fmul A A in
  let B := fsub x2 z2 in let BB := fmul B B in
  let E := fsub AA BB in
  let C := fadd x3 z3 in let D := fsub x3 z3 in
  let DA := fmul D A in let CB := fmul C B in
  let s := fadd DA CB in let d := fsub DA CB in
  ((fmul AA BB, fmul E (fadd AA (fmul 121665 E))), (fmul s s, fmul x1 (fmul d d))).

(** For a bit that is set the roles of the points are exchanged. *)
Definition ladder_bit (x1 : Z) (b : bool) (PQ : (Z * Z) * (Z * Z)) : (Z * Z) * (Z * Z) :=
  let '(P, Q) := PQ in
  if b then let '(Q, P) := ladder_step x1 Q P in (P, Q) else ladder_step x1 P Q.

Definition ladder (k u : Z) (n : nat) : (Z * Z) * (Z * Z) :=
  foldl (λ PQ i, ladder_bit u (Z.testbit k (254 - Z.of_nat i)) PQ) ((1, 0), (u, 1)) (seq 0 n).

Definition finv (z : Z) : Z := Zpow_mod z (p25519 - 2) p25519.

Definition x25519 (k u : Z) : Z :=
  let '((x2, z2), _) := ladder k u 255 in fmul x2 (finv z2).

(** The scalar with its three low bits and bit 255 cleared and bit 254 set. *)
Definition decode_scalar (n : bytes) : Z := 2 ^ 254 + 8 * ((le_val n / 8) mod 2 ^ 251).
(** The coordinate, without the top bit. *)
Definition decode_u (p : bytes) : Z := (le_val p mod 2 ^ 255) mod p25519.

(** The u-coordinates of the points of order 1, 2, 4 and 8, of the curve and its twist. *)
Definition small_order : list Z :=
  [0; 1; 325606250916557431795983626356110631294008115727848805560023387167927233504;
   39382357235489614581723060781553021112529911719440698176882885853963445705823; p25519 - 1].

(** ** Points of small order *)

(** A loop that updates an array in place. *)
Lemma for_range_imap (g : nat → Z → Z) (body : nat → bytes → option bytes) (c : bytes) n : length c = n →
  (∀ i c' x, (i < n)%nat → length c' = n → c' !! i = Some x → body i c' = wr c' (Z.of_nat i) (g i x)) →
  for_range n body c = Some (imap g c).
Proof.
  intros <- Hbody.
  destruct (for_range_inv (λ i c', c' = imap g (take i c) ++ drop i c) (length c) body c) as (c' & -> & ->).
  - by rewrite take_0, drop_0.
  - intros i c' Hi ->. destruct (lookup_lt_is_Some_2 c i Hi) as [x Hx].
    assert (length (imap g (take i c)) = i) as Hl by (rewrite length_imap, length_take; lia).
    rewrite (drop_S c x i Hx). erewrite Hbody; [|done|rewrite length_app, Hl; cbn [length]; rewrite length_drop; lia|].
    2: { rewrite lookup_app_r, Hl, Nat.sub_diag by lia. done. }
    rewrite wr_lt by (rewrite length_app, Hl; cbn [length]; lia). rewrite Nat2Z.id. eexists. split; [done|].
    rewrite insert_app_r_alt, Hl, Nat.sub_diag by lia. cbn [insert list_insert].
    rewrite (take_S_r c i x Hx), imap_app, length_take. cbn [imap].
    replace (i `min` length c + 0)%nat with i by lia. by rewrite <- app_assoc.
  - by rewrite take_ge, drop_ge, app_nil_r by lia.
Qed.

(** [s] with the top bit of its last byte cleared. *)
Definition clear_top (s : bytes) : bytes := take 31 s ++ [default 0 (s !! 31%nat) &' 0x7f].

Lemma clear_top_val s : length s = 32%nat → bytes_ok s →
  length (clear_top s) = 32%nat ∧ bytes_ok (clear_top s) ∧ le_val (clear_top s) = le_val s mod 2 ^ 255.
Proof.
  intros Hl Hs. destruct (lookup_lt_is_Some_2 s 31) as [x Hx]; [lia|]. unfold clear_top. rewrite Hx. cbn [default from_option id].
  assert (is_u8 x) as Hxb by (by apply (Forall_lookup_1 _ _ _ _ Hs Hx)).
  change 0x7f with (Z.ones 7). rewrite Z.land_ones by lia. split; [rewrite length_app, length_take, Hl; done|].
  split. { apply Forall_app_2; [by apply Forall_take|]. apply Forall_singleton. unfold is_uint in *. div_lia. }
  assert (s = take 31 s ++ [x]) as E by (rewrite <- (take_S_r s 31 x Hx); by rewrite take_ge by lia).
  rewrite E at 2. rewrite !le_val_app. rewrite length_take, Hl. cbn [le_val].
  pose proof (le_val_bound (take 31 s) (Forall_take _ _ _ Hs)) as Hb. rewrite length_take, Hl in Hb.
  change (8 * Z.of_nat (31 `min` 32)) with 248 in *. change (2 ^ 255) with (2 ^ 248 * 2 ^ 7).
  rewrite Z.rem_mul_r by lia. rewrite !Z.mul_0_r, !Z.add_0_r, !(Z.mul_comm (2 ^ 248)), Z_mod_plus_full.
  rewrite Z.div_add, (Z.div_small (le_val (take 31 s))), Z.add_0_l, (Z.mod_small (le_val (take 31 s))) by lia. done.
Qed.

Lemma small_flag (c : bytes) : length c = 7%nat → bytes_ok c →
  ∃ k, for_range 7 (λ i k, ci ← c.[Z.of_nat i]; Some (k |' u32 (ci - 1))) 0 = Some k ∧
       (k ≫ 8) &' 1 = if bool_decide (0 ∈ c) then 1 else 0.
Proof.
  intros Hl Hc.
  destruct (for_range_inv (λ n k, Z.testbit k 8 = bool_decide (0 ∈ take n c)) 7
    (λ i k, ci ← c.[Z.of_nat i]; Some (k |' u32 (ci - 1))) 0) as (k & Hk & Hb).
  - done.
  - intros i k Hi Hk. rewrite rd_nat. destruct (lookup_lt_is_Some_2 c i) as [x Hx]; [lia|].
    rewrite Hx. bind_simpl. eexists. split; [done|]. rewrite Z.lor_spec, Hk, (take_S_r c i x Hx).
    assert (is_u8 x) as Hxb by (by apply (Forall_lookup_1 _ _ _ _ Hc Hx)). unfold is_uint in Hxb.
    assert (Z.testbit (u32 (x - 1)) 8 = bool_decide (x = 0)) as ->.
    { destruct (decide (x = 0)) as [->|E]; [done|]. rewrite bool_decide_false by done.
      apply (uint_bit_high 8); [lia| |lia].
      rewrite u32_small; unfold is_uint; lia. }
    rewrite <- bool_decide_or. apply bool_decide_ext. rewrite elem_of_app, list_elem_of_singleton.
    by split; (intros [H|H]; [by left|by right]).
  - exists k. split; [done|]. rewrite take_ge in Hb by lia. rewrite <- Hb.
    change 1 with (Z.ones 1) at 1. rewrite Z.land_ones by lia. change (2 ^ 1) with 2.
    rewrite <- Z.bit0_mod, Z.shiftr_spec by lia. change (0 + 8) with 8. by destruct (Z.testbit k 8).
Qed.

(** *** The table of encodings *)

Section table.
Variables (table : list bytes).
Hypothesis (H7 : length table = 7%nat) (Hshape : Forall (λ row, length row = 32%nat ∧ bytes_ok row) table).

Definition cell (i j : nat) : Z := default 0 (default [] (table !! i) !! j).

Lemma compare_column_eq x j c : length c = 7%nat → (j < 32)%nat →
  compare_column table x (Z.of_nat j) c = Some (imap (λ i ci, u8 (ci |' (x ^' cell i j))) c).
Proof.
  intros Hc Hj. unfold compare_column. apply (for_range_imap (λ i ci, u8 (ci |' (x ^' cell i j)))); [done|].
  intros i c' y Hi Hl Hy. rewrite (rd_nat table).
  destruct (lookup_lt_is_Some_2 table i) as [row Hrow]; [lia|]. rewrite Hrow. bind_simpl.
  destruct (Forall_lookup_1 _ _ _ _ Hshape Hrow) as [Hrl _].
  rewrite (rd_nat row). destruct (lookup_lt_is_Some_2 row j) as [z Hz]; [lia|]. rewrite Hz. bind_simpl.
  rewrite (rd_nat c'), Hy. bind_simpl. unfold cell. rewrite Hrow. cbn [default from_option id]. by rewrite Hz.
Qed.

(** Which rows the first [j] bytes of [s] agree with. *)
Definition agrees (s : bytes) (j : nat) (i : nat) (ci : Z) : Prop :=
  is_u8 ci ∧ (ci = 0 ↔ take j s = take j (default [] (table !! i))).

Lemma row_lookup i j : (i < 7)%nat → (j < 32)%nat →
  default [] (table !! i) !! j = Some (cell i j) ∧ is_u8 (cell i j).
Proof.
  intros Hi Hj. destruct (lookup_lt_is_Some_2 table i) as [row Hrow]; [lia|].
  destruct (Forall_lookup_1 _ _ _ _ Hshape Hrow) as [Hrl Hrb].
  destruct (lookup_lt_is_Some_2 row j) as [z Hz]; [lia|]. unfold cell. rewrite Hrow. cbn [default from_option id].
  rewrite Hz. split; [done|]. by apply (Forall_lookup_1 _ _ _ _ Hrb Hz).
Qed.

Lemma agrees_step s j i ci x : (i < 7)%nat → (j < 32)%nat → s !! j = Some x → is_u8 x →
  agrees s j i ci → agrees s (S j) i (u8 (ci |' (x ^' cell i j))).
Proof.
  intros Hi Hj Hx Hxb [Hc Hz]. destruct (row_lookup i j Hi Hj) as [Hr Hrb].
  split; [apply u8_uint|]. rewrite u8_small by (apply lor_uint; [lia|done|by apply lxor_uint; [lia|..]]).
  rewrite Z.lor_eq_0_iff, lxor_zero_iff, Hz, (take_S_r s j x), (take_S_r _ j (cell i j)) by done. split.
  - by intros [-> ->].
  - intros E. apply app_inj_2 in E as [-> E]; [|done]. split; [done|congruence].
Qed.

Lemma agrees_columns s j c : (j < 32)%nat → length c = 7%nat → bytes_ok s →
  (∀ i ci, c !! i = Some ci → agrees s j i ci) → (j < length s)%nat →
  ∃ x c', s !! j = Some x ∧ compare_column table x (Z.of_nat j) c = Some c' ∧ length c' = 7%nat ∧
    (∀ i ci, c' !! i = Some ci → agrees s (S j) i ci).
Proof.
  intros Hj Hc Hs Hag Hl. destruct (lookup_lt_is_Some_2 s j Hl) as [x Hx].
  eexists x, _. split; [done|]. split; [by apply compare_column_eq|]. split; [by rewrite length_imap|].
  intros i ci Hi. rewrite list_lookup_imap in Hi. apply fmap_Some in Hi as (y & Hy & ->).
  apply lookup_lt_Some in Hy as Hlt. apply agrees_step; [lia|done|done| |by apply Hag].
  by apply (Forall_lookup_1 _ _ _ _ Hs Hx).
Qed.

Lemma scan_table_eq s : length s = 32%nat → bytes_ok s →
  scan_table table s = Some (if bool_decide (clear_top s ∈ table) then 1 else 0).
Proof.
  intros Hl Hs. unfold scan_table.
  destruct (for_range_inv (λ j c, length c = 7%nat ∧ ∀ i ci, c !! i = Some ci → agrees s j i ci) 31
    (λ j c, x ← s.[Z.of_nat j]; compare_column table x (Z.of_nat j) c) (replicate 7 0)) as (c & -> & Hc & Hag).
  - split; [done|]. intros i ci [-> _]%lookup_replicate. by split.
  - intros j c Hj [Hc Hag]. destruct (agrees_columns s j c) as (x & c' & Hx & Hcol & Hc' & Hag'); [lia|done..|lia|].
    rewrite rd_nat, Hx. bind_simpl. by exists c'.
  - bind_simpl. destruct (lookup_lt_is_Some_2 s 31) as [x Hx]; [lia|].
    change (s.[31]) with (s.[Z.of_nat 31]). rewrite rd_nat, Hx. bind_simpl.
    destruct (clear_top_val s Hl Hs) as (Hl' & Hs' & _).
    assert (clear_top s !! 31%nat = Some (x &' 0x7f)) as Hx'.
    { unfold clear_top. rewrite Hx, lookup_app_r by (rewrite length_take; lia). by rewrite length_take, Hl. }
    destruct (agrees_columns (clear_top s) 31 c) as (y & c' & Hy & Hcol & Hc' & Hag'); [lia|done|done| |lia|].
    { intros i ci Hi. destruct (Hag i ci Hi) as [Hu Hz]. split; [done|]. rewrite Hz. unfold clear_top.
      rewrite take_app_le by (rewrite length_take; lia). by rewrite take_take. }
    rewrite Hx' in Hy. injection Hy as <-. change 31 with (Z.of_nat 31) at 1. rewrite Hcol. bind_simpl.
    destruct (small_flag c' Hc') as (k & -> & Hk).
    { apply Forall_lookup_2. intros i ci Hi. by destruct (Hag' i ci Hi). }
    bind_simpl. rewrite Hk. rewrite (bool_decide_ext (0 ∈ c') (clear_top s ∈ table)); [done|].
    rewrite !list_elem_of_lookup. split.
    + intros [i Hi]. exists i. destruct (Hag' i 0 Hi) as [_ [Hz _]]. apply lookup_lt_Some in Hi as Hlt.
      destruct (lookup_lt_is_Some_2 table i) as [row Hrow]; [lia|].
      destruct (Forall_lookup_1 _ _ _ _ Hshape Hrow) as [Hrl _]. specialize (Hz eq_refl).
      rewrite Hrow in *. cbn [default from_option id] in Hz. rewrite !take_ge in Hz by lia. congruence.
    + intros [i Hi]. apply lookup_lt_Some in Hi as Hlt. 
      destruct (lookup_lt_is_Some_2 c' i) as [ci Hci]; [lia|]. exists i. rewrite Hci. f_equal.
      apply (Hag' i ci Hci). by rewrite Hi.
Qed.
End table.

Lemma blacklist_shape : length blacklist = 7%nat ∧ Forall (λ row, length row = 32%nat ∧ bytes_ok row) blacklist.
Proof. split; [done|by_computation]. Qed.

Lemma has_small_order_eq s : length s = 32%nat → bytes_ok s →
  has_small_order s = Some (if bool_decide (clear_top s ∈ blacklist) then 1 else 0).
Proof. destruct blacklist_shape as [H7 Hs]. by apply scan_table_eq. Qed.

(** In numbers: the blacklist is the list of encodings of the small-order coordinates. *)
Lemma blacklist_values s : length s = 32%nat → bytes_ok s →
  clear_top s ∈ blacklist ↔ decode_u s ∈ small_order.
Proof.
  intros Hl Hs. destruct (clear_top_val s Hl Hs) as (Hl' & Hs' & Hv). unfold decode_u. rewrite <- Hv.
  assert (0 <= le_val (clear_top s) < 2 ^ 255) as Hb by (rewrite Hv; apply Z.mod_pos_bound; lia).
  assert (clear_top s ∈ blacklist ↔ le_val (clear_top s) ∈ (le_val <$> blacklist)) as ->.
  { rewrite list_elem_of_fmap. split; [by eexists|]. intros (row & Hrow & Hin).
    pose proof (proj2 blacklist_shape) as Hsh. rewrite Forall_forall in Hsh. destruct (Hsh row Hin) as [Hrl Hrb].
    rewrite <- (le_bytes_val 32 (clear_top s)), Hrow, le_bytes_val by done. done. }
  set (v := le_val (clear_top s)) in *. clearbody v. clear Hl Hs Hl' Hs' Hv s.
  replace (le_val <$> blacklist) with [0; 1;
    325606250916557431795983626356110631294008115727848805560023387167927233504;
    39382357235489614581723060781553021112529911719440698176882885853963445705823;
    p25519 - 1; p25519; p25519 + 1] by reflexivity.
  assert (v mod p25519 = if v <? p25519 then v else v - p25519) as ->.
  { unfold p25519 in *. destruct (Z.ltb_spec v (2 ^ 255 - 19)); [by rewrite Z.mod_small by lia|].
    rewrite <- (Z_mod_plus_full v (-1)), Z.mod_small; lia. }
  unfold small_order. rewrite !elem_of_cons, !elem_of_nil. unfold p25519 in *.
  destruct (Z.ltb_spec v (2 ^ 255 - 19)); lia.
Qed.

(** ** The scalar *)

Lemma byte_cases (P : Z → bool) : forallb P (seqZ 0 256) = true → ∀ x, is_u8 x → P x = true.
Proof.
  intros H x Hx. rewrite forallb_forall in H. apply H. apply list_elem_of_In, elem_of_seqZ. unfold is_uint in Hx. lia.
Qed.

Lemma clamp_low x : is_u8 x → x &' 248 = 8 * (x / 8).
Proof.
  intros Hx. apply Z.eqb_eq. revert x Hx. apply byte_cases. by vm_compute.
Qed.
Lemma clamp_high x : is_u8 x → (x &' 127) |' 64 = 64 + x mod 64.
Proof.
  intros Hx. apply Z.eqb_eq. revert x Hx. apply byte_cases. by vm_compute.
Qed.

Lemma clamp_scalar_eq t0 n : length t0 = 32%nat → length n = 32%nat → bytes_ok n →
  ∃ t, clamp_scalar t0 n = Some t ∧
  length t = 32%nat ∧ bytes_ok t ∧ le_val t = decode_scalar n.
Proof.
  intros Ht0 Hl Hn. unfold clamp_scalar. rewrite copy_in_eq by lia.
  change (Z.to_nat 32) with 32%nat. change (Z.to_nat 0) with 0%nat. rewrite drop_0, take_ge by lia.
  pose proof (blit_0 n t0 [] ltac:(lia)) as Hb.
  rewrite !app_nil_r in Hb. rewrite Hb. bind_simpl. clear Hb.
  destruct n as [|x0 n]; [done|]. destruct n as [|xl mid _] using rev_ind; [done|].
  cbn [length] in Hl. rewrite length_app in Hl. cbn [length] in Hl.
  apply Forall_cons in Hn as [H0 Hn]. apply Forall_app in Hn as [Hm H31]. rewrite Forall_singleton in H31.
  assert (length mid = 30%nat) as Hml by lia.
  rewrite rd_cons_0. bind_simpl. rewrite wr_lt by (cbn [length]; lia). bind_simpl.
  change (Z.to_nat 0) with 0%nat. cbn [insert list_insert].
  assert (∀ a b, (a :: mid ++ [b]).[31] = Some b) as Hrd.
  { intros a b. change 31 with (Z.of_nat 31). rewrite rd_nat, app_comm_cons.
    rewrite lookup_app_r; cbn [length]; [|lia]. by rewrite Hml. }
  assert (∀ a b v, wr (a :: mid ++ [b]) 31 v = Some (a :: mid ++ [v])) as Hwr.
  { intros a b v. rewrite wr_lt by (cbn [length]; rewrite length_app; cbn [length]; lia).
    rewrite app_comm_cons, insert_app_r_alt; change (Z.to_nat 31) with 31%nat; cbn [length]; [|lia].
    by rewrite Hml. }
  rewrite Hrd. bind_simpl. rewrite Hwr. bind_simpl. rewrite Hrd. bind_simpl. rewrite Hwr.
  rewrite clamp_low, clamp_high by done. eexists. split; [done|]. unfold is_uint in *.
  split. { cbn [length]. rewrite length_app. cbn [length]. lia. } split.
  { apply Forall_cons_2; [unfold is_uint; div_lia|]. apply Forall_app_2; [done|].
    apply Forall_singleton. unfold is_uint. div_lia. }
  unfold decode_scalar. cbn [le_val]. rewrite !le_val_app, Hml. cbn [le_val].
  pose proof (le_val_bound mid Hm) as HM. rewrite Hml in HM. change (8 * Z.of_nat 30) with 240 in *.
  set (M := le_val mid) in *. clearbody M. div_lia.
Qed.

Lemma le_val_testbit b i x r : bytes_ok b → b !! i = Some x → 0 <= r < 8 →
  Z.testbit (le_val b) (8 * Z.of_nat i + r) = Z.testbit x r.
Proof.
  intros Hb Hi Hr. pose proof (lookup_lt_Some _ _ _ Hi) as Hlt.
  pose proof (le_val_part b i 1 Hb ltac:(lia)) as E. rewrite (drop_S b x i Hi) in E.
  cbn [take le_val] in E. change (8 * Z.of_nat 1) with 8 in E.
  rewrite Z.mul_0_r, Z.add_0_r in E. rewrite E.
  rewrite Z.mod_pow2_bits_low, Z.div_pow2_bits by lia. f_equal. lia.
Qed.

(** The bit of the scalar the loop extracts. *)
Lemma scalar_bit t pos : length t = 32%nat → bytes_ok t → 0 <= pos < 256 →
  ∃ x, t.[pos / 8] = Some x ∧ (x ≫ (pos &' 7)) &' 1 = Z.b2z (Z.testbit (le_val t) pos).
Proof.
  intros Hl Ht Hp. destruct (lookup_lt_is_Some_2 t (Z.to_nat (pos / 8))) as [x Hx]; [div_lia|].
  exists x. split.
  - replace (pos / 8) with (Z.of_nat (Z.to_nat (pos / 8))) by div_lia. by rewrite rd_nat.
  - change 7 with (Z.ones 3). rewrite Z.land_ones by lia. change (2 ^ 3) with 8.
    change 1 with (Z.ones 1). rewrite Z.land_ones by lia. change (2 ^ 1) with 2.
    rewrite <- Z.bit0_mod, Z.shiftr_spec, Z.add_0_l by lia. f_equal.
    rewrite <- (le_val_testbit t (Z.to_nat (pos / 8)) x) by (done || div_lia). f_equal. div_lia.
Qed.

(** ** The ladder *)

Definition ladder_limbs (st : ladder_state) : Prop :=
  limbs 52 (l_x2 st) ∧ limbs 52 (l_z2 st) ∧ limbs 52 (l_x3 st) ∧ limbs 52 (l_z3 st).

(** The points a state stands for. *)
Definition points (st : ladder_state) : (Z * Z) * (Z * Z) :=
  ((fe_mod (l_x2 st), fe_mod (l_z2 st)), (fe_mod (l_x3 st), fe_mod (l_z3 st))).

Definition exchange {A} (b : bool) (PQ : A * A) : A * A := if b then (PQ.2, PQ.1) else PQ.

Lemma exchange_twice {A} b c (PQ : A * A) : exchange b (exchange c PQ) = exchange (xorb b c) PQ.
Proof. by destruct b, c, PQ. Qed.

Lemma limbs_64 k t : 0 <= k <= 64 → limbs k t → limbs 64 t.
Proof. by apply limbs_le. Qed.
Lemma limbs_53 t : limbs 52 t → limbs 53 t.
Proof. by apply limbs_le. Qed.
Lemma limbs_54 t : limbs 52 t → limbs 54 t.
Proof. by apply limbs_le. Qed.

Lemma swap_points_eq st (b : bool) : ladder_limbs st →
  ladder_limbs (swap_points st (Z.b2z b)) ∧
  points (swap_points st (Z.b2z b)) = exchange b (points st).
Proof.
  intros (H1 & H2 & H3 & H4). unfold swap_points.
  rewrite !fe_cswap_eq by (by apply (limbs_64 52)). by destruct b.
Qed.

(** Subtracting 121666 instead of 121665 times, from the other square. *)
Lemma a24_identity AA BB : let E := fsub AA BB in
  fadd BB (fmul E 121666) = fadd AA (fmul 121665 E).
Proof.
  cbv zeta. unfold fadd, fmul, fsub.
  enough (eqp (BB + ((AA - BB) mod p25519 * 121666) mod p25519)
    (AA + (121665 * ((AA - BB) mod p25519)) mod p25519)) as H by exact H.
  rewrite (eqp_mod (_ * 121666)), (eqp_mod (121665 * _)), (eqp_mod (AA - BB)).
  replace (BB + (AA - BB) * 121666) with (AA + 121665 * (AA - BB)) by ring. done.
Qed.

Lemma ladder_arith_eq x1 b st : limbs 52 x1 → ladder_limbs st →
  ladder_limbs (ladder_arith x1 b st) ∧ l_swap (ladder_arith x1 b st) = b ∧
  points (ladder_arith x1 b st) = ladder_step (fe_mod x1) (points st).1 (points st).2.
Proof.
  intros Hx1 (H1 & H2 & H3 & H4). destruct st as [x2 z2 x3 z3 sw].
  cbn [l_x2 l_z2 l_x3 l_z3] in *. unfold ladder_arith, ladder_limbs, points.
  cbn [l_x2 l_z2 l_x3 l_z3 l_swap fst snd].
  destruct (fe_sub_eq x3 z3 H3 (limbs_54 _ H4)) as [LD ED]. set (D := fe25519_sub x3 z3) in *.
  destruct (fe_sub_eq x2 z2 H1 (limbs_54 _ H2)) as [LB EB]. set (B := fe25519_sub x2 z2) in *.
  destruct (fe_add_eq x2 z2 H1 H2) as [LA EA]. set (A := fe25519_add x2 z2) in *.
  destruct (fe_add_eq x3 z3 H3 H4) as [LC EC]. set (C := fe25519_add x3 z3) in *.
  clearbody A B C D.
  destruct (fe_mul_eq D A LD LA) as [LDA EDA]. set (DA := fe25519_mul D A) in *.
  destruct (fe_mul_eq C B LC LB) as [LCB ECB]. set (CB := fe25519_mul C B) in *.
  destruct (fe_sq_eq B LB) as [LBB EBB]. set (BB := fe25519_sq B) in *.
  destruct (fe_sq_eq A LA) as [LAA EAA]. set (AA := fe25519_sq A) in *.
  clearbody DA CB BB AA.
  destruct (fe_add_eq DA CB LDA LCB) as [Ls Es]. set (s := fe25519_add DA CB) in *.
  destruct (fe_sub_eq DA CB LDA (limbs_54 _ LCB)) as [Ld Ed]. set (d := fe25519_sub DA CB) in *.
  destruct (fe_mul_eq AA BB (limbs_53 _ LAA) (limbs_53 _ LBB)) as [Lx2 Ex2].
  destruct (fe_sub_eq AA BB LAA (limbs_54 _ LBB)) as [LE EE]. set (E := fe25519_sub AA BB) in *.
  clearbody s d E.
  destruct (fe_sq_eq d Ld) as [Ldd Edd]. destruct (fe_sq_eq s Ls) as [Lss Ess].
  destruct (fe_mul32_eq E 121666 LE ltac:(lia)) as [Lm Em].
  destruct (fe_add_eq BB (fe25519_mul32 E 121666) LBB Lm) as [Lf Ef].
  destruct (fe_mul_eq x1 (fe25519_sq d) (limbs_53 _ Hx1) (limbs_53 _ Ldd)) as [Lz3 Ez3].
  destruct (fe_mul_eq E _ LE Lf) as [Lz2 Ez2].
  split; [done|]. split; [done|]. unfold ladder_step.
  rewrite Ex2, Ez2, Ef, Em, Ess, Ez3, Edd, Es, Ed, EDA, ECB, EE, a24_identity, EAA, EBB, EA, EB, EC, ED.
  done.
Qed.

Lemma ladder_body_eq x1 st (s b : bool) PQ : limbs 52 x1 → ladder_limbs st →
  l_swap st = Z.b2z s → points st = exchange s PQ →
  let st' := ladder_body x1 (Z.b2z b) st in
  ladder_limbs st' ∧ l_swap st' = Z.b2z b ∧ points st' = exchange b (ladder_bit (fe_mod x1) b PQ).
Proof.
  intros Hx1 Hl Hs Hp. cbv zeta. unfold ladder_body. rewrite Hs.
  replace (Z.b2z s ^' Z.b2z b) with (Z.b2z (xorb s b)) by (by destruct s, b).
  destruct (swap_points_eq st (xorb s b) Hl) as [Hl' Hp'].
  destruct (ladder_arith_eq x1 (Z.b2z b) _ Hx1 Hl') as (Ha & Hb & Hc).
  split; [done|]. split; [done|]. rewrite Hc, Hp', Hp, exchange_twice.
  replace (xorb (xorb s b) s) with b by (by destruct s, b). destruct PQ as [P Q].
  unfold ladder_bit, exchange. destruct b; cbn [fst snd]; [|done]. by destruct (ladder_step _ Q P).
Qed.

Lemma ladder_S k u n :
  ladder k u (S n) = ladder_bit u (Z.testbit k (254 - Z.of_nat n)) (ladder k u n).
Proof. unfold ladder. by rewrite seq_S, foldl_app. Qed.

Lemma ladder_loop t x1 : length t = 32%nat → bytes_ok t → limbs 51 x1 →
  ∃ st (s : bool),
    for_range 255 (ladder_iteration t x1)
      (mk_ladder fe25519_1 fe25519_0 (fe25519_copy x1) fe25519_1 0) = Some st ∧
    ladder_limbs st ∧ l_swap st = Z.b2z s ∧
    points st = exchange s (ladder (le_val t) (fe_mod x1) 255).
Proof.
  intros Hl Ht Hx. assert (limbs 52 x1) as Hx1 by (by eapply limbs_le; [|done]).
  edestruct (for_range_inv (λ n st, ladder_limbs st ∧ ∃ s : bool, l_swap st = Z.b2z s ∧
    points st = exchange s (ladder (le_val t) (fe_mod x1) n)) 255) as (st & Hrun & Hst & s & Hs & Hp).
  3: { exists st, s. split; [exact Hrun|]. done. }
  - split; [by split_and!|]. by exists false.
  - intros n st Hn (Hst & s & Hs & Hp). unfold ladder_iteration.
    destruct (scalar_bit t (254 - Z.of_nat n) Hl Ht) as (x & -> & Hb); [lia|]. bind_simpl. rewrite Hb.
    eexists. split; [done|]. rewrite ladder_S.
    destruct (ladder_body_eq x1 st s (Z.testbit (le_val t) (254 - Z.of_nat n)) _ Hx1 Hst Hs Hp)
      as (H1 & H2 & H3). split; [done|]. by eexists.
Qed.

(** The inverse, as RFC 7748 computes it. *)
Lemma fe_invert_finv z : limbs 53 z →
  limbs 53 (fe25519_invert z) ∧ fe_mod (fe25519_invert z) = finv (fe_mod z).
Proof.
  intros Hz. destruct (fe_invert_eq z Hz) as [Hl ->]. split; [done|]. unfold finv.
  by rewrite Zpow_mod_correct.
Qed.

Lemma ref10_eq q n p : length q = 32%nat → length n = 32%nat → bytes_ok n → length p = 32%nat → bytes_ok p →
  crypto_scalarmult_curve25519_ref10 q n p =
    Some (if bool_decide (decode_u p ∈ small_order) then (-1, q)
          else (0, le_bytes 32 (x25519 (decode_scalar n) (decode_u p)))).
Proof.
  intros Hq Hn Hnb Hp Hpb. unfold crypto_scalarmult_curve25519_ref10.
  rewrite has_small_order_eq by done. bind_simpl.
  rewrite (bool_decide_ext _ _ (blacklist_values p Hp Hpb)).
  case_bool_decide as Hs; [done|]. change (negb (0 =? 0)) with false. cbn iota.
  destruct (clamp_scalar_eq (replicate 32 0) n eq_refl Hn Hnb) as (t & -> & Htl & Htb & Htv). bind_simpl.
  destruct (fe_frombytes_eq p Hp Hpb) as (x1 & -> & Hx1 & Hv). bind_simpl.
  destruct (ladder_loop t x1 Htl Htb Hx1) as (st & s & -> & Hst & Hsw & Hpt). bind_simpl.
  destruct (swap_points_eq st s Hst) as [Hst' Hpt']. rewrite Hsw.
  rewrite Hpt, exchange_twice, xorb_nilpotent, Htv in Hpt'. cbn [exchange] in Hpt'.
  replace (fe_mod x1) with (decode_u p) in Hpt' by (unfold decode_u, fe_mod; by rewrite Hv).
  set (st' := swap_points st (Z.b2z s)) in *. clearbody st'. destruct Hst' as (L1 & L2 & _ & _).
  destruct (fe_invert_finv (l_z2 st') (limbs_53 _ L2)) as [Li Ei].
  destruct (fe_mul_eq (l_x2 st') _ (limbs_53 _ L1) Li) as [Lm Em].
  rewrite fe_tobytes_eq; [|exact Hq|by apply (limbs_64 52)]. bind_simpl.
  rewrite Em, Ei. unfold x25519. rewrite <- Hpt'. done.
Qed.

Lemma x25519_bound k u : 0 <= x25519 k u < p25519.
Proof.
  unfold x25519. destruct (ladder _ _ _) as [[x2 z2] ?]. apply Z.mod_pos_bound, p25519_pos.
Qed.

(** The result is refused when it is zero. *)
Lemma curve25519_eq q n p :
  length q = 32%nat → length n = 32%nat → bytes_ok n → length p = 32%nat → bytes_ok p →
  let r := x25519 (decode_scalar n) (decode_u p) in
  crypto_scalarmult_curve25519 q n p =
    Some (if bool_decide (decode_u p ∈ small_order) then (-1, q)
          else (if r =? 0 then -1 else 0, le_bytes 32 r)).
Proof.
  intros Hq Hn Hnb Hp Hpb. cbv zeta. unfold crypto_scalarmult_curve25519.
  rewrite ref10_eq by done. bind_simpl. case_bool_decide; [done|]. change (negb (0 =? 0)) with false. cbn iota.
  pose proof (x25519_bound (decode_scalar n) (decode_u p)) as Hr. set (r := x25519 _ _) in *.
  destruct (is_zero_loop (le_bytes 32 r) 32 (le_bytes_ok _ _)) as (d & -> & Hd & Hz);
    [by rewrite le_bytes_length|]. bind_simpl. rewrite nonzero_flag by done.
  rewrite take_ge in Hz by (by rewrite le_bytes_length).
  assert (le_bytes 32 r = replicate 32 0 ↔ r = 0) as E.
  { pose proof (le_val_zero (le_bytes 32 r) (le_bytes_ok _ _)) as E.
    rewrite le_bytes_length, le_val_bytes in E; [by rewrite E|].
    change (8 * Z.of_nat 32) with 256. unfold p25519 in Hr. lia. }
  rewrite E in Hz. destruct (Z.eqb_spec d 0), (Z.eqb_spec r 0); done || tauto.
Qed.

(** ** Properties *)

(** C15: libsodium's X25519 computes the function of RFC 7748: for every scalar and every
    point, [crypto_scalarmult_curve25519] runs without undefined behaviour; if the
    coordinate, without its top bit and reduced, is that of a point of small order it
    fails and leaves the output alone; otherwise the output is the reduced little-endian
    encoding of the ladder's result for the clamped scalar, and the return value is -1
    exactly when that result is zero. *)
Theorem curve25519_rfc7748 q n p :
  length q = 32%nat → length n = 32%nat → bytes_ok n → length p = 32%nat → bytes_ok p →
  let r := x25519 (decode_scalar n) (decode_u p) in
  crypto_scalarmult_curve25519 q n p =
    Some (if bool_decide (decode_u p ∈ small_order) then (-1, q)
          else (if r =? 0 then -1 else 0, le_bytes 32 r)).
Proof. intros Hq Hn Hnb Hp Hpb r. by rewrite curve25519_eq. Qed.

(** The first vector of RFC 7748, 5.2. *)
Definition rfc_scalar : bytes :=
  [0xa5; 0x46; 0xe3; 0x6b; 0xf0; 0x52; 0x7c; 0x9d; 0x3b; 0x16; 0x15; 0x4b; 0x82; 0x46; 0x5e; 0xdd;
   0x62; 0x14; 0x4c; 0x0a; 0xc1; 0xfc; 0x5a; 0x18; 0x50; 0x6a; 0x22; 0x44; 0xba; 0x44; 0x9a; 0xc4].
Definition rfc_point : bytes :=
  [0xe6; 0xdb; 0x68; 0x67; 0x58; 0x30; 0x30; 0xdb; 0x35; 0x94; 0xc1; 0xa4; 0x24; 0xb1; 0x5f; 0x7c;
   0x72; 0x66; 0x24; 0xec; 0x26; 0xb3; 0x35; 0x3b; 0x10; 0xa9; 0x03; 0xa6; 0xd0; 0xab; 0x1c; 0x4c].

Lemma curve25519_rfc7748_witness :
  let r := x25519 (decode_scalar rfc_scalar) (decode_u rfc_point) in
  crypto_scalarmult_curve25519 (replicate 32 0) rfc_scalar rfc_point =
    Some (if bool_decide (decode_u rfc_point ∈ small_order) then (-1, replicate 32 0)
          else (if r =? 0 then -1 else 0, le_bytes 32 r)).
Proof. by apply curve25519_rfc7748; try by_computation. Defined.

(** The order-8 point is refused, with the top bit set or not. *)
Example small_order_refused :
  crypto_scalarmult_curve25519 [7] rfc_scalar
    [0xe0; 0xeb; 0x7a; 0x7c; 0x3b; 0x41; 0xb8; 0xae; 0x16; 0x56; 0xe3;
     0xfa; 0xf1; 0x9f; 0xc4; 0x6a; 0xda; 0x09; 0x8d; 0xeb; 0x9c; 0x32;
     0xb1; 0xfd; 0x86; 0x62; 0x05; 0x16; 0x5f; 0x49; 0xb8; 0x80] = Some (-1, [7]).
Proof. by vm_compute. Qed.
