(* ===== verification/Ge25519.v ===== *)
(** * Points of the Edwards curve ([ed25519/ref10/ed25519_ref10.c] of libsodium)

    The four representations of a point and the operations the multiplication of the
    base point uses: addition of a precomputed point, doubling, conversions, the choice
    of a table entry without branching, and the signed digits of a scalar.  The
    operations are shown to compute the addition and doubling of RFC 8032, 5.1.4. *)

From Stdlib Require Import Zpow_facts.
From S2P Require Import Prelude Packet Sodium Words Poly1305 Fe25519 Curve25519.
Local Open Scope c_scope.

(** ** The code *)

Record ge25519_p2 := mk_p2 { p2_X : fe25519; p2_Y : fe25519; p2_Z : fe25519 }.
Record ge25519_p3 := mk_p3 { p3_X : fe25519; p3_Y : fe25519; p3_Z : fe25519; p3_T : fe25519 }.
Record ge25519_p1p1 :=
  mk_p1p1 { p1p1_X : fe25519; p1p1_Y : fe25519; p1p1_Z : fe25519; p1p1_T : fe25519 }.
Record ge25519_precomp :=
  mk_precomp { yplusx : fe25519; yminusx : fe25519; xy2d : fe25519 }.

Definition ge25519_p3_0 : ge25519_p3 := mk_p3 fe25519_0 fe25519_1 fe25519_1 fe25519_0.
Definition ge25519_precomp_0 : ge25519_precomp := mk_precomp fe25519_1 fe25519_1 fe25519_0.

Definition ge25519_madd (p : ge25519_p3) (q : ge25519_precomp) : ge25519_p1p1 :=
  let X := fe25519_add (p3_Y p) (p3_X p) in
  let Y := fe25519_sub (p3_Y p) (p3_X p) in
  let Z := fe25519_mul X (yplusx q) in
  let Y := fe25519_mul Y (yminusx q) in
  let T := fe25519_mul (xy2d q) (p3_T p) in
  let t0 := fe25519_add (p3_Z p) (p3_Z p) in
  let X := fe25519_sub Z Y in
  let Y := fe25519_add Z Y in
  let Z := fe25519_add t0 T in
  let T := fe25519_sub t0 T in
  mk_p1p1 X Y Z T.

Definition ge25519_p1p1_to_p2 (p : ge25519_p1p1) : ge25519_p2 :=
  mk_p2 (fe25519_mul (p1p1_X p) (p1p1_T p)) (fe25519_mul (p1p1_Y p) (p1p1_Z p))
    (fe25519_mul (p1p1_Z p) (p1p1_T p)).

Definition ge25519_p1p1_to_p3 (p : ge25519_p1p1) : ge25519_p3 :=
  mk_p3 (fe25519_mul (p1p1_X p) (p1p1_T p)) (fe25519_mul (p1p1_Y p) (p1p1_Z p))
    (fe25519_mul (p1p1_Z p) (p1p1_T p)) (fe25519_mul (p1p1_X p) (p1p1_Y p)).

Definition ge25519_p2_dbl (p : ge25519_p2) : ge25519_p1p1 :=
  let X := fe25519_sq (p2_X p) in
  let Z := fe25519_sq (p2_Y p) in
  let T := fe25519_sq2 (p2_Z p) in
  let Y := fe25519_add (p2_X p) (p2_Y p) in
  let t0 := fe25519_sq Y in
  let Y := fe25519_add Z X in
  let Z := fe25519_sub Z X in
  let X := fe25519_sub t0 Y in
  let T := fe25519_sub T Z in
  mk_p1p1 X Y Z T.

Definition ge25519_p3_to_p2 (p : ge25519_p3) : ge25519_p2 :=
  mk_p2 (fe25519_copy (p3_X p)) (fe25519_copy (p3_Y p)) (fe25519_copy (p3_Z p)).

Definition ge25519_p3_dbl (p : ge25519_p3) : ge25519_p1p1 :=
  let q := ge25519_p3_to_p2 p in
  ge25519_p2_dbl q.

(** Conversion to [signed char]. *)
Definition s8 (x : Z) : Z := let y := u8 x in if y <? 2 ^ 7 then y else y - 2 ^ 8.

Definition equal (b c : Z) : Z :=
  let ub := u8 b in
  let uc := u8 c in
  let x := ub ^' uc in
  let y := u32 (x - 1) in
  y ≫ 31.

Definition negative (b : Z) : Z := u64 b ≫ 63.

Definition ge25519_cmov (t u : ge25519_precomp) (b : Z) : ge25519_precomp :=
  mk_precomp (fe25519_cmov (yplusx t) (yplusx u) b) (fe25519_cmov (yminusx t) (yminusx u) b)
    (fe25519_cmov (xy2d t) (xy2d u) b).

Definition ge25519_cmov8 (precomp : list ge25519_precomp) (b : Z) : option ge25519_precomp :=
  let bnegative := negative b in
  let babs := u8 (b - ((- bnegative) &' b) * (1 ≪ 1)) in
  let t := ge25519_precomp_0 in
  u ← precomp.[0]; let t := ge25519_cmov t u (equal (s8 babs) 1) in
  u ← precomp.[1]; let t := ge25519_cmov t u (equal (s8 babs) 2) in
  u ← precomp.[2]; let t := ge25519_cmov t u (equal (s8 babs) 3) in
  u ← precomp.[3]; let t := ge25519_cmov t u (equal (s8 babs) 4) in
  u ← precomp.[4]; let t := ge25519_cmov t u (equal (s8 babs) 5) in
  u ← precomp.[5]; let t := ge25519_cmov t u (equal (s8 babs) 6) in
  u ← precomp.[6]; let t := ge25519_cmov t u (equal (s8 babs) 7) in
  u ← precomp.[7]; let t := ge25519_cmov t u (equal (s8 babs) 8) in
  let minust := mk_precomp (fe25519_copy (yminusx t)) (fe25519_copy (yplusx t)) (fe25519_neg (xy2d t)) in
  Some (ge25519_cmov t minust bnegative).

(** The two loops over [e] at the start of [ge25519_scalarmult_base]. *)
Definition split_digits (a : bytes) : option (list Z) :=
  for_range 32 (λ i e,
    x ← a.[Z.of_nat i];
    e ← wr e (2 * Z.of_nat i) (s8 ((x ≫ 0) &' 15));
    wr e (2 * Z.of_nat i + 1) (s8 ((x ≫ 4) &' 15))) (replicate 64 0).

Definition carry_digits (e : list Z) : option (list Z) :=
  '(e, carry) ← for_range 63 (λ i ec,
    let '(e, carry) := ec in
    x ← e.[Z.of_nat i];
    let x := s8 (x + carry) in
    let carry := s8 (x + 8) in
    let carry := carry ≫ 4 in
    e ← wr e (Z.of_nat i) (s8 (x - carry * (1 ≪ 4)));
    Some (e, carry)) (e, 0);
  x ← e.[63];
  wr e 63 (s8 (x + carry)).

(** ** RFC 8032, 5.1.4 *)

(** Extended coordinates: [x = X/Z], [y = Y/Z], [x*y = T/Z]. *)
Record epoint := mk_e { eX : Z; eY : Z; eZ : Z; eT : Z }.

Definition ed_d : Z := 37095705934669439343138083508754565189542113879843219016388785533085940283555.

Definition ed_add (P Q : epoint) : epoint :=
  let A := fmul (fsub (eY P) (eX P)) (fsub (eY Q) (eX Q)) in
  let B := fmul (fadd (eY P) (eX P)) (fadd (eY Q) (eX Q)) in
  let C := fmul (fmul (fmul (eT P) 2) ed_d) (eT Q) in
  let D := fmul (fmul (eZ P) 2) (eZ Q) in
  let E := fsub B A in
  let F := fsub D C in
  let G := fadd D C in
  let H := fadd B A in
  mk_e (fmul E F) (fmul G H) (fmul F G) (fmul E H).

Definition ed_dbl (P : epoint) : epoint :=
  let A := fmul (eX P) (eX P) in
  let B := fmul (eY P) (eY P) in
  let C := fmul 2 (fmul (eZ P) (eZ P)) in
  let H := fadd A B in
  let E := fsub H (fmul (fadd (eX P) (eY P)) (fadd (eX P) (eY P))) in
  let G := fsub A B in
  let F := fadd C G in
  mk_e (fmul E F) (fmul G H) (fmul F G) (fmul E H).

(** The neutral element, and an affine point. *)
Definition ed_zero : epoint := mk_e 0 1 1 0.
Definition ed_affine (x y : Z) : epoint := mk_e x y 1 (fmul x y).

(** The same coordinates with the other sign, which are the same point. *)
Definition resigned (P : epoint) : epoint :=
  mk_e (fsub 0 (eX P)) (fsub 0 (eY P)) (fsub 0 (eZ P)) (fsub 0 (eT P)).

Lemma ed_dbl_resigned P : ed_dbl (resigned P) = ed_dbl P.
Proof.
  destruct P as [X Y W T]. unfold ed_dbl, resigned. cbn [eX eY eZ eT].
  f_equal; field_ring.
Qed.

Lemma ed_add_resigned P Q : ed_add (resigned P) Q = ed_add P Q.
Proof.
  destruct P as [X Y W T], Q as [X' Y' W' T']. unfold ed_add, resigned. cbn [eX eY eZ eT].
  f_equal; field_ring.
Qed.

(** ** The operations *)

Definition p3_limbs (p : ge25519_p3) : Prop :=
  limbs 52 (p3_X p) ∧ limbs 52 (p3_Y p) ∧ limbs 52 (p3_Z p) ∧ limbs 52 (p3_T p).
Definition p3_val (p : ge25519_p3) : epoint :=
  mk_e (fe_mod (p3_X p)) (fe_mod (p3_Y p)) (fe_mod (p3_Z p)) (fe_mod (p3_T p)).

(** A point without its last coordinate. *)
Definition p2_is (p : ge25519_p2) (P : epoint) : Prop :=
  (limbs 52 (p2_X p) ∧ limbs 52 (p2_Y p) ∧ limbs 52 (p2_Z p)) ∧
  fe_mod (p2_X p) = eX P ∧ fe_mod (p2_Y p) = eY P ∧ fe_mod (p2_Z p) = eZ P.

(** A completed point: the four factors of the coordinates. *)
Definition p1p1_is (r : ge25519_p1p1) (x y z t : Z) : Prop :=
  (limbs 54 (p1p1_X r) ∧ limbs 54 (p1p1_Y r) ∧ limbs 54 (p1p1_Z r) ∧ limbs 54 (p1p1_T r)) ∧
  fe_mod (p1p1_X r) = x ∧ fe_mod (p1p1_Y r) = y ∧ fe_mod (p1p1_Z r) = z ∧ fe_mod (p1p1_T r) = t.

(** A precomputed point with affine coordinates [x] and [y]. *)
Definition stands (q : ge25519_precomp) (x y : Z) : Prop :=
  (limbs 52 (yplusx q) ∧ limbs 52 (yminusx q) ∧ limbs 53 (xy2d q)) ∧
  fe_mod (yplusx q) = fadd y x ∧ fe_mod (yminusx q) = fsub y x ∧
  fe_mod (xy2d q) = fmul (fmul 2 ed_d) (fmul x y).

Lemma limbs_53_54 t : limbs 53 t → limbs 54 t.
Proof. by apply limbs_le. Qed.

Lemma to_p3_eq r x y z t : p1p1_is r x y z t →
  p3_limbs (ge25519_p1p1_to_p3 r) ∧
  p3_val (ge25519_p1p1_to_p3 r) = mk_e (fmul x t) (fmul y z) (fmul z t) (fmul x y).
Proof.
  intros [(LX & LY & LZ & LT) (<- & <- & <- & <-)]. destruct r as [X Y W T]. cbn [p1p1_X p1p1_Y p1p1_Z p1p1_T] in *.
  destruct (fe_mul54_eq X T LX LT) as [L1 E1]. destruct (fe_mul54_eq Y W LY LZ) as [L2 E2].
  destruct (fe_mul54_eq W T LZ LT) as [L3 E3]. destruct (fe_mul54_eq X Y LX LY) as [L4 E4].
  unfold p3_limbs, p3_val, ge25519_p1p1_to_p3. cbn [p1p1_X p1p1_Y p1p1_Z p1p1_T p3_X p3_Y p3_Z p3_T].
  rewrite E1, E2, E3, E4. split; [|reflexivity]. split; [exact L1|]. split; [exact L2|]. split; [exact L3|exact L4].
Qed.

Lemma to_p2_eq r x y z t : p1p1_is r x y z t →
  p2_is (ge25519_p1p1_to_p2 r) (mk_e (fmul x t) (fmul y z) (fmul z t) (fmul x y)).
Proof.
  intros Hr. destruct (to_p3_eq r x y z t Hr) as [(L1 & L2 & L3 & _) E].
  unfold p3_val, ge25519_p1p1_to_p3 in *. cbn [p3_X p3_Y p3_Z p3_T] in *.
  injection E as E1 E2 E3 _. split; [split; [exact L1|split; [exact L2|exact L3]]|].
  unfold ge25519_p1p1_to_p2. cbn [p2_X p2_Y p2_Z eX eY eZ]. rewrite E1, E2, E3. auto.
Qed.

(** Adding a precomputed point, through any entry that is [x + y], [y - x], [2dxy]. *)
Lemma madd_is p q x y : p3_limbs p → stands q x y →
  let P := p3_val p in
  p1p1_is (ge25519_madd p q)
    (fsub (fmul (fadd (eY P) (eX P)) (fadd y x)) (fmul (fsub (eY P) (eX P)) (fsub y x)))
    (fadd (fmul (fadd (eY P) (eX P)) (fadd y x)) (fmul (fsub (eY P) (eX P)) (fsub y x)))
    (fadd (fadd (eZ P) (eZ P)) (fmul (fmul (fmul 2 ed_d) (fmul x y)) (eT P)))
    (fsub (fadd (eZ P) (eZ P)) (fmul (fmul (fmul 2 ed_d) (fmul x y)) (eT P))).
Proof.
  destruct p as [X Y W T], q as [a b c]. intros (LX & LY & LW & LT) [(La & Lb & Lc) (Ea & Eb & Ec)].
  cbn [p3_X p3_Y p3_Z p3_T yplusx yminusx xy2d] in *. unfold p3_val, ge25519_madd.
  cbn [p3_X p3_Y p3_Z p3_T yplusx yminusx xy2d eX eY eZ eT]. rewrite <- Ea, <- Eb, <- Ec. clear Ea Eb Ec x y.
  destruct (fe_add_eq Y X LY LX) as [L1 <-]. set (f1 := fe25519_add Y X) in *.
  destruct (fe_sub_eq Y X LY (limbs_54 _ LX)) as [L2 <-]. set (f2 := fe25519_sub Y X) in *. clearbody f1 f2.
  destruct (fe_mul_eq f1 a L1 (limbs_53 _ La)) as [L3 <-]. set (f3 := fe25519_mul f1 a) in *.
  destruct (fe_mul_eq f2 b L2 (limbs_53 _ Lb)) as [L4 <-]. set (f4 := fe25519_mul f2 b) in *.
  destruct (fe_mul_eq c T Lc (limbs_53 _ LT)) as [L5 <-]. set (f5 := fe25519_mul c T) in *.
  destruct (fe_add_eq W W LW LW) as [L6 <-]. set (f6 := fe25519_add W W) in *. clearbody f3 f4 f5 f6.
  destruct (fe_sub_eq f3 f4 L3 (limbs_54 _ L4)) as [L7 <-]. destruct (fe_add_eq f3 f4 L3 L4) as [L8 <-].
  destruct (fe_add53_eq f6 f5 L6 (limbs_53 _ L5)) as [L9 <-].
  destruct (fe_sub53_eq f6 f5 L6 (limbs_54 _ L5)) as [L10 <-].
  split; [|split; [|split; [|split]]; reflexivity]. cbn [p1p1_X p1p1_Y p1p1_Z p1p1_T].
  split; [by apply limbs_53_54|]. split; [by apply limbs_53_54|]. split; [exact L9|exact L10].
Qed.

Lemma madd_eq p q x y : p3_limbs p → stands q x y →
  p3_limbs (ge25519_p1p1_to_p3 (ge25519_madd p q)) ∧
  p3_val (ge25519_p1p1_to_p3 (ge25519_madd p q)) = ed_add (p3_val p) (ed_affine x y).
Proof.
  intros Hp Hq. destruct (to_p3_eq _ _ _ _ _ (madd_is p q x y Hp Hq)) as [Hl ->]. split; [exact Hl|].
  destruct (p3_val p) as [X Y W T]. unfold ed_add, ed_affine. cbn [eX eY eZ eT]. f_equal; field_ring.
Qed.

Lemma dbl_is p P : p2_is p P →
  let A := fmul (eX P) (eX P) in let B := fmul (eY P) (eY P) in
  let S := fadd (eX P) (eY P) in
  p1p1_is (ge25519_p2_dbl p) (fsub (fmul S S) (fadd B A)) (fadd B A) (fsub B A)
    (fsub (fmul 2 (fmul (eZ P) (eZ P))) (fsub B A)).
Proof.
  destruct p as [X Y W]. intros [(LX & LY & LW) (<- & <- & <-)]. cbn [p2_X p2_Y p2_Z] in *.
  unfold ge25519_p2_dbl. cbn [p2_X p2_Y p2_Z]. cbv zeta.
  destruct (fe_sq_eq X (limbs_53 _ LX)) as [L1 <-]. set (f1 := fe25519_sq X) in *.
  destruct (fe_sq_eq Y (limbs_53 _ LY)) as [L2 <-]. set (f2 := fe25519_sq Y) in *.
  destruct (fe_sq2_eq W (limbs_53 _ LW)) as [L3 <-]. set (f3 := fe25519_sq2 W) in *.
  destruct (fe_add_eq X Y LX LY) as [L4 <-]. set (f4 := fe25519_add X Y) in *. clearbody f1 f2 f3 f4.
  destruct (fe_sq_eq f4 L4) as [L5 <-]. set (f5 := fe25519_sq f4) in *.
  destruct (fe_add_eq f2 f1 L2 L1) as [L6 <-]. set (f6 := fe25519_add f2 f1) in *.
  destruct (fe_sub_eq f2 f1 L2 (limbs_54 _ L1)) as [L7 <-]. set (f7 := fe25519_sub f2 f1) in *.
  clearbody f5 f6 f7.
  destruct (fe_sub_eq f5 f6 L5 (limbs_53_54 _ L6)) as [L8 <-].
  destruct (fe_sub_eq f3 f7 L3 (limbs_53_54 _ L7)) as [L9 <-].
  split; [|split; [|split; [|split]]; reflexivity]. cbn [p1p1_X p1p1_Y p1p1_Z p1p1_T].
  split; [by apply limbs_53_54|]. split; [by apply limbs_53_54|]. split; by apply limbs_53_54.
Qed.

(** Doubling gives the coordinates of RFC 8032 with the other sign. *)
Lemma dbl_coordinates P :
  let A := fmul (eX P) (eX P) in let B := fmul (eY P) (eY P) in
  let S := fadd (eX P) (eY P) in
  let x := fsub (fmul S S) (fadd B A) in let y := fadd B A in let z := fsub B A in
  let t := fsub (fmul 2 (fmul (eZ P) (eZ P))) (fsub B A) in
  mk_e (fmul x t) (fmul y z) (fmul z t) (fmul x y) = resigned (ed_dbl P).
Proof.
  destruct P as [X Y W T]. unfold resigned, ed_dbl. cbn [eX eY eZ eT]. cbv zeta.
  assert (∀ a b, fsub 0 (fmul a b) = fmul (-1) (fmul a b)) as E.
  { intros a b. enough (eqp (0 - fmul a b) (-1 * fmul a b)) as H by exact H. apply eq_eqp. ring. }
  rewrite !E. f_equal; field_ring.
Qed.

Lemma dbl_p2 p P : p2_is p P → p2_is (ge25519_p1p1_to_p2 (ge25519_p2_dbl p)) (resigned (ed_dbl P)).
Proof. intros Hp. rewrite <- dbl_coordinates. by apply to_p2_eq, dbl_is. Qed.

Lemma dbl_p3 p P : p2_is p P →
  p3_limbs (ge25519_p1p1_to_p3 (ge25519_p2_dbl p)) ∧
  p3_val (ge25519_p1p1_to_p3 (ge25519_p2_dbl p)) = resigned (ed_dbl P).
Proof. intros Hp. rewrite <- dbl_coordinates. by apply to_p3_eq, dbl_is. Qed.

Lemma p3_to_p2_is p : p3_limbs p → p2_is (ge25519_p3_to_p2 p) (p3_val p).
Proof. intros (L1 & L2 & L3 & _). done. Qed.

(** ** Choosing a table entry *)

Definition precomp_limbs (q : ge25519_precomp) : Prop :=
  limbs 52 (yplusx q) ∧ limbs 52 (yminusx q) ∧ limbs 52 (xy2d q).

(** [b] times the point whose first eight multiples are in [row]. *)
Definition chosen (row : list ge25519_precomp) (b : Z) : ge25519_precomp :=
  let t := if b =? 0 then ge25519_precomp_0
           else default ge25519_precomp_0 (row !! Z.to_nat (Z.abs b - 1)) in
  if b <? 0 then mk_precomp (yminusx t) (yplusx t) (fe25519_neg (xy2d t)) else t.

Lemma cmov_eq t u (b : bool) : precomp_limbs t → 
  limbs 52 (yplusx u) ∧ limbs 52 (yminusx u) ∧ limbs 53 (xy2d u) →
  ge25519_cmov t u (Z.b2z b) = if b then u else t.
Proof.
  destruct t as [t1 t2 t3], u as [u1 u2 u3]. intros (A1 & A2 & A3) (B1 & B2 & B3).
  cbn [yplusx yminusx xy2d] in *. unfold ge25519_cmov. cbn [yplusx yminusx xy2d].
  rewrite (fe_cmov_eq t1 u1), (fe_cmov_eq t2 u2), (fe_cmov_eq t3 u3)
    by (by eapply limbs_64; [|eassumption]). by destruct b.
Qed.

(** The comparisons, for the digits that occur. *)
Lemma cmov8_flags b k : -8 <= b <= 8 → 1 <= k <= 8 →
  negative b = Z.b2z (b <? 0) ∧
  equal (s8 (u8 (b - ((- negative b) &' b) * (1 ≪ 1)))) k = Z.b2z (Z.abs b =? k).
Proof.
  intros Hb Hk.
  assert (Forall (λ b, Forall (λ k, negative b = Z.b2z (b <? 0) ∧
    equal (s8 (u8 (b - ((- negative b) &' b) * (1 ≪ 1)))) k = Z.b2z (Z.abs b =? k)) (seqZ 1 8))
    (seqZ (-8) 17)) as H by by_computation.
  rewrite Forall_forall in H. specialize (H b). rewrite Forall_forall in H.
  apply H; apply elem_of_seqZ; lia.
Qed.

Lemma neg_limbs t : precomp_limbs t →
  limbs 52 (yminusx t) ∧ limbs 52 (yplusx t) ∧ limbs 53 (fe25519_neg (xy2d t)).
Proof. intros (H1 & H2 & H3). split; [done|]. split; [done|]. by apply fe_neg_eq, limbs_54. Qed.

(** Nine values for the absolute value of a digit. *)
Lemma cmov8_last {A} (row : list A) b (t0 : A) g0 g1 g2 g3 g4 g5 g6 g7 :
  -8 <= b <= 8 → row = [g0; g1; g2; g3; g4; g5; g6; g7] →
  let pick k g t := if Z.abs b =? k then g else t in
  pick 8 g7 (pick 7 g6 (pick 6 g5 (pick 5 g4 (pick 4 g3 (pick 3 g2 (pick 2 g1 (pick 1 g0 t0))))))) =
  if b =? 0 then t0 else default t0 (row !! Z.to_nat (Z.abs b - 1)).
Proof.
  intros Hb ->. cbv zeta.
  assert (b = 0 ∨ ∃ k, (k < 8)%nat ∧ b ≠ 0 ∧ Z.abs b = Z.of_nat k + 1) as [->|(k & Hk & Hb0 & ->)]; [|done|].
  { destruct (decide (b = 0)); [by left|right]. exists (Z.to_nat (Z.abs b - 1)). lia. }
  rewrite (proj2 (Z.eqb_neq b 0) Hb0). replace (Z.to_nat (Z.of_nat k + 1 - 1)) with k by lia.
  do 8 (destruct k as [|k]; [done|]). lia.
Qed.

Lemma cmov8_eq row b : length row = 8%nat → Forall precomp_limbs row → -8 <= b <= 8 →
  ge25519_cmov8 row b = Some (chosen row b).
Proof.
  intros Hl Hrow Hb.
  assert (∀ k, 1 <= k <= 8 → equal (s8 (u8 (b - ((- negative b) &' b) * (1 ≪ 1)))) k = Z.b2z (Z.abs b =? k))
    as Heq by (intros k Hk; by apply cmov8_flags).
  assert (negative b = Z.b2z (b <? 0)) as Hneg by (by apply (cmov8_flags b 1)).
  assert (precomp_limbs ge25519_precomp_0) as H0 by (split; [|split]; by split_and!).
  assert (∀ t u (c : bool), precomp_limbs t → precomp_limbs u →
    ge25519_cmov t u (Z.b2z c) = (if c then u else t) ∧ precomp_limbs (if c then u else t)) as Hstep.
  { intros t u c Ht Hu. split; [|by destruct c]. apply cmov_eq; [done|]. destruct Hu as (? & ? & ?).
    split; [done|]. split; [done|]. by apply limbs_53. }
  destruct row as [|g0 [|g1 [|g2 [|g3 [|g4 [|g5 [|g6 [|g7 [|]]]]]]]]]; try discriminate Hl.
  pose proof (cmov8_last _ b ge25519_precomp_0 g0 g1 g2 g3 g4 g5 g6 g7 Hb eq_refl) as Hlast. cbv zeta in Hlast.
  apply Forall_cons in Hrow as [G0 Hrow]. apply Forall_cons in Hrow as [G1 Hrow].
  apply Forall_cons in Hrow as [G2 Hrow]. apply Forall_cons in Hrow as [G3 Hrow].
  apply Forall_cons in Hrow as [G4 Hrow]. apply Forall_cons in Hrow as [G5 Hrow].
  apply Forall_cons in Hrow as [G6 Hrow]. apply Forall_cons in Hrow as [G7 _].
  unfold ge25519_cmov8, chosen. rewrite <- Hlast, !Heq by lia. clear Hlast Heq. rewrite Hneg.
  generalize ge25519_precomp_0 H0. intros t0 H0'. cbv zeta.
  set (row := [g0; g1; g2; g3; g4; g5; g6; g7]).
  change (row.[0]) with (Some g0). change (row.[1]) with (Some g1). change (row.[2]) with (Some g2).
  change (row.[3]) with (Some g3). change (row.[4]) with (Some g4). change (row.[5]) with (Some g5).
  change (row.[6]) with (Some g6). change (row.[7]) with (Some g7). cbn [mbind option_bind].
  destruct (Hstep t0 g0 (Z.abs b =? 1) H0' G0) as [-> H1].
  destruct (Hstep _ g1 (Z.abs b =? 2) H1 G1) as [-> H2].
  destruct (Hstep _ g2 (Z.abs b =? 3) H2 G2) as [-> H3].
  destruct (Hstep _ g3 (Z.abs b =? 4) H3 G3) as [-> H4].
  destruct (Hstep _ g4 (Z.abs b =? 5) H4 G4) as [-> H5].
  destruct (Hstep _ g5 (Z.abs b =? 6) H5 G5) as [-> H6].
  destruct (Hstep _ g6 (Z.abs b =? 7) H6 G6) as [-> H7].
  destruct (Hstep _ g7 (Z.abs b =? 8) H7 G7) as [-> H8].
  f_equal. by apply cmov_eq, neg_limbs.
Qed.

(** Affine coordinates of the multiple [b], given those of the first eight. *)
Definition multiple (pts : list (Z * Z)) (b : Z) : Z * Z :=
  let '(x, y) := if b =? 0 then (0, 1) else default (0, 1) (pts !! Z.to_nat (Z.abs b - 1)) in
  if b <? 0 then (fsub 0 x, y) else (x, y).

(** The entries of a row stand for the points [pts]. *)
Definition row_stands (row : list ge25519_precomp) (pts : list (Z * Z)) : Prop :=
  length row = 8%nat ∧ Forall precomp_limbs row ∧ Forall2 (λ q xy, stands q xy.1 xy.2) row pts.

Lemma stands_0 : stands ge25519_precomp_0 0 1.
Proof. split; [split; [|split]; by split_and!|]. by vm_compute. Qed.

Lemma stands_minus q x y : precomp_limbs q → stands q x y →
  stands (mk_precomp (yminusx q) (yplusx q) (fe25519_neg (xy2d q))) (fsub 0 x) y.
Proof.
  intros Hl [_ (E1 & E2 & E3)]. destruct (neg_limbs q Hl) as (L1 & L2 & L3). unfold stands.
  cbn [yplusx yminusx xy2d]. split; [split; [exact L1|split; [exact L2|exact L3]]|].
  destruct (fe_neg_eq (xy2d q)) as [_ ->]; [apply limbs_54, Hl|]. rewrite E1, E2, E3. split_and!.
  - enough (eqp (y - x) (y + fsub 0 x)) as H by exact H. rewrite fsub_eqp. apply eq_eqp. ring.
  - enough (eqp (y + x) (y - fsub 0 x)) as H by exact H. rewrite fsub_eqp. apply eq_eqp. ring.
  - enough (eqp (0 - fmul (fmul 2 ed_d) (fmul x y)) (fmul 2 ed_d * fmul (fsub 0 x) y)) as H by exact H.
    rewrite !fmul_eqp, !fsub_eqp. apply eq_eqp. ring.
Qed.

Lemma chosen_stands row pts b : row_stands row pts → -8 <= b <= 8 →
  stands (chosen row b) (multiple pts b).1 (multiple pts b).2.
Proof.
  intros (Hl & Hrow & Hpts) Hb. unfold chosen, multiple.
  set (q := if b =? 0 then _ else _). set (xy := if b =? 0 then (0, 1) else _).
  assert (precomp_limbs q ∧ stands q xy.1 xy.2) as [Hq Hs].
  { unfold q, xy. destruct (Z.eqb_spec b 0); [split; [split; [|split]; by split_and!|apply stands_0]|].
    destruct (lookup_lt_is_Some_2 row (Z.to_nat (Z.abs b - 1))) as [g Hg]; [lia|].
    destruct (Forall2_lookup_l _ _ _ _ _ Hpts Hg) as (pt & Hp & Hs). rewrite Hg, Hp. cbn [default from_option id].
    split; [|exact Hs]. by eapply Forall_lookup_1 in Hrow. }
  clearbody q xy. destruct xy as [x y]. cbn [fst snd] in Hs.
  destruct (b <? 0); cbn [fst snd]; [by apply stands_minus|exact Hs].
Qed.

(** ** The digits of a scalar *)

(** The number written with the digits [e] in base 16. *)
Definition value16 (e : list Z) : Z := foldr (λ x v, x + 16 * v) 0 e.

(** [n + 1] digits of [k], all but the last between -8 and 7. *)
Fixpoint signed_digits (n : nat) (k : Z) : list Z :=
  match n with
  | O => [k]
  | S n => let r := (k + 8) mod 16 - 8 in r :: signed_digits n ((k - r) / 16)
  end.

Lemma signed_digits_length n k : length (signed_digits n k) = S n.
Proof. revert k. induction n as [|n IH]; intros k; [done|]. cbn. by rewrite IH. Qed.

Lemma signed_digits_value n k : value16 (signed_digits n k) = k.
Proof.
  revert k. induction n as [|n IH]; intros k; [cbn; lia|]. cbn [signed_digits value16 foldr].
  fold (value16 (signed_digits n ((k - ((k + 8) mod 16 - 8)) / 16))). rewrite IH. div_lia.
Qed.

(** For a number of [4 * (n + 1) - 1] bits the last digit is at most 8 too. *)
Lemma signed_digits_bound n k : 0 <= k <= 8 * 16 ^ Z.of_nat n → Forall (λ e, -8 <= e <= 8) (signed_digits n k).
Proof.
  revert k. induction n as [|n IH]; intros k Hk; cbn [signed_digits].
  - constructor; [|constructor]. change (16 ^ Z.of_nat 0) with 1 in Hk. lia.
  - constructor; [div_lia|]. apply IH. rewrite Nat2Z.inj_succ, Z.pow_succ_r in Hk by lia.
    set (m := 16 ^ Z.of_nat n) in *. clearbody m. div_lia.
Qed.

Definition nibbles (a : bytes) : list Z := a ≫= λ x, [x mod 16; x / 16].

Lemma nibbles_value a : value16 (nibbles a) = le_val a.
Proof.
  induction a as [|x a IH]; [done|]. unfold nibbles. cbn [mbind list_bind app value16 foldr le_val].
  fold (nibbles a). change (foldr (λ x v, x + 16 * v) 0 (nibbles a)) with (value16 (nibbles a)).
  rewrite IH. div_lia.
Qed.

Lemma nibbles_length a : length (nibbles a) = (2 * length a)%nat.
Proof. unfold nibbles. induction a as [|x a IH]; [done|]. cbn in *. lia. Qed.

Lemma nibbles_bound a : bytes_ok a → Forall (λ e, 0 <= e < 16) (nibbles a).
Proof.
  induction 1 as [|x a Hx _ IH]; [constructor|]. unfold nibbles. cbn [mbind list_bind app].
  unfold is_uint in Hx. constructor; [div_lia|]. constructor; [div_lia|exact IH].
Qed.

Lemma nibbles_app a b : nibbles (a ++ b) = nibbles a ++ nibbles b.
Proof. apply bind_app. Qed.

Lemma s8_small x : -128 <= x < 128 → s8 x = x.
Proof.
  intros Hx. unfold s8, u8, wrap. change (2 ^ 8) with 256. change (2 ^ 7) with 128.
  destruct (x mod 256 <? 128) eqn:E; div_lia.
Qed.

Lemma split_digits_eq a : length a = 32%nat → bytes_ok a → split_digits a = Some (nibbles a).
Proof.
  intros Hl Ha. unfold split_digits.
  destruct (for_range_inv (λ i e, e = nibbles (take i a) ++ replicate (64 - 2 * i) 0) 32
    (λ i e, x ← a.[Z.of_nat i]; e ← wr e (2 * Z.of_nat i) (s8 ((x ≫ 0) &' 15));
      wr e (2 * Z.of_nat i + 1) (s8 ((x ≫ 4) &' 15))) (replicate 64 0)) as (e & -> & ->).
  - done.
  - intros i e Hi ->. destruct (lookup_lt_is_Some_2 a i) as [x Hx]; [lia|].
    pose proof (Forall_lookup_1 _ _ _ _ Ha Hx) as Hxb. unfold is_uint in Hxb.
    rewrite rd_nat, Hx. cbn [mbind option_bind].
    change 15 with (Z.ones 4). rewrite !Z.land_ones, Z.shiftr_0_r, Z.shiftr_div_pow2 by lia.
    rewrite !s8_small by div_lia. rewrite (Z.mod_small (x / 2 ^ 4)) by div_lia.
    assert (length (nibbles (take i a)) = 2 * i)%nat as Hn by (rewrite nibbles_length, length_take; lia).
    replace (64 - 2 * i)%nat with (S (S (64 - 2 * S i))) by lia. cbn [replicate].
    replace (2 * Z.of_nat i) with (Z.of_nat (length (nibbles (take i a))) + 0) by lia.
    rewrite wr_app_r by lia. rewrite wr_lt by (cbn [length]; lia). cbn [mbind option_bind fmap option_fmap option_map].
    replace (Z.of_nat (length (nibbles (take i a))) + 0 + 1) with (Z.of_nat (length (nibbles (take i a))) + 1) by lia.
    rewrite wr_app_r by lia. rewrite wr_lt by (rewrite length_insert; cbn [length]; lia). cbn [fmap option_fmap option_map].
    eexists. split; [reflexivity|]. rewrite (take_S_r _ _ _ Hx), nibbles_app, <- app_assoc. done.
  - by rewrite take_ge, app_nil_r by lia.
Qed.

(** One digit: what is left is what the remaining digits must write. *)
Lemma carry_step n x e c : 0 <= x < 16 → 0 <= c <= 1 →
  let y := x + c in let c' := (y + 8) / 16 in
  signed_digits (S n) (value16 (x :: e) + c) = (y - c' * 16) :: signed_digits n (value16 e + c') ∧
  0 <= c' <= 1.
Proof.
  intros Hx Hc y c'. unfold c', y. cbn [signed_digits value16 foldr]. fold (value16 e).
  set (v := value16 e). clearbody v. split; [|div_lia].
  assert ((x + 16 * v + c + 8) mod 16 - 8 = x + c - (x + c + 8) / 16 * 16) as -> by div_lia.
  f_equal. f_equal. div_lia.
Qed.

Lemma carry_digits_eq e : length e = 64%nat → Forall (λ e, 0 <= e < 16) e →
  carry_digits e = Some (signed_digits 63 (value16 e)).
Proof.
  intros Hl He. unfold carry_digits.
  edestruct (for_range_inv (λ i ec, 0 <= ec.2 <= 1 ∧ ∃ pre, length pre = i ∧ ec.1 = pre ++ drop i e ∧
    pre ++ signed_digits (63 - i) (value16 (drop i e) + ec.2) = signed_digits 63 (value16 e)) 63)
    as ([e' c] & -> & Hc & pre & Hpl & He' & Hd).
  - split; [cbn; lia|]. exists []. split_and!; [done|done|]. cbn [app snd]. by rewrite Z.add_0_r.
  - intros i [e' c] Hi (Hc & pre & Hpl & He' & Hd). cbn [fst snd] in *. subst e'.
    destruct (lookup_lt_is_Some_2 e i) as [x Hx]; [lia|].
    pose proof (Forall_lookup_1 _ _ _ _ He Hx) as Hxb. cbn beta in Hxb.
    rewrite (drop_S _ _ _ Hx) in Hd |- *. replace (63 - i)%nat with (S (63 - S i)) in Hd by lia.
    destruct (carry_step (63 - S i) x (drop (S i) e) c Hxb Hc) as [Hs Hc']. cbv zeta in Hs, Hc'. rewrite Hs in Hd.
    rewrite rd_nat, lookup_app_r, Hpl, Nat.sub_diag by lia. cbn [lookup list_lookup mbind option_bind].
    rewrite (s8_small (x + c)), (s8_small (x + c + 8)) by lia.
    rewrite Z.shiftr_div_pow2 by lia. change (2 ^ 4) with 16. change (1 ≪ 4) with 16.
    rewrite s8_small by div_lia.
    replace (Z.of_nat i) with (Z.of_nat (length pre) + 0) by lia.
    rewrite wr_app_r by lia. rewrite wr_lt by (cbn [length]; lia).
    cbn [fmap option_fmap option_map mbind option_bind Z.to_nat insert list_insert].
    eexists. split; [reflexivity|]. cbn [fst snd]. split; [exact Hc'|].
    eexists (pre ++ [_]). rewrite length_app, Hpl, <- !app_assoc. cbn [app length]. split_and!; [lia|reflexivity|exact Hd].
  - cbn [fst snd] in *. subst e'. cbn [mbind option_bind].
    destruct (lookup_lt_is_Some_2 e 63) as [x Hx]; [lia|].
    pose proof (Forall_lookup_1 _ _ _ _ He Hx) as Hxb. cbn beta in Hxb.
    rewrite (drop_S _ _ _ Hx) in Hd |- *. rewrite (drop_ge e) in Hd |- * by lia.
    change 63 with (Z.of_nat 63). rewrite rd_nat, lookup_app_r, Hpl by lia.
    cbn [Nat.sub lookup list_lookup mbind option_bind].
    replace (Z.of_nat 63) with (Z.of_nat (length pre) + 0) by lia.
    rewrite wr_app_r by lia. rewrite wr_lt by (cbn [length]; lia).
    cbn [fmap option_fmap option_map Z.to_nat insert list_insert]. rewrite s8_small by lia.
    rewrite <- Hd. cbn [Nat.sub signed_digits value16 foldr]. replace (x + 16 * 0 + c) with (x + c) by lia. done.
Qed.
