(* ===== verification/Primes.v ===== *)
(** * The two primes of Curve25519

    The field of [Fe25519] has [2^255 - 19] elements and the base point generates a
    group of [2^252 + 27742317777372353535851937790883648493] elements.  Both numbers
    are shown to be prime by Pocklington's criterion, which reduces the primality of [n]
    to that of some prime factors of [n - 1] whose product exceeds the square root of
    [n].  With the first, the integers modulo [p25519] are a field in which [finv]
    inverts, and the constant of the Edwards curve is not a square. *)

From Stdlib Require Import Zpow_facts Zdivisibility Znumtheory ZmodInv.
From S2P Require Import Prelude Packet Sodium Words Poly1305 Fe25519 Curve25519 Ge25519.
Local Open Scope c_scope.

(** ** Prime divisors *)

Lemma prime_divisor n : 1 < n → ∃ r, Z.prime r ∧ (r | n).
Proof.
  intros Hn. revert Hn. induction (Z.lt_wf 0 n) as [n _ IH]. intros Hn.
  destruct (prime_dec n) as [Hp|Hp]; [exists n; split; [by apply prime_alt|reflexivity]|].
  destruct (not_prime_divide n Hn Hp) as (m & Hm & Hd).
  destruct (IH m) as (r & Hr & Hrm); [lia|lia|]. exists r. split; [exact Hr|]. by transitivity m.
Qed.

(** A number without a prime divisor up to its square root is prime. *)
Lemma prime_by_divisors n : 1 < n → (∀ r, Z.prime r → r * r <= n → ¬ (r | n)) → Z.prime n.
Proof.
  intros Hn H. split; [exact Hn|]. intros m Hm [k Hk].
  assert (∀ s, 1 < s → s * s <= n → ¬ (s | n)) as Hs.
  { intros s Hs1 Hs2 Hs3. destruct (prime_divisor s Hs1) as (r & Hr & Hrs).
    apply (H r Hr); [|by transitivity s]. pose proof (Z.prime_ge_2 r Hr).
    pose proof (Z.divide_pos_le r s ltac:(lia) Hrs). nia. }
  destruct (Z.le_gt_cases m k).
  - apply (Hs m); [lia|nia|by exists k].
  - apply (Hs k); [nia|nia|exists m; lia].
Qed.

(** Trial division by the numbers from 2 on. *)
Definition trial (n k : Z) : bool :=
  (1 <? n) && (0 <=? k) && (n <? (k + 2) * (k + 2)) && forallb (λ d, negb (n mod d =? 0)) (seqZ 2 k).

Lemma trial_prime n k : trial n k = true → Z.prime n.
Proof.
  unfold trial. intros [[[H1 Hk]%andb_prop H2]%andb_prop H3]%andb_prop.
  rewrite forallb_forall in H3. apply prime_by_divisors; [lia|]. intros r Hr Hrr Hd. pose proof (Z.prime_ge_2 r Hr).
  assert (r < k + 2) by nia.
  assert (In r (seqZ 2 k)) as Hin by (apply list_elem_of_In, elem_of_seqZ; lia).
  specialize (H3 r Hin). apply Z.mod_divide in Hd; lia.
Qed.

(** ** Pocklington's criterion *)

(** [a] to the powers [i] and [j] that are both 1 modulo [r]. *)
Lemma pow_mod_1 a r i j : 1 < r → 0 <= i → 0 <= j → a ^ i mod r = 1 → a ^ (i * j) mod r = 1.
Proof.
  intros Hr Hi Hj H. rewrite Z.pow_mul_r by lia. rewrite <- Z.mod_pow_l, H, Z.pow_1_l by lia.
  by apply Z.mod_small.
Qed.

Lemma pow_mod_coprime b r i j : 1 < r → 0 < i → 0 < j → Z.coprime i j →
  b ^ i mod r = 1 → b ^ j mod r = 1 → b mod r = 1.
Proof.
  intros Hr Hi Hj Hc H1 H2. apply Z.Bezout_coprime in Hc as (u & v & Huv).
  (* [u * i + v * j = 1]; adding multiples of [j] to [u] makes it positive *)
  set (k := Z.abs u + Z.abs v).
  assert ((u + k * j) * i = 1 + (k * i - v) * j) as E by nia.
  assert (b ^ ((u + k * j) * i) mod r = 1) as F1.
  { rewrite (Z.mul_comm _ i). apply pow_mod_1; [lia|lia|nia|exact H1]. }
  assert (b ^ ((k * i - v) * j) mod r = 1) as F2.
  { rewrite (Z.mul_comm _ j). apply pow_mod_1; [lia|lia|nia|exact H2]. }
  rewrite E, Z.pow_add_r, Z.pow_1_r, <- Z.mul_mod_idemp_r, F2, Z.mul_1_r in F1 by nia. exact F1.
Qed.

(** What the certificate checks for one prime factor [q] of [n - 1]. *)
Definition witness_factor (n a q : Z) : bool :=
  ((n - 1) mod q =? 0) && (Z.gcd (Zpow_mod a ((n - 1) / q) n - 1) n =? 1).

Definition pock_check (n a : Z) (qs : list Z) : bool :=
  (1 <? n) && (n <? foldr Z.mul 1 qs * foldr Z.mul 1 qs) && (Zpow_mod a (n - 1) n =? 1) &&
  forallb (witness_factor n a) qs && bool_decide (NoDup qs).

Lemma mod_as_sub x n : x mod n = x - n * (x / n).
Proof. pose proof (Z_div_mod_eq_full x n). lia. Qed.
Lemma mod_of_divisor x n r : 0 < r → (r | n) → (x mod n) mod r = x mod r.
Proof.
  intros Hr [k ->]. rewrite (mod_as_sub x (k * r)).
  replace (x - k * r * (x / (k * r))) with (x + (- k * (x / (k * r))) * r) by ring.
  by apply Z_mod_plus_full.
Qed.

Section pocklington.
Variables (n a : Z) (qs : list Z).
Hypothesis (Hcheck : pock_check n a qs = true).
Hypothesis (Hqs : Forall Z.prime qs).
Variables (r : Z).
Hypothesis (Hr : Z.prime r) (Hrn : (r | n)).

Lemma pock_parts : 1 < n ∧ n < foldr Z.mul 1 qs * foldr Z.mul 1 qs ∧ a ^ (n - 1) mod n = 1 ∧
  Forall (λ q, witness_factor n a q = true) qs ∧ NoDup qs.
Proof.
  pose proof Hcheck as H. unfold pock_check in H.
  apply andb_prop in H as [H H5]. apply andb_prop in H as [H H4]. apply andb_prop in H as [H H3].
  apply andb_prop in H as [H1 H2]. apply bool_decide_eq_true in H5.
  assert (1 < n) by lia. rewrite Zpow_mod_correct in H3 by lia.
  split; [lia|]. split; [lia|]. split; [by apply Z.eqb_eq|]. split; [|exact H5].
  apply Forall_forall. intros q Hq. apply (proj1 (forallb_forall _ _) H4). by apply list_elem_of_In.
Qed.

(** Each factor divides [r - 1]: the order of [a^((n-1)/q)] modulo [r] is [q]. *)
Lemma factor_divides q : q ∈ qs → (q | r - 1).
Proof.
  intros Hq. destruct pock_parts as (Hn & _ & Ha & Hw & _).
  pose proof (proj1 (Forall_forall _ _) Hqs q Hq) as Hqp.
  pose proof (proj1 (Forall_forall _ _) Hw q Hq) as Hwq. cbn beta in Hwq.
  pose proof (Z.prime_ge_2 r Hr). pose proof (Z.prime_ge_2 q Hqp).
  unfold witness_factor in Hwq. apply andb_prop in Hwq as [Hd Hg].
  rewrite Zpow_mod_correct in Hg by lia. apply Z.eqb_eq in Hd, Hg.
  set (m := (n - 1) / q) in *. assert (n - 1 = m * q) as Hm by (unfold m; div_lia).
  assert (0 <= m) by nia.
  assert (a ^ (n - 1) mod r = 1) as Har.
  { rewrite <- (mod_of_divisor _ n r), Ha by (lia || done). apply Z.mod_small. lia. }
  destruct (Zdivide_dec q (r - 1)) as [|Hnd]; [done|exfalso].
  assert (a ^ m mod r = 1) as Hb.
  { apply (pow_mod_coprime _ _ q (r - 1)); [lia|lia|lia|by apply Z.coprime_prime_l| |].
    - by rewrite <- Z.pow_mul_r, <- Hm by lia.
    - apply Z.fermat_nz; [exact Hr|]. intros Hz.
      rewrite Hm, Z.pow_mul_r, <- Z.mod_pow_l, Hz, Z.pow_0_l, Zmod_0_l in Har by lia. lia. }
  assert ((r | a ^ m mod n - 1)) as Hrd.
  { apply Z.mod_divide; [lia|]. rewrite <- Zminus_mod_idemp_l, mod_of_divisor, Hb by (lia || done).
    apply Zmod_0_l. }
  pose proof (Z.gcd_greatest _ _ _ Hrd Hrn) as Hg1. rewrite Hg in Hg1.
  apply Z.divide_pos_le in Hg1; lia.
Qed.

Lemma coprime_product q l : Z.prime q → Forall Z.prime l → q ∉ l → Z.coprime q (foldr Z.mul 1 l).
Proof.
  intros Hq Hl Hin. induction Hl as [|x l Hx Hl IH]; [apply Z.coprime_1_r|].
  apply not_elem_of_cons in Hin as [Hne Hin]. cbn [foldr]. apply Z.coprime_mul_r; [|by apply IH].
  apply Z.coprime_prime_l; [exact Hq|]. intros Hd%Z.divide_prime_prime; done.
Qed.

Lemma product_divides l x : Forall Z.prime l → NoDup l → (∀ q, q ∈ l → (q | x)) → (foldr Z.mul 1 l | x).
Proof.
  intros Hl Hnd. induction Hl as [|q l Hq Hl IH]; intros Hx; [apply Z.divide_1_l|].
  apply NoDup_cons in Hnd as [Hin Hnd]. cbn [foldr].
  destruct (Hx q) as [k Hk]; [by left|].
  assert (foldr Z.mul 1 l | x) as Hf by (apply IH; [done|]; intros; apply Hx; by right).
  rewrite Hk, Z.mul_comm in Hf. apply Z.gauss in Hf as [j Hj].
  - exists j. rewrite Hk, Hj. ring.
  - rewrite Z.gcd_comm. by apply coprime_product.
Qed.

Lemma divisor_large : n < r * r.
Proof.
  destruct pock_parts as (Hn & Hsq & _ & _ & Hnd). pose proof (Z.prime_ge_2 r Hr).
  assert (foldr Z.mul 1 qs | r - 1) as Hd.
  { apply product_divides; [exact Hqs|exact Hnd|]. exact factor_divides. }
  apply Z.divide_pos_le in Hd; [|lia].
  assert (0 <= foldr Z.mul 1 qs).
  { clear -Hqs. induction Hqs as [|q l Hq Hl IH]; cbn [foldr]; [lia|].
    pose proof (Z.prime_ge_2 q Hq). apply Z.mul_nonneg_nonneg; [lia|by apply IH]. }
  pose proof (Z.mul_le_mono_nonneg (foldr Z.mul 1 qs) (r - 1) (foldr Z.mul 1 qs) (r - 1)). lia.
Qed.
End pocklington.

Lemma pocklington n a qs : pock_check n a qs = true → Forall Z.prime qs → Z.prime n.
Proof.
  intros Hc Hq. destruct (pock_parts n a qs Hc) as (Hn & _).
  apply prime_by_divisors; [exact Hn|]. intros r Hr Hrr Hd.
  pose proof (divisor_large n a qs Hc Hq r Hr Hd). lia.
Qed.

(** ** The primes *)

Ltac by_trial k := apply (trial_prime _ k); by vm_compute.
Ltac by_pock qs :=
  apply (pocklington _ 2 qs); [by vm_compute|repeat (apply Forall_cons_2; [assumption|]); apply Forall_nil_2].

Lemma prime_p25519 : Z.prime p25519.
Proof.
  assert (Z.prime 103) by by_trial 10. assert (Z.prime 127) by by_trial 10.
  assert (Z.prime 991) by by_trial 30. assert (Z.prime 4153) by by_trial 63.
  assert (Z.prime 430751) by by_trial 655. assert (Z.prime 569003) by by_trial 753.
  assert (Z.prime 8574133) by by_pock [991; 103].
  assert (Z.prime 1919519569386763) by by_pock [8574133; 127].
  assert (Z.prime 2773320623) by by_pock [569003].
  assert (Z.prime 72106336199) by by_pock [2773320623].
  assert (Z.prime 75445702479781427272750846543864801) by by_pock [1919519569386763; 72106336199].
  assert (Z.prime 31757755568855353) by by_pock [430751; 4153].
  assert (Z.prime 74058212732561358302231226437062788676166966415465897661863160754340907)
    by by_pock [75445702479781427272750846543864801; 31757755568855353].
  by_pock [74058212732561358302231226437062788676166966415465897661863160754340907].
Qed.

(** The order of the base point. *)
Definition ed_order : Z := 2 ^ 252 + 27742317777372353535851937790883648493.

Lemma prime_order : Z.prime ed_order.
Proof.
  assert (Z.prime 1224481) by by_trial 1106. assert (Z.prime 531581) by by_trial 729.
  assert (Z.prime 1257559732178653) by by_pock [1224481; 531581].
  assert (Z.prime 4434155615661930479) by by_pock [1257559732178653].
  assert (Z.prime 172054593956031949258510691) by by_pock [4434155615661930479].
  assert (Z.prime 19757330305831588566944191468367130476339) by by_pock [172054593956031949258510691].
  assert (Z.prime 276602624281642239937218680557139826668747)
    by by_pock [19757330305831588566944191468367130476339].
  by_pock [276602624281642239937218680557139826668747].
Qed.

(** ** The field *)

#[global] Instance eqp_decision x y : Decision (eqp x y).
Proof. unfold eqp. apply _. Defined.

Lemma eqp_0 x : eqp x 0 ↔ (p25519 | x).
Proof.
  unfold eqp. rewrite Zmod_0_l. apply Z.mod_divide. pose proof p25519_pos. lia.
Qed.

Lemma eqp_sub_0 x y : eqp x y ↔ eqp (x - y) 0.
Proof.
  split; intros H.
  - rewrite H. apply eq_eqp. ring.
  - replace x with (x - y + y) by ring. rewrite H. apply eq_eqp. ring.
Qed.

Lemma eqp_diff x y : eqp x y → eqp (x - y) 0.
Proof. apply eqp_sub_0. Qed.
Lemma eqp_same x y : eqp (x - y) 0 → eqp x y.
Proof. apply eqp_sub_0. Qed.

(** No divisors of zero. *)
Lemma eqp_mul_0 x y : eqp (x * y) 0 → eqp x 0 ∨ eqp y 0.
Proof. rewrite !eqp_0. intros H. by apply Z.divide_prime_mul; [apply prime_p25519|]. Qed.

Lemma eqp_mul_nz x y : ¬ eqp x 0 → ¬ eqp y 0 → ¬ eqp (x * y) 0.
Proof. intros Hx Hy [H|H]%eqp_mul_0; auto. Qed.

Lemma eqp_cancel z x y : ¬ eqp z 0 → eqp (z * x) (z * y) → eqp x y.
Proof.
  intros Hz H. rewrite eqp_sub_0 in H. replace (z * x - z * y) with (z * (x - y)) in H by ring.
  apply eqp_mul_0 in H as [H|H]; [done|]. by apply eqp_sub_0.
Qed.

Lemma finv_pow z : finv z = z ^ (p25519 - 2) mod p25519.
Proof. apply Zpow_mod_correct. pose proof p25519_pos. lia. Qed.

Lemma finv_bound z : 0 <= finv z < p25519.
Proof. rewrite finv_pow. apply Z.mod_pos_bound, p25519_pos. Qed.

Lemma finv_inverts z : ¬ eqp z 0 → eqp (z * finv z) 1.
Proof.
  intros Hz. rewrite finv_pow, eqp_mod.
  assert (2 < p25519) by (by vm_compute).
  replace (z * z ^ (p25519 - 2)) with (z ^ (p25519 - 1)).
  - unfold eqp. rewrite Z.fermat_nz; [symmetry; apply Z.mod_small; lia|apply prime_p25519|].
    intros H0. apply Hz. unfold eqp. by rewrite Zmod_0_l.
  - replace (p25519 - 1) with (Z.succ (p25519 - 2)) by lia. apply Z.pow_succ_r. lia.
Qed.

Lemma finv_0 z : eqp z 0 → finv z = 0.
Proof.
  intros Hz. rewrite finv_pow. assert (2 < p25519) by (by vm_compute).
  rewrite <- Z.mod_pow_l. unfold eqp in Hz. by rewrite Hz, Zmod_0_l.
Qed.

#[global] Instance finv_proper : Proper (eqp ==> eq) finv.
Proof. intros x y H. rewrite !finv_pow, <- (Z.mod_pow_l x), <- (Z.mod_pow_l y). by rewrite H. Qed.

(** Quotients are determined by what they multiply to. *)
Lemma quotient_times z y : ¬ eqp z 0 → eqp (y * finv z * z) y.
Proof.
  intros H%finv_inverts. revert H. generalize (finv z). intros i H.
  transitivity (y * (z * i)); [apply eq_eqp; ring|]. rewrite H. apply eq_eqp. ring.
Qed.
Lemma quotient_unique z x y : ¬ eqp z 0 → eqp (x * z) y → eqp x (y * finv z).
Proof.
  intros Hz H. apply (eqp_cancel z); [exact Hz|]. rewrite !(Z.mul_comm z), H.
  symmetry. by apply quotient_times.
Qed.
Lemma quotient_inj z x y : ¬ eqp z 0 → eqp (x * z) (y * z) → eqp x y.
Proof. intros Hz. rewrite !(Z.mul_comm _ z). by apply eqp_cancel. Qed.

Lemma quotient_eq a b c e : ¬ eqp b 0 → ¬ eqp e 0 → eqp (a * e) (c * b) → eqp (a * finv b) (c * finv e).
Proof.
  intros Hb He H. apply quotient_unique; [exact He|]. apply (quotient_inj b); [exact Hb|].
  pose proof (quotient_times b a Hb) as E. revert E. generalize (finv b). intros i E.
  transitivity (a * i * b * e); [apply eq_eqp; ring|]. by rewrite E.
Qed.

(** ** Squares *)

(** The square root of -1 of [ed25519_ref10], and Euler's criterion for [d]. *)
Definition sqrtm1 : Z := 19681161376707505956807079304988542015446066515923890162744021073123829784752.

Lemma sqrtm1_squared : eqp (sqrtm1 * sqrtm1) (-1).
Proof. by vm_compute. Qed.

Lemma square_power s : ¬ eqp s 0 → eqp (Zpow_mod (s * s) ((p25519 - 1) / 2) p25519) 1.
Proof.
  intros Hs. pose proof p25519_pos. rewrite Zpow_mod_correct, eqp_mod by lia.
  replace (s * s) with (s ^ 2) by ring. rewrite <- Z.pow_mul_r by (vm_compute; congruence).
  replace (2 * ((p25519 - 1) / 2)) with (p25519 - 1) by (by vm_compute).
  unfold eqp. rewrite Z.fermat_nz; [by vm_compute|apply prime_p25519|].
  intros H0. apply Hs. unfold eqp. by rewrite Zmod_0_l.
Qed.

Lemma ed_d_euler : Zpow_mod ed_d ((p25519 - 1) / 2) p25519 = p25519 - 1.
Proof. by vm_compute. Qed.
Lemma one_not_m1 : ¬ eqp (p25519 - 1) 1.
Proof. by vm_compute. Qed.
Lemma ed_d_nonzero : ¬ eqp (0 * 0) ed_d.
Proof. by vm_compute. Qed.

Lemma ed_d_nonsquare s : ¬ eqp (s * s) ed_d.
Proof.
  intros H. destruct (decide (eqp s 0)) as [H0|H0].
  - rewrite H0 in H. by apply ed_d_nonzero.
  - pose proof (square_power s H0) as H1. pose proof p25519_pos.
    rewrite Zpow_mod_correct, <- Z.mod_pow_l in H1 by lia. unfold eqp in H. rewrite H in H1.
    rewrite Z.mod_pow_l, <- Zpow_mod_correct, ed_d_euler in H1 by lia.
    by apply one_not_m1.
Qed.
