(* ===== verification/Scalars.v ===== *)
(** * Arithmetic modulo the order of the base point ([ed25519/ref10/ed25519_ref10.c] of libsodium)

    [sc25519_mul], [sc25519_muladd], [sc25519_reduce] and [sc25519_invert] compute with
    integers modulo [L] = [ed_order] in limbs of 21 bits held in [int64_t].  The state of the
    straight-line code is the list of its variables [s0 ... s23]; every signed sum and
    product is checked with [i64], which has no value outside the range of [int64_t] (an
    overflow is undefined behaviour).  Bounds come from an interval analysis of the same
    code ([*_iv]), proved sound once and evaluated on the intervals of the input; values from
    what each step does to the number the limbs stand for. *)

From Stdlib Require Import Zpow_facts Zdivisibility Znumtheory ZmodInv.
From S2P Require Import Prelude Packet Sodium Words Poly1305 Fe25519 Utils Ge25519 Primes.
Local Open Scope c_scope.

(** ** The code *)

Definition load_3 (b : bytes) (o : Z) : option Z :=
  x0 ← b.[o]; x1 ← b.[o + 1]; x2 ← b.[o + 2];
  Some (x0 |' (x1 ≪ 8) |' (x2 ≪ 16)).

Definition load_4 (b : bytes) (o : Z) : option Z :=
  x0 ← b.[o]; x1 ← b.[o + 1]; x2 ← b.[o + 2]; x3 ← b.[o + 3];
  Some (x0 |' (x1 ≪ 8) |' (x2 ≪ 16) |' (x3 ≪ 24)).

(** The twelve limbs [a0 ... a11] of a scalar. *)
Definition load_scalar (a : bytes) : option (list Z) :=
  x ← load_3 a 0; let a0 := 2097151 &' x in
  x ← load_4 a 2; let a1 := 2097151 &' (x ≫ 5) in
  x ← load_3 a 5; let a2 := 2097151 &' (x ≫ 2) in
  x ← load_4 a 7; let a3 := 2097151 &' (x ≫ 7) in
  x ← load_4 a 10; let a4 := 2097151 &' (x ≫ 4) in
  x ← load_3 a 13; let a5 := 2097151 &' (x ≫ 1) in
  x ← load_4 a 15; let a6 := 2097151 &' (x ≫ 6) in
  x ← load_3 a 18; let a7 := 2097151 &' (x ≫ 3) in
  x ← load_3 a 21; let a8 := 2097151 &' x in
  x ← load_4 a 23; let a9 := 2097151 &' (x ≫ 5) in
  x ← load_3 a 26; let a10 := 2097151 &' (x ≫ 2) in
  x ← load_4 a 28; let a11 := x ≫ 7 in
  Some [a0; a1; a2; a3; a4; a5; a6; a7; a8; a9; a10; a11].

(** The twenty-four limbs of the 64 bytes that [sc25519_reduce] is given. *)
Definition load_wide (s : bytes) : option (list Z) :=
  x ← load_3 s 0; let s0 := 2097151 &' x in
  x ← load_4 s 2; let s1 := 2097151 &' (x ≫ 5) in
  x ← load_3 s 5; let s2 := 2097151 &' (x ≫ 2) in
  x ← load_4 s 7; let s3 := 2097151 &' (x ≫ 7) in
  x ← load_4 s 10; let s4 := 2097151 &' (x ≫ 4) in
  x ← load_3 s 13; let s5 := 2097151 &' (x ≫ 1) in
  x ← load_4 s 15; let s6 := 2097151 &' (x ≫ 6) in
  x ← load_3 s 18; let s7 := 2097151 &' (x ≫ 3) in
  x ← load_3 s 21; let s8 := 2097151 &' x in
  x ← load_4 s 23; let s9 := 2097151 &' (x ≫ 5) in
  x ← load_3 s 26; let s10 := 2097151 &' (x ≫ 2) in
  x ← load_4 s 28; let s11 := 2097151 &' (x ≫ 7) in
  x ← load_4 s 31; let s12 := 2097151 &' (x ≫ 4) in
  x ← load_3 s 34; let s13 := 2097151 &' (x ≫ 1) in
  x ← load_4 s 36; let s14 := 2097151 &' (x ≫ 6) in
  x ← load_3 s 39; let s15 := 2097151 &' (x ≫ 3) in
  x ← load_3 s 42; let s16 := 2097151 &' x in
  x ← load_4 s 44; let s17 := 2097151 &' (x ≫ 5) in
  x ← load_3 s 47; let s18 := 2097151 &' (x ≫ 2) in
  x ← load_4 s 49; let s19 := 2097151 &' (x ≫ 7) in
  x ← load_4 s 52; let s20 := 2097151 &' (x ≫ 4) in
  x ← load_3 s 55; let s21 := 2097151 &' (x ≫ 1) in
  x ← load_4 s 57; let s22 := 2097151 &' (x ≫ 6) in
  x ← load_4 s 60; let s23 := x ≫ 3 in
  Some [s0; s1; s2; s3; s4; s5; s6; s7; s8; s9; s10; s11; s12; s13; s14; s15; s16; s17; s18; s19; s20; s21; s22; s23].

(** A signed 64-bit result: its overflow is undefined. *)
Definition i64 (x : Z) : option Z := if (- 2 ^ 63 <=? x) && (x <? 2 ^ 63) then Some x else None.

(** [s_i += v;] and [s_i -= v;] *)
Definition add_to (s : list Z) (i v : Z) : option (list Z) := x ← s.[i]; y ← i64 (x + v); wr s i y.
Definition sub_from (s : list Z) (i v : Z) : option (list Z) := x ← s.[i]; y ← i64 (x - v); wr s i y.

(** [s_{i+1} += carry; s_i -= carry * ((uint64_t) 1L << 21);]: the second in [uint64_t]. *)
Definition move_carry (s : list Z) (i carry : Z) : option (list Z) :=
  s ← add_to s (i + 1) carry;
  x ← s.[i];
  wr s i (s64 (u64 x - u64 (u64 carry * (1 ≪ 21)))).

(** [carry_i = (s_i + (int64_t) (1L << 20)) >> 21;] and the two lines after it. *)
Definition carry_round (s : list Z) (i : Z) : option (list Z) :=
  x ← s.[i]; y ← i64 (x + (1 ≪ 20)); move_carry s i (y ≫ 21).

(** [carry_i = s_i >> 21;] and the two lines after it. *)
Definition carry_floor (s : list Z) (i : Z) : option (list Z) :=
  x ← s.[i]; move_carry s i (x ≫ 21).

(** The six lines that fold [s_i], [i >= 12], into the limbs [i - 12] to [i - 7]. *)
Definition fold_limb (s : list Z) (i : Z) : option (list Z) :=
  x ← s.[i];
  v ← i64 (x * 666643); s ← add_to s (i - 12) v;
  v ← i64 (x * 470296); s ← add_to s (i - 11) v;
  v ← i64 (x * 654183); s ← add_to s (i - 10) v;
  v ← i64 (x * 997805); s ← sub_from s (i - 9) v;
  v ← i64 (x * 136657); s ← add_to s (i - 8) v;
  v ← i64 (x * 683901); sub_from s (i - 7) v.

(** A group of such lines, for the indices in the order of the code. *)
Fixpoint each {A} (step : A → Z → option A) (ix : list Z) (s : A) : option A :=
  match ix with
  | [] => Some s
  | i :: ix => s ← step s i; each step ix s
  end.

(** The reduction the three functions share, from the fold of [s23] on: down to limbs of
    rounded carries, *)
Definition reduce_wide (s : list Z) : option (list Z) :=
  s ← each fold_limb [23; 22; 21; 20; 19; 18] s;
  s ← each carry_round [6; 8; 10; 12; 14; 16] s;
  s ← each carry_round [7; 9; 11; 13; 15] s;
  s ← each fold_limb [17; 16; 15; 14; 13; 12] s;
  s ← wr s 12 0;
  s ← each carry_round [0; 2; 4; 6; 8; 10] s;
  s ← each carry_round [1; 3; 5; 7; 9; 11] s;
  s ← fold_limb s 12;
  wr s 12 0.

(** and then to the representative in [[0, L)]. *)
Definition reduce_final (s : list Z) : option (list Z) :=
  s ← each carry_floor [0; 1; 2; 3; 4; 5; 6; 7; 8; 9; 10; 11] s;
  s ← fold_limb s 12;
  each carry_floor [0; 1; 2; 3; 4; 5; 6; 7; 8; 9; 10] s.

(** [s_k >> o] and [(s_k >> o) | (s_{k+1} * ((uint64_t) 1 << u))], stored in a byte. *)
Definition low_byte (x o : Z) : Z := u8 (x ≫ o).
Definition joined_byte (x o y u : Z) : Z := u8 (u64 (x ≫ o) |' u64 (u64 y * (1 ≪ u))).

Definition store_scalar (out : bytes) (s : list Z) : option bytes :=
  s0 ← s.[0]; s1 ← s.[1]; s2 ← s.[2]; s3 ← s.[3]; s4 ← s.[4]; s5 ← s.[5];
  s6 ← s.[6]; s7 ← s.[7]; s8 ← s.[8]; s9 ← s.[9]; s10 ← s.[10]; s11 ← s.[11];
  out ← wr out 0 (low_byte s0 0);
  out ← wr out 1 (low_byte s0 8);
  out ← wr out 2 (joined_byte s0 16 s1 5);
  out ← wr out 3 (low_byte s1 3);
  out ← wr out 4 (low_byte s1 11);
  out ← wr out 5 (joined_byte s1 19 s2 2);
  out ← wr out 6 (low_byte s2 6);
  out ← wr out 7 (joined_byte s2 14 s3 7);
  out ← wr out 8 (low_byte s3 1);
  out ← wr out 9 (low_byte s3 9);
  out ← wr out 10 (joined_byte s3 17 s4 4);
  out ← wr out 11 (low_byte s4 4);
  out ← wr out 12 (low_byte s4 12);
  out ← wr out 13 (joined_byte s4 20 s5 1);
  out ← wr out 14 (low_byte s5 7);
  out ← wr out 15 (joined_byte s5 15 s6 6);
  out ← wr out 16 (low_byte s6 2);
  out ← wr out 17 (low_byte s6 10);
  out ← wr out 18 (joined_byte s6 18 s7 3);
  out ← wr out 19 (low_byte s7 5);
  out ← wr out 20 (low_byte s7 13);
  out ← wr out 21 (low_byte s8 0);
  out ← wr out 22 (low_byte s8 8);
  out ← wr out 23 (joined_byte s8 16 s9 5);
  out ← wr out 24 (low_byte s9 3);
  out ← wr out 25 (low_byte s9 11);
  out ← wr out 26 (joined_byte s9 19 s10 2);
  out ← wr out 27 (low_byte s10 6);
  out ← wr out 28 (joined_byte s10 14 s11 7);
  out ← wr out 29 (low_byte s11 1);
  out ← wr out 30 (low_byte s11 9);
  wr out 31 (low_byte s11 17).

(** [s0 = a0 * b0; ... s22 = a11 * b11; s23 = 0;] *)
Definition product (a b : list Z) : option (list Z) :=
  a0 ← a.[0]; a1 ← a.[1]; a2 ← a.[2]; a3 ← a.[3]; a4 ← a.[4]; a5 ← a.[5];
  a6 ← a.[6]; a7 ← a.[7]; a8 ← a.[8]; a9 ← a.[9]; a10 ← a.[10]; a11 ← a.[11];
  b0 ← b.[0]; b1 ← b.[1]; b2 ← b.[2]; b3 ← b.[3]; b4 ← b.[4]; b5 ← b.[5];
  b6 ← b.[6]; b7 ← b.[7]; b8 ← b.[8]; b9 ← b.[9]; b10 ← b.[10]; b11 ← b.[11];
  s0 ← i64 (a0 * b0);
  s1 ← i64 (a0 * b1 + a1 * b0);
  s2 ← i64 (a0 * b2 + a1 * b1 + a2 * b0);
  s3 ← i64 (a0 * b3 + a1 * b2 + a2 * b1 + a3 * b0);
  s4 ← i64 (a0 * b4 + a1 * b3 + a2 * b2 + a3 * b1 + a4 * b0);
  s5 ← i64 (a0 * b5 + a1 * b4 + a2 * b3 + a3 * b2 + a4 * b1 + a5 * b0);
  s6 ← i64 (a0 * b6 + a1 * b5 + a2 * b4 + a3 * b3 + a4 * b2 + a5 * b1 + a6 * b0);
  s7 ← i64 (a0 * b7 + a1 * b6 + a2 * b5 + a3 * b4 + a4 * b3 + a5 * b2 + a6 * b1 + a7 * b0);
  s8 ← i64 (a0 * b8 + a1 * b7 + a2 * b6 + a3 * b5 + a4 * b4 + a5 * b3 + a6 * b2 + a7 * b1 + a8 * b0);
  s9 ← i64 (a0 * b9 + a1 * b8 + a2 * b7 + a3 * b6 + a4 * b5 +
    a5 * b4 + a6 * b3 + a7 * b2 + a8 * b1 + a9 * b0);
  s10 ← i64 (a0 * b10 + a1 * b9 + a2 * b8 + a3 * b7 + a4 * b6 +
    a5 * b5 + a6 * b4 + a7 * b3 + a8 * b2 + a9 * b1 + a10 * b0);
  s11 ← i64 (a0 * b11 + a1 * b10 + a2 * b9 + a3 * b8 + a4 * b7 + a5 * b6 +
    a6 * b5 + a7 * b4 + a8 * b3 + a9 * b2 + a10 * b1 + a11 * b0);
  s12 ← i64 (a1 * b11 + a2 * b10 + a3 * b9 + a4 * b8 + a5 * b7 +
    a6 * b6 + a7 * b5 + a8 * b4 + a9 * b3 + a10 * b2 + a11 * b1);
  s13 ← i64 (a2 * b11 + a3 * b10 + a4 * b9 + a5 * b8 + a6 * b7 +
    a7 * b6 + a8 * b5 + a9 * b4 + a10 * b3 + a11 * b2);
  s14 ← i64 (a3 * b11 + a4 * b10 + a5 * b9 + a6 * b8 + a7 * b7 + a8 * b6 + a9 * b5 + a10 * b4 + a11 * b3);
  s15 ← i64 (a4 * b11 + a5 * b10 + a6 * b9 + a7 * b8 + a8 * b7 + a9 * b6 + a10 * b5 + a11 * b4);
  s16 ← i64 (a5 * b11 + a6 * b10 + a7 * b9 + a8 * b8 + a9 * b7 + a10 * b6 + a11 * b5);
  s17 ← i64 (a6 * b11 + a7 * b10 + a8 * b9 + a9 * b8 + a10 * b7 + a11 * b6);
  s18 ← i64 (a7 * b11 + a8 * b10 + a9 * b9 + a10 * b8 + a11 * b7);
  s19 ← i64 (a8 * b11 + a9 * b10 + a10 * b9 + a11 * b8);
  s20 ← i64 (a9 * b11 + a10 * b10 + a11 * b9);
  s21 ← i64 (a10 * b11 + a11 * b10);
  s22 ← i64 (a11 * b11);
  let s23 := 0 in
  Some [s0; s1; s2; s3; s4; s5; s6; s7; s8; s9; s10; s11; s12; s13; s14; s15; s16; s17; s18; s19; s20; s21; s22; s23].

Definition product_add (a b c : list Z) : option (list Z) :=
  a0 ← a.[0]; a1 ← a.[1]; a2 ← a.[2]; a3 ← a.[3]; a4 ← a.[4]; a5 ← a.[5];
  a6 ← a.[6]; a7 ← a.[7]; a8 ← a.[8]; a9 ← a.[9]; a10 ← a.[10]; a11 ← a.[11];
  b0 ← b.[0]; b1 ← b.[1]; b2 ← b.[2]; b3 ← b.[3]; b4 ← b.[4]; b5 ← b.[5];
  b6 ← b.[6]; b7 ← b.[7]; b8 ← b.[8]; b9 ← b.[9]; b10 ← b.[10]; b11 ← b.[11];
  c0 ← c.[0]; c1 ← c.[1]; c2 ← c.[2]; c3 ← c.[3]; c4 ← c.[4]; c5 ← c.[5];
  c6 ← c.[6]; c7 ← c.[7]; c8 ← c.[8]; c9 ← c.[9]; c10 ← c.[10]; c11 ← c.[11];
  s0 ← i64 (c0 + a0 * b0);
  s1 ← i64 (c1 + a0 * b1 + a1 * b0);
  s2 ← i64 (c2 + a0 * b2 + a1 * b1 + a2 * b0);
  s3 ← i64 (c3 + a0 * b3 + a1 * b2 + a2 * b1 + a3 * b0);
  s4 ← i64 (c4 + a0 * b4 + a1 * b3 + a2 * b2 + a3 * b1 + a4 * b0);
  s5 ← i64 (c5 + a0 * b5 + a1 * b4 + a2 * b3 + a3 * b2 + a4 * b1 + a5 * b0);
  s6 ← i64 (c6 + a0 * b6 + a1 * b5 + a2 * b4 + a3 * b3 + a4 * b2 + a5 * b1 + a6 * b0);
  s7 ← i64 (c7 + a0 * b7 + a1 * b6 + a2 * b5 + a3 * b4 + a4 * b3 + a5 * b2 + a6 * b1 + a7 * b0);
  s8 ← i64 (c8 + a0 * b8 + a1 * b7 + a2 * b6 + a3 * b5 + a4 * b4 + a5 * b3 + a6 * b2 + a7 * b1 + a8 * b0);
  s9 ← i64 (c9 + a0 * b9 + a1 * b8 + a2 * b7 + a3 * b6 +
    a4 * b5 + a5 * b4 + a6 * b3 + a7 * b2 + a8 * b1 + a9 * b0);
  s10 ← i64 (c10 + a0 * b10 + a1 * b9 + a2 * b8 + a3 * b7 + a4 * b6 +
    a5 * b5 + a6 * b4 + a7 * b3 + a8 * b2 + a9 * b1 + a10 * b0);
  s11 ← i64 (c11 + a0 * b11 + a1 * b10 + a2 * b9 + a3 * b8 + a4 * b7 +
    a5 * b6 + a6 * b5 + a7 * b4 + a8 * b3 + a9 * b2 + a10 * b1 + a11 * b0);
  s12 ← i64 (a1 * b11 + a2 * b10 + a3 * b9 + a4 * b8 + a5 * b7 +
    a6 * b6 + a7 * b5 + a8 * b4 + a9 * b3 + a10 * b2 + a11 * b1);
  s13 ← i64 (a2 * b11 + a3 * b10 + a4 * b9 + a5 * b8 + a6 * b7 +
    a7 * b6 + a8 * b5 + a9 * b4 + a10 * b3 + a11 * b2);
  s14 ← i64 (a3 * b11 + a4 * b10 + a5 * b9 + a6 * b8 + a7 * b7 + a8 * b6 + a9 * b5 + a10 * b4 + a11 * b3);
  s15 ← i64 (a4 * b11 + a5 * b10 + a6 * b9 + a7 * b8 + a8 * b7 + a9 * b6 + a10 * b5 + a11 * b4);
  s16 ← i64 (a5 * b11 + a6 * b10 + a7 * b9 + a8 * b8 + a9 * b7 + a10 * b6 + a11 * b5);
  s17 ← i64 (a6 * b11 + a7 * b10 + a8 * b9 + a9 * b8 + a10 * b7 + a11 * b6);
  s18 ← i64 (a7 * b11 + a8 * b10 + a9 * b9 + a10 * b8 + a11 * b7);
  s19 ← i64 (a8 * b11 + a9 * b10 + a10 * b9 + a11 * b8);
  s20 ← i64 (a9 * b11 + a10 * b10 + a11 * b9);
  s21 ← i64 (a10 * b11 + a11 * b10);
  s22 ← i64 (a11 * b11);
  let s23 := 0 in
  Some [s0; s1; s2; s3; s4; s5; s6; s7; s8; s9; s10; s11; s12; s13; s14; s15; s16; s17; s18; s19; s20; s21; s22; s23].

Definition carry_product (s : list Z) : option (list Z) :=
  s ← each carry_round [0; 2; 4; 6; 8; 10; 12; 14; 16; 18; 20; 22] s;
  each carry_round [1; 3; 5; 7; 9; 11; 13; 15; 17; 19; 21] s.

Definition sc25519_mul (s a b : bytes) : option bytes :=
  a ← load_scalar a;
  b ← load_scalar b;
  t ← product a b;
  t ← carry_product t;
  t ← reduce_wide t;
  t ← reduce_final t;
  store_scalar s t.

Definition sc25519_muladd (s a b c : bytes) : option bytes :=
  a ← load_scalar a;
  b ← load_scalar b;
  c ← load_scalar c;
  t ← product_add a b c;
  t ← carry_product t;
  t ← reduce_wide t;
  t ← reduce_final t;
  store_scalar s t.

(** The result overwrites the first half of its argument. *)
Definition sc25519_reduce (s : bytes) : option bytes :=
  t ← load_wide s;
  t ← reduce_wide t;
  t ← reduce_final t;
  store_scalar s t.

Definition sc25519_sq (s a : bytes) : option bytes := sc25519_mul s a a.

(** [for (i = 0; i < n; i++) sc25519_sq(s, s); sc25519_mul(s, s, a);] *)
Definition sc25519_sqmul (s : bytes) (n : nat) (a : bytes) : option bytes :=
  s ← for_range n (λ _ s, sc25519_sq s s) s;
  sc25519_mul s s a.

(** The temporaries are arrays of 32 bytes, each written before it is read. *)
Definition sc25519_invert (recip s : bytes) : option bytes :=
  let tmp := replicate 32 0 in
  _10 ← sc25519_sq tmp s;
  _11 ← sc25519_mul tmp s _10;
  _100 ← sc25519_mul tmp s _11;
  _1000 ← sc25519_sq tmp _100;
  _1010 ← sc25519_mul tmp _10 _1000;
  _1011 ← sc25519_mul tmp s _1010;
  _10000 ← sc25519_sq tmp _1000;
  _10110 ← sc25519_sq tmp _1011;
  _100000 ← sc25519_mul tmp _1010 _10110;
  _100110 ← sc25519_mul tmp _10000 _10110;
  _1000000 ← sc25519_sq tmp _100000;
  _1010000 ← sc25519_mul tmp _10000 _1000000;
  _1010011 ← sc25519_mul tmp _11 _1010000;
  _1100011 ← sc25519_mul tmp _10000 _1010011;
  _1100111 ← sc25519_mul tmp _100 _1100011;
  _1101011 ← sc25519_mul tmp _100 _1100111;
  _10010011 ← sc25519_mul tmp _1000000 _1010011;
  _10010111 ← sc25519_mul tmp _100 _10010011;
  _10111101 ← sc25519_mul tmp _100110 _10010111;
  _11010011 ← sc25519_mul tmp _10110 _10111101;
  _11100111 ← sc25519_mul tmp _1010000 _10010111;
  _11101011 ← sc25519_mul tmp _100 _11100111;
  _11110101 ← sc25519_mul tmp _1010 _11101011;
  recip ← sc25519_mul recip _1011 _11110101;
  recip ← sc25519_sqmul recip 126 _1010011;
  recip ← sc25519_sqmul recip 9 _10;
  recip ← sc25519_mul recip recip _11110101;
  recip ← sc25519_sqmul recip 7 _1100111;
  recip ← sc25519_sqmul recip 9 _11110101;
  recip ← sc25519_sqmul recip 11 _10111101;
  recip ← sc25519_sqmul recip 8 _11100111;
  recip ← sc25519_sqmul recip 9 _1101011;
  recip ← sc25519_sqmul recip 6 _1011;
  recip ← sc25519_sqmul recip 14 _10010011;
  recip ← sc25519_sqmul recip 10 _1100011;
  recip ← sc25519_sqmul recip 9 _10010111;
  recip ← sc25519_sqmul recip 10 _11110101;
  recip ← sc25519_sqmul recip 8 _11010011;
  sc25519_sqmul recip 8 _11101011.

Definition canonical_L : bytes :=
  [0xed; 0xd3; 0xf5; 0x5c; 0x1a; 0x63; 0x12; 0x58; 0xd6; 0x9c; 0xf7;
   0xa2; 0xde; 0xf9; 0xde; 0x14; 0x00; 0x00; 0x00; 0x00; 0x00; 0x00;
   0x00; 0x00; 0x00; 0x00; 0x00; 0x00; 0x00; 0x00; 0x00; 0x10].

(** One iteration of its loop, on the flags [c] and [n]. *)
Definition canonical_step (s : bytes) (i : Z) (cn : Z * Z) : option (Z * Z) :=
  let '(c, n) := cn in
  x ← s.[i]; y ← canonical_L.[i];
  let c := u8 (c |' (((x - y) ≫ 8) &' n)) in
  let n := u8 (n &' (((x ^' y) - 1) ≫ 8)) in
  Some (c, n).

Definition sc25519_is_canonical (s : bytes) : option Z :=
  cn ← for_range 32 (λ k, canonical_step s (31 - Z.of_nat k)) (0, 1);
  Some (Z.b2z (negb (cn.1 =? 0))).

(** ** The number the limbs stand for *)

Definition limb_val (s : list Z) : Z := foldr (λ x v, x + 2 ^ 21 * v) 0 s.

(** The value of the first [n] limbs. *)
Definition val (n : nat) (s : list Z) : Z := limb_val (take n s).

Lemma limb_val_app s t : limb_val (s ++ t) = limb_val s + 2 ^ (21 * Z.of_nat (length s)) * limb_val t.
Proof.
  induction s as [|x s IH].
  { cbn [app length]. change (limb_val []) with 0. change (2 ^ (21 * Z.of_nat 0)) with 1. ring. }
  cbn [app limb_val foldr length].
  fold (limb_val (s ++ t)) (limb_val s). rewrite IH.
  replace (21 * Z.of_nat (S (length s))) with (21 + 21 * Z.of_nat (length s)) by lia.
  rewrite Z.pow_add_r by lia. ring.
Qed.

Lemma limb_val_insert s i x y : s !! i = Some x →
  limb_val (<[i := y]> s) = limb_val s + (y - x) * 2 ^ (21 * Z.of_nat i).
Proof.
  intros H. pose proof (lookup_lt_Some _ _ _ H) as Hl. rewrite insert_take_drop by done.
  rewrite <- (take_drop_middle s i x H) at 3. rewrite !limb_val_app, !length_take.
  rewrite Nat.min_l by lia. cbn [limb_val foldr]. ring.
Qed.

Lemma val_insert n s i x y : s !! i = Some x → (i < n)%nat →
  val n (<[i := y]> s) = val n s + (y - x) * 2 ^ (21 * Z.of_nat i).
Proof.
  intros H Hi. unfold val. rewrite take_insert_lt by done. apply limb_val_insert. by rewrite lookup_take_lt.
Qed.

Lemma val_insert_ge n s i y : (n <= i)%nat → val n (<[i := y]> s) = val n s.
Proof. intros Hi. unfold val. by rewrite take_insert_ge. Qed.

Lemma val_S n s x : s !! n = Some x → val (S n) s = val n s + x * 2 ^ (21 * Z.of_nat n).
Proof.
  intros H. pose proof (lookup_lt_Some _ _ _ H) as Hl. unfold val. rewrite (take_S_r _ _ _ H), limb_val_app, length_take.
  rewrite Nat.min_l by lia. cbn [limb_val foldr]. ring.
Qed.

(** Lists of intervals, and the limbs within them. *)
Definition inside (x : Z) (r : Z * Z) : Prop := r.1 <= x <= r.2.
Definition within (s : list Z) (I : list (Z * Z)) : Prop := Forall2 inside s I.

Lemma within_lookup s I i r : within s I → I.[i] = Some r → ∃ x, s.[i] = Some x ∧ s !! Z.to_nat i = Some x ∧ inside x r.
Proof.
  intros H [Hr Hi]%rd_Some_lookup. destruct (Forall2_lookup_r _ _ _ _ _ H Hr) as (x & Hx & Hin).
  exists x. split; [|done]. unfold rd. by rewrite (proj2 (Z.leb_le _ _) Hi).
Qed.

Lemma within_wr s I I' i x r : within s I → wr I i r = Some I' → inside x r →
  wr s i x = Some (<[Z.to_nat i := x]> s) ∧ within (<[Z.to_nat i := x]> s) I'.
Proof.
  intros H Hw Hx. pose proof (Forall2_length _ _ _ H) as Hl. unfold wr in *. rewrite Hl.
  destruct (_ && _); [|done]. injection Hw as <-. split; [done|]. by apply Forall2_insert.
Qed.

Definition i64_iv (r : Z * Z) : option (Z * Z) :=
  if (- 2 ^ 63 <=? r.1) && (r.2 <? 2 ^ 63) then Some r else None.

Lemma i64_inside x r r' : inside x r → i64_iv r = Some r' → r' = r ∧ i64 x = Some x ∧ - 2 ^ 63 <= x < 2 ^ 63.
Proof.
  unfold inside, i64_iv, i64. intros Hx H. case_match eqn:Hb; [|done]. injection H as <-. bool_to_prop.
  split; [done|]. rewrite (proj2 (Z.leb_le _ _)), (proj2 (Z.ltb_lt _ _)) by lia. split; [done|lia].
Qed.

(** ** The steps on intervals

    [refines f F R]: from limbs within [I], [f] runs when the analysis [F] accepts [I], gives
    limbs within its result, and relates them to its argument by [R]. *)
Definition refines (f : list Z → option (list Z)) (F : list (Z * Z) → option (list (Z * Z)))
    (R : list Z → list Z → Prop) : Prop :=
  ∀ s I I', within s I → F I = Some I' → ∃ s', f s = Some s' ∧ within s' I' ∧ R s s'.

Lemma refines_seq f g F G R S T : refines f F R → refines g G S → (∀ s t u, R s t → S t u → T s u) →
  refines (λ s, f s ≫= g) (λ I, F I ≫= G) T.
Proof.
  intros Hf Hg HT s I I' Hs HI. apply bind_Some in HI as (J & HJ & HI).
  destruct (Hf s I J Hs HJ) as (t & -> & Ht & HR). cbn [mbind option_bind].
  destruct (Hg t J I' Ht HI) as (u & Hu & Hin & HS). eauto.
Qed.

Definition add_to_iv (I : list (Z * Z)) (i : Z) (v : Z * Z) : option (list (Z * Z)) :=
  r ← I.[i]; r ← i64_iv (r.1 + v.1, r.2 + v.2); wr I i r.
Definition sub_from_iv (I : list (Z * Z)) (i : Z) (v : Z * Z) : option (list (Z * Z)) :=
  r ← I.[i]; r ← i64_iv (r.1 - v.2, r.2 - v.1); wr I i r.

(** What adding [v] to the limb [i] does: the other limbs stay, and every value that
    contains the limb grows. *)
Definition adds (i v : Z) (s s' : list Z) : Prop :=
  (∀ j, Z.of_nat j ≠ i → s' !! j = s !! j) ∧
  (∀ n, i < Z.of_nat n → val n s' = val n s + v * 2 ^ (21 * i)).

Lemma insert_adds s i x v : s !! Z.to_nat i = Some x → 0 <= i → adds i v s (<[Z.to_nat i := x + v]> s).
Proof.
  intros Hx Hi. split.
  - intros j Hj. apply list_lookup_insert_ne. lia.
  - intros n Hn. rewrite (val_insert _ _ _ x) by (done || lia). rewrite Z2Nat.id by done. f_equal. f_equal. lia.
Qed.

Lemma add_to_refines i v r : inside v r → refines (λ s, add_to s i v) (λ I, add_to_iv I i r) (adds i v).
Proof.
  unfold add_to, add_to_iv. intros Hv s I I' Hs H.
  apply bind_Some in H as (q & Hq & H). apply bind_Some in H as (q' & Hq' & H).
  destruct (within_lookup _ _ _ _ Hs Hq) as (x & -> & Hx & Hin). cbn [mbind option_bind].
  assert (inside (x + v) (q.1 + r.1, q.2 + r.2)) as Hi by (unfold inside in *; cbn; lia).
  destruct (i64_inside _ _ _ Hi Hq') as (-> & -> & _). cbn [mbind option_bind].
  destruct (within_wr s I I' i _ _ Hs H Hi) as [-> Hw].
  eexists. split; [done|]. split; [done|]. apply insert_adds; [done|]. by apply rd_Some_lookup in Hq as [_ ?].
Qed.

Lemma sub_from_refines i v r : inside v r → refines (λ s, sub_from s i v) (λ I, sub_from_iv I i r) (adds i (- v)).
Proof.
  unfold sub_from, sub_from_iv. intros Hv s I I' Hs H.
  apply bind_Some in H as (q & Hq & H). apply bind_Some in H as (q' & Hq' & H).
  destruct (within_lookup _ _ _ _ Hs Hq) as (x & -> & Hx & Hin). cbn [mbind option_bind].
  assert (inside (x - v) (q.1 - r.2, q.2 - r.1)) as Hi by (unfold inside in *; cbn; lia).
  destruct (i64_inside _ _ _ Hi Hq') as (-> & -> & _). cbn [mbind option_bind].
  destruct (within_wr s I I' i _ _ Hs H Hi) as [-> Hw].
  eexists. split; [done|]. split; [done|]. apply insert_adds; [done|]. by apply rd_Some_lookup in Hq as [_ ?].
Qed.

(** *** Carries *)

Lemma s64_eq x : - 2 ^ 63 <= x < 2 ^ 63 → s64 x = x.
Proof.
  intros Hx. unfold s64, u64, wrap. destruct (Z_lt_le_dec x 0).
  - replace (x mod 2 ^ 64) with (x + 2 ^ 64) by (apply (Z.mod_unique _ _ (-1)); lia).
    destruct (Z.ltb_spec (x + 2 ^ 64) (2 ^ 63)); lia.
  - rewrite Z.mod_small by lia. destruct (Z.ltb_spec x (2 ^ 63)); lia.
Qed.

Lemma s64_difference x c k : s64 (u64 x - u64 (u64 c * k)) = s64 (x - c * k).
Proof. unfold s64, u64, wrap. by rewrite Zmult_mod_idemp_l, <- Zminus_mod. Qed.

Definition keeps (i : Z) (s s' : list Z) : Prop := ∀ n, i + 1 < Z.of_nat n → val n s' = val n s.

Lemma move_carry_within s I J I' i x c rc q : within s I → s !! Z.to_nat i = Some x → 0 <= i →
  inside c rc → add_to_iv I (i + 1) rc = Some J → wr J i q = Some I' →
  inside (x - c * 2 ^ 21) q → - 2 ^ 63 <= q.1 → q.2 < 2 ^ 63 →
  ∃ s', move_carry s i c = Some s' ∧ within s' I' ∧ keeps i s s'.
Proof.
  intros Hs Hx Hi Hc HJ Hw Hq Hlo Hhi. unfold move_carry.
  destruct (add_to_refines (i + 1) c rc Hc s I J Hs HJ) as (t & -> & Ht & Hsame & Hval). cbn [mbind option_bind].
  assert (t !! Z.to_nat i = Some x) as Htx by (rewrite Hsame by lia; exact Hx).
  unfold rd. rewrite (proj2 (Z.leb_le _ _) Hi), Htx. cbn [mbind option_bind].
  rewrite s64_difference. change (1 ≪ 21) with (2 ^ 21).
  rewrite s64_eq by (unfold inside in Hq; lia).
  destruct (within_wr t J I' i _ q Ht Hw Hq) as [-> Hin]. eexists. split; [done|]. split; [done|].
  intros n Hn. rewrite (val_insert n t (Z.to_nat i) x) by (done || lia). rewrite Hval by lia.
  replace (21 * (i + 1)) with (21 + 21 * i) by lia. rewrite Z.pow_add_r, Z2Nat.id by lia. ring.
Qed.

Definition carry_round_iv (I : list (Z * Z)) (i : Z) : option (list (Z * Z)) :=
  r ← I.[i]; r ← i64_iv (r.1 + 2 ^ 20, r.2 + 2 ^ 20);
  J ← add_to_iv I (i + 1) (r.1 ≫ 21, r.2 ≫ 21); wr J i (- 2 ^ 20, 2 ^ 20 - 1).

Definition carry_floor_iv (I : list (Z * Z)) (i : Z) : option (list (Z * Z)) :=
  r ← I.[i]; J ← add_to_iv I (i + 1) (r.1 ≫ 21, r.2 ≫ 21); wr J i (0, 2 ^ 21 - 1).

Lemma shiftr_inside x lo hi n : 0 <= n → lo <= x <= hi → inside (x ≫ n) (lo ≫ n, hi ≫ n).
Proof. intros Hn Hx. unfold inside. cbn [fst snd]. rewrite !Z.shiftr_div_pow2 by done. split; apply Z.div_le_mono; lia. Qed.

Lemma carry_round_refines i : refines (λ s, carry_round s i) (λ I, carry_round_iv I i) (keeps i).
Proof.
  unfold carry_round, carry_round_iv. intros s I I' Hs H.
  apply bind_Some in H as (r & Hr & H). apply bind_Some in H as (r' & Hr' & H). apply bind_Some in H as (J & HJ & H).
  destruct (within_lookup _ _ _ _ Hs Hr) as (x & -> & Hx & Hin). cbn [mbind option_bind].
  assert (inside (x + 2 ^ 20) (r.1 + 2 ^ 20, r.2 + 2 ^ 20)) as Hi by (unfold inside in *; cbn [fst snd]; lia).
  destruct (i64_inside _ _ _ Hi Hr') as (-> & E & _). change (1 ≪ 20) with (2 ^ 20). rewrite E. cbn [mbind option_bind fst snd] in *.
  eapply (move_carry_within s I J I' i x _ _ (- 2 ^ 20, 2 ^ 20 - 1) Hs Hx); [by apply rd_Some_lookup in Hr as [_ ?]|..|done|done].
  - by apply shiftr_inside.
  - exact HJ.
  - exact H.
  - unfold inside. cbn [fst snd]. rewrite Z.shiftr_div_pow2 by done.
    pose proof (Z.div_mod (x + 2 ^ 20) (2 ^ 21)). pose proof (Z.mod_pos_bound (x + 2 ^ 20) (2 ^ 21)). lia.
Qed.

Lemma carry_floor_refines i : refines (λ s, carry_floor s i) (λ I, carry_floor_iv I i) (keeps i).
Proof.
  unfold carry_floor, carry_floor_iv. intros s I I' Hs H.
  apply bind_Some in H as (r & Hr & H). apply bind_Some in H as (J & HJ & H).
  destruct (within_lookup _ _ _ _ Hs Hr) as (x & -> & Hx & Hin). cbn [mbind option_bind].
  eapply (move_carry_within s I J I' i x _ _ (0, 2 ^ 21 - 1) Hs Hx); [by apply rd_Some_lookup in Hr as [_ ?]|..|done|done].
  - by apply shiftr_inside.
  - exact HJ.
  - exact H.
  - unfold inside. cbn [fst snd]. rewrite Z.shiftr_div_pow2 by done.
    pose proof (Z.div_mod x (2 ^ 21)). pose proof (Z.mod_pos_bound x (2 ^ 21)). lia.
Qed.

(** *** Folds *)

Definition scale_iv (r : Z * Z) (k : Z) : option (Z * Z) := i64_iv (r.1 * k, r.2 * k).

Lemma scale_inside x r k r' : 0 <= k → inside x r → scale_iv r k = Some r' → i64 (x * k) = Some (x * k) ∧ inside (x * k) r'.
Proof.
  unfold scale_iv. intros Hk Hx H.
  assert (inside (x * k) (r.1 * k, r.2 * k)) as Hi by (unfold inside in *; cbn [fst snd]; nia).
  by destruct (i64_inside _ _ _ Hi H) as (-> & ? & _).
Qed.

(** [s_j += s_i * k] and [s_j -= s_i * k]. *)
Lemma add_scaled_refines j x k r : 0 <= k → inside x r →
  refines (λ s, v ← i64 (x * k); add_to s j v) (λ I, v ← scale_iv r k; add_to_iv I j v) (adds j (x * k)).
Proof.
  intros Hk Hx s I I' Hs H. apply bind_Some in H as (v & Hv & H).
  destruct (scale_inside _ _ _ _ Hk Hx Hv) as [-> Hin]. exact (add_to_refines j _ v Hin s I I' Hs H).
Qed.
Lemma sub_scaled_refines j x k r : 0 <= k → inside x r →
  refines (λ s, v ← i64 (x * k); sub_from s j v) (λ I, v ← scale_iv r k; sub_from_iv I j v) (adds j (- (x * k))).
Proof.
  intros Hk Hx s I I' Hs H. apply bind_Some in H as (v & Hv & H).
  destruct (scale_inside _ _ _ _ Hk Hx Hv) as [-> Hin]. exact (sub_from_refines j _ v Hin s I I' Hs H).
Qed.

Definition fold_limb_iv (I : list (Z * Z)) (i : Z) : option (list (Z * Z)) :=
  r ← I.[i];
  I ← (v ← scale_iv r 666643; add_to_iv I (i - 12) v);
  I ← (v ← scale_iv r 470296; add_to_iv I (i - 11) v);
  I ← (v ← scale_iv r 654183; add_to_iv I (i - 10) v);
  I ← (v ← scale_iv r 997805; sub_from_iv I (i - 9) v);
  I ← (v ← scale_iv r 136657; add_to_iv I (i - 8) v);
  (v ← scale_iv r 683901; sub_from_iv I (i - 7) v).

(** A fold takes a multiple of [L] from the value. *)
Definition folds (i : Z) (s s' : list Z) : Prop :=
  ∃ x, s !! Z.to_nat i = Some x ∧ s' !! Z.to_nat i = Some x ∧
    (12 <= i → val (Z.to_nat i) s' = val (S (Z.to_nat i)) s - x * ed_order * 2 ^ (21 * (i - 12))).

Lemma fold_limb_seq s i : fold_limb s i =
  (x ← s.[i];
   s ← (v ← i64 (x * 666643); add_to s (i - 12) v);
   s ← (v ← i64 (x * 470296); add_to s (i - 11) v);
   s ← (v ← i64 (x * 654183); add_to s (i - 10) v);
   s ← (v ← i64 (x * 997805); sub_from s (i - 9) v);
   s ← (v ← i64 (x * 136657); add_to s (i - 8) v);
   (v ← i64 (x * 683901); sub_from s (i - 7) v)).
Proof.
  unfold fold_limb. destruct (s.[i]) as [x|]; [|done]. cbn [mbind option_bind].
  destruct (i64 (x * 666643)); [|done]; cbn [mbind option_bind]; destruct (add_to _ _ _); [|done]; cbn [mbind option_bind].
  destruct (i64 (x * 470296)); [|done]; cbn [mbind option_bind]; destruct (add_to _ _ _); [|done]; cbn [mbind option_bind].
  destruct (i64 (x * 654183)); [|done]; cbn [mbind option_bind]; destruct (add_to _ _ _); [|done]; cbn [mbind option_bind].
  destruct (i64 (x * 997805)); [|done]; cbn [mbind option_bind]; destruct (sub_from _ _ _); [|done]; cbn [mbind option_bind].
  destruct (i64 (x * 136657)); [|done]; cbn [mbind option_bind]; destruct (add_to _ _ _); [|done]; cbn [mbind option_bind].
  reflexivity.
Qed.

Lemma order_limbs : ed_order = 2 ^ 252 - (666643 + 470296 * 2 ^ 21 + 654183 * 2 ^ 42 - 997805 * 2 ^ 63 + 136657 * 2 ^ 84 - 683901 * 2 ^ 105).
Proof. by vm_compute. Qed.

Lemma order_value : ed_order = 2 ^ 252 + 27742317777372353535851937790883648493.
Proof. reflexivity. Qed.

Lemma fold_limb_refines i : refines (λ s, fold_limb s i) (λ I, fold_limb_iv I i) (folds i).
Proof.
  intros s I I' Hs H. rewrite fold_limb_seq. unfold fold_limb_iv in H. apply bind_Some in H as (r & Hr & H).
  destruct (within_lookup _ _ _ _ Hs Hr) as (x & -> & Hx & Hin). apply rd_Some_lookup in Hr as [_ Hi].
  change (Some x ≫= ?f) with (f x). cbv beta.
  apply bind_Some in H as (I1 & H1 & H). apply bind_Some in H as (I2 & H2 & H). apply bind_Some in H as (I3 & H3 & H).
  apply bind_Some in H as (I4 & H4 & H). apply bind_Some in H as (I5 & H5 & H6).
  destruct (add_scaled_refines (i - 12) x 666643 r ltac:(lia) Hin s I I1 Hs H1) as (s1 & -> & Hs1 & L1 & V1). change (Some s1 ≫= ?f) with (f s1). cbv beta.
  destruct (add_scaled_refines (i - 11) x 470296 r ltac:(lia) Hin s1 I1 I2 Hs1 H2) as (s2 & -> & Hs2 & L2 & V2). change (Some s2 ≫= ?f) with (f s2). cbv beta.
  destruct (add_scaled_refines (i - 10) x 654183 r ltac:(lia) Hin s2 I2 I3 Hs2 H3) as (s3 & -> & Hs3 & L3 & V3). change (Some s3 ≫= ?f) with (f s3). cbv beta.
  destruct (sub_scaled_refines (i - 9) x 997805 r ltac:(lia) Hin s3 I3 I4 Hs3 H4) as (s4 & -> & Hs4 & L4 & V4). change (Some s4 ≫= ?f) with (f s4). cbv beta.
  destruct (add_scaled_refines (i - 8) x 136657 r ltac:(lia) Hin s4 I4 I5 Hs4 H5) as (s5 & -> & Hs5 & L5 & V5). change (Some s5 ≫= ?f) with (f s5). cbv beta.
  destruct (sub_scaled_refines (i - 7) x 683901 r ltac:(lia) Hin s5 I5 I' Hs5 H6) as (s6 & -> & Hs6 & L6 & V6).
  exists s6. split; [done|]. split; [done|]. exists x. split; [done|]. split; [by rewrite L6, L5, L4, L3, L2, L1 by lia|]. intros H12.
  rewrite V6, V5, V4, V3, V2, V1, (val_S _ _ _ Hx), Z2Nat.id, order_limbs by lia.
  replace (21 * i) with (252 + 21 * (i - 12)) by lia. replace (21 * (i - 11)) with (21 + 21 * (i - 12)) by lia.
  replace (21 * (i - 10)) with (42 + 21 * (i - 12)) by lia. replace (21 * (i - 9)) with (63 + 21 * (i - 12)) by lia.
  replace (21 * (i - 8)) with (84 + 21 * (i - 12)) by lia. replace (21 * (i - 7)) with (105 + 21 * (i - 12)) by lia.
  rewrite !(Z.pow_add_r 2 _ (21 * (i - 12))) by lia. ring.
Qed.

(** *** Groups of steps *)

Lemma each_keeps step F n ix : (∀ i, refines (λ s, step s i) (λ I, F I i) (keeps i)) →
  Forall (λ i, i + 1 < Z.of_nat n) ix → refines (each step ix) (each F ix) (λ s s', val n s' = val n s).
Proof.
  intros Hstep. induction 1 as [|i ix Hi _ IH].
  - intros s I I' Hs [= <-]. by exists s.
  - cbn [each]. eapply (refines_seq (λ s, step s i) (each step ix) (λ I, F I i)); [apply Hstep|exact IH|].
    intros s t u H1 H2. rewrite H2. by apply H1.
Qed.

(** Equal modulo [L]. *)
Definition cong (x y : Z) : Prop := ∃ k, x = y + k * ed_order.
Lemma cong_trans x y z : cong x y → cong y z → cong x z.
Proof. intros [j ->] [k ->]. exists (j + k). ring. Qed.
Lemma cong_eq x y : x = y → cong x y.
Proof. intros ->. exists 0. ring. Qed.

(** Indices [n - 1], [n - 2], ... down to [m]. *)
Fixpoint descends (n : nat) (ix : list Z) (m : nat) : Prop :=
  match ix with
  | [] => n = m
  | i :: ix => S (Z.to_nat i) = n ∧ 12 <= i ∧ descends (Z.to_nat i) ix m
  end.

Lemma folds_cong i n s s' : folds i s s' → S (Z.to_nat i) = n → 12 <= i → cong (val (Z.to_nat i) s') (val n s).
Proof. intros (x & _ & _ & H) <- Hi. rewrite (H Hi). eexists. rewrite <- Z.add_opp_r, (Z.mul_comm x), <- Z.mul_assoc, <- Z.mul_opp_r, Z.mul_comm. reflexivity. Qed.

Lemma each_folds ix : ∀ n m, descends n ix m →
  refines (each fold_limb ix) (each fold_limb_iv ix) (λ s s', cong (val m s') (val n s)).
Proof.
  induction ix as [|i ix IH]; intros n m H; cbn [descends] in H.
  - subst m. intros s I I' Hs [= <-]. exists s. split; [done|]. split; [done|]. by apply cong_eq.
  - destruct H as (Hn & Hi & H). cbn [each].
    eapply (refines_seq (λ s, fold_limb s i) (each fold_limb ix) (λ I, fold_limb_iv I i)); [apply fold_limb_refines|exact (IH _ _ H)|].
    intros s t u H1 H2. eapply cong_trans; [exact H2|]. by apply folds_cong.
Qed.

(** [s12 = 0;] *)
Lemma clear_12_refines : refines (λ s, wr s 12 0) (λ I, wr I 12 (0, 0)) (λ s s', val 13 s' = val 12 s ∧ val 12 s' = val 12 s).
Proof.
  intros s I I' Hs H. destruct (within_wr s I I' 12 0 (0, 0) Hs H) as [-> Hin]; [unfold inside; cbn; lia|].
  eexists. split; [done|]. split; [done|]. change (Z.to_nat 12) with 12%nat.
  assert (12 < length s)%nat as Hl.
  { rewrite (Forall2_length _ _ _ Hs). unfold wr in H. destruct (_ && _) eqn:E; [|done]. bool_to_prop. lia. }
  assert ((<[12%nat := 0]> s) !! 12%nat = Some 0) as H0 by (by apply list_lookup_insert_eq).
  rewrite (val_S _ _ _ H0), val_insert_ge by lia. lia.
Qed.

Definition reduce_wide_iv (I : list (Z * Z)) : option (list (Z * Z)) :=
  I ← each fold_limb_iv [23; 22; 21; 20; 19; 18] I;
  I ← each carry_round_iv [6; 8; 10; 12; 14; 16] I;
  I ← each carry_round_iv [7; 9; 11; 13; 15] I;
  I ← each fold_limb_iv [17; 16; 15; 14; 13; 12] I;
  I ← wr I 12 (0, 0);
  I ← each carry_round_iv [0; 2; 4; 6; 8; 10] I;
  I ← each carry_round_iv [1; 3; 5; 7; 9; 11] I;
  I ← fold_limb_iv I 12;
  wr I 12 (0, 0).

Lemma reduce_wide_refines : refines reduce_wide reduce_wide_iv (λ s s', cong (val 13 s') (val 24 s)).
Proof.
  unfold reduce_wide, reduce_wide_iv.
  eapply (refines_seq _ _ _ _ _ (λ s s', cong (val 13 s') (val 18 s)));
    [apply (each_folds _ 24 18); cbn; lia| |intros s t u H1 H2; exact (cong_trans _ _ _ H2 H1)].
  eapply (refines_seq _ _ _ _ _ (λ s s', cong (val 13 s') (val 18 s)));
    [apply (each_keeps carry_round carry_round_iv 18); [exact carry_round_refines|by_computation]| |intros s t u <-; done].
  eapply (refines_seq _ _ _ _ _ (λ s s', cong (val 13 s') (val 18 s)));
    [apply (each_keeps carry_round carry_round_iv 18); [exact carry_round_refines|by_computation]| |intros s t u <-; done].
  eapply (refines_seq _ _ _ _ _ (λ s s', cong (val 13 s') (val 12 s)));
    [apply (each_folds _ 18 12); cbn; lia| |intros s t u H1 H2; exact (cong_trans _ _ _ H2 H1)].
  eapply (refines_seq (λ s, wr s 12 0) _ (λ I, wr I 12 (0, 0)) _ _ (λ s s', cong (val 13 s') (val 13 s)));
    [apply clear_12_refines| |intros s t u [<- _]; done].
  eapply (refines_seq _ _ _ _ _ (λ s s', cong (val 13 s') (val 13 s)));
    [apply (each_keeps carry_round carry_round_iv 13); [exact carry_round_refines|by_computation]| |intros s t u <-; done].
  eapply (refines_seq _ _ _ _ _ (λ s s', cong (val 13 s') (val 13 s)));
    [apply (each_keeps carry_round carry_round_iv 13); [exact carry_round_refines|by_computation]| |intros s t u <-; done].
  eapply (refines_seq (λ s, fold_limb s 12) (λ s, wr s 12 0) (λ I, fold_limb_iv I 12) (λ I, wr I 12 (0, 0)));
    [apply fold_limb_refines|apply clear_12_refines|].
  intros s t u H1 [-> _]. by apply (folds_cong 12).
Qed.

(** The intervals at the start of the reduction, for all three functions. *)
Definition start_iv : list (Z * Z) :=
  mjoin (replicate 11 [(- 2 ^ 21, 2 ^ 28); (- 2 ^ 21, 2 ^ 21)]) ++ [(- 2 ^ 21, 2 ^ 28); (- 2 ^ 21, 2 ^ 29)].

(** Limbs of 21 bits. *)
Definition limb21 (x : Z) : Prop := 0 <= x < 2 ^ 21.

Lemma limb_val_bound s : Forall limb21 s → 0 <= limb_val s < 2 ^ (21 * Z.of_nat (length s)).
Proof.
  induction 1 as [|x s Hx _ IH]; [done|]. cbn [limb_val foldr length]. fold (limb_val s). unfold limb21 in Hx.
  replace (21 * Z.of_nat (S (length s))) with (21 + 21 * Z.of_nat (length s)) by lia. rewrite Z.pow_add_r by lia. lia.
Qed.

Lemma within_limbs n s I : within s I → take n I = replicate n (0, 2 ^ 21 - 1) → Forall limb21 (take n s).
Proof.
  intros H HI. assert (within (take n s) (replicate n (0, 2 ^ 21 - 1))) as Hn by (rewrite <- HI; by apply Forall2_take).
  revert Hn. generalize (take n s). clear. induction n as [|n IH]; intros s H; cbn [replicate] in H.
  - by apply Forall2_nil_inv_r in H as ->.
  - apply Forall2_cons_inv_r in H as (x & s' & Hx & H & ->). constructor; [unfold inside in Hx; cbn in Hx; unfold limb21; lia|by apply IH].
Qed.

(** The representative: limbs of 21 bits below the last one, and a value below [L]. *)
Definition reduced (s : list Z) (v : Z) : Prop :=
  length s = 24%nat ∧ Forall limb21 (take 11 s) ∧ val 12 s = v mod ed_order.

Lemma cong_mod x y : cong x y → 0 <= x < ed_order → x = y mod ed_order.
Proof. intros [k ->] H. rewrite <- (Z_mod_plus_full y k), Z.mod_small by done. reflexivity. Qed.

(** Folding the limb 12 when it is 0 or -1 leaves the value in range. *)
Lemma last_fold_bound s s' : folds 12 s s' → Forall limb21 (take 12 s) → length (take 12 s) = 12%nat →
  (∀ x, s !! 12%nat = Some x → -1 <= x <= 0) → 0 <= val 12 s' < ed_order ∧ cong (val 12 s') (val 13 s).
Proof.
  intros Hf Hlim Hlen Hx. split; [|by apply (folds_cong 12)]. destruct Hf as (x & Hsx & _ & Hv).
  change (Z.to_nat 12) with 12%nat in *. rewrite Hv, (val_S _ _ _ Hsx) by done.
  pose proof (limb_val_bound _ Hlim) as Hb. rewrite Hlen in Hb. change (limb_val (take 12 s)) with (val 12 s) in Hb.
  pose proof (Hx _ Hsx). change (2 ^ (21 * (12 - 12))) with 1. change (21 * Z.of_nat 12) with 252 in *. rewrite order_value.
  assert (x = 0 ∨ x = -1) as [-> | ->] by lia; lia.
Qed.

(** The intervals after each part of the reduction. *)
Definition wide_iv : list (Z * Z) := default [] (reduce_wide_iv start_iv).
Definition floor_iv : list (Z * Z) :=
  default [] (each carry_floor_iv [0; 1; 2; 3; 4; 5; 6; 7; 8; 9; 10; 11] wide_iv).
Definition folded_iv : list (Z * Z) := default [] (fold_limb_iv floor_iv 12).
Definition final_iv : list (Z * Z) := default [] (each carry_floor_iv [0; 1; 2; 3; 4; 5; 6; 7; 8; 9; 10] folded_iv).

Lemma wide_iv_eq : reduce_wide_iv start_iv = Some wide_iv.
Proof. by vm_compute. Qed.
Lemma floor_iv_eq : each carry_floor_iv [0; 1; 2; 3; 4; 5; 6; 7; 8; 9; 10; 11] wide_iv = Some floor_iv.
Proof. by vm_compute. Qed.
Lemma folded_iv_eq : fold_limb_iv floor_iv 12 = Some folded_iv.
Proof. by vm_compute. Qed.
Lemma final_iv_eq : each carry_floor_iv [0; 1; 2; 3; 4; 5; 6; 7; 8; 9; 10] folded_iv = Some final_iv.
Proof. by vm_compute. Qed.
Lemma floor_iv_limbs : take 12 floor_iv = replicate 12 (0, 2 ^ 21 - 1) ∧ floor_iv !! 12%nat = Some (-1, 0).
Proof. by vm_compute. Qed.
Lemma final_iv_limbs : take 11 final_iv = replicate 11 (0, 2 ^ 21 - 1) ∧ length final_iv = 24%nat.
Proof. by vm_compute. Qed.
Lemma floor_iv_length : length floor_iv = 24%nat.
Proof. by vm_compute. Qed.

Lemma reduce_final_eq s : within s wide_iv → ∃ s', reduce_final s = Some s' ∧ reduced s' (val 13 s).
Proof.
  intros Hs. unfold reduce_final.
  destruct (each_keeps carry_floor carry_floor_iv 13 [0; 1; 2; 3; 4; 5; 6; 7; 8; 9; 10; 11] carry_floor_refines
    ltac:(by_computation) s _ _ Hs floor_iv_eq) as (s1 & -> & H1 & V1). cbn [mbind option_bind].
  destruct (fold_limb_refines 12 s1 _ _ H1 folded_iv_eq) as (s2 & -> & H2 & V2). cbn [mbind option_bind].
  destruct (each_keeps carry_floor carry_floor_iv 12 [0; 1; 2; 3; 4; 5; 6; 7; 8; 9; 10] carry_floor_refines
    ltac:(by_computation) s2 _ _ H2 final_iv_eq) as (s3 & -> & H3 & V3).
  destruct floor_iv_limbs as [Hf H12]. destruct final_iv_limbs as [Hl Hn].
  assert (length (take 12 s1) = 12%nat) as Hlen by (rewrite length_take, (Forall2_length _ _ _ H1), floor_iv_length; lia).
  destruct (last_fold_bound s1 s2 V2 (within_limbs 12 _ _ H1 Hf) Hlen) as [Hb Hc].
  { intros x Hx. destruct (Forall2_lookup_lr _ _ _ _ _ _ H1 Hx H12). cbn in *. lia. }
  exists s3. split; [done|]. split; [by rewrite (Forall2_length _ _ _ H3)|]. split; [exact (within_limbs 11 _ _ H3 Hl)|].
  rewrite V3, <- V1. by apply cong_mod.
Qed.

(** The whole reduction. *)
Lemma reduce_eq s : within s start_iv → ∃ t s', reduce_wide s = Some t ∧ reduce_final t = Some s' ∧ reduced s' (val 24 s).
Proof.
  intros Hs. destruct (reduce_wide_refines s _ _ Hs wide_iv_eq) as (t & Ht & Hin & k & Hk).
  destruct (reduce_final_eq t Hin) as (s' & Hs' & Hl & Hlim & Hv). exists t, s'. split; [done|]. split; [done|].
  split; [done|]. split; [done|]. by rewrite Hv, Hk, Z_mod_plus_full.
Qed.

(** ** Loading limbs *)

Section load.
Variables (b : bytes).
Hypothesis (Hb : bytes_ok b).

Lemma le_val_div o : (o <= length b)%nat → le_val b / 2 ^ (8 * Z.of_nat o) = le_val (drop o b).
Proof.
  intros Ho. rewrite <- (take_drop o b) at 1. rewrite le_val_app, length_take, Nat.min_l by done.
  pose proof (le_val_bound (take o b) (Forall_take _ _ _ Hb)) as Ht. rewrite length_take, Nat.min_l in Ht by done.
  rewrite Z.add_comm, Z.mul_comm, Z.div_add_l by lia. rewrite Z.div_small by done. lia.
Qed.

Lemma load_3_eq o : (o + 3 <= length b)%nat → load_3 b (Z.of_nat o) = Some ((le_val b / 2 ^ (8 * Z.of_nat o)) mod 2 ^ 24).
Proof.
  intros Ho. rewrite le_val_div by lia. unfold load_3.
  replace (Z.of_nat o + 1) with (Z.of_nat (o + 1)) by lia. replace (Z.of_nat o + 2) with (Z.of_nat (o + 2)) by lia.
  rewrite !rd_nat. replace (b !! o) with (b !! (o + 0)%nat) by (f_equal; lia). rewrite <- !lookup_drop. pose proof (Forall_drop _ o _ Hb) as Hd.
  assert (3 <= length (drop o b))%nat as Hl by (rewrite length_drop; lia).
  destruct (drop o b) as [|x0 [|x1 [|x2 r]]]; cbn [length] in Hl; try lia. cbn [lookup list_lookup mbind option_bind].
  rewrite !Forall_cons in Hd. destruct Hd as (H0 & H1 & H2 & _). unfold is_uint in *. f_equal. cbn [le_val].
  rewrite (lor_shift_add _ x1), (lor_shift_add _ x2) by lia.
  apply (Z.mod_unique _ _ (le_val r)); [left; lia|ring].
Qed.

Lemma load_4_eq o : (o + 4 <= length b)%nat → load_4 b (Z.of_nat o) = Some ((le_val b / 2 ^ (8 * Z.of_nat o)) mod 2 ^ 32).
Proof.
  intros Ho. rewrite le_val_div by lia. unfold load_4.
  replace (Z.of_nat o + 1) with (Z.of_nat (o + 1)) by lia. replace (Z.of_nat o + 2) with (Z.of_nat (o + 2)) by lia.
  replace (Z.of_nat o + 3) with (Z.of_nat (o + 3)) by lia.
  rewrite !rd_nat. replace (b !! o) with (b !! (o + 0)%nat) by (f_equal; lia). rewrite <- !lookup_drop. pose proof (Forall_drop _ o _ Hb) as Hd.
  assert (4 <= length (drop o b))%nat as Hl by (rewrite length_drop; lia).
  destruct (drop o b) as [|x0 [|x1 [|x2 [|x3 r]]]]; cbn [length] in Hl; try lia. cbn [lookup list_lookup mbind option_bind].
  rewrite !Forall_cons in Hd. destruct Hd as (H0 & H1 & H2 & H3 & _). unfold is_uint in *. f_equal. cbn [le_val].
  rewrite (lor_shift_add _ x1), (lor_shift_add _ x2), (lor_shift_add _ x3) by lia.
  apply (Z.mod_unique _ _ (le_val r)); [left; lia|ring].
Qed.
End load.

(** The limb [i] of a number. *)
Definition limb (x : Z) (i : nat) : Z := x / 2 ^ (21 * Z.of_nat i) mod 2 ^ 21.

(** A limb in the word of [w] bits at the byte [o], [r] bits up. *)
Lemma limb_in_word x o r w i : 0 <= o → 0 <= r → r + 21 <= w → 8 * o + r = 21 * Z.of_nat i →
  2097151 &' (((x / 2 ^ (8 * o)) mod 2 ^ w) ≫ r) = limb x i.
Proof.
  intros Ho Hr Hw Hi. unfold limb. rewrite Z.land_comm. change 2097151 with (Z.ones 21).
  rewrite Z.land_ones, Z.shiftr_div_pow2, <- Hi, Z.pow_add_r, <- Zdiv_Zdiv by lia. generalize (x / 2 ^ (8 * o)). intros y.
  rewrite <- !Z.land_ones, <- !Z.shiftr_div_pow2 by lia.
  apply Z.bits_inj'. intros k Hk. rewrite !Z.land_spec, !Z.shiftr_spec, Z.land_spec by lia.
  rewrite !Z.testbit_ones_nonneg by lia. destruct (Z.ltb_spec k 21); [|by rewrite !andb_false_r].
  by test_true (k + r <? w); rewrite andb_true_r.
Qed.

Lemma limb_at_word x o w i : 0 <= o → 21 <= w → 8 * o = 21 * Z.of_nat i →
  2097151 &' ((x / 2 ^ (8 * o)) mod 2 ^ w) = limb x i.
Proof. intros Ho Hw Hi. rewrite <- (limb_in_word x o 0 w i) by lia. by rewrite Z.shiftr_0_r. Qed.

(** The last limb has no mask. *)
Lemma last_limb x o r k : 0 <= o → 0 <= r → 0 <= x < 2 ^ (8 * o + 32) → 8 * o + r = k →
  ((x / 2 ^ (8 * o)) mod 2 ^ 32) ≫ r = x / 2 ^ k.
Proof.
  intros Ho Hr Hx <-. rewrite Z.shiftr_div_pow2, Z.pow_add_r, <- Zdiv_Zdiv by lia. f_equal. apply Z.mod_small.
  rewrite Z.pow_add_r in Hx by lia. split; [apply Z.div_pos; lia|]. apply Z.div_lt_upper_bound; lia.
Qed.

Lemma low_limbs x n : limb_val (limb x <$> seq 0 n) = x mod 2 ^ (21 * Z.of_nat n).
Proof.
  induction n as [|n IH]; [by rewrite Z.mod_1_r|].
  rewrite seq_S, fmap_app, limb_val_app, IH, length_fmap, length_seq. cbn [fmap list_fmap limb_val foldr]. unfold limb. rewrite Nat.add_0_l.
  replace (21 * Z.of_nat (S n)) with (21 * Z.of_nat n + 21) by lia. rewrite Z.pow_add_r, Z.rem_mul_r by lia. ring.
Qed.

(** The limbs of a number, the last one with all of the rest. *)
Definition limbs_of (n : nat) (x : Z) : list Z := (limb x <$> seq 0 n) ++ [x / 2 ^ (21 * Z.of_nat n)].

Lemma limbs_of_value n x : limb_val (limbs_of n x) = x.
Proof.
  unfold limbs_of. rewrite limb_val_app, low_limbs, length_fmap, length_seq. cbn [limb_val foldr].
  rewrite (Z.div_mod x (2 ^ (21 * Z.of_nat n))) at 3 by lia. ring.
Qed.

Lemma limb_bound x i : 0 <= limb x i <= 2 ^ 21 - 1.
Proof. unfold limb. pose proof (Z.mod_pos_bound (x / 2 ^ (21 * Z.of_nat i)) (2 ^ 21) ltac:(lia)). lia. Qed.

(** The intervals of loaded limbs. *)
Definition loaded_iv (n : nat) (top : Z) : list (Z * Z) := replicate n (0, 2 ^ 21 - 1) ++ [(0, top)].

Lemma limbs_of_within n top x : 0 <= x < (top + 1) * 2 ^ (21 * Z.of_nat n) → within (limbs_of n x) (loaded_iv n top).
Proof.
  intros Hx. apply Forall2_app.
  - apply Forall2_same_length_lookup_2; [by rewrite length_replicate, length_fmap, length_seq|].
    intros i y r Hy Hr. apply list_lookup_fmap_Some in Hy as (j & -> & _). apply lookup_replicate in Hr as [-> _].
    apply limb_bound.
  - constructor; [|constructor]. unfold inside. cbn [fst snd]. split; [apply Z.div_pos; lia|].
    assert (x / 2 ^ (21 * Z.of_nat n) < top + 1); [|lia]. apply Z.div_lt_upper_bound; lia.
Qed.

Lemma load_3_at b o : bytes_ok b → 0 <= o → o + 3 <= Z.of_nat (length b) →
  load_3 b o = Some ((le_val b / 2 ^ (8 * o)) mod 2 ^ 24).
Proof. intros Hb H0 Ho. rewrite <- (Z2Nat.id o) by done. apply load_3_eq; [done|lia]. Qed.
Lemma load_4_at b o : bytes_ok b → 0 <= o → o + 4 <= Z.of_nat (length b) →
  load_4 b o = Some ((le_val b / 2 ^ (8 * o)) mod 2 ^ 32).
Proof. intros Hb H0 Ho. rewrite <- (Z2Nat.id o) by done. apply load_4_eq; [done|lia]. Qed.

Ltac load_limbs := repeat (first [rewrite load_3_at by (done || lia)|rewrite load_4_at by (done || lia)]; cbn [mbind option_bind]).
Ltac equal_limbs :=
  repeat (apply (f_equal2 cons); [first [apply limb_in_word; lia|apply limb_at_word; lia|apply last_limb; lia]|]).

Lemma load_scalar_eq a : length a = 32%nat → bytes_ok a → load_scalar a = Some (limbs_of 11 (le_val a)).
Proof.
  intros Hl Ha. pose proof (le_val_bound a Ha) as Hv. rewrite Hl in Hv. change (8 * Z.of_nat 32) with 256 in Hv.
  unfold load_scalar. load_limbs. f_equal. unfold limbs_of. cbn [seq fmap list_fmap app]. equal_limbs. reflexivity.
Qed.

Lemma load_wide_eq s : length s = 64%nat → bytes_ok s → load_wide s = Some (limbs_of 23 (le_val s)).
Proof.
  intros Hl Ha. pose proof (le_val_bound s Ha) as Hv. rewrite Hl in Hv. change (8 * Z.of_nat 64) with 512 in Hv.
  unfold load_wide. load_limbs. f_equal. unfold limbs_of. cbn [seq fmap list_fmap app]. equal_limbs. reflexivity.
Qed.

(** ** Storing limbs *)

(** The low bits of a sum, and its bits from [o] on. *)
Lemma high_part x h o n : 0 <= o <= n → (x + 2 ^ n * h) / 2 ^ o = x / 2 ^ o + 2 ^ (n - o) * h.
Proof.
  intros Ho. replace n with (o + (n - o)) at 1 by lia. rewrite Z.pow_add_r by lia.
  replace (x + 2 ^ o * 2 ^ (n - o) * h) with (x + (2 ^ (n - o) * h) * 2 ^ o) by ring. by rewrite Z.div_add by lia.
Qed.

Lemma byte_multiple x h n : 8 <= n → (x + 2 ^ n * h) mod 2 ^ 8 = x mod 2 ^ 8.
Proof.
  intros Hn. replace n with (8 + (n - 8)) by lia. rewrite Z.pow_add_r by lia.
  replace (x + 2 ^ 8 * 2 ^ (n - 8) * h) with (x + (2 ^ (n - 8) * h) * 2 ^ 8) by ring. apply Z_mod_plus_full.
Qed.

Section store.
Variables (l : list Z).
Hypothesis (Hlen : length l = 12%nat).
Hypothesis (Hlim : Forall limb21 (take 11 l)).

Lemma limbs_div k : (k <= 11)%nat → limb_val l / 2 ^ (21 * Z.of_nat k) = limb_val (drop k l).
Proof.
  intros Hk. rewrite <- (take_drop k l) at 1. rewrite limb_val_app, length_take, Nat.min_l by lia.
  assert (Forall limb21 (take k l)) as Ht.
  { replace (take k l) with (take k (take 11 l)) by (rewrite take_take; f_equal; lia). by apply Forall_take. }
  apply limb_val_bound in Ht. rewrite length_take, Nat.min_l in Ht by lia.
  rewrite Z.add_comm, Z.mul_comm, Z.div_add_l by lia. rewrite Z.div_small by done. lia.
Qed.

Lemma limb_lookup k x : l !! k = Some x → (k < 11)%nat → limb21 x.
Proof. intros Hx Hk. apply (Forall_lookup_1 _ (take 11 l) k); [done|]. by rewrite lookup_take_lt. Qed.

Lemma byte_at k o j : (k <= 11)%nat → 0 <= o → 8 * Z.of_nat j = 21 * Z.of_nat k + o →
  limb_val l / 2 ^ (8 * Z.of_nat j) = limb_val (drop k l) / 2 ^ o.
Proof. intros Hk Ho ->. by rewrite Z.pow_add_r, <- Zdiv_Zdiv, limbs_div by lia. Qed.

Lemma low_byte_eq k x o j : l !! k = Some x → 0 <= o → o + 8 <= 21 ∨ S k = length l →
  8 * Z.of_nat j = 21 * Z.of_nat k + o → low_byte x o = limb_val l / 2 ^ (8 * Z.of_nat j) mod 2 ^ 8.
Proof.
  intros Hx Ho H Hj. pose proof (lookup_lt_Some _ _ _ Hx). rewrite (byte_at k o) by (done || lia).
  unfold low_byte, u8, wrap. rewrite Z.shiftr_div_pow2 by done. rewrite (drop_S _ _ _ Hx).
  cbn [limb_val foldr]. fold (limb_val (drop (S k) l)). destruct H as [H|H].
  - by rewrite high_part, byte_multiple by lia.
  - rewrite drop_ge by lia. cbn [limb_val foldr]. by rewrite Z.mul_0_r, Z.add_0_r.
Qed.

Lemma joined_byte_eq k x y o u j : l !! k = Some x → l !! S k = Some y → 0 <= y < 2 ^ 32 → 13 <= o → o + u = 21 → 0 <= u →
  8 * Z.of_nat j = 21 * Z.of_nat k + o → joined_byte x o y u = limb_val l / 2 ^ (8 * Z.of_nat j) mod 2 ^ 8.
Proof.
  intros Hx Hy Hyb Ho Hu Hu0 Hj. pose proof (lookup_lt_Some _ _ _ Hy).
  pose proof (limb_lookup k x Hx ltac:(lia)) as Hxb. unfold limb21 in Hxb. rewrite (byte_at k o) by (done || lia).
  rewrite (drop_S _ _ _ Hx), (drop_S _ _ _ Hy). cbn [limb_val foldr]. fold (limb_val (drop (S (S k)) l)).
  rewrite high_part by lia. replace (21 - o) with u by lia. rewrite Z.mul_add_distr_l, Z.mul_assoc, <- Z.pow_add_r by lia.
  rewrite Z.add_assoc, byte_multiple by lia. unfold joined_byte, u8, wrap. f_equal.
  assert (0 <= x / 2 ^ o < 2 ^ u) as Hd.
  { split; [apply Z.div_pos; lia|]. apply Z.div_lt_upper_bound; [lia|]. rewrite <- Z.pow_add_r, Hu by lia. lia. }
  assert (2 ^ u <= 2 ^ 8) by (apply Z.pow_le_mono_r; lia).
  assert (0 <= y * 2 ^ u < 2 ^ 64) by (split; [lia|]; apply (Z.lt_le_trans _ (2 ^ 32 * 2 ^ u)); nia).
  rewrite Z.shiftl_1_l, Z.shiftr_div_pow2 by lia. rewrite (u64_small y), !u64_small by (unfold is_uint; lia).
  rewrite <- Z.shiftl_mul_pow2 by lia. rewrite lor_shift_add by lia. ring.
Qed.
End store.

Lemma le_bytes_digits n x : le_bytes n x = (λ j, x / 2 ^ (8 * Z.of_nat j) mod 2 ^ 8) <$> seq 0 n.
Proof.
  revert x. induction n as [|n IH]; intros x; [done|]. cbn [le_bytes seq]. rewrite IH, fmap_cons. f_equal.
  - by rewrite Z.div_1_r.
  - rewrite <- fmap_S_seq, <- list_fmap_compose. apply list_fmap_ext. intros i j _. cbn [compose].
    change 256 with (2 ^ 8). rewrite Zdiv_Zdiv, <- Z.pow_add_r by lia. do 3 f_equal. lia.
Qed.

(** Writing after what has been written. *)
Lemma wr_next (l out : bytes) i v : Z.of_nat (length l) = i → (length l < length out)%nat →
  wr (l ++ drop (length l) out) i v = Some ((l ++ [v]) ++ drop (length (l ++ [v])) out).
Proof.
  intros <- Hl. rewrite wr_lt by (rewrite length_app, length_drop; lia). f_equal. rewrite Nat2Z.id.
  destruct (lookup_lt_is_Some_2 out (length l)) as [x Hx]; [done|]. rewrite (drop_S _ _ _ Hx).
  rewrite insert_app_r_alt, Nat.sub_diag by lia. cbn [insert list_insert]. rewrite length_app, Nat.add_1_r, <- app_assoc. done.
Qed.

Ltac write_next := rewrite wr_next by (reflexivity || (cbn [length app]; lia)); cbn [mbind option_bind].
Ltac equal_bytes :=
  repeat (apply (f_equal2 cons);
    [match goal with
     | |- low_byte _ ?o = _ / 2 ^ (8 * Z.of_nat ?j) mod _ =>
         let k := eval vm_compute in (Z.to_nat ((8 * Z.of_nat j - o) / 21)) in
         apply (low_byte_eq _ ltac:(eassumption) ltac:(eassumption) k); [reflexivity|lia|cbn [length]; lia|lia]
     | |- joined_byte _ ?o _ _ = _ / 2 ^ (8 * Z.of_nat ?j) mod _ =>
         let k := eval vm_compute in (Z.to_nat ((8 * Z.of_nat j - o) / 21)) in
         apply (joined_byte_eq _ ltac:(eassumption) ltac:(eassumption) k); [reflexivity|reflexivity| |lia..]
     end|]).

Lemma store_scalar_eq out l r : length l = 12%nat → Forall limb21 (take 11 l) → (∀ x, l !! 11%nat = Some x → 0 <= x < 2 ^ 32) →
  (32 <= length out)%nat → store_scalar out (l ++ r) = Some (le_bytes 32 (limb_val l) ++ drop 32 out).
Proof.
  intros Hl Hlim H11 Ho. rewrite le_bytes_digits. unfold store_scalar.
  destruct l as [|s0 [|s1 [|s2 [|s3 [|s4 [|s5 [|s6 [|s7 [|s8 [|s9 [|s10 [|s11 [|]]]]]]]]]]]]]; try discriminate Hl.
  set (l := [s0; s1; s2; s3; s4; s5; s6; s7; s8; s9; s10; s11]) in *.
  change ((l ++ r).[0]) with (Some s0). change ((l ++ r).[1]) with (Some s1). change ((l ++ r).[2]) with (Some s2).
  change ((l ++ r).[3]) with (Some s3). change ((l ++ r).[4]) with (Some s4). change ((l ++ r).[5]) with (Some s5).
  change ((l ++ r).[6]) with (Some s6). change ((l ++ r).[7]) with (Some s7). change ((l ++ r).[8]) with (Some s8).
  change ((l ++ r).[9]) with (Some s9). change ((l ++ r).[10]) with (Some s10). change ((l ++ r).[11]) with (Some s11).
  cbn [mbind option_bind]. change out with ([] ++ drop (length (@nil Z)) out) at 1.
  do 32 write_next. f_equal. f_equal. cbn [app].
  cbn [seq fmap list_fmap].
  pose proof Hlim as Hall. unfold l in Hall. cbn [take] in Hall. rewrite !Forall_cons in Hall. unfold limb21 in Hall.
  destruct Hall as (? & ? & ? & ? & ? & ? & ? & ? & ? & ? & ? & _). pose proof (H11 s11 eq_refl).
  equal_bytes; try lia. reflexivity.
Qed.

(** ** Products *)

Definition carry_product_iv (I : list (Z * Z)) : option (list (Z * Z)) :=
  I ← each carry_round_iv [0; 2; 4; 6; 8; 10; 12; 14; 16; 18; 20; 22] I;
  each carry_round_iv [1; 3; 5; 7; 9; 11; 13; 15; 17; 19; 21] I.

Lemma carry_product_refines : refines carry_product carry_product_iv (λ s s', val 24 s' = val 24 s).
Proof.
  unfold carry_product, carry_product_iv.
  apply (refines_seq _ _ _ _ (λ s s', val 24 s' = val 24 s) (λ s s', val 24 s' = val 24 s)).
  - apply (each_keeps carry_round carry_round_iv 24); [exact carry_round_refines|by_computation].
  - apply (each_keeps carry_round carry_round_iv 24); [exact carry_round_refines|by_computation].
  - intros s t u <-. done.
Qed.

(** The intervals of the sums of products. *)
Definition product_iv : list (Z * Z) := replicate 22 (0, 2 ^ 48) ++ [(0, 2 ^ 50 - 1); (0, 0)].
Definition carried_iv : list (Z * Z) := default [] (carry_product_iv product_iv).

(** Intervals inside others. *)
Definition narrower (r q : Z * Z) : Prop := q.1 <= r.1 ∧ r.2 <= q.2.
#[export] Instance narrower_dec r q : Decision (narrower r q).
Proof. unfold narrower. apply _. Defined.
Lemma within_widen s I J : within s I → Forall2 narrower I J → within s J.
Proof.
  intros H. revert J. induction H as [|x r s I Hx _ IH]; intros J HJ; inversion HJ; subst; constructor; [|by apply IH].
  unfold inside, narrower in *. lia.
Qed.

Lemma carried_iv_eq : carry_product_iv product_iv = Some carried_iv.
Proof. by vm_compute. Qed.
Lemma carried_iv_narrower : Forall2 narrower carried_iv start_iv.
Proof. by_computation. Qed.
Lemma loaded_iv_narrower : Forall2 narrower (loaded_iv 23 (2 ^ 29 - 1)) start_iv.
Proof. by_computation. Qed.

Lemma le_mul x y m n : 0 <= x <= m → 0 <= y <= n → 0 <= x * y <= m * n.
Proof. nia. Qed.
Lemma le_add x y m n : 0 <= x <= m → 0 <= y <= n → 0 <= x + y <= m + n.
Proof. lia. Qed.
Lemma le_weaken x m n : 0 <= x <= m → (m <=? n) = true → 0 <= x <= n.
Proof. lia. Qed.
Lemma i64_small x n : 0 <= x <= n → (n <? 2 ^ 63) = true → i64 x = Some x.
Proof. intros Hx Hn. unfold i64. rewrite (proj2 (Z.leb_le _ _)), (proj2 (Z.ltb_lt _ _)) by lia. done. Qed.

(** A sum of products of bounded limbs. *)
Ltac sum_bound := eapply le_weaken; [repeat first [eassumption|apply le_add|apply le_mul]|vm_compute; reflexivity].
Ltac next_sum n :=
  match goal with
  | |- context [i64 ?e] => assert (0 <= e <= n) by sum_bound; rewrite (i64_small e n) by (assumption || reflexivity); cbn [mbind option_bind]
  end.
Ltac bounded_limbs H := unfold loaded_iv in H; cbn [replicate app] in H; unfold within in H; rewrite !Forall2_cons in H;
  unfold inside in H; cbn [fst snd] in H; destruct H as (? & ? & ? & ? & ? & ? & ? & ? & ? & ? & ? & ? & _).
Ltac read_limbs :=
  repeat match goal with
  | |- context [rd ?l ?i] => let r := eval vm_compute in (rd l i) in change (rd l i) with r; cbn [mbind option_bind]
  end.
Ltac within_sums := repeat (apply Forall2_cons_2; [unfold inside; cbn [fst snd]; (assumption || lia)|]); apply Forall2_nil_2.

Section products.
Variables (a b c : list Z).
Hypothesis (Ha : within a (loaded_iv 11 (2 ^ 25 - 1))).
Hypothesis (Hb : within b (loaded_iv 11 (2 ^ 25 - 1))).

Lemma product_eq : ∃ s, product a b = Some s ∧ within s product_iv ∧ val 24 s = limb_val a * limb_val b.
Proof.
  pose proof (Forall2_length _ _ _ Ha) as La. pose proof (Forall2_length _ _ _ Hb) as Lb.
  destruct a as [|a0 [|a1 [|a2 [|a3 [|a4 [|a5 [|a6 [|a7 [|a8 [|a9 [|a10 [|a11 [|]]]]]]]]]]]]]; try discriminate La.
  destruct b as [|b0 [|b1 [|b2 [|b3 [|b4 [|b5 [|b6 [|b7 [|b8 [|b9 [|b10 [|b11 [|]]]]]]]]]]]]]; try discriminate Lb.
  bounded_limbs Ha. bounded_limbs Hb. unfold product.
  read_limbs.
  do 22 next_sum (2 ^ 48). next_sum (2 ^ 50 - 1). eexists. split; [reflexivity|]. split.
  - unfold product_iv. cbn [replicate app]. within_sums.
  - unfold val. cbn [take limb_val foldr]. ring.
Qed.

Hypothesis (Hc : within c (loaded_iv 11 (2 ^ 25 - 1))).

Lemma product_add_eq : ∃ s, product_add a b c = Some s ∧ within s product_iv ∧
  val 24 s = limb_val a * limb_val b + limb_val c.
Proof.
  pose proof (Forall2_length _ _ _ Ha) as La. pose proof (Forall2_length _ _ _ Hb) as Lb.
  pose proof (Forall2_length _ _ _ Hc) as Lc.
  destruct a as [|a0 [|a1 [|a2 [|a3 [|a4 [|a5 [|a6 [|a7 [|a8 [|a9 [|a10 [|a11 [|]]]]]]]]]]]]]; try discriminate La.
  destruct b as [|b0 [|b1 [|b2 [|b3 [|b4 [|b5 [|b6 [|b7 [|b8 [|b9 [|b10 [|b11 [|]]]]]]]]]]]]]; try discriminate Lb.
  destruct c as [|c0 [|c1 [|c2 [|c3 [|c4 [|c5 [|c6 [|c7 [|c8 [|c9 [|c10 [|c11 [|]]]]]]]]]]]]]; try discriminate Lc.
  bounded_limbs Ha. bounded_limbs Hb. bounded_limbs Hc. unfold product_add. read_limbs.
  do 22 next_sum (2 ^ 48). next_sum (2 ^ 50 - 1). eexists. split; [reflexivity|]. split.
  - unfold product_iv. cbn [replicate app]. within_sums.
  - unfold val. cbn [take limb_val foldr]. ring.
Qed.
End products.

(** ** The functions *)

(** Storing a reduced number. *)
Lemma store_reduced out s v : reduced s v → (32 <= length out)%nat →
  store_scalar out s = Some (le_bytes 32 (v mod ed_order) ++ drop 32 out).
Proof.
  intros (Hl & Hlim & Hv) Ho. rewrite <- Hv, <- (take_drop 12 s) at 1. unfold val.
  assert (length (take 12 s) = 12%nat) as H12 by (rewrite length_take; lia).
  assert (take 11 (take 12 s) = take 11 s) as H11 by (by rewrite take_take).
  apply store_scalar_eq; [done|by rewrite H11| |done]. intros x Hx.
  pose proof (Z.mod_pos_bound v ed_order ltac:(by vm_compute)) as Hb. rewrite <- Hv in Hb.
  rewrite lookup_take_lt in Hx by lia. rewrite (val_S 11 s x Hx), order_value in Hb.
  pose proof (limb_val_bound _ Hlim) as Hlo. rewrite length_take, Nat.min_l in Hlo by lia. fold (val 11 s) in Hlo.
  change (21 * Z.of_nat 11) with 231 in *. lia.
Qed.

(** The reduction and the store, from limbs within the intervals. *)
Lemma reduce_store out s : within s start_iv → (32 <= length out)%nat →
  (t ← reduce_wide s; t ← reduce_final t; store_scalar out t) =
    Some (le_bytes 32 (val 24 s mod ed_order) ++ drop 32 out).
Proof.
  intros Hs Ho. destruct (reduce_eq s Hs) as (t & u & -> & Hu & Hr). cbn [mbind option_bind]. rewrite Hu.
  cbn [mbind option_bind]. by apply store_reduced.
Qed.

Lemma scalar_limbs a : length a = 32%nat → bytes_ok a → within (limbs_of 11 (le_val a)) (loaded_iv 11 (2 ^ 25 - 1)).
Proof.
  intros Hl Ha. apply limbs_of_within. pose proof (le_val_bound a Ha) as Hv. rewrite Hl in Hv.
  change (8 * Z.of_nat 32) with 256 in Hv. change ((2 ^ 25 - 1 + 1) * 2 ^ (21 * Z.of_nat 11)) with (2 ^ 256). lia.
Qed.

Lemma carry_reduce_store out s : within s product_iv → (32 <= length out)%nat →
  (t ← carry_product s; t ← reduce_wide t; t ← reduce_final t; store_scalar out t) =
    Some (le_bytes 32 (val 24 s mod ed_order) ++ drop 32 out).
Proof.
  intros Hs Ho. destruct (carry_product_refines s _ _ Hs carried_iv_eq) as (t & -> & Ht & <-). cbn [mbind option_bind].
  apply reduce_store; [exact (within_widen _ _ _ Ht carried_iv_narrower)|done].
Qed.

Lemma sc_mul_eq s a b : (32 <= length s)%nat → length a = 32%nat → length b = 32%nat → bytes_ok a → bytes_ok b →
  sc25519_mul s a b = Some (le_bytes 32 ((le_val a * le_val b) mod ed_order) ++ drop 32 s).
Proof.
  intros Ls La Lb Ha Hb. unfold sc25519_mul. rewrite (load_scalar_eq a), (load_scalar_eq b) by done. cbn [mbind option_bind].
  destruct (product_eq _ _ (scalar_limbs a La Ha) (scalar_limbs b Lb Hb)) as (t & -> & Ht & Hv). cbn [mbind option_bind].
  rewrite !limbs_of_value in Hv. rewrite <- Hv. by apply carry_reduce_store.
Qed.

Lemma sc_muladd_eq s a b c : (32 <= length s)%nat → length a = 32%nat → length b = 32%nat → length c = 32%nat →
  bytes_ok a → bytes_ok b → bytes_ok c →
  sc25519_muladd s a b c = Some (le_bytes 32 ((le_val a * le_val b + le_val c) mod ed_order) ++ drop 32 s).
Proof.
  intros Ls La Lb Lc Ha Hb Hc. unfold sc25519_muladd. rewrite (load_scalar_eq a), (load_scalar_eq b), (load_scalar_eq c) by done.
  cbn [mbind option_bind].
  destruct (product_add_eq _ _ _ (scalar_limbs a La Ha) (scalar_limbs b Lb Hb) (scalar_limbs c Lc Hc)) as (t & -> & Ht & Hv).
  cbn [mbind option_bind]. rewrite !limbs_of_value in Hv. rewrite <- Hv. by apply carry_reduce_store.
Qed.

Lemma sc_reduce_eq s : length s = 64%nat → bytes_ok s →
  sc25519_reduce s = Some (le_bytes 32 (le_val s mod ed_order) ++ drop 32 s).
Proof.
  intros Ls Hs. unfold sc25519_reduce. rewrite load_wide_eq by done. cbn [mbind option_bind].
  pose proof (limbs_of_value 23 (le_val s)) as Hv. rewrite reduce_store; [|..|lia].
  - do 4 f_equal. rewrite <- Hv at 2. reflexivity.
  - apply (within_widen _ (loaded_iv 23 (2 ^ 29 - 1))); [|exact loaded_iv_narrower]. apply limbs_of_within.
    pose proof (le_val_bound s Hs) as Hb. rewrite Ls in Hb. change (8 * Z.of_nat 64) with 512 in Hb.
    change ((2 ^ 29 - 1 + 1) * 2 ^ (21 * Z.of_nat 23)) with (2 ^ 512). lia.
Qed.

(** ** The inverse *)

Section powers.
Variables (x : Z).

(** A scalar equal to [x^e] modulo [L]. *)
Definition scalar_power (e : Z) (b : bytes) : Prop :=
  length b = 32%nat ∧ bytes_ok b ∧ le_val b mod ed_order = x ^ e mod ed_order.

Lemma order_range y : 0 <= y mod ed_order < 2 ^ (8 * Z.of_nat 32).
Proof.
  pose proof (Z.mod_pos_bound y ed_order ltac:(by vm_compute)). assert (ed_order < 2 ^ (8 * Z.of_nat 32)) by (by vm_compute). lia.
Qed.

Lemma power_canonical e : scalar_power e (le_bytes 32 (x ^ e mod ed_order)).
Proof.
  split; [apply le_bytes_length|]. split; [apply le_bytes_ok|]. by rewrite le_val_bytes, Zmod_mod by apply order_range.
Qed.

Lemma mul_power t a b e f g : length t = 32%nat → scalar_power e a → scalar_power f b → 0 <= e → 0 <= f → e + f = g →
  sc25519_mul t a b = Some (le_bytes 32 (x ^ g mod ed_order)).
Proof.
  intros Ht (La & Ha & Va) (Lb & Hb & Vb) He Hf <-. rewrite sc_mul_eq by (done || lia).
  rewrite drop_ge, app_nil_r by lia. by rewrite Zmult_mod, Va, Vb, <- Zmult_mod, Z.pow_add_r by done.
Qed.

Lemma power_length e b : scalar_power e b → length b = 32%nat.
Proof. by intros (? & _). Qed.

Lemma squares_power s n e : scalar_power e s → 0 <= e →
  ∃ r, for_range n (λ _ s, sc25519_sq s s) s = Some r ∧ scalar_power (e * 2 ^ Z.of_nat n) r.
Proof.
  intros Hs He. apply (for_range_inv (λ k r, scalar_power (e * 2 ^ Z.of_nat k) r)); [by rewrite Z.mul_1_r|].
  intros k t _ Ht. eexists. split; [|apply power_canonical]. unfold sc25519_sq.
  apply (mul_power _ _ _ (e * 2 ^ Z.of_nat k) (e * 2 ^ Z.of_nat k)); [by eapply power_length|done|done|lia|lia|].
  rewrite Nat2Z.inj_succ, Z.pow_succ_r by lia. ring.
Qed.

Lemma sqmul_power s n a e f g : scalar_power e s → scalar_power f a → 0 <= e → 0 <= f → e * 2 ^ Z.of_nat n + f = g →
  sc25519_sqmul s n a = Some (le_bytes 32 (x ^ g mod ed_order)).
Proof.
  intros Hs Ha He Hf Hg. unfold sc25519_sqmul. destruct (squares_power s n e Hs He) as (r & -> & Hr). cbn [mbind option_bind].
  eapply (mul_power _ _ _ (e * 2 ^ Z.of_nat n) f); [by eapply power_length|done|done|lia|done|done].
Qed.

(** One product of the chain: its exponent is computed. *)
Ltac to_power e :=
  generalize (power_canonical e); generalize (le_bytes 32 (x ^ e mod ed_order)); intros ? ?; cbn [mbind option_bind].
Ltac chain_step :=
  match goal with
  | H : scalar_power ?e ?a |- context [sc25519_sq ?t ?a] =>
      let g := eval vm_compute in (e + e) in change (sc25519_sq t a) with (sc25519_mul t a a);
      rewrite (mul_power t a a e e g) by (assumption || reflexivity || lia || (by eapply power_length)); to_power g
  | H : scalar_power ?e ?a, H' : scalar_power ?f ?b |- context [sc25519_mul ?t ?a ?b] =>
      let g := eval vm_compute in (e + f) in
      rewrite (mul_power t a b e f g) by (assumption || reflexivity || lia || (by eapply power_length)); to_power g
  | H : scalar_power ?e ?a, H' : scalar_power ?f ?b |- context [sc25519_sqmul ?a ?n ?b] =>
      let g := eval vm_compute in (e * 2 ^ Z.of_nat n + f) in
      rewrite (sqmul_power a n b e f g) by (assumption || lia || (vm_compute; reflexivity)); to_power g
  end.

Lemma invert_power recip s : length recip = 32%nat → scalar_power 1 s →
  sc25519_invert recip s = Some (le_bytes 32 (x ^ (ed_order - 2) mod ed_order)).
Proof.
  intros Hr Hs. unfold sc25519_invert. cbv zeta. assert (length (replicate 32 (0 : Z)) = 32%nat) as Ht by done.
  revert Ht. generalize (replicate 32 (0 : Z)). intros tmp Ht.
  do 38 chain_step.
  match goal with
  | H : scalar_power ?e ?a, H' : scalar_power ?f ?b |- sc25519_sqmul ?a ?n ?b = _ =>
      apply (sqmul_power a n b e f (ed_order - 2)); [exact H|exact H'|lia|lia|vm_compute; reflexivity]
  end.
Qed.
End powers.

Lemma sc_invert_eq recip s : length recip = 32%nat → length s = 32%nat → bytes_ok s →
  sc25519_invert recip s = Some (le_bytes 32 (le_val s ^ (ed_order - 2) mod ed_order)).
Proof. intros Hr Hl Hs. apply invert_power; [done|]. split; [done|]. split; [done|]. by rewrite Z.pow_1_r. Qed.

Lemma power_inverts x : x mod ed_order ≠ 0 → (x * (x ^ (ed_order - 2) mod ed_order)) mod ed_order = 1.
Proof.
  intros Hx. rewrite Zmult_mod_idemp_r. assert (2 < ed_order) as Ho by (by vm_compute).
  replace (x * x ^ (ed_order - 2)) with (x ^ (ed_order - 1)).
  - apply Z.fermat_nz; [apply prime_order|exact Hx].
  - replace (ed_order - 1) with (Z.succ (ed_order - 2)) by lia. apply Z.pow_succ_r. lia.
Qed.

(** ** Canonical scalars *)

Lemma less_flag x y : is_u8 x → is_u8 y → ∀ e : bool, ((x - y) ≫ 8) &' Z.b2z e = Z.b2z ((x <? y) && e).
Proof.
  intros Hx Hy e. unfold is_uint in *. destruct e; [|by rewrite Z.land_0_r, andb_false_r]. cbn [Z.b2z].
  rewrite andb_true_r, land_1, Z.shiftr_div_pow2 by lia. destruct (Z.ltb_spec x y).
  - by replace ((x - y) / 2 ^ 8) with (-1) by (apply (Z.div_unique _ _ _ (x - y + 256)); lia).
  - by rewrite Z.div_small by lia.
Qed.

Lemma same_flag x y : is_u8 x → is_u8 y → ∀ e : bool, u8 (Z.b2z e &' (((x ^' y) - 1) ≫ 8)) = Z.b2z ((x =? y) && e).
Proof.
  intros Hx Hy e. assert (is_u8 (x ^' y)) as Hz by (by apply lxor_uint; [lia|..]).
  rewrite Z.land_comm. destruct e; [|by rewrite Z.land_0_r, andb_false_r]. cbn [Z.b2z]. rewrite andb_true_r.
  rewrite land_1, Z.shiftr_div_pow2 by lia. destruct (Z.eqb_spec x y) as [->|Hne].
  - by rewrite Z.lxor_nilpotent.
  - assert (x ^' y ≠ 0) by (by rewrite lxor_zero_iff). unfold is_uint in Hz. by rewrite Z.div_small by lia.
Qed.

Lemma canonical_step_eq s i x y A B : s !! i = Some x → canonical_L !! i = Some y → is_u8 x → is_u8 y →
  canonical_step s (Z.of_nat i) (Z.b2z (A <? B), Z.b2z (A =? B)) =
    Some (Z.b2z (x + 256 * A <? y + 256 * B), Z.b2z (x + 256 * A =? y + 256 * B)).
Proof.
  intros Hx Hy Ux Uy. unfold canonical_step. rewrite !rd_nat, Hx, Hy. cbn [mbind option_bind].
  rewrite less_flag, same_flag by done. unfold is_uint in *.
  replace (x + 256 * A =? y + 256 * B) with ((x =? y) && (A =? B)) by lia. do 2 f_equal.
  replace (x + 256 * A <? y + 256 * B) with ((A <? B) || ((x <? y) && (A =? B))) by lia.
  by destruct (A <? B), ((x <? y) && (A =? B)).
Qed.

Lemma canonical_L_ok : bytes_ok canonical_L ∧ length canonical_L = 32%nat ∧ le_val canonical_L = ed_order.
Proof. split; [by_computation|by vm_compute]. Qed.

Lemma sc_is_canonical_eq s : bytes_ok s → length s = 32%nat →
  sc25519_is_canonical s = Some (Z.b2z (le_val s <? ed_order)).
Proof.
  intros Hs Hl. unfold sc25519_is_canonical. destruct canonical_L_ok as (HL & LL & <-).
  destruct (for_range_inv (λ j st, st = (Z.b2z (le_val (drop (32 - j) s) <? le_val (drop (32 - j) canonical_L)),
    Z.b2z (le_val (drop (32 - j) s) =? le_val (drop (32 - j) canonical_L)))) 32
    (λ k, canonical_step s (31 - Z.of_nat k)) (0, 1)) as (st & -> & ->).
  - by rewrite Nat.sub_0_r, !drop_ge by lia.
  - intros j st Hj ->. eexists. split; [|reflexivity]. replace (31 - Z.of_nat j) with (Z.of_nat (32 - S j)) by lia.
    destruct (lookup_lt_is_Some_2 s (32 - S j)) as [x Hx]; [lia|].
    destruct (lookup_lt_is_Some_2 canonical_L (32 - S j)) as [y Hy]; [lia|].
    rewrite (drop_S _ _ _ Hx), (drop_S _ _ _ Hy). replace (S (32 - S j)) with (32 - j)%nat by lia. cbn [le_val].
    apply canonical_step_eq; [done|done|exact (Forall_lookup_1 _ _ _ _ Hs Hx)|exact (Forall_lookup_1 _ _ _ _ HL Hy)].
  - cbn [mbind option_bind fst]. rewrite Nat.sub_diag, !drop_0. f_equal. by destruct (le_val s <? le_val canonical_L).
Qed.

(** ** Properties *)

(** C12: arithmetic modulo the order [L] of the base point.  On any 32-byte numbers
    [sc25519_mul] and [sc25519_muladd] run without an overflow of [int64_t] and without
    leaving a buffer, and write the 32 bytes of [a b mod L] and [a b + c mod L];
    [sc25519_reduce] does so with its 64-byte argument, leaving the second half; and
    [sc25519_is_canonical] accepts exactly the numbers below [L], so what the three
    functions write. *)
Theorem scalar_arithmetic s a b c w : length s = 32%nat → length a = 32%nat → length b = 32%nat → length c = 32%nat →
  length w = 64%nat → bytes_ok a → bytes_ok b → bytes_ok c → bytes_ok w →
  sc25519_mul s a b = Some (le_bytes 32 ((le_val a * le_val b) mod ed_order)) ∧
  sc25519_muladd s a b c = Some (le_bytes 32 ((le_val a * le_val b + le_val c) mod ed_order)) ∧
  sc25519_reduce w = Some (le_bytes 32 (le_val w mod ed_order) ++ drop 32 w) ∧
  sc25519_is_canonical a = Some (Z.b2z (le_val a <? ed_order)) ∧
  (∀ v, sc25519_is_canonical (le_bytes 32 (v mod ed_order)) = Some 1).
Proof.
  intros Ls La Lb Lc Lw Ha Hb Hc Hw.
  rewrite sc_mul_eq, sc_muladd_eq, sc_reduce_eq, sc_is_canonical_eq by (done || lia).
  rewrite drop_ge, !app_nil_r by lia. split_and!; try done. intros v.
  rewrite sc_is_canonical_eq by (apply le_bytes_ok || apply le_bytes_length).
  rewrite le_val_bytes by apply order_range. f_equal.
  pose proof (Z.mod_pos_bound v ed_order ltac:(by vm_compute)). by rewrite (proj2 (Z.ltb_lt _ _)) by lia.
Qed.

(** Scalars with every byte at its largest. *)
Lemma scalar_arithmetic_witness :
  let f := replicate 32 255 in let s := replicate 32 0 in let w := replicate 64 255 in
  sc25519_mul s f f = Some (le_bytes 32 ((2 ^ 256 - 1) * (2 ^ 256 - 1) mod ed_order)) ∧
  sc25519_reduce w = Some (le_bytes 32 ((2 ^ 512 - 1) mod ed_order) ++ replicate 32 255) ∧
  sc25519_is_canonical f = Some 0.
Proof.
  destruct (scalar_arithmetic (replicate 32 0) (replicate 32 255) (replicate 32 255) (replicate 32 255) (replicate 64 255)
    eq_refl eq_refl eq_refl eq_refl eq_refl ltac:(by_computation) ltac:(by_computation) ltac:(by_computation) ltac:(by_computation))
    as (H1 & _ & H2 & H3 & _).
  cbv zeta. rewrite H1, H2, H3. split_and!; by vm_compute.
Defined.

(** C13: [sc25519_invert] inverts modulo [L]: for every 32-byte number that is not a
    multiple of [L] its chain of products writes the canonical inverse, so that the
    product of the two is one.  Its step [sc25519_sqmul s n a] computes
    [s^(2^n) a mod L] for every [s], multiples of [L] included, every [a] and [n]. *)
Theorem scalar_inverse recip s : length recip = 32%nat → length s = 32%nat → bytes_ok s →
  (le_val s mod ed_order ≠ 0 → ∃ r, sc25519_invert recip s = Some r ∧ sc25519_is_canonical r = Some 1 ∧
     sc25519_mul recip s r = Some (le_bytes 32 1)) ∧
  (∀ n a, length a = 32%nat → bytes_ok a →
     sc25519_sqmul s n a = Some (le_bytes 32 ((le_val s ^ (2 ^ Z.of_nat n) * le_val a) mod ed_order))).
Proof.
  intros Lr Ls Hs. split.
  - intros Hx. eexists. split; [by apply sc_invert_eq|].
    split; [|rewrite sc_mul_eq by (done || lia || apply le_bytes_ok || apply le_bytes_length)].
    + rewrite sc_is_canonical_eq by (apply le_bytes_ok || apply le_bytes_length).
      rewrite le_val_bytes by apply order_range. generalize (le_val s ^ (ed_order - 2)). intros y.
      pose proof (Z.mod_pos_bound y ed_order ltac:(by vm_compute)). by rewrite (proj2 (Z.ltb_lt _ _)) by lia.
    + rewrite drop_ge, app_nil_r by lia. rewrite le_val_bytes by apply order_range. by rewrite power_inverts.
  - intros n a La Ha. destruct (squares_power (le_val s) s n 1) as (r & Hr & Lr' & Or & Vr); [|lia|].
    { split; [done|]. split; [done|]. by rewrite Z.pow_1_r. }
    unfold sc25519_sqmul. rewrite Hr. cbn [mbind option_bind]. rewrite sc_mul_eq by (done || lia).
    rewrite drop_ge, app_nil_r by lia. by rewrite Zmult_mod, Vr, Z.mul_1_l, <- Zmult_mod.
Qed.

Lemma scalar_inverse_witness :
  let s := le_bytes 32 (2 ^ 256 - 189) in let z := le_bytes 32 ed_order in
  (∃ r, sc25519_invert (replicate 32 0) s = Some r ∧ sc25519_is_canonical r = Some 1 ∧
     sc25519_mul (replicate 32 0) s r = Some (le_bytes 32 1)) ∧
  sc25519_sqmul z 3 (replicate 32 7) =
    Some (le_bytes 32 ((le_val z ^ (2 ^ Z.of_nat 3) * le_val (replicate 32 7)) mod ed_order)).
Proof.
  intros s z. split.
  - apply (scalar_inverse (replicate 32 0) s); [done|done|by_computation|by vm_compute].
  - apply (scalar_inverse (replicate 32 0) z); [done|done|by_computation|done|by_computation].
Defined.
