(* ===== verification/Edwards.v ===== *)
(** * The group of the Edwards curve

    The points of the twisted Edwards curve [y^2 - x^2 = 1 + d x^2 y^2] over the field
    of [Primes], in affine coordinates.  Its addition law is complete: [-1] is a square
    and [d] is not, so the denominators never vanish.  The points are shown to be a
    commutative group; the formulas of RFC 8032 on extended coordinates compute in it.
    [smul] multiplies by an integer. *)

From Stdlib Require Import Zpow_facts Eqdep_dec.
From S2P Require Import Prelude Packet Sodium Words Poly1305 Fe25519 Curve25519 Ge25519 Base25519 Primes.
Local Open Scope c_scope.

(** ** Congruences that follow from others *)

#[global] Instance eqp_opp : Proper (eqp ==> eqp) Z.opp.
Proof. intros x y H. change (eqp (0 - x) (0 - y)). by rewrite H. Qed.

Lemma eqp_comb1 g1 c1 x y : eqp c1 0 → x - y = g1 * c1 → eqp x y.
Proof. intros H1 E. apply eqp_same. rewrite E, H1. apply eq_eqp. ring. Qed.
Lemma eqp_comb2 g1 g2 c1 c2 x y : eqp c1 0 → eqp c2 0 → x - y = g1 * c1 + g2 * c2 → eqp x y.
Proof. intros H1 H2 E. apply eqp_same. rewrite E, H1, H2. apply eq_eqp. ring. Qed.
Lemma eqp_comb3 g1 g2 g3 c1 c2 c3 x y : eqp c1 0 → eqp c2 0 → eqp c3 0 →
  x - y = g1 * c1 + g2 * c2 + g3 * c3 → eqp x y.
Proof. intros H1 H2 H3 E. apply eqp_same. rewrite E, H1, H2, H3. apply eq_eqp. ring. Qed.

(** ** The addition law is complete *)

(** What the equation of the curve says is zero. *)
Definition residue (d x y : Z) : Z := y * y - x * x - 1 - d * (x * x) * (y * y).

(** [d x1 x2 y1 y2], which the denominators add to and subtract from 1. *)
Definition cross (d x1 y1 x2 y2 : Z) : Z := d * (x1 * y1) * (x2 * y2).

Lemma no_ratio a b : ¬ eqp a 0 → ¬ eqp (ed_d * (a * a)) (b * b).
Proof.
  intros Ha H. apply (ed_d_nonsquare (b * finv a)).
  apply (quotient_inj (a * a)); [by apply eqp_mul_nz|].
  pose proof (quotient_times a b Ha) as E. revert E. generalize (finv a). intros i E.
  transitivity ((b * i * a) * (b * i * a)); [apply eq_eqp; ring|]. rewrite E. by symmetry.
Qed.

Section complete.
Variables (x1 y1 x2 y2 e : Z).
Hypothesis (H1 : eqp (residue ed_d x1 y1) 0) (H2 : eqp (residue ed_d x2 y2) 0).
Abbreviation t := (cross ed_d x1 y1 x2 y2).
Hypothesis (He : eqp (e * e) 1) (Ht : eqp t e).

(** With [i] a square root of -1: a square times [d] is a square. *)
Lemma complete_square (i : Z) : eqp (i * i) (-1) →
  eqp (ed_d * ((x1 * y1 * (y2 + i * x2)) * (x1 * y1 * (y2 + i * x2)))) ((e * y1 + i * x1) * (e * y1 + i * x1)).
Proof.
  intros Hi.
  assert (eqp (i * i + 1) 0) as Hi' by (by rewrite Hi).
  assert (eqp (t - e) 0) as Ht' by (by apply eqp_diff).
  assert (eqp (e * e - 1) 0) as He' by (by apply eqp_diff).
  transitivity (ed_d * (x1 * y1) * (x1 * y1) * (y2 * y2 - x2 * x2 + 2 * i * x2 * y2)).
  { apply (eqp_comb1 (ed_d * (x1 * y1) * (x1 * y1) * x2 * x2) (i * i + 1)); [exact Hi'|ring]. }
  transitivity (ed_d * (x1 * y1) * (x1 * y1) + t * t + 2 * i * (x1 * y1) * t).
  { apply (eqp_comb1 (ed_d * (x1 * y1) * (x1 * y1)) (residue ed_d x2 y2)); [exact H2|].
    unfold residue, cross. ring. }
  transitivity (y1 * y1 - x1 * x1 - 1 + e * e + 2 * i * (x1 * y1) * e).
  { apply (eqp_comb2 (-1) (t + e + 2 * i * (x1 * y1)) (residue ed_d x1 y1) (t - e)); [exact H1|exact Ht'|].
    unfold residue, cross. ring. }
  apply (eqp_comb2 (1 - y1 * y1) (- x1 * x1) (e * e - 1) (i * i + 1)); [exact He'|exact Hi'|ring].
Qed.

Lemma incomplete : False.
Proof.
  assert (¬ eqp 1 0) as Hn1 by (by vm_compute). assert (¬ eqp 2 0) as Hn2 by (by vm_compute).
  assert (¬ eqp t 0) as Hnt.
  { intros H. apply Hn1. by rewrite <- He, <- Ht, H. }
  assert (¬ eqp (x1 * y1) 0) as Hxy1.
  { intros H. apply Hnt. unfold cross. rewrite H. apply eq_eqp. ring. }
  assert (¬ eqp y2 0) as Hy2.
  { intros H. apply Hnt. unfold cross. rewrite H. apply eq_eqp. ring. }
  assert (∀ i, eqp (i * i) (-1) → eqp (y2 + i * x2) 0) as Hz.
  { intros i Hi. destruct (decide (eqp (y2 + i * x2) 0)) as [|Hnz]; [done|exfalso].
    apply (no_ratio (x1 * y1 * (y2 + i * x2)) (e * y1 + i * x1)); [by apply eqp_mul_nz|].
    by apply complete_square. }
  pose proof (Hz sqrtm1 sqrtm1_squared) as Ha.
  assert (eqp (- sqrtm1 * - sqrtm1) (-1)) as Hm.
  { replace (- sqrtm1 * - sqrtm1) with (sqrtm1 * sqrtm1) by ring. apply sqrtm1_squared. }
  pose proof (Hz (- sqrtm1) Hm) as Hb. apply (eqp_mul_nz 2 y2 Hn2 Hy2).
  apply (eqp_comb2 1 1 _ _ _ _ Ha Hb). ring.
Qed.
End complete.

(** The denominators. *)
Lemma denominators x1 y1 x2 y2 : eqp (residue ed_d x1 y1) 0 → eqp (residue ed_d x2 y2) 0 →
  ¬ eqp (1 + cross ed_d x1 y1 x2 y2) 0 ∧ ¬ eqp (1 - cross ed_d x1 y1 x2 y2) 0.
Proof.
  intros H1 H2. split; intros H.
  - apply (incomplete x1 y1 x2 y2 (-1) H1 H2); [by apply eq_eqp|].
    apply eqp_same. rewrite <- H. apply eq_eqp. ring.
  - apply (incomplete x1 y1 x2 y2 1 H1 H2); [by apply eq_eqp|].
    symmetry. by apply eqp_same.
Qed.

(** ** Polynomial identities *)

Section identities.
Variables (d x1 y1 x2 y2 x3 y3 : Z).
Hypothesis (H1 : eqp (residue d x1 y1) 0) (H2 : eqp (residue d x2 y2) 0) (H3 : eqp (residue d x3 y3) 0).

(** Numerators and denominators of the sum of three points, the first two added first. *)
Definition sum3_x (x1 y1 x2 y2 x3 y3 : Z) : Z :=
  (x1 * y2 + x2 * y1) * (1 - cross d x1 y1 x2 y2) * y3 + (y1 * y2 + x1 * x2) * (1 + cross d x1 y1 x2 y2) * x3.
Definition sum3_y (x1 y1 x2 y2 x3 y3 : Z) : Z :=
  (y1 * y2 + x1 * x2) * (1 + cross d x1 y1 x2 y2) * y3 + (x1 * y2 + x2 * y1) * (1 - cross d x1 y1 x2 y2) * x3.
Definition sum3_d (s x1 y1 x2 y2 x3 y3 : Z) : Z :=
  1 - cross d x1 y1 x2 y2 * cross d x1 y1 x2 y2 +
  s * d * (x1 * y2 + x2 * y1) * (y1 * y2 + x1 * x2) * (x3 * y3).

Lemma assoc_x : eqp (sum3_x x1 y1 x2 y2 x3 y3 * sum3_d 1 x2 y2 x3 y3 x1 y1)
  (sum3_x x2 y2 x3 y3 x1 y1 * sum3_d 1 x1 y1 x2 y2 x3 y3).
Proof.
  apply (eqp_comb3
    (- y1 * x2 * y2 ^ 4 * x3 * x3 * y3 * d - y1 * x2 * x2 * y2 ^ 3 * x3 * d - y1 * x2 * x2 * y2 ^ 3
     * x3 ^ 3 * d - y1 * x2 ^ 3 * y2 * y2 * y3 * d + y1 * x2 ^ 3 * y2 * y2 * y3 ^ 3 * d + y1 * x2 ^
     3 * y2 ^ 4 * x3 * x3 * y3 * d * d + y1 * x2 ^ 4 * y2 * x3 * y3 * y3 * d + y1 * x2 ^ 4 * y2 ^ 3
     * x3 * y3 * y3 * d * d + x1 * x2 * y2 ^ 4 * x3 * y3 * y3 * d - x1 * x2 * x2 * y2 ^ 3 * y3 * d +
     x1 * x2 * x2 * y2 ^ 3 * y3 ^ 3 * d - x1 * x2 ^ 3 * y2 * y2 * x3 * d - x1 * x2 ^ 3 * y2 * y2 *
     x3 ^ 3 * d - x1 * x2 ^ 3 * y2 ^ 4 * x3 * y3 * y3 * d * d - x1 * x2 ^ 4 * y2 * x3 * x3 * y3 * d
     - x1 * x2 ^ 4 * y2 ^ 3 * x3 * x3 * y3 * d * d)
    (- y1 * x2 * y2 * y2 * x3 * x3 * y3 * d - y1 * x2 * x2 * y2 * x3 * y3 * y3 * d + y1 ^ 3 * x2 *
     y2 * y2 * x3 * x3 * y3 * d + y1 ^ 3 * x2 * x2 * y2 * x3 * y3 * y3 * d + x1 * x2 * y2 * y2 * x3
     * y3 * y3 * d + x1 * x2 * x2 * y2 * x3 * x3 * y3 * d - x1 * y1 * y1 * x2 * y2 * y2 * x3 * d -
     x1 * y1 * y1 * x2 * y2 * y2 * x3 ^ 3 * d + x1 * y1 * y1 * x2 * x2 * y2 * y3 * d - x1 * y1 * y1
     * x2 * x2 * y2 * y3 ^ 3 * d + x1 * x1 * y1 * x2 * y2 * y2 * y3 * d - x1 * x1 * y1 * x2 * y2 *
     y2 * y3 ^ 3 * d - x1 * x1 * y1 * x2 * x2 * y2 * x3 * d - x1 * x1 * y1 * x2 * x2 * y2 * x3 ^ 3 *
     d + x1 ^ 3 * x2 * y2 * y2 * x3 * y3 * y3 * d + x1 ^ 3 * x2 * x2 * y2 * x3 * x3 * y3 * d)
    (y1 * x2 * x2 * y2 ^ 3 * x3 * d + y1 * x2 ^ 3 * y2 * y2 * y3 * d - y1 ^ 3 * x2 * x2 * y2 ^ 3 *
     x3 * d - y1 ^ 3 * x2 ^ 3 * y2 * y2 * y3 * d + x1 * x2 * x2 * y2 ^ 3 * y3 * d + x1 * x2 ^ 3 * y2
     * y2 * x3 * d - x1 * y1 * y1 * x2 * y2 ^ 4 * x3 * d + x1 * y1 * y1 * x2 ^ 3 * y2 ^ 4 * x3 * d *
     d - x1 * y1 * y1 * x2 ^ 4 * y2 * y3 * d - x1 * y1 * y1 * x2 ^ 4 * y2 ^ 3 * y3 * d * d + x1 * x1
     * y1 * x2 * y2 ^ 4 * y3 * d - x1 * x1 * y1 * x2 ^ 3 * y2 ^ 4 * y3 * d * d + x1 * x1 * y1 * x2 ^
     4 * y2 * x3 * d + x1 * x1 * y1 * x2 ^ 4 * y2 ^ 3 * x3 * d * d + x1 ^ 3 * x2 * x2 * y2 ^ 3 * y3
     * d + x1 ^ 3 * x2 ^ 3 * y2 * y2 * x3 * d)
    _ _ _ _ _ H1 H2 H3).
  unfold sum3_x, sum3_d, residue, cross. ring.
Qed.

Lemma assoc_y : eqp (sum3_y x1 y1 x2 y2 x3 y3 * sum3_d (-1) x2 y2 x3 y3 x1 y1)
  (sum3_y x2 y2 x3 y3 x1 y1 * sum3_d (-1) x1 y1 x2 y2 x3 y3).
Proof.
  apply (eqp_comb3
    (y1 * x2 * y2 ^ 4 * x3 * y3 * y3 * d - y1 * x2 * x2 * y2 ^ 3 * y3 * d + y1 * x2 * x2 * y2 ^ 3 *
     y3 ^ 3 * d - y1 * x2 ^ 3 * y2 * y2 * x3 * d - y1 * x2 ^ 3 * y2 * y2 * x3 ^ 3 * d - y1 * x2 ^ 3
     * y2 ^ 4 * x3 * y3 * y3 * d * d - y1 * x2 ^ 4 * y2 * x3 * x3 * y3 * d - y1 * x2 ^ 4 * y2 ^ 3 *
     x3 * x3 * y3 * d * d - x1 * x2 * y2 ^ 4 * x3 * x3 * y3 * d - x1 * x2 * x2 * y2 ^ 3 * x3 * d -
     x1 * x2 * x2 * y2 ^ 3 * x3 ^ 3 * d - x1 * x2 ^ 3 * y2 * y2 * y3 * d + x1 * x2 ^ 3 * y2 * y2 *
     y3 ^ 3 * d + x1 * x2 ^ 3 * y2 ^ 4 * x3 * x3 * y3 * d * d + x1 * x2 ^ 4 * y2 * x3 * y3 * y3 * d
     + x1 * x2 ^ 4 * y2 ^ 3 * x3 * y3 * y3 * d * d)
    (y1 * x2 * y2 * y2 * x3 * y3 * y3 * d + y1 * x2 * x2 * y2 * x3 * x3 * y3 * d - y1 ^ 3 * x2 * y2
     * y2 * x3 * y3 * y3 * d - y1 ^ 3 * x2 * x2 * y2 * x3 * x3 * y3 * d - x1 * x2 * y2 * y2 * x3 *
     x3 * y3 * d - x1 * x2 * x2 * y2 * x3 * y3 * y3 * d - x1 * y1 * y1 * x2 * y2 * y2 * y3 * d + x1
     * y1 * y1 * x2 * y2 * y2 * y3 ^ 3 * d + x1 * y1 * y1 * x2 * x2 * y2 * x3 * d + x1 * y1 * y1 *
     x2 * x2 * y2 * x3 ^ 3 * d + x1 * x1 * y1 * x2 * y2 * y2 * x3 * d + x1 * x1 * y1 * x2 * y2 * y2
     * x3 ^ 3 * d - x1 * x1 * y1 * x2 * x2 * y2 * y3 * d + x1 * x1 * y1 * x2 * x2 * y2 * y3 ^ 3 * d
     - x1 ^ 3 * x2 * y2 * y2 * x3 * x3 * y3 * d - x1 ^ 3 * x2 * x2 * y2 * x3 * y3 * y3 * d)
    (y1 * x2 * x2 * y2 ^ 3 * y3 * d + y1 * x2 ^ 3 * y2 * y2 * x3 * d - y1 ^ 3 * x2 * x2 * y2 ^ 3 *
     y3 * d - y1 ^ 3 * x2 ^ 3 * y2 * y2 * x3 * d + x1 * x2 * x2 * y2 ^ 3 * x3 * d + x1 * x2 ^ 3 * y2
     * y2 * y3 * d - x1 * y1 * y1 * x2 * y2 ^ 4 * y3 * d + x1 * y1 * y1 * x2 ^ 3 * y2 ^ 4 * y3 * d *
     d - x1 * y1 * y1 * x2 ^ 4 * y2 * x3 * d - x1 * y1 * y1 * x2 ^ 4 * y2 ^ 3 * x3 * d * d + x1 * x1
     * y1 * x2 * y2 ^ 4 * x3 * d - x1 * x1 * y1 * x2 ^ 3 * y2 ^ 4 * x3 * d * d + x1 * x1 * y1 * x2 ^
     4 * y2 * y3 * d + x1 * x1 * y1 * x2 ^ 4 * y2 ^ 3 * y3 * d * d + x1 ^ 3 * x2 * x2 * y2 ^ 3 * x3
     * d + x1 ^ 3 * x2 ^ 3 * y2 * y2 * y3 * d)
    _ _ _ _ _ H1 H2 H3).
  unfold sum3_y, sum3_d, residue, cross. ring.
Qed.

(** The sum of two points satisfies the equation, multiplied by the denominators. *)
Lemma closed_poly :
  let t := cross d x1 y1 x2 y2 in let a := x1 * y2 + x2 * y1 in let b := y1 * y2 + x1 * x2 in
  eqp ((b * (1 + t)) * (b * (1 + t)) - (a * (1 - t)) * (a * (1 - t)) - ((1 - t) * (1 + t)) * ((1 - t) * (1 + t)))
      (d * (a * a) * (b * b)).
Proof.
  intros t a b. apply (eqp_comb2
    (y2 ^ 4 - 4 * x2 * x2 * y2 * y2 - 2 * x2 * x2 * y2 * y2 * d + 2 * x2 * x2 * y2 ^ 4 + x2 ^ 4 - 2
     * x2 ^ 4 * y2 * y2 - 2 * x2 ^ 4 * y2 ^ 4 * d - x2 ^ 4 * y2 ^ 4 * d * d - y1 * y1 * x2 * x2 * y2
     ^ 4 * d + y1 * y1 * x2 ^ 4 * y2 * y2 * d + y1 * y1 * x2 ^ 4 * y2 ^ 4 * d * d + x1 * x1 * x2 *
     x2 * y2 ^ 4 * d - x1 * x1 * x2 ^ 4 * y2 * y2 * d - x1 * x1 * x2 ^ 4 * y2 ^ 4 * d * d + x1 * x1
     * y1 * y1 * x2 ^ 4 * y2 ^ 4 * d ^ 3)
    (1 + y2 * y2 - x2 * x2 + 2 * x2 * x2 * y2 * y2 + x2 * x2 * y2 * y2 * d - y1 * y1 * y2 * y2 + y1
     * y1 * x2 * x2 - 2 * y1 * y1 * x2 * x2 * y2 * y2 - 2 * y1 * y1 * x2 * x2 * y2 * y2 * d + y1 ^ 4
     * x2 * x2 * y2 * y2 * d + x1 * x1 * y2 * y2 - x1 * x1 * x2 * x2 + 2 * x1 * x1 * x2 * x2 * y2 *
     y2 + 2 * x1 * x1 * x2 * x2 * y2 * y2 * d + x1 ^ 4 * x2 * x2 * y2 * y2 * d)
    _ _ _ _ H1 H2).
  unfold a, b, t, residue, cross. ring.
Qed.
End identities.

(** ** Points *)

Definition on_curve (x y : Z) : bool :=
  (0 <=? x) && (x <? p25519) && (0 <=? y) && (y <? p25519) && (residue ed_d x y mod p25519 =? 0).

Record point := mk_point { px : Z; py : Z; p_on : on_curve px py = true }.

Lemma on_curve_spec x y : on_curve x y = true ↔
  0 <= x < p25519 ∧ 0 <= y < p25519 ∧ eqp (residue ed_d x y) 0.
Proof.
  unfold on_curve, eqp. rewrite Zmod_0_l. generalize (residue ed_d x y mod p25519). intros r. lia.
Qed.

Lemma px_bound P : 0 <= px P < p25519.
Proof. apply (proj1 (on_curve_spec _ _) (p_on P)). Qed.
Lemma py_bound P : 0 <= py P < p25519.
Proof. apply (proj1 (on_curve_spec _ _) (p_on P)). Qed.
Lemma p_residue P : eqp (residue ed_d (px P) (py P)) 0.
Proof. apply (proj1 (on_curve_spec _ _) (p_on P)). Qed.

(** Points with the same coordinates are equal. *)
Lemma point_eq P Q : eqp (px P) (px Q) → eqp (py P) (py Q) → P = Q.
Proof.
  intros Hx%eqp_reduced Hy%eqp_reduced; [|apply py_bound..|apply px_bound|apply px_bound].
  destruct P as [x y H], Q as [x' y' H']. cbn in Hx, Hy. subst x' y'. f_equal.
  apply UIP_dec. exact Bool.bool_dec.
Qed.

(** Coordinates that satisfy the equation, reduced. *)
Lemma reduced_on_curve x y : eqp (residue ed_d x y) 0 → on_curve (x mod p25519) (y mod p25519) = true.
Proof.
  intros H. apply on_curve_spec. pose proof p25519_pos.
  split; [by apply Z.mod_pos_bound|]. split; [by apply Z.mod_pos_bound|].
  unfold residue in *. by rewrite !eqp_mod.
Qed.
Definition reduced_point (x y : Z) (H : eqp (residue ed_d x y) 0) : point :=
  mk_point (x mod p25519) (y mod p25519) (reduced_on_curve x y H).

(** ** The operations *)

Abbreviation crossing P Q := (cross ed_d (px P) (py P) (px Q) (py Q)).

Lemma plus_denominator P Q : ¬ eqp (1 + crossing P Q) 0.
Proof. apply denominators; apply p_residue. Qed.
Lemma minus_denominator P Q : ¬ eqp (1 - crossing P Q) 0.
Proof. apply denominators; apply p_residue. Qed.
#[export] Hint Resolve plus_denominator minus_denominator p_residue : core.

Definition sum_x (P Q : point) : Z := (px P * py Q + px Q * py P) * finv (1 + crossing P Q).
Definition sum_y (P Q : point) : Z := (py P * py Q + px P * px Q) * finv (1 - crossing P Q).

Lemma sum_x_times P Q : eqp (sum_x P Q * (1 + crossing P Q)) (px P * py Q + px Q * py P).
Proof. by apply quotient_times. Qed.
Lemma sum_y_times P Q : eqp (sum_y P Q * (1 - crossing P Q)) (py P * py Q + px P * px Q).
Proof. by apply quotient_times. Qed.

Lemma sum_closed P Q : eqp (residue ed_d (sum_x P Q) (sum_y P Q)) 0.
Proof.
  pose proof (sum_x_times P Q) as Hx. pose proof (sum_y_times P Q) as Hy.
  pose proof (closed_poly ed_d _ _ _ _ (p_residue P) (p_residue Q)) as H. cbv zeta in H.
  pose proof (plus_denominator P Q) as Hp. pose proof (minus_denominator P Q) as Hm. revert Hx Hy H Hp Hm.
  generalize (sum_x P Q), (sum_y P Q), (crossing P Q). intros x y t Hx Hy H Hp Hm. rewrite <- Hx, <- Hy in H.
  apply (eqp_cancel (((1 - t) * (1 + t)) * ((1 - t) * (1 + t)))); [by repeat apply eqp_mul_nz|].
  rewrite Z.mul_0_r. apply eqp_diff in H. rewrite <- H. apply eq_eqp. unfold residue. ring.
Qed.

Definition padd (P Q : point) : point := reduced_point (sum_x P Q) (sum_y P Q) (sum_closed P Q).

Lemma padd_x P Q : eqp (px (padd P Q) * (1 + crossing P Q)) (px P * py Q + px Q * py P).
Proof. cbn [padd reduced_point px]. rewrite eqp_mod. apply sum_x_times. Qed.
Lemma padd_y P Q : eqp (py (padd P Q) * (1 - crossing P Q)) (py P * py Q + px P * px Q).
Proof. cbn [padd reduced_point py]. rewrite eqp_mod. apply sum_y_times. Qed.

(** The sum is the only point that satisfies the equations of the addition law. *)
Lemma padd_unique P Q R : eqp (px R * (1 + crossing P Q)) (px P * py Q + px Q * py P) →
  eqp (py R * (1 - crossing P Q)) (py P * py Q + px P * px Q) → padd P Q = R.
Proof.
  intros Hx Hy. apply point_eq.
  - apply (quotient_inj (1 + crossing P Q)); [done|]. by rewrite padd_x, Hx.
  - apply (quotient_inj (1 - crossing P Q)); [done|]. by rewrite padd_y, Hy.
Qed.

Lemma zero_on_curve : eqp (residue ed_d 0 1) 0.
Proof. by vm_compute. Qed.
Definition pzero : point := reduced_point 0 1 zero_on_curve.

Lemma neg_on_curve P : eqp (residue ed_d (- px P) (py P)) 0.
Proof. rewrite <- (p_residue P). apply eq_eqp. unfold residue. ring. Qed.
Definition pneg (P : point) : point := reduced_point (- px P) (py P) (neg_on_curve P).

(** ** The group laws *)

Lemma padd_comm P Q : padd P Q = padd Q P.
Proof.
  assert (crossing P Q = crossing Q P) as E by (unfold cross; ring).
  apply padd_unique; rewrite E; [rewrite padd_x|rewrite padd_y]; apply eq_eqp; ring.
Qed.

Lemma padd_zero_l P : padd pzero P = P.
Proof.
  apply padd_unique; unfold pzero; cbn [reduced_point px py]; unfold cross; rewrite !eqp_mod; apply eq_eqp; ring.
Qed.
Lemma padd_zero_r P : padd P pzero = P.
Proof. rewrite padd_comm. apply padd_zero_l. Qed.

Lemma padd_neg_l P : padd (pneg P) P = pzero.
Proof.
  pose proof (p_residue P) as H.
  apply padd_unique; unfold pzero, pneg; cbn [reduced_point px py]; unfold cross; rewrite !eqp_mod.
  - apply eq_eqp. ring.
  - symmetry. apply (eqp_comb1 1 _ _ _ H). unfold residue. ring.
Qed.
Lemma padd_neg_r P : padd P (pneg P) = pzero.
Proof. rewrite padd_comm. apply padd_neg_l. Qed.

(** Three points, the first two added first: numerator and denominator. *)
Lemma sum3_x_eq P Q R : eqp (px (padd (padd P Q) R) * sum3_d ed_d 1 (px P) (py P) (px Q) (py Q) (px R) (py R))
  (sum3_x ed_d (px P) (py P) (px Q) (py Q) (px R) (py R)).
Proof.
  pose proof (padd_x P Q) as Ex. pose proof (padd_y P Q) as Ey. pose proof (padd_x (padd P Q) R) as E. revert Ex Ey E.
  generalize (px (padd (padd P Q) R)), (px (padd P Q)), (py (padd P Q)). intros X x y Ex Ey E.
  unfold sum3_d, sum3_x. set (t := crossing P Q) in *.
  transitivity (X * (1 + cross ed_d x y (px R) (py R)) * ((1 - t) * (1 + t))).
  - transitivity (X * ((1 - t) * (1 + t) + ed_d * (x * (1 + t)) * (y * (1 - t)) * (px R * py R))).
    + rewrite Ex, Ey. apply eq_eqp. ring.
    + apply eq_eqp. unfold cross. ring.
  - rewrite E, <- Ex, <- Ey. apply eq_eqp. ring.
Qed.
Lemma sum3_y_eq P Q R : eqp (py (padd (padd P Q) R) * sum3_d ed_d (-1) (px P) (py P) (px Q) (py Q) (px R) (py R))
  (sum3_y ed_d (px P) (py P) (px Q) (py Q) (px R) (py R)).
Proof.
  pose proof (padd_x P Q) as Ex. pose proof (padd_y P Q) as Ey. pose proof (padd_y (padd P Q) R) as E. revert Ex Ey E.
  generalize (py (padd (padd P Q) R)), (px (padd P Q)), (py (padd P Q)). intros X x y Ex Ey E.
  unfold sum3_d, sum3_y. set (t := crossing P Q) in *.
  transitivity (X * (1 - cross ed_d x y (px R) (py R)) * ((1 - t) * (1 + t))).
  - transitivity (X * ((1 - t) * (1 + t) + (-1) * ed_d * (x * (1 + t)) * (y * (1 - t)) * (px R * py R))).
    + rewrite Ex, Ey. apply eq_eqp. ring.
    + apply eq_eqp. unfold cross. ring.
  - rewrite E, <- Ex, <- Ey. apply eq_eqp. ring.
Qed.

(** The denominators of three points do not vanish. *)
Lemma sum3_d_nz P Q R : ¬ eqp (sum3_d ed_d 1 (px P) (py P) (px Q) (py Q) (px R) (py R)) 0 ∧
  ¬ eqp (sum3_d ed_d (-1) (px P) (py P) (px Q) (py Q) (px R) (py R)) 0.
Proof.
  pose proof (padd_x P Q) as Ex. pose proof (padd_y P Q) as Ey.
  pose proof (plus_denominator (padd P Q) R) as Hp. pose proof (minus_denominator (padd P Q) R) as Hm.
  pose proof (plus_denominator P Q) as Hp'. pose proof (minus_denominator P Q) as Hm'. revert Ex Ey Hp Hm Hp' Hm'.
  generalize (px (padd P Q)), (py (padd P Q)). intros x y Ex Ey Hp Hm Hp' Hm'. unfold sum3_d.
  set (t := crossing P Q) in *. split; rewrite <- Ex, <- Ey; intros H.
  - apply (eqp_mul_nz _ _ Hp (eqp_mul_nz _ _ Hm' Hp')). rewrite <- H. apply eq_eqp. unfold cross. ring.
  - apply (eqp_mul_nz _ _ Hm (eqp_mul_nz _ _ Hm' Hp')). rewrite <- H. apply eq_eqp. unfold cross. ring.
Qed.

Lemma padd_assoc P Q R : padd (padd P Q) R = padd P (padd Q R).
Proof.
  rewrite (padd_comm P (padd Q R)).
  destruct (sum3_d_nz P Q R) as [N1 N2], (sum3_d_nz Q R P) as [N3 N4]. apply point_eq.
  - apply (quotient_inj _ _ _ (eqp_mul_nz _ _ N1 N3)).
    pose proof (sum3_x_eq P Q R) as E1. pose proof (sum3_x_eq Q R P) as E2.
    pose proof (assoc_x ed_d _ _ _ _ _ _ (p_residue P) (p_residue Q) (p_residue R)) as E.
    rewrite <- E1, <- E2 in E. etransitivity; [|etransitivity; [exact E|]]; apply eq_eqp; ring.
  - apply (quotient_inj _ _ _ (eqp_mul_nz _ _ N2 N4)).
    pose proof (sum3_y_eq P Q R) as E1. pose proof (sum3_y_eq Q R P) as E2.
    pose proof (assoc_y ed_d _ _ _ _ _ _ (p_residue P) (p_residue Q) (p_residue R)) as E.
    rewrite <- E1, <- E2 in E. etransitivity; [|etransitivity; [exact E|]]; apply eq_eqp; ring.
Qed.

(** ** Multiples *)

Definition smul (k : Z) (P : point) : point :=
  match k with
  | Z0 => pzero
  | Zpos n => Pos.iter (padd P) pzero n
  | Zneg n => Pos.iter (padd (pneg P)) pzero n
  end.

Lemma padd_cancel P Q R : padd P Q = padd P R → Q = R.
Proof.
  intros H. rewrite <- (padd_zero_l Q), <- (padd_zero_l R), <- (padd_neg_l P), !padd_assoc. by rewrite H.
Qed.
Lemma pneg_zero : pneg pzero = pzero.
Proof. apply (padd_cancel pzero). by rewrite padd_neg_r, padd_zero_l. Qed.

Lemma smul_0 P : smul 0 P = pzero.
Proof. done. Qed.

Lemma smul_succ k P : smul (Z.succ k) P = padd P (smul k P).
Proof.
  destruct k as [|n|n]; cbn [smul].
  - done.
  - replace (Z.succ (Zpos n)) with (Zpos (Pos.succ n)) by lia. cbn [smul]. apply Pos.iter_succ.
  - destruct (decide (n = 1%positive)) as [->|Hn].
    + cbn. by rewrite padd_zero_r, padd_neg_r.
    + replace (Z.succ (Zneg n)) with (Zneg (Pos.pred n)) by lia. cbn [smul].
      rewrite <- (Pos.succ_pred n) at 2 by done. rewrite Pos.iter_succ.
      by rewrite <- padd_assoc, padd_neg_r, padd_zero_l.
Qed.
Lemma smul_pred k P : smul (Z.pred k) P = padd (pneg P) (smul k P).
Proof.
  rewrite <- (Z.succ_pred k) at 2. by rewrite smul_succ, <- padd_assoc, padd_neg_l, padd_zero_l.
Qed.

Lemma smul_1 P : smul 1 P = P.
Proof. apply padd_zero_r. Qed.

Lemma smul_add j k P : smul (j + k) P = padd (smul j P) (smul k P).
Proof.
  revert j. apply Z.bi_induction.
  - by intros ? ? ->.
  - by rewrite padd_zero_l.
  - intros j. rewrite Z.add_succ_l, !smul_succ, padd_assoc. split; [by intros ->|]. by intros ?%padd_cancel.
Qed.

Lemma smul_neg k P : smul (- k) P = pneg (smul k P).
Proof.
  apply (padd_cancel (smul k P)). rewrite padd_neg_r, <- smul_add.
  by replace (k + - k) with 0 by ring.
Qed.

Lemma smul_zero k : smul k pzero = pzero.
Proof.
  revert k. apply Z.bi_induction; [by intros ? ? ->|done|].
  intros k. by rewrite smul_succ, padd_zero_l.
Qed.

Lemma smul_mul j k P : smul (j * k) P = smul j (smul k P).
Proof.
  revert j. apply Z.bi_induction; [by intros ? ? ->|done|].
  intros j. rewrite Z.mul_succ_l, Z.add_comm, smul_add, smul_succ.
  split; [by intros ->|]. by intros ?%padd_cancel.
Qed.

(** A prime that takes a point to zero divides every number that does. *)
Lemma order_divides q k P : Z.prime q → smul q P = pzero → P ≠ pzero → smul k P = pzero → (q | k).
Proof.
  intros Hq HqP HP Hk. destruct (decide (k mod q = 0)) as [Hn|Hn]; pose proof (Z.prime_ge_2 q Hq).
  { apply Z.mod_divide; [lia|exact Hn]. }
  rewrite Z.mod_divide in Hn by lia. exfalso. apply HP.
  apply Z.coprime_prime_l, Z.Bezout_coprime in Hn as (u & v & E); [|exact Hq].
  by rewrite <- (smul_1 P), <- E, smul_add, !smul_mul, HqP, Hk, !smul_zero, padd_zero_l.
Qed.

(** ** Extended coordinates *)

(** [E] is [P] in the coordinates of RFC 8032. *)
Definition extends (E : epoint) (P : point) : Prop :=
  ¬ eqp (eZ E) 0 ∧ eqp (eX E) (px P * eZ E) ∧ eqp (eY E) (py P * eZ E) ∧ eqp (eT E) (px P * py P * eZ E).

Lemma extends_add E F P Q : extends E P → extends F Q → extends (ed_add E F) (padd P Q).
Proof.
  intros (Hz1 & Hx1 & Hy1 & Ht1) (Hz2 & Hx2 & Hy2 & Ht2).
  pose proof (padd_x P Q) as Ex. pose proof (padd_y P Q) as Ey.
  pose proof (plus_denominator P Q) as Hp. pose proof (minus_denominator P Q) as Hm.
  assert (¬ eqp 2 0) as H2 by (by vm_compute). revert Ex Ey Hp Hm.
  destruct E as [X1 Y1 Z1 T1], F as [X2 Y2 Z2 T2]. cbn [eX eY eZ eT] in *.
  unfold extends, ed_add. cbn [eX eY eZ eT].
  generalize (px (padd P Q)), (py (padd P Q)). intros x y Ex Ey Hp Hm. unfold cross in *. set (w := ed_d) in *.
  set (x1 := px P) in *. set (y1 := py P) in *. set (x2 := px Q) in *. set (y2 := py Q) in *.
  set (t := w * (x1 * y1) * (x2 * y2)) in *.
  split.
  - rewrite ?fmul_eqp, ?fsub_eqp, ?fadd_eqp, Ht1, Ht2. intros H.
    apply (eqp_mul_nz _ _ (eqp_mul_nz _ _ Hm Hp) (eqp_mul_nz _ _ (eqp_mul_nz _ _ H2 (eqp_mul_nz _ _ Hz1 Hz2))
      (eqp_mul_nz _ _ H2 (eqp_mul_nz _ _ Hz1 Hz2)))).
    rewrite <- H. apply eq_eqp. unfold t. ring.
  - rewrite ?fmul_eqp, ?fsub_eqp, ?fadd_eqp, Ht1, Ht2, Hx1, Hx2, Hy1, Hy2.
    split_and!.
    + transitivity (4 * Z1 * Z1 * Z2 * Z2 * (x1 * y2 + x2 * y1) * (1 - t)); [apply eq_eqp; unfold t; ring|].
      rewrite <- Ex. apply eq_eqp. unfold t. ring.
    + transitivity (4 * Z1 * Z1 * Z2 * Z2 * (y1 * y2 + x1 * x2) * (1 + t)); [apply eq_eqp; unfold t; ring|].
      rewrite <- Ey. apply eq_eqp. unfold t. ring.
    + transitivity (4 * Z1 * Z1 * Z2 * Z2 * (x1 * y2 + x2 * y1) * (y1 * y2 + x1 * x2)); [apply eq_eqp; ring|].
      rewrite <- Ex, <- Ey. apply eq_eqp. unfold t. ring.
Qed.

Lemma extends_dbl E P : extends E P → extends (ed_dbl E) (padd P P).
Proof.
  intros (Hz1 & Hx1 & Hy1 & _).
  pose proof (padd_x P P) as Ex. pose proof (padd_y P P) as Ey.
  pose proof (plus_denominator P P) as Hp. pose proof (minus_denominator P P) as Hm.
  pose proof (p_residue P) as Hc. revert Ex Ey Hp Hm Hc.
  destruct E as [X1 Y1 Z1 T1]. cbn [eX eY eZ eT] in *.
  unfold extends, ed_dbl. cbn [eX eY eZ eT].
  generalize (px (padd P P)), (py (padd P P)). intros x y Ex Ey Hp Hm Hc. unfold cross, residue in *. set (w := ed_d) in *.
  set (x1 := px P) in *. set (y1 := py P) in *. set (t := w * (x1 * y1) * (x1 * y1)) in *.
  (* the code's factors are the denominators of the law, on the curve *)
  assert (eqp (x1 * x1 - y1 * y1) (- (1 + t))) as Eg.
  { apply (eqp_comb1 (-1) _ _ _ Hc). unfold t. ring. }
  assert (eqp (2 + (x1 * x1 - y1 * y1)) (1 - t)) as Ef by (rewrite Eg; apply eq_eqp; ring).
  rewrite ?fmul_eqp, ?fsub_eqp, ?fadd_eqp, Hx1, Hy1.
  set (e := x1 * x1 + y1 * y1 - (x1 + y1) * (x1 + y1)).
  assert (eqp e (- (x * (1 + t)))) as Ee by (rewrite Ex; apply eq_eqp; unfold e; ring).
  assert (eqp (x1 * x1 + y1 * y1) (y * (1 - t))) as Eh by (rewrite Ey; apply eq_eqp; ring).
  set (f := 2 + (x1 * x1 - y1 * y1)) in *. set (g := x1 * x1 - y1 * y1) in *. set (h := x1 * x1 + y1 * y1) in *.
  assert (eqp (f * g) (- ((1 - t) * (1 + t)))) as Efg by (rewrite Ef, Eg; apply eq_eqp; ring).
  set (s := Z1 * Z1) in *. assert (¬ eqp (s * s) 0) as Hs by (by repeat apply eqp_mul_nz).
  split.
  - intros H. apply (eqp_mul_nz _ _ (eqp_mul_nz _ _ Hm Hp) Hs).
    assert (eqp (s * s * (f * g)) 0) as H'.
    { etransitivity; [|exact H]. apply eq_eqp. unfold f, g, s. ring. }
    rewrite Efg in H'. apply eqp_diff in H'.
    transitivity (- (s * s * - ((1 - t) * (1 + t)) - 0)); [apply eq_eqp; ring|]. by rewrite H'.
  - split_and!.
    + transitivity (s * s * e * f); [apply eq_eqp; unfold s, e, f, g, h; ring|].
      transitivity (x * (s * s * (f * g))); [|apply eq_eqp; unfold s, e, f, g, h; ring].
      rewrite Efg, Ee, Ef. apply eq_eqp. ring.
    + transitivity (s * s * g * h); [apply eq_eqp; unfold s, e, f, g, h; ring|].
      transitivity (y * (s * s * (f * g))); [|apply eq_eqp; unfold s, e, f, g, h; ring].
      rewrite Efg, Eg, Eh. apply eq_eqp. ring.
    + transitivity (s * s * e * h); [apply eq_eqp; unfold s, e, f, g, h; ring|].
      transitivity (x * y * (s * s * (f * g))); [|apply eq_eqp; unfold s, e, f, g, h; ring].
      rewrite Efg, Ee, Eh. apply eq_eqp. ring.
Qed.
