(* ===== verification/Montgomery.v ===== *)
(** * The ladder multiplies points

    A point of the group of [Edwards] has on the Montgomery form of the curve the
    coordinate [u = (1 + y) / (1 - y)].  One step of the ladder of RFC 7748 doubles one
    of two points and adds them, given the coordinate of their difference; so
    [x25519 k] takes the coordinate of [P] to that of [k * P]. *)

From Stdlib Require Import Zpow_facts.
From S2P Require Import Prelude Packet Sodium Words Poly1305 Fe25519 Curve25519 Ge25519 Base25519 Primes Edwards.
Local Open Scope c_scope.

(** The coordinate of a point, 0 for the neutral element. *)
Definition u_of (P : point) : Z := fmul (1 + py P) (finv (1 - py P)).

(** [X/Z] is the coordinate of [P]: [X : Z] is [1 + y : 1 - y]. *)
Definition shows (XZ : Z * Z) (P : point) : Prop :=
  ¬ eqp (XZ.1 + XZ.2) 0 ∧ eqp (XZ.1 - XZ.2) (py P * (XZ.1 + XZ.2)).

Lemma two_nz : ¬ eqp 2 0.
Proof. by vm_compute. Qed.
Lemma one_nz : ¬ eqp 1 0.
Proof. by vm_compute. Qed.
Lemma ed_d_constant : eqp (121666 * ed_d + 121665) 0.
Proof. by vm_compute. Qed.
Lemma const_nz : ¬ eqp 121666 0.
Proof. by vm_compute. Qed.

(** ** Doubling *)

(** The equation of the curve with [d] written out. *)
Lemma curve_constant P : let w := 1 + 121665 * (1 - py P * py P) in
  eqp ((1 + px P * px P) * w) (py P * py P) ∧ ¬ eqp w 0.
Proof.
  intros w.
  assert (eqp ((1 + px P * px P) * w) (py P * py P)) as E.
  { apply (eqp_comb2 (-121666) (- (px P * px P * (py P * py P))) _ _ _ _ (p_residue P) ed_d_constant).
    unfold w, residue. ring. }
  split; [exact E|]. intros Hw. rewrite Hw, Z.mul_0_r in E. apply const_nz.
  rewrite <- Hw. unfold w. rewrite <- E. apply eq_eqp. ring.
Qed.

Lemma shows_double x1 A B P : shows A P → shows (ladder_step x1 A B).1 (padd P P).
Proof.
  destruct A as [X W], B as [X' W']. intros [Hn He]. cbn [fst snd] in *. unfold ladder_step, shows. cbn [fst snd].
  rewrite ?fmul_eqp, ?fadd_eqp, ?fsub_eqp, ?fmul_eqp, ?fadd_eqp, ?fsub_eqp, He. clear X' W' x1 He.
  destruct (curve_constant P) as [Ew Hw]. pose proof (padd_y P P) as Ey.
  pose proof (minus_denominator P P) as Hm. pose proof (p_residue P) as Hc. revert Ew Hw Ey Hm Hc.
  generalize (py (padd P P)). intros y2. unfold cross, residue.
  set (x := px P). set (y := py P). set (S := X + W) in *. set (w := 1 + 121665 * (1 - y * y)).
  intros Ew Hw Ey Hm Hc. set (t := ed_d * (x * y) * (x * y)) in *.
  assert (eqp (2 + x * x - y * y) (1 - t)) as Et.
  { apply (eqp_comb1 (-1) _ _ _ Hc). unfold t. ring. }
  set (s4 := S * S * (S * S)). assert (¬ eqp s4 0) as Hs by (by repeat apply eqp_mul_nz).
  assert (∀ s, S * S * (y * S * (y * S)) + s * ((S * S - y * S * (y * S)) * (S * S + 121665 * (S * S - y * S * (y * S)))) =
    s4 * (y * y + s * ((1 - y * y) * w))) as Eq by (intros s; unfold s4, w; ring).
  pose proof (Eq 1) as E1. pose proof (Eq (-1)) as E2. rewrite Z.mul_1_l in E1.
  replace (_ + -1 * _) with (S * S * (y * S * (y * S)) -
    (S * S - y * S * (y * S)) * (S * S + 121665 * (S * S - y * S * (y * S)))) in E2 by ring.
  rewrite E1, E2. clear E1 E2 Eq.
  assert (eqp (y * y + 1 * ((1 - y * y) * w)) (w * (1 - t))) as F1.
  { rewrite <- Ew at 1. rewrite <- Et. apply eq_eqp. ring. }
  assert (eqp (y * y + -1 * ((1 - y * y) * w)) (w * (y2 * (1 - t)))) as F2.
  { rewrite <- Ew at 1. rewrite Ey. apply eq_eqp. ring. }
  rewrite F1, F2. split; [by repeat apply eqp_mul_nz|]. apply eq_eqp. ring.
Qed.

(** ** Adding *)

Section add.
Variables (u : Z) (P Q : point).
Abbreviation D := (padd Q (pneg P)).
Hypothesis (Hu0 : ¬ eqp u 0) (Hu : eqp (u * (1 - py D)) (1 + py D)).
Abbreviation t := (crossing P Q).
Abbreviation b := (py P * py Q + px P * px Q).
Abbreviation m := (1 + t - py P * py Q + px P * px Q).

(** The difference of the points. *)
Lemma difference_y : eqp (py D * (1 + t)) (py P * py Q - px P * px Q).
Proof.
  pose proof (padd_y Q (pneg P)) as E. cbn [pneg reduced_point px py] in E. unfold cross in *.
  rewrite !eqp_mod in E. etransitivity; [|etransitivity; [exact E|]]; apply eq_eqp; ring.
Qed.

Lemma difference_nz : ¬ eqp (1 - py D) 0 ∧ ¬ eqp (1 + py D) 0.
Proof.
  split; intros H.
  - rewrite H, Z.mul_0_r in Hu. apply two_nz.
    transitivity (1 - py D + (1 + py D)); [apply eq_eqp; ring|]. by rewrite H, <- Hu.
  - rewrite H in Hu. apply eqp_mul_0 in Hu as [Hu|Hu]; [done|]. apply two_nz.
    transitivity (1 - py D + (1 + py D)); [apply eq_eqp; ring|]. by rewrite H, Hu.
Qed.

Lemma difference_u : eqp (u * m) (1 + t + py P * py Q - px P * px Q) ∧ ¬ eqp m 0.
Proof.
  assert (eqp m ((1 - py D) * (1 + t))) as Em.
  { transitivity (1 + t - py D * (1 + t)); [rewrite difference_y|]; apply eq_eqp; ring. }
  split.
  - rewrite Em, Z.mul_assoc, Hu.
    transitivity (1 + t + py D * (1 + t)); [apply eq_eqp; ring|]. rewrite difference_y. apply eq_eqp. ring.
  - rewrite Em. apply eqp_mul_nz; [apply difference_nz|apply plus_denominator].
Qed.

(** The identity behind the differential addition. *)
Lemma differential : eqp ((py P + py Q) * (py P + py Q) * (1 - t - b)) (u * ((py Q - py P) * (py Q - py P)) * (1 - t + b)).
Proof.
  destruct difference_u as [Em Hm]. apply (eqp_cancel m _ _ Hm).
  transitivity ((u * m) * ((py Q - py P) * (py Q - py P)) * (1 - t + b)); [|apply eq_eqp; ring]. rewrite Em.
  apply (eqp_comb2 (4 * py P * (px Q * px Q) * py Q * (1 + ed_d * (py Q * py Q))) (4 * py P * py Q * (py P * py P - 1))
    _ _ _ _ (p_residue P) (p_residue Q)).
  unfold residue, cross. ring.
Qed.

Lemma sums_nz : ¬ (eqp (py P + py Q) 0 ∧ eqp (py Q - py P) 0).
Proof.
  intros [H1 H2].
  assert (∀ z, eqp (2 * z) 0 → eqp z 0) as H2z by (intros z [H|H]%eqp_mul_0; [by destruct two_nz|done]).
  assert (eqp (py P) 0) as Hp.
  { apply H2z. transitivity (py P + py Q - (py Q - py P)); [apply eq_eqp; ring|]. by rewrite H1, H2. }
  assert (eqp (py Q) 0) as Hq.
  { apply H2z. transitivity (py P + py Q + (py Q - py P)); [apply eq_eqp; ring|]. by rewrite H1, H2. }
  pose proof difference_y as E. unfold cross in E. rewrite Hp, Hq in E.
  pose proof (p_residue P) as C1. pose proof (p_residue Q) as C2. unfold residue in C1, C2. rewrite Hp in C1. rewrite Hq in C2.
  destruct difference_nz as [N1 N2]. apply (eqp_mul_nz _ _ N1 N2).
  transitivity (1 - (py D * (1 + ed_d * (px P * 0) * (px Q * 0))) * (py D * (1 + ed_d * (px P * 0) * (px Q * 0))));
    [apply eq_eqp; ring|]. rewrite E.
  symmetry. apply (eqp_comb2 (- (px Q * px Q)) 1 _ _ _ _ C1 C2). ring.
Qed.

Lemma shows_add A B : shows A P → shows B Q → shows (ladder_step u A B).2 (padd P Q).
Proof.
  destruct A as [X W], B as [X' W']. intros [Hn He] [Hn' He']. cbn [fst snd] in *.
  unfold ladder_step, shows. cbn [fst snd]. rewrite ?fmul_eqp, ?fadd_eqp, ?fsub_eqp, ?fmul_eqp, ?fadd_eqp, ?fsub_eqp, He, He'.
  pose proof (padd_y P Q) as Ey. pose proof (minus_denominator P Q) as Hm. pose proof differential as Hd.
  pose proof sums_nz as Hz. revert Ey Hm Hd Hz.
  generalize (py (padd P Q)), (crossing P Q). intros y5 t. set (y1 := py P). set (y2 := py Q).
  intros Ey Hm Hd Hz.
  set (S := (X + W) * (X' + W')). assert (¬ eqp (S * S) 0) as Hs by (by repeat apply eqp_mul_nz).
  set (c := (y1 + y2) * (y1 + y2)) in *. set (e := u * ((y2 - y1) * (y2 - y1))) in *.
  assert (∀ s, (y2 * (X' + W') * (X + W) + (X' + W') * (y1 * (X + W))) * (y2 * (X' + W') * (X + W) + (X' + W') * (y1 * (X + W))) +
    s * (u * ((y2 * (X' + W') * (X + W) - (X' + W') * (y1 * (X + W))) * (y2 * (X' + W') * (X + W) - (X' + W') * (y1 * (X + W))))) =
    S * S * (c + s * e)) as Eq by (intros s; unfold S, c, e; ring).
  pose proof (Eq 1) as E1. pose proof (Eq (-1)) as E2. rewrite !Z.mul_1_l in E1. rewrite E1.
  replace (_ - u * _) with (S * S * (c + -1 * e)) by (rewrite <- E2; ring). clear E1 E2 Eq.
  assert (eqp (c + -1 * e) (y5 * (c + e))) as F.
  { apply (quotient_inj (1 - t)); [exact Hm|].
    transitivity ((y5 * (1 - t)) * (c + e)); [rewrite Ey|apply eq_eqp; ring].
    apply (eqp_comb1 1 _ _ _ (eqp_diff _ _ Hd)). unfold y1, y2. ring. }
  split; [|rewrite F; apply eq_eqp; ring].
  apply eqp_mul_nz; [exact Hs|]. intros H. rewrite H, Z.mul_0_r in F. apply Hz.
  assert (∀ z, eqp (2 * z) 0 → eqp z 0) as H2z by (intros z [G|G]%eqp_mul_0; [by destruct two_nz|done]).
  assert (eqp c 0) as Hc.
  { apply H2z. transitivity (c + e + (c + -1 * e)); [apply eq_eqp; ring|]. by rewrite H, F. }
  assert (eqp e 0) as He0.
  { apply H2z. transitivity (c + e - (c + -1 * e)); [apply eq_eqp; ring|]. by rewrite H, F. }
  split; [by apply eqp_mul_0 in Hc as [?|?]|].
  apply eqp_mul_0 in He0 as [?|He0]; [done|]. by apply eqp_mul_0 in He0 as [?|?].
Qed.
End add.

(** ** The ladder *)

Lemma shows_zero : shows (1, 0) pzero.
Proof. split; by vm_compute. Qed.

(** A coordinate that is not infinite. *)
Definition u_is (u : Z) (P : point) : Prop := eqp (u * (1 - py P)) (1 + py P).

Lemma shows_u u P : u_is u P → shows (u, 1) P.
Proof.
  unfold u_is, shows. cbn [fst snd]. intros Hu. split.
  - intros H. apply two_nz. transitivity ((u + 1) * (1 - py P)); [|by rewrite H].
    transitivity (1 + py P + (1 - py P)); [apply eq_eqp; ring|]. rewrite <- Hu. apply eq_eqp. ring.
  - apply (eqp_comb1 1 _ _ _ (eqp_diff _ _ Hu)). ring.
Qed.

Lemma py_neg P : eqp (py (pneg P)) (py P).
Proof. apply eqp_mod. Qed.

Lemma ladder_bit_shows u b A B P m : ¬ eqp u 0 → u_is u P →
  shows A (smul m P) → shows B (smul (m + 1) P) →
  let m' := 2 * m + Z.b2z b in
  shows (ladder_bit u b (A, B)).1 (smul m' P) ∧ shows (ladder_bit u b (A, B)).2 (smul (m' + 1) P).
Proof.
  intros Hu0 Hu HA HB.
  assert (padd (smul (m + 1) P) (pneg (smul m P)) = P) as E1.
  { rewrite <- smul_neg, <- smul_add. replace (m + 1 + - m) with 1 by ring. apply smul_1. }
  assert (padd (smul m P) (pneg (smul (m + 1) P)) = pneg P) as E2.
  { rewrite <- smul_neg, <- smul_add. replace (m + - (m + 1)) with (- (1)) by ring. by rewrite smul_neg, smul_1. }
  destruct b; cbn [ladder_bit Z.b2z]; cbv zeta.
  - pose proof (shows_double u B A _ HB) as Hd.
    assert (shows (ladder_step u B A).2 (padd (smul (m + 1) P) (smul m P))) as Ha.
    { apply shows_add; [exact Hu0| |exact HB|exact HA]. rewrite E2, py_neg. exact Hu. }
    rewrite <- !smul_add in Hd, Ha. destruct (ladder_step u B A) as [Q1 P1]. cbn [fst snd] in *.
    replace (2 * m + 1) with (m + 1 + m) by ring. replace (m + 1 + m + 1) with (m + 1 + (m + 1)) by ring. done.
  - pose proof (shows_double u A B _ HA) as Hd.
    assert (shows (ladder_step u A B).2 (padd (smul m P) (smul (m + 1) P))) as Ha.
    { apply shows_add; [exact Hu0| |exact HA|exact HB]. rewrite E1. exact Hu. }
    rewrite <- !smul_add in Hd, Ha. replace (2 * m + 0) with (m + m) by ring.
    replace (m + m + 1) with (m + (m + 1)) by ring. done.
Qed.

Lemma shift_bit k n : (n < 255)%nat →
  k / 2 ^ (255 - Z.of_nat (S n)) = 2 * (k / 2 ^ (255 - Z.of_nat n)) + Z.b2z (Z.testbit k (254 - Z.of_nat n)).
Proof.
  intros Hn. rewrite Z.testbit_spec' by lia.
  replace (255 - Z.of_nat (S n)) with (254 - Z.of_nat n) by lia.
  replace (255 - Z.of_nat n) with (254 - Z.of_nat n + 1) by lia.
  rewrite Z.pow_add_r, <- Z.div_div by lia. change (2 ^ 1) with 2. apply Z_div_mod_eq_full.
Qed.

Lemma ladder_shows k u P n : 0 <= k < 2 ^ 255 → ¬ eqp u 0 → u_is u P → (n <= 255)%nat →
  let m := k / 2 ^ (255 - Z.of_nat n) in
  shows (ladder k u n).1 (smul m P) ∧ shows (ladder k u n).2 (smul (m + 1) P).
Proof.
  intros Hk Hu0 Hu. induction n as [|n IH]; intros Hn; cbv zeta.
  - rewrite Z.sub_0_r, Z.div_small by lia. split; [apply shows_zero|].
    rewrite Z.add_0_l, smul_1. by apply shows_u.
  - destruct IH as [HA HB]; [lia|]. rewrite ladder_S, shift_bit by lia.
    destruct (ladder k u n) as [A B]. by apply ladder_bit_shows.
Qed.

Lemma u_of_shows X W P : shows (X, W) P → fmul X (finv W) = u_of P.
Proof.
  intros [Hn He]. cbn [fst snd] in *. unfold u_of.
  assert (eqp (X * (1 - py P)) ((1 + py P) * W)) as E.
  { apply (eqp_comb1 1 _ _ _ (eqp_diff _ _ He)). ring. }
  destruct (decide (eqp W 0)) as [HW|HW].
  - assert (eqp (1 - py P) 0) as H1.
    { rewrite HW, Z.mul_0_r in E. apply eqp_mul_0 in E as [E|E]; [|done].
      destruct Hn. by rewrite E, HW. }
    rewrite !finv_0 by done. by unfold fmul; rewrite !Z.mul_0_r.
  - assert (¬ eqp (1 - py P) 0) as H1.
    { intros H1. rewrite H1, Z.mul_0_r in E. symmetry in E. apply eqp_mul_0 in E as [E|E]; [|done].
      apply two_nz. transitivity (1 - py P + (1 + py P)); [apply eq_eqp; ring|]. by rewrite H1, E. }
    by apply fmul_eq_eqp, quotient_eq.
Qed.

Lemma ladder_full k u P : 0 <= k < 2 ^ 255 → ¬ eqp u 0 → u_is u P → shows (ladder k u 255).1 (smul k P).
Proof.
  intros Hk Hu0 Hu. destruct (ladder_shows k u P 255 Hk Hu0 Hu) as [H _]; [done|]. cbv zeta in H.
  replace (k / 2 ^ (255 - Z.of_nat 255)) with k in H; [exact H|].
  change (2 ^ (255 - Z.of_nat 255)) with 1. by rewrite Z.div_1_r.
Qed.

(** The ladder on the coordinate of a point that is neither zero nor of order 2. *)
Lemma x25519_multiplies k u P : 0 <= k < 2 ^ 255 → ¬ eqp u 0 → u_is u P → x25519 k u = u_of (smul k P).
Proof.
  intros Hk Hu0 Hu. pose proof (ladder_full k u P Hk Hu0 Hu) as H. unfold x25519. revert H.
  generalize (ladder k u 255). intros [[x z] B] H. by apply u_of_shows.
Qed.

(** ** Coordinates determine points up to sign *)

Lemma u_of_bound P : 0 <= u_of P < p25519.
Proof. apply Z.mod_pos_bound, p25519_pos. Qed.

Lemma py_square_1 P : eqp (py P * py P) 1 → eqp (px P) 0.
Proof.
  intros Hy. pose proof (p_residue P) as H. unfold residue in H. rewrite Hy in H.
  assert (eqp (px P * px P * (1 + ed_d)) 0) as E by (apply (eqp_comb1 (-1) _ _ _ H); ring).
  apply eqp_mul_0 in E as [E|E]; [by apply eqp_mul_0 in E as [E|E]|]. exfalso. revert E. by vm_compute.
Qed.
Lemma py_1_zero P : eqp (py P) 1 → P = pzero.
Proof. intros Hy. apply point_eq; [|exact Hy]. apply py_square_1. by rewrite Hy. Qed.

Lemma u_is_u_of P : P ≠ pzero → u_is (u_of P) P.
Proof.
  intros HP. unfold u_is, u_of. rewrite fmul_eqp. apply quotient_times. intros H. apply HP, py_1_zero.
  symmetry. by apply eqp_same.
Qed.

(** Zero is the coordinate of the points whose double is zero. *)
Lemma u_of_zero P : eqp (u_of P) 0 → smul 2 P = pzero.
Proof.
  intros H. destruct (decide (eqp (py P) 1)) as [E|E].
  { rewrite (py_1_zero P E). apply smul_zero. }
  assert (P ≠ pzero) as HP by (intros ->; by apply E).
  pose proof (u_is_u_of P HP) as Hu. unfold u_is in Hu. rewrite H in Hu.
  assert (eqp (py P) (-1)) as Hy.
  { apply eqp_same. rewrite <- (Z.mul_0_l (1 - py P)), Hu. apply eq_eqp. ring. }
  assert (eqp (px P) 0) as Hx by (apply py_square_1; by rewrite Hy).
  change 2 with (1 + 1). rewrite smul_add, smul_1. apply padd_unique; unfold cross; rewrite Hx, Hy; by vm_compute.
Qed.
