(* ===== verification/Basepoint.v ===== *)
(** * Public keys ([crypto_scalarmult_base] of libsodium)

    [ge25519_scalarmult_base], which adds table entries chosen by the signed digits of
    the scalar, and the functions of [x25519_ref10.c] and [scalarmult_curve25519.c]
    that turn its result into a public key. *)

From Stdlib Require Import Zpow_facts.
From S2P Require Import Prelude Packet Sodium Words Poly1305 Fe25519 Curve25519 Ge25519 Base25519.
Local Open Scope c_scope.

(** ** The code *)

Definition ge25519_cmov8_base (pos : Z) (b : Z) : option ge25519_precomp :=
  row ← base.[pos];
  ge25519_cmov8 row b.

(** One step of the two loops that add table entries. *)
Definition add_entry (e : list Z) (i : Z) (h : ge25519_p3) : option ge25519_p3 :=
  b ← e.[i];
  t ← ge25519_cmov8_base (i / 2) b;
  let r := ge25519_madd h t in
  Some (ge25519_p1p1_to_p3 r).

Definition ge25519_scalarmult_base (a : bytes) : option ge25519_p3 :=
  e ← split_digits a;
  e ← carry_digits e;
  let h := ge25519_p3_0 in
  h ← for_range 32 (λ k, add_entry e (2 * Z.of_nat k + 1)) h;
  let r := ge25519_p3_dbl h in
  let s := ge25519_p1p1_to_p2 r in
  let r := ge25519_p2_dbl s in
  let s := ge25519_p1p1_to_p2 r in
  let r := ge25519_p2_dbl s in
  let s := ge25519_p1p1_to_p2 r in
  let r := ge25519_p2_dbl s in
  let h := ge25519_p1p1_to_p3 r in
  for_range 32 (λ k, add_entry e (2 * Z.of_nat k)) h.

Definition edwards_to_montgomery (edwardsY edwardsZ : fe25519) : fe25519 :=
  let tempX := fe25519_add edwardsZ edwardsY in
  let tempZ := fe25519_sub edwardsZ edwardsY in
  let tempZ := fe25519_invert tempZ in
  fe25519_mul tempX tempZ.

Definition crypto_scalarmult_curve25519_ref10_base (q n : bytes) : option (Z * bytes) :=
  t ← clamp_scalar q n;
  A ← ge25519_scalarmult_base t;
  let pk := edwards_to_montgomery (p3_Y A) (p3_Z A) in
  q ← fe25519_tobytes t pk;
  Some (0, q).

Definition crypto_scalarmult_curve25519_base (q n : bytes) : option (Z * bytes) :=
  crypto_scalarmult_curve25519_ref10_base q n.

(** ** What it computes *)

(** The sum of [P] and the multiples [e[2k + start] * 256^k * B]. *)
Definition comb (start : nat) (e : list Z) (P : epoint) (n : nat) : epoint :=
  foldl (λ P k, ed_add P (as_point (multiple (base_points k) (default 0 (e !! (2 * k + start)%nat)))))
    P (seq 0 n).

(** [k * B] from the 64 signed digits of [k]. *)
Definition ed_base (k : Z) : epoint :=
  let e := signed_digits 63 k in
  comb 0 e (Nat.iter 4 ed_dbl (comb 1 e ed_zero 32)) 32.

(** The coordinate of the point on the Montgomery form of the curve. *)
Definition montgomery (P : epoint) : Z := fmul (fadd (eZ P) (eY P)) (finv (fsub (eZ P) (eY P))).

(** ** Lemmas *)

Lemma comb_S start e P n : comb start e P (S n) =
  ed_add (comb start e P n) (as_point (multiple (base_points n) (default 0 (e !! (2 * n + start)%nat)))).
Proof. unfold comb. by rewrite seq_S, foldl_app. Qed.

(** The starting coordinates only matter up to their common sign. *)
Lemma comb_resigned start e P n : comb start e (resigned P) (S n) = comb start e P (S n).
Proof.
  induction n as [|n IH]; [apply ed_add_resigned|]. by rewrite comb_S, IH, <- comb_S.
Qed.

Lemma cmov8_base_stands k b : (k < 32)%nat → -8 <= b <= 8 → ∃ t,
  ge25519_cmov8_base (Z.of_nat k) b = Some t ∧
  stands t (multiple (base_points k) b).1 (multiple (base_points k) b).2.
Proof.
  intros Hk Hb. destruct (base_row k Hk) as (row & Hrow & _). pose proof (base_row_stands k row Hk Hrow) as Hs.
  exists (chosen row b). unfold ge25519_cmov8_base, base_points. rewrite rd_nat, Hrow.
  cbn [mbind option_bind default from_option id]. split; [|by apply chosen_stands].
  destruct Hs as (Hl & Hf & _). by apply cmov8_eq.
Qed.

Section digits.
Variables (e : list Z).
Hypothesis (Hl : length e = 64%nat).
Hypothesis (He : Forall (λ x, -8 <= x <= 8) e).

Lemma add_entry_eq start k h : (start < 2)%nat → (k < 32)%nat → p3_limbs h → ∃ h',
  add_entry e (2 * Z.of_nat k + Z.of_nat start) h = Some h' ∧ p3_limbs h' ∧
  p3_val h' = ed_add (p3_val h) (as_point (multiple (base_points k) (default 0 (e !! (2 * k + start)%nat)))).
Proof.
  intros Hst Hk Hh. destruct (lookup_lt_is_Some_2 e (2 * k + start)) as [b Hb]; [lia|].
  pose proof (Forall_lookup_1 _ _ _ _ He Hb) as Hbb. cbn beta in Hbb.
  destruct (cmov8_base_stands k b Hk Hbb) as (t & Ht & Hs). unfold add_entry.
  replace (2 * Z.of_nat k + Z.of_nat start) with (Z.of_nat (2 * k + start)) by lia.
  rewrite rd_nat, Hb. cbn [mbind option_bind default from_option id].
  replace (Z.of_nat (2 * k + start) / 2) with (Z.of_nat k) by div_lia. rewrite Ht. cbn [mbind option_bind].
  eexists. split; [reflexivity|]. exact (madd_eq h t _ _ Hh Hs).
Qed.

Lemma add_entries start h : (start < 2)%nat → p3_limbs h → ∃ h',
  for_range 32 (λ k, add_entry e (2 * Z.of_nat k + Z.of_nat start)) h = Some h' ∧ p3_limbs h' ∧
  p3_val h' = comb start e (p3_val h) 32.
Proof.
  intros Hst Hh.
  destruct (for_range_inv (λ n h', p3_limbs h' ∧ p3_val h' = comb start e (p3_val h) n) 32
    (λ k, add_entry e (2 * Z.of_nat k + Z.of_nat start)) h) as (h' & Hr & Hl' & Hv).
  - split; [exact Hh|reflexivity].
  - intros k h' Hk [Hl' Hv]. destruct (add_entry_eq start k h' Hst Hk Hl') as (h'' & Hr & Hl'' & Hv'').
    exists h''. split; [exact Hr|]. split; [exact Hl''|]. by rewrite comb_S, <- Hv.
  - exists h'. split; [exact Hr|]. split; [exact Hl'|exact Hv].
Qed.
End digits.

(** Four doublings. *)
Lemma four_doublings h : p3_limbs h →
  let r := ge25519_p2_dbl (ge25519_p1p1_to_p2 (ge25519_p2_dbl (ge25519_p1p1_to_p2
             (ge25519_p2_dbl (ge25519_p1p1_to_p2 (ge25519_p3_dbl h)))))) in
  p3_limbs (ge25519_p1p1_to_p3 r) ∧
  p3_val (ge25519_p1p1_to_p3 r) = resigned (Nat.iter 4 ed_dbl (p3_val h)).
Proof.
  intros Hh. cbv zeta. unfold ge25519_p3_dbl. pose proof (p3_to_p2_is h Hh) as H0.
  apply dbl_p2 in H0. apply dbl_p2 in H0. rewrite ed_dbl_resigned in H0.
  apply dbl_p2 in H0. rewrite ed_dbl_resigned in H0.
  apply dbl_p3 in H0. rewrite ed_dbl_resigned in H0. exact H0.
Qed.

(** The code after the digits. *)
Definition comb_code (e : list Z) : option ge25519_p3 :=
  h ← for_range 32 (λ k, add_entry e (2 * Z.of_nat k + 1)) ge25519_p3_0;
  for_range 32 (λ k, add_entry e (2 * Z.of_nat k))
    (ge25519_p1p1_to_p3 (ge25519_p2_dbl (ge25519_p1p1_to_p2 (ge25519_p2_dbl (ge25519_p1p1_to_p2
       (ge25519_p2_dbl (ge25519_p1p1_to_p2 (ge25519_p3_dbl h)))))))).

Lemma p3_0_eq : p3_limbs ge25519_p3_0 ∧ p3_val ge25519_p3_0 = ed_zero.
Proof. split; [split; [|split; [|split]]; by split_and!|by vm_compute]. Qed.

Lemma comb_code_eq e : length e = 64%nat → Forall (λ x, -8 <= x <= 8) e → ∃ A,
  comb_code e = Some A ∧ p3_limbs A ∧ p3_val A = comb 0 e (Nat.iter 4 ed_dbl (comb 1 e ed_zero 32)) 32.
Proof.
  intros Hle He. unfold comb_code. destruct p3_0_eq as [H0 E0].
  destruct (add_entries e Hle He 1 _ ltac:(lia) H0) as (h & Hr & Hlh & Hv). rewrite E0 in Hv.
  rewrite (for_range_ext 32 _ (λ k, add_entry e (2 * Z.of_nat k + Z.of_nat 1))), Hr by (by intros).
  cbn [mbind option_bind]. destruct (four_doublings h Hlh) as [Hl4 Hv4]. cbv zeta in Hl4, Hv4.
  revert Hl4 Hv4. generalize (ge25519_p1p1_to_p3 (ge25519_p2_dbl (ge25519_p1p1_to_p2 (ge25519_p2_dbl
    (ge25519_p1p1_to_p2 (ge25519_p2_dbl (ge25519_p1p1_to_p2 (ge25519_p3_dbl h)))))))). intros h4 Hl4 Hv4.
  destruct (add_entries e Hle He 0 h4 ltac:(lia) Hl4) as (h' & Hr' & Hlh' & Hv').
  exists h'. split; [|split; [exact Hlh'|]].
  - rewrite <- Hr'. apply for_range_ext. intros k t _. f_equal. lia.
  - by rewrite Hv', Hv4, comb_resigned, Hv.
Qed.

Lemma scalarmult_base_code a e : split_digits a = Some (nibbles a) →
  carry_digits (nibbles a) = Some e → ge25519_scalarmult_base a = comb_code e.
Proof. intros H1 H2. unfold ge25519_scalarmult_base. rewrite H1. cbn [mbind option_bind]. by rewrite H2. Qed.

Lemma scalarmult_base_eq a : length a = 32%nat → bytes_ok a → le_val a < 2 ^ 255 → ∃ A,
  ge25519_scalarmult_base a = Some A ∧ p3_limbs A ∧ p3_val A = ed_base (le_val a).
Proof.
  intros Hl Ha Hlt. pose proof (le_val_bound a Ha) as [Hpos _].
  assert (carry_digits (nibbles a) = Some (signed_digits 63 (le_val a))) as Hc.
  { rewrite carry_digits_eq; [|by rewrite nibbles_length, Hl|by apply nibbles_bound]. by rewrite nibbles_value. }
  rewrite (scalarmult_base_code a _ (split_digits_eq a Hl Ha) Hc). apply comb_code_eq.
  - apply signed_digits_length.
  - apply signed_digits_bound. change (8 * 16 ^ Z.of_nat 63) with (2 ^ 255). lia.
Qed.

Lemma montgomery_eq A : p3_limbs A →
  limbs 52 (edwards_to_montgomery (p3_Y A) (p3_Z A)) ∧
  fe_mod (edwards_to_montgomery (p3_Y A) (p3_Z A)) = montgomery (p3_val A).
Proof.
  destruct A as [X Y W T]. intros (_ & LY & LZ & _). cbn [p3_X p3_Y p3_Z p3_T] in *.
  unfold edwards_to_montgomery, montgomery, p3_val. cbn [eX eY eZ p3_X p3_Y p3_Z p3_T].
  destruct (fe_add_eq W Y LZ LY) as [L1 <-]. set (f1 := fe25519_add W Y) in *.
  destruct (fe_sub_eq W Y LZ (limbs_54 _ LY)) as [L2 <-]. set (f2 := fe25519_sub W Y) in *. clearbody f1 f2.
  destruct (fe_invert_finv f2 L2) as [L3 <-]. exact (fe_mul_eq f1 _ L1 L3).
Qed.

Lemma scalarmult_curve25519_base_eq q n : length q = 32%nat → length n = 32%nat → bytes_ok n →
  crypto_scalarmult_curve25519_base q n = Some (0, le_bytes 32 (montgomery (ed_base (decode_scalar n)))).
Proof.
  intros Hq Hn Hnb. unfold crypto_scalarmult_curve25519_base, crypto_scalarmult_curve25519_ref10_base.
  destruct (clamp_scalar_eq q n Hq Hn Hnb) as (t & -> & Htl & Htb & Htv). cbn [mbind option_bind].
  destruct (scalarmult_base_eq t Htl Htb) as (A & -> & HA & Hv).
  { rewrite Htv. unfold decode_scalar. div_lia. }
  cbn [mbind option_bind]. destruct (montgomery_eq A HA) as [Lm Em].
  rewrite fe_tobytes_eq; [|exact Htl|by apply (limbs_64 52)]. cbn [mbind option_bind].
  by rewrite Em, Hv, Htv.
Qed.

(** ** Properties *)

(** libsodium computes public keys by the signed digits of the scalar.  For every
    secret key [crypto_scalarmult_curve25519_base] runs without undefined behaviour,
    overflow of a limb or access outside the table, returns 0, and stores the Montgomery
    coordinate of the sum of the multiples [e_i * 16^i * B], where the 64 digits [e_i]
    are between -8 and 8 and write the clamped scalar in base 16; sums and doublings
    are those of RFC 8032, and the multiples of [B] those of the table. *)
Theorem public_key_by_digits q n : length q = 32%nat → length n = 32%nat → bytes_ok n →
  let k := decode_scalar n in
  let e := signed_digits 63 k in
  crypto_scalarmult_curve25519_base q n =
    Some (0, le_bytes 32 (montgomery (comb 0 e (Nat.iter 4 ed_dbl (comb 1 e ed_zero 32)) 32))) ∧
  length e = 64%nat ∧ Forall (λ d, -8 <= d <= 8) e ∧ value16 e = k.
Proof.
  intros Hq Hn Hnb. cbv zeta. split; [by apply scalarmult_curve25519_base_eq|].
  split; [apply signed_digits_length|]. split; [|apply signed_digits_value].
  apply signed_digits_bound. change (8 * 16 ^ Z.of_nat 63) with (2 ^ 255). unfold decode_scalar. div_lia.
Qed.

Lemma public_key_by_digits_witness :
  let k := decode_scalar rfc_scalar in
  let e := signed_digits 63 k in
  crypto_scalarmult_curve25519_base (replicate 32 0) rfc_scalar =
    Some (0, le_bytes 32 (montgomery (comb 0 e (Nat.iter 4 ed_dbl (comb 1 e ed_zero 32)) 32))) ∧
  length e = 64%nat ∧ Forall (λ d, -8 <= d <= 8) e ∧ value16 e = k.
Proof. apply public_key_by_digits; [done|done|by_computation]. Defined.
