(* ===== verification/Agreement.v ===== *)
(** * Diffie-Hellman agreement on Curve25519

    The multiplication of the base point by the table ([Basepoint]) and the ladder
    ([Curve25519]) compute multiples in one group, of the base point with its prime
    order.  So public keys are the ladder on the coordinate 9, both sides of an
    exchange arrive at the same coordinate, and it is never that of a point of small
    order: the laws the daemon's handshake relies on hold of libsodium's code. *)

From Stdlib Require Import Zpow_facts Zdivisibility.
From S2P Require Import Prelude Packet Sodium Words Poly1305 Fe25519 Curve25519 Ge25519 Base25519 Primes.
From S2P Require Import Edwards Montgomery Basepoint.
Local Open Scope c_scope.

(** ** The base point *)

Definition ed_B : point := mk_point
  15112221349535400772501151409588531511454012693041857206046113283949847762202
  46316835694926478169428394003475163141307993866256225615783033603165251855960 eq_refl.

Lemma base_point_B : base_point 0 0 = (px ed_B, py ed_B).
Proof. by vm_compute. Qed.
Lemma u_is_9 : u_is 9 ed_B.
Proof. by vm_compute. Qed.
Lemma nine_nz : ¬ eqp 9 0.
Proof. by vm_compute. Qed.

(** The ladder with the reductions of [Base25519], which are faster to evaluate. *)
Definition step_fast (x1 : Z) (P Q : Z * Z) : (Z * Z) * (Z * Z) :=
  let '(x2, z2) := P in
  let '(x3, z3) := Q in
  let A := x2 + z2 in let AA := mulr A A in
  let B := subr x2 z2 in let BB := mulr B B in
  let E := subr AA BB in
  let C := x3 + z3 in let D := subr x3 z3 in
  let DA := mulr D A in let CB := mulr C B in
  let s := DA + CB in let d := subr DA CB in
  ((mulr AA BB, mulr E (AA + 121665 * E)), (mulr s s, mulr x1 (mulr d d))).
Definition bit_fast (x1 : Z) (b : bool) (PQ : (Z * Z) * (Z * Z)) : (Z * Z) * (Z * Z) :=
  let '(P, Q) := PQ in
  if b then let '(Q, P) := step_fast x1 Q P in (P, Q) else step_fast x1 P Q.
Definition ladder_fast (k u : Z) (n : nat) : (Z * Z) * (Z * Z) :=
  foldl (λ PQ i, bit_fast u (Z.testbit k (254 - Z.of_nat i)) PQ) ((1, 0), (u, 1)) (seq 0 n).

Definition eqp2 (P Q : Z * Z) : Prop := eqp P.1 Q.1 ∧ eqp P.2 Q.2.

Lemma step_fast_eqp x1 P Q P' Q' : eqp2 P P' → eqp2 Q Q' →
  eqp2 (step_fast x1 P Q).1 (ladder_step x1 P' Q').1 ∧ eqp2 (step_fast x1 P Q).2 (ladder_step x1 P' Q').2.
Proof.
  destruct P as [x2 z2], Q as [x3 z3], P' as [x2' z2'], Q' as [x3' z3']. intros [H1 H2] [H3 H4].
  unfold eqp2, step_fast, ladder_step in *. cbn [fst snd] in *.
  split_and!; rewrite ?mulr_eqp, ?subr_eqp, ?mulr_eqp, ?subr_eqp, ?fmul_eqp, ?fadd_eqp, ?fsub_eqp, ?fmul_eqp;
    by rewrite ?H1, ?H2, ?H3, ?H4.
Qed.

Lemma ladder_fast_eqp k u n :
  eqp2 (ladder_fast k u n).1 (ladder k u n).1 ∧ eqp2 (ladder_fast k u n).2 (ladder k u n).2.
Proof.
  induction n as [|n [IH1 IH2]]; [done|]. unfold ladder_fast in *. rewrite seq_S, foldl_app, ladder_S. cbn [foldl].
  revert IH1 IH2. generalize (ladder k u n). generalize (foldl (λ PQ i, bit_fast u (Z.testbit k (254 - Z.of_nat i)) PQ)
    (1, 0, (u, 1)) (seq 0 n)). intros [P Q] [P' Q'] IH1 IH2. cbn [fst snd] in *. unfold bit_fast, ladder_bit.
  destruct (Z.testbit _ _); [|by apply step_fast_eqp].
  destruct (step_fast_eqp u Q P Q' P' IH2 IH1) as [H1 H2].
  destruct (step_fast u Q P), (ladder_step u Q' P'). done.
Qed.

(** The ladder takes the base point to infinity at the order. *)
Lemma order_check : red (ladder_fast ed_order 9 255).1.2 = 0.
Proof. by vm_compute. Qed.
Lemma order_ladder : eqp (ladder ed_order 9 255).1.2 0.
Proof.
  destruct (ladder_fast_eqp ed_order 9 255) as [[_ H] _]. pose proof order_check as H0. revert H H0.
  generalize (ladder_fast ed_order 9 255), (ladder ed_order 9 255). intros F L H H0.
  by rewrite <- H, <- (red_eqp F.1.2), H0.
Qed.

Lemma shows_infinity X W P : shows (X, W) P → eqp W 0 → P = pzero.
Proof.
  intros [Hn He] H0. cbn [fst snd] in *. rewrite H0 in He, Hn.
  apply py_1_zero. symmetry. apply (quotient_inj (X + 0)); [exact Hn|].
  rewrite <- He. apply eq_eqp. ring.
Qed.

Lemma order_B : smul ed_order ed_B = pzero.
Proof.
  assert (0 <= ed_order < 2 ^ 255) as Ho by (by vm_compute).
  pose proof (ladder_full ed_order 9 ed_B Ho nine_nz u_is_9) as H. pose proof order_ladder as H0.
  revert H H0. generalize (ladder ed_order 9 255). generalize (smul ed_order ed_B).
  intros P [[X W] B] H H0. exact (shows_infinity X W P H H0).
Qed.

Lemma B_nonzero : ed_B ≠ pzero.
Proof. intros H. apply (f_equal px) in H. by vm_compute in H. Qed.

Lemma smul_B_zero k : smul k ed_B = pzero → (ed_order | k).
Proof. apply order_divides; [apply prime_order|apply order_B|apply B_nonzero]. Qed.

(** ** The table holds multiples *)

Lemma extends_affine P x y : eqp x (px P) → eqp y (py P) → extends (as_point (x, y)) P.
Proof.
  intros Hx Hy. unfold extends, as_point, ed_affine. cbn [eX eY eZ eT fst snd].
  split; [apply one_nz|]. rewrite fmul_eqp, Hx, Hy, !Z.mul_1_r. done.
Qed.

Lemma extends_represents E P xy : extends E P → represents_point E xy → extends (as_point xy) P.
Proof.
  destruct xy as [x y]. intros (Hz & Hx & Hy & _) (_ & Hx' & Hy'). cbn [fst snd] in *.
  apply extends_affine; (apply (quotient_inj (eZ E)); [exact Hz|]).
  - by rewrite <- Hx', Hx.
  - by rewrite <- Hy', Hy.
Qed.

Lemma extends_iter_dbl n E P : extends E P → extends (Nat.iter n ed_dbl E) (smul (2 ^ Z.of_nat n) P).
Proof.
  intros H. induction n as [|n IH]; [by rewrite smul_1|].
  rewrite Nat2Z.inj_succ, Z.pow_succ_r by lia. rewrite <- Z.add_diag, smul_add. by apply extends_dbl.
Qed.

Lemma row_extends i P : (i < 32)%nat → extends (as_point (base_point i 0)) P →
  ∀ j, (j < 8)%nat → extends (as_point (base_point i j)) (smul (Z.of_nat j + 1) P).
Proof.
  intros Hi H0. induction j as [|j IH]; intros Hj; [by rewrite smul_1|].
  apply (extends_represents (ed_add (as_point (base_point i j)) (as_point (base_point i 0)))).
  - replace (Z.of_nat (S j) + 1) with (Z.of_nat j + 1 + 1) by lia. rewrite smul_add, smul_1.
    apply extends_add; [|exact H0]. apply IH. lia.
  - apply base_point_sum; lia.
Qed.

Lemma table_extends i : (i < 32)%nat → ∀ j, (j < 8)%nat →
  extends (as_point (base_point i j)) (smul ((Z.of_nat j + 1) * 256 ^ Z.of_nat i) ed_B).
Proof.
  intros Hi. assert (extends (as_point (base_point i 0)) (smul (256 ^ Z.of_nat i) ed_B)) as H0.
  { induction i as [|i IH].
    - rewrite base_point_B. change (256 ^ Z.of_nat 0) with 1. rewrite smul_1. by apply extends_affine.
    - apply (extends_represents (Nat.iter 5 ed_dbl (as_point (base_point i 7)))).
      + rewrite Nat2Z.inj_succ, Z.pow_succ_r by lia.
        replace (256 * 256 ^ Z.of_nat i) with (2 ^ Z.of_nat 5 * ((Z.of_nat 7 + 1) * 256 ^ Z.of_nat i)) by lia.
        rewrite smul_mul. apply extends_iter_dbl. rewrite smul_mul. apply row_extends; [lia| |lia]. apply IH. lia.
      + apply base_point_next. lia. }
  intros j Hj. rewrite smul_mul. by apply row_extends.
Qed.

Lemma multiple_extends i b : (i < 32)%nat → -8 <= b <= 8 →
  extends (as_point (multiple (base_points i) b)) (smul (b * 256 ^ Z.of_nat i) ed_B).
Proof.
  intros Hi Hb. unfold multiple. destruct (Z.eqb_spec b 0) as [->|Hne].
  { by apply extends_affine. }
  change (default (0, 1) (base_points i !! Z.to_nat (Z.abs b - 1))) with (base_point i (Z.to_nat (Z.abs b - 1))).
  pose proof (table_extends i Hi (Z.to_nat (Z.abs b - 1)) ltac:(lia)) as H.
  replace (Z.of_nat (Z.to_nat (Z.abs b - 1)) + 1) with (Z.abs b) in H by lia.
  destruct (base_point i (Z.to_nat (Z.abs b - 1))) as [x y]. destruct (Z.ltb_spec b 0).
  - replace (b * 256 ^ Z.of_nat i) with (- (Z.abs b * 256 ^ Z.of_nat i)) by lia. rewrite smul_neg.
    destruct H as (_ & Hx & Hy & _). cbn [as_point ed_affine eX eY eZ fst snd] in Hx, Hy. rewrite Z.mul_1_r in Hx, Hy.
    apply extends_affine; cbn [pneg reduced_point px py]; rewrite eqp_mod; [|exact Hy].
    by rewrite fsub_eqp, Hx.
  - by replace b with (Z.abs b) at 1 by lia.
Qed.

(** ** The comb *)

(** [e[start] + e[2 + start] * 256 + ...], [n] digits. *)
Fixpoint digit_sum (start : nat) (e : list Z) (n : nat) : Z :=
  match n with
  | O => 0
  | S n => digit_sum start e n + default 0 (e !! (2 * n + start)%nat) * 256 ^ Z.of_nat n
  end.

Lemma comb_extends start e E P n : Forall (λ d, -8 <= d <= 8) e → (n <= 32)%nat → extends E P →
  extends (comb start e E n) (padd P (smul (digit_sum start e n) ed_B)).
Proof.
  intros He. induction n as [|n IH]; intros Hn HE; [by rewrite padd_zero_r|].
  rewrite comb_S. cbn [digit_sum]. rewrite smul_add, <- padd_assoc. apply extends_add; [apply IH; [lia|done]|].
  apply multiple_extends; [lia|]. destruct (e !! (2 * n + start)%nat) as [d|] eqn:Hd; [|cbn; lia].
  exact (Forall_lookup_1 _ _ _ _ He Hd).
Qed.

Lemma digit_sum_cons2 start a b e n : (start < 2)%nat →
  digit_sum start (a :: b :: e) (S n) = (if start is O then a else b) + 256 * digit_sum start e n.
Proof.
  intros Hs. induction n as [|n IH].
  - cbn. destruct start as [|[|s]]; cbn; lia.
  - change (digit_sum start (a :: b :: e) (S (S n))) with (digit_sum start (a :: b :: e) (S n) +
      default 0 ((a :: b :: e) !! (2 * S n + start)%nat) * 256 ^ Z.of_nat (S n)).
    rewrite IH. cbn [digit_sum]. replace (2 * S n + start)%nat with (S (S (2 * n + start))) by lia.
    change ((a :: b :: e) !! S (S (2 * n + start))%nat) with (e !! (2 * n + start)%nat).
    rewrite Nat2Z.inj_succ, Z.pow_succ_r by lia. ring.
Qed.

Lemma digit_sum_value n e : length e = (2 * n)%nat → value16 e = digit_sum 0 e n + 16 * digit_sum 1 e n.
Proof.
  revert e. induction n as [|n IH]; intros e He; [by destruct e|].
  destruct e as [|a [|b e]]; [cbn in He; lia..|]. rewrite !digit_sum_cons2 by lia.
  change (value16 (a :: b :: e)) with (a + 16 * (b + 16 * value16 e)).
  rewrite IH by (cbn in He; lia). ring.
Qed.

Lemma extends_zero : extends ed_zero pzero.
Proof. split; [apply one_nz|]. by vm_compute. Qed.

(** The code's multiplication of the base point is the multiple in the group. *)
Lemma ed_base_extends k : 0 <= k <= 8 * 16 ^ Z.of_nat 63 → extends (ed_base k) (smul k ed_B).
Proof.
  intros Hk. assert (Forall (λ d, -8 <= d <= 8) (signed_digits 63 k)) as Hd by (apply signed_digits_bound; exact Hk).
  unfold ed_base. rewrite <- (signed_digits_value 63 k) at 3. revert Hd.
  generalize (signed_digits_length 63 k). generalize (signed_digits 63 k). intros e Hl Hd.
  rewrite (digit_sum_value 32) by done. rewrite Z.add_comm, smul_add. apply comb_extends; [exact Hd|lia|].
  rewrite (smul_mul 16). apply (extends_iter_dbl 4).
  rewrite <- (padd_zero_l (smul _ _)). apply comb_extends; [exact Hd|lia|apply extends_zero].
Qed.

Lemma montgomery_u E P : extends E P → montgomery E = u_of P.
Proof.
  intros (Hz & _ & Hy & _). unfold montgomery. apply u_of_shows. unfold shows. cbn [fst snd].
  rewrite fadd_eqp, fsub_eqp, Hy. split.
  - intros H. apply (eqp_mul_nz _ _ two_nz Hz). rewrite <- H. apply eq_eqp. ring.
  - apply eq_eqp. ring.
Qed.

(** ** Clamped scalars *)

(** A clamped scalar is eight times a number below the order. *)
Lemma clamped n : ∃ m, decode_scalar n = 8 * m ∧ 0 < m < ed_order.
Proof.
  exists (2 ^ 251 + (le_val n / 8) mod 2 ^ 251). unfold decode_scalar, ed_order. div_lia.
Qed.
Lemma clamped_bound n : 0 <= decode_scalar n < 2 ^ 255.
Proof. unfold decode_scalar. div_lia. Qed.

Lemma order_coprime x m : 0 < x < ed_order → (ed_order | x * m) → (ed_order | m).
Proof.
  intros Hx [H|H]%Z.divide_prime_mul; [|done|apply prime_order]. apply Z.divide_pos_le in H; lia.
Qed.

Lemma eight_order : 0 < 8 < ed_order.
Proof. by vm_compute. Qed.

(** A clamped multiple, or its multiple by a number below the order, is not zero. *)
Lemma clamped_divides n m : (ed_order | decode_scalar n * m) → (ed_order | m).
Proof.
  destruct (clamped n) as (x & -> & Hx). rewrite <- Z.mul_assoc. intros H.
  by apply (order_coprime x m Hx), (order_coprime 8 _ eight_order).
Qed.

Lemma multiple_nz c n m : 0 < c < ed_order → ¬ (ed_order | m) → smul (c * (decode_scalar n * m)) ed_B ≠ pzero.
Proof.
  intros Hc Hm H%smul_B_zero. apply (order_coprime c) in H; [|exact Hc]. by apply clamped_divides in H.
Qed.

Lemma one_order : ¬ (ed_order | 1).
Proof. intros H%Z.divide_pos_le; [by vm_compute in H|done]. Qed.

(** The coordinate of such a multiple is one the ladder takes. *)
Lemma clamped_u n m : ¬ (ed_order | m) → let Q := smul (decode_scalar n * m) ed_B in
  ¬ eqp (u_of Q) 0 ∧ u_is (u_of Q) Q.
Proof.
  intros Hm Q. split.
  - intros H%u_of_zero. unfold Q in H. rewrite <- smul_mul in H. revert H. by apply multiple_nz.
  - apply u_is_u_of. unfold Q. rewrite <- (Z.mul_1_l (_ * _)). apply multiple_nz; [|exact Hm]. by vm_compute.
Qed.

(** ** The laws *)

Lemma base_is_ladder n : montgomery (ed_base (decode_scalar n)) = x25519 (decode_scalar n) 9.
Proof.
  rewrite (x25519_multiplies _ 9 ed_B (clamped_bound n) nine_nz u_is_9).
  apply montgomery_u, ed_base_extends. pose proof (clamped_bound n).
  change (8 * 16 ^ Z.of_nat 63) with (2 ^ 255). lia.
Qed.

Lemma ladder_twice a b : x25519 (decode_scalar a) (x25519 (decode_scalar b) 9) =
  u_of (smul (decode_scalar a * decode_scalar b) ed_B).
Proof.
  rewrite (x25519_multiplies (decode_scalar b) 9 ed_B (clamped_bound b) nine_nz u_is_9).
  destruct (clamped_u b 1 one_order) as [Hn Hu]. rewrite Z.mul_1_r in Hn, Hu.
  by rewrite (x25519_multiplies _ _ _ (clamped_bound a) Hn Hu), smul_mul.
Qed.

Lemma agreement a b : x25519 (decode_scalar a) (x25519 (decode_scalar b) 9) =
  x25519 (decode_scalar b) (x25519 (decode_scalar a) 9).
Proof. by rewrite !ladder_twice, Z.mul_comm. Qed.

Lemma agreement_nz a b : x25519 (decode_scalar a) (x25519 (decode_scalar b) 9) ≠ 0.
Proof.
  rewrite ladder_twice. intros H. destruct (clamped_u a (decode_scalar b)) as [Hn _]; [|by rewrite H in Hn].
  intros Hd. rewrite <- (Z.mul_1_r (decode_scalar b)) in Hd. by apply clamped_divides, one_order in Hd.
Qed.

(** Three doublings take the coordinates of points of small order to infinity. *)
Definition u_double (XZ : Z * Z) : Z * Z := (ladder_step 0 XZ XZ).1.
Lemma shows_doubles n XZ P : shows XZ P → shows (Nat.iter n u_double XZ) (smul (2 ^ Z.of_nat n) P).
Proof.
  intros H. induction n as [|n IH]; [by rewrite smul_1|].
  rewrite Nat2Z.inj_succ, Z.pow_succ_r by lia. rewrite <- Z.add_diag, smul_add. by apply shows_double.
Qed.
Lemma small_order_checked : forallb (λ u, (Nat.iter 3 u_double (u, 1)).2 =? 0) small_order = true.
Proof. by vm_compute. Qed.

Lemma public_not_small n : x25519 (decode_scalar n) 9 ∉ small_order.
Proof.
  intros H%list_elem_of_In. pose proof (proj1 (forallb_forall _ _) small_order_checked _ H) as H0.
  apply Z.eqb_eq in H0. rewrite (x25519_multiplies _ 9 ed_B (clamped_bound n) nine_nz u_is_9) in H0.
  destruct (clamped_u n 1 one_order) as [_ Hu]. rewrite Z.mul_1_r in Hu.
  apply shows_u, (shows_doubles 3) in Hu. revert Hu H0.
  generalize (Nat.iter 3 u_double (u_of (smul (decode_scalar n) ed_B), 1)). intros [X W] Hu H0. cbn [snd] in H0.
  apply (multiple_nz 8 n 1 eight_order one_order).
  rewrite Z.mul_1_r, smul_mul. apply (shows_infinity X W _ Hu). by rewrite H0.
Qed.

(** ** The functions of libsodium *)

(** The coordinate of the base point as [crypto_scalarmult] takes it. *)
Definition base_u : bytes := 9 :: replicate 31 0.

Lemma decode_base_u : decode_u base_u = 9.
Proof. by vm_compute. Qed.
Lemma nine_not_small : 9 ∉ small_order.
Proof. apply (bool_decide_unpack (9 ∉ small_order)). by vm_compute. Qed.

Lemma public_key_nz n : x25519 (decode_scalar n) 9 ≠ 0.
Proof. intros H. apply (public_not_small n). rewrite H. by left. Qed.

(** What the other side decodes from a public key. *)
Lemma decode_public k u : decode_u (le_bytes 32 (x25519 k u)) = x25519 k u.
Proof.
  pose proof (x25519_bound k u) as Hr. unfold decode_u. unfold p25519 in Hr.
  rewrite le_val_bytes by (change (8 * Z.of_nat 32) with 256; lia).
  revert Hr. generalize (x25519 k u). intros r Hr.
  rewrite (Z.mod_small r (2 ^ 255)) by lia. apply Z.mod_small. unfold p25519. lia.
Qed.

Lemma base_eq q n : length q = 32%nat → length n = 32%nat → bytes_ok n →
  crypto_scalarmult_curve25519_base q n = Some (0, le_bytes 32 (x25519 (decode_scalar n) 9)).
Proof. intros. by rewrite scalarmult_curve25519_base_eq, base_is_ladder. Qed.

(** The ladder on a public key. *)
Lemma mult_public q a b : length q = 32%nat → length a = 32%nat → bytes_ok a →
  crypto_scalarmult_curve25519 q a (le_bytes 32 (x25519 (decode_scalar b) 9)) =
    Some (0, le_bytes 32 (x25519 (decode_scalar a) (x25519 (decode_scalar b) 9))).
Proof.
  intros Hq Ha Hab. rewrite curve25519_eq by (done || apply le_bytes_length || apply le_bytes_ok).
  rewrite decode_public, bool_decide_false by apply public_not_small.
  destruct (Z.eqb_spec (x25519 (decode_scalar a) (x25519 (decode_scalar b) 9)) 0) as [E|E]; [|done].
  by apply agreement_nz in E.
Qed.

(** ** Properties *)

(** C7: the two sides of a Diffie-Hellman exchange over libsodium's Curve25519 arrive at the same
    secret, and never at the all-zero one: for any two secret keys, each public key is
    what [crypto_scalarmult_base] stores, and [crypto_scalarmult] of one's own secret
    key and the other's public key returns 0 and stores the same 32 bytes on both
    sides.  No hypothesis on the curve: primality of the field and of the order of the
    base point, completeness and associativity of the addition, and the equality of
    the two forms of the curve are proved. *)
Theorem shared_secret_agrees a b qa qb ra rb :
  length a = 32%nat → bytes_ok a → length b = 32%nat → bytes_ok b →
  length qa = 32%nat → length qb = 32%nat → length ra = 32%nat → length rb = 32%nat →
  ∃ pa pb s,
    crypto_scalarmult_curve25519_base qa a = Some (0, pa) ∧
    crypto_scalarmult_curve25519_base qb b = Some (0, pb) ∧
    crypto_scalarmult_curve25519 ra a pb = Some (0, s) ∧
    crypto_scalarmult_curve25519 rb b pa = Some (0, s) ∧
    length s = 32%nat ∧ s ≠ replicate 32 0.
Proof.
  intros Ha Hab Hb Hbb Hqa Hqb Hra Hrb. do 3 eexists.
  split; [by apply base_eq|]. split; [by apply base_eq|]. split; [by apply mult_public|].
  split; [by rewrite agreement; apply mult_public|]. split; [apply le_bytes_length|].
  intros E. apply (agreement_nz a b). apply (f_equal le_val) in E.
  pose proof (x25519_bound (decode_scalar a) (x25519 (decode_scalar b) 9)) as Hr. unfold p25519 in Hr.
  rewrite le_val_bytes in E by (change (8 * Z.of_nat 32) with 256; lia). exact E.
Qed.

Lemma shared_secret_agrees_witness : ∃ pa pb s,
  crypto_scalarmult_curve25519_base (replicate 32 0) rfc_scalar = Some (0, pa) ∧
  crypto_scalarmult_curve25519_base (replicate 32 1) rfc_point = Some (0, pb) ∧
  crypto_scalarmult_curve25519 (replicate 32 2) rfc_scalar pb = Some (0, s) ∧
  crypto_scalarmult_curve25519 (replicate 32 3) rfc_point pa = Some (0, s) ∧
  length s = 32%nat ∧ s ≠ replicate 32 0.
Proof. apply shared_secret_agrees; by_computation. Defined.

(** C8: multiplication of the base point through the table of Edwards points and the
    Montgomery ladder on the coordinate 9 are the same function: for every secret key
    [crypto_scalarmult_base(q, n)] returns and stores what [crypto_scalarmult(q, n, 9)] does. *)
Theorem public_key_is_ladder q n : length q = 32%nat → length n = 32%nat → bytes_ok n →
  crypto_scalarmult_curve25519_base q n = crypto_scalarmult_curve25519 q n base_u.
Proof.
  intros Hq Hn Hnb. rewrite base_eq, curve25519_eq by (done || by_computation).
  rewrite decode_base_u, bool_decide_false by apply nine_not_small.
  destruct (Z.eqb_spec (x25519 (decode_scalar n) 9) 0) as [E|E]; [by apply public_key_nz in E|done].
Qed.

Lemma public_key_is_ladder_witness :
  crypto_scalarmult_curve25519_base (replicate 32 0) rfc_scalar =
    crypto_scalarmult_curve25519 (replicate 32 0) rfc_scalar base_u.
Proof. apply public_key_is_ladder; by_computation. Defined.

(** [ge25519_scalarmult_base] multiplies the base point in the group of the curve: for
    every 255-bit scalar it runs without undefined behaviour and returns extended
    coordinates, in bounded limbs, of the scalar's multiple of the base point [B]; the
    multiples are those of a group (the sum is associative and commutative, with
    neutral element and inverses) in which [B] has the prime order [ed_order]. *)
Theorem scalarmult_base_multiplies a : length a = 32%nat → bytes_ok a → le_val a < 2 ^ 255 →
  (∃ A, ge25519_scalarmult_base a = Some A ∧ p3_limbs A ∧ extends (p3_val A) (smul (le_val a) ed_B)) ∧
  (∀ P Q R, padd (padd P Q) R = padd P (padd Q R) ∧ padd P Q = padd Q P ∧
     padd pzero P = P ∧ padd (pneg P) P = pzero) ∧
  (∀ k, smul k ed_B = pzero ↔ (ed_order | k)).
Proof.
  intros Hl Ha Hlt. pose proof (le_val_bound a Ha) as [Hpos _]. split_and!.
  - destruct (scalarmult_base_eq a Hl Ha Hlt) as (A & HA & HL & HV). exists A.
    split; [exact HA|]. split; [exact HL|]. rewrite HV. apply ed_base_extends.
    change (8 * 16 ^ Z.of_nat 63) with (2 ^ 255). lia.
  - intros P Q R. auto using padd_assoc, padd_comm, padd_zero_l, padd_neg_l.
  - intros k. split; [apply smul_B_zero|]. intros [j ->]. by rewrite smul_mul, order_B, smul_zero.
Qed.

Lemma scalarmult_base_multiplies_witness :
  let a := take 31 rfc_scalar ++ [0x44] in
  (∃ A, ge25519_scalarmult_base a = Some A ∧ p3_limbs A ∧ extends (p3_val A) (smul (le_val a) ed_B)) ∧
  (∀ P Q R, padd (padd P Q) R = padd P (padd Q R) ∧ padd P Q = padd Q P ∧
     padd pzero P = P ∧ padd (pneg P) P = pzero) ∧
  (∀ k, smul k ed_B = pzero ↔ (ed_order | k)).
Proof. apply scalarmult_base_multiplies; by_computation. Defined.
