(* ===== verification/Points.v ===== *)
(** * Operations on points of the Edwards curve ([ed25519/ref10/ed25519_ref10.c] of libsodium)

    The rest of the point arithmetic: addition and subtraction of cached points,
    multiplication of any point by a scalar, multiplication by the order of the base
    point, and the tests that a point is on the curve and in the subgroup.  Each is
    shown to compute in the group of [Edwards]. *)

From Stdlib Require Import Zpow_facts.
From S2P Require Import Prelude Packet Sodium Words Poly1305 Fe25519 Curve25519 Ge25519 Base25519 Primes.
From S2P Require Import Edwards Montgomery Basepoint Agreement.
Local Open Scope c_scope.

(** ** The code *)

Definition fe_d : fe25519 :=
  mk_fe 929955233495203 466365720129213 1662059464998953 2033849074728123 1442794654840575.
Definition fe_d2 : fe25519 :=
  mk_fe 1859910466990425 932731440258426 1072319116312658 1815898335770999 633789495995903.
Definition fe_sqrtm1 : fe25519 :=
  mk_fe 1718705420411056 234908883556509 2233514472574048 2117202627021982 765476049583133.

Record ge25519_cached :=
  mk_cached { YplusX : fe25519; YminusX : fe25519; c_Z : fe25519; T2d : fe25519 }.

Definition ge25519_cached_0 : ge25519_cached := mk_cached fe25519_1 fe25519_1 fe25519_1 fe25519_0.
Definition ge25519_p2_0 : ge25519_p2 := mk_p2 fe25519_0 fe25519_1 fe25519_1.

Definition ge25519_add (p : ge25519_p3) (q : ge25519_cached) : ge25519_p1p1 :=
  let X := fe25519_add (p3_Y p) (p3_X p) in
  let Y := fe25519_sub (p3_Y p) (p3_X p) in
  let Z := fe25519_mul X (YplusX q) in
  let Y := fe25519_mul Y (YminusX q) in
  let T := fe25519_mul (T2d q) (p3_T p) in
  let X := fe25519_mul (p3_Z p) (c_Z q) in
  let t0 := fe25519_add X X in
  let X := fe25519_sub Z Y in
  let Y := fe25519_add Z Y in
  let Z := fe25519_add t0 T in
  let T := fe25519_sub t0 T in
  mk_p1p1 X Y Z T.

Definition ge25519_sub (p : ge25519_p3) (q : ge25519_cached) : ge25519_p1p1 :=
  let X := fe25519_add (p3_Y p) (p3_X p) in
  let Y := fe25519_sub (p3_Y p) (p3_X p) in
  let Z := fe25519_mul X (YminusX q) in
  let Y := fe25519_mul Y (YplusX q) in
  let T := fe25519_mul (T2d q) (p3_T p) in
  let X := fe25519_mul (p3_Z p) (c_Z q) in
  let t0 := fe25519_add X X in
  let X := fe25519_sub Z Y in
  let Y := fe25519_add Z Y in
  let Z := fe25519_sub t0 T in
  let T := fe25519_add t0 T in
  mk_p1p1 X Y Z T.

Definition ge25519_msub (p : ge25519_p3) (q : ge25519_precomp) : ge25519_p1p1 :=
  let X := fe25519_add (p3_Y p) (p3_X p) in
  let Y := fe25519_sub (p3_Y p) (p3_X p) in
  let Z := fe25519_mul X (yminusx q) in
  let Y := fe25519_mul Y (yplusx q) in
  let T := fe25519_mul (xy2d q) (p3_T p) in
  let t0 := fe25519_add (p3_Z p) (p3_Z p) in
  let X := fe25519_sub Z Y in
  let Y := fe25519_add Z Y in
  let Z := fe25519_sub t0 T in
  let T := fe25519_add t0 T in
  mk_p1p1 X Y Z T.

Definition ge25519_p3_to_cached (p : ge25519_p3) : ge25519_cached :=
  mk_cached (fe25519_add (p3_Y p) (p3_X p)) (fe25519_sub (p3_Y p) (p3_X p))
    (fe25519_copy (p3_Z p)) (fe25519_mul (p3_T p) fe_d2).

Definition ge25519_p3_to_precomp (p : ge25519_p3) : ge25519_precomp :=
  let recip := fe25519_invert (p3_Z p) in
  let x := fe25519_mul (p3_X p) recip in
  let y := fe25519_mul (p3_Y p) recip in
  let xy := fe25519_mul x y in
  mk_precomp (fe25519_add y x) (fe25519_sub y x) (fe25519_mul xy fe_d2).

Definition ge25519_cmov_cached (t u : ge25519_cached) (b : Z) : ge25519_cached :=
  mk_cached (fe25519_cmov (YplusX t) (YplusX u) b) (fe25519_cmov (YminusX t) (YminusX u) b)
    (fe25519_cmov (c_Z t) (c_Z u) b) (fe25519_cmov (T2d t) (T2d u) b).

Definition ge25519_cmov8_cached (cached : list ge25519_cached) (b : Z) : option ge25519_cached :=
  let bnegative := negative b in
  let babs := u8 (b - ((- bnegative) &' b) * (1 ≪ 1)) in
  let t := ge25519_cached_0 in
  u ← cached.[0]; let t := ge25519_cmov_cached t u (equal (s8 babs) 1) in
  u ← cached.[1]; let t := ge25519_cmov_cached t u (equal (s8 babs) 2) in
  u ← cached.[2]; let t := ge25519_cmov_cached t u (equal (s8 babs) 3) in
  u ← cached.[3]; let t := ge25519_cmov_cached t u (equal (s8 babs) 4) in
  u ← cached.[4]; let t := ge25519_cmov_cached t u (equal (s8 babs) 5) in
  u ← cached.[5]; let t := ge25519_cmov_cached t u (equal (s8 babs) 6) in
  u ← cached.[6]; let t := ge25519_cmov_cached t u (equal (s8 babs) 7) in
  u ← cached.[7]; let t := ge25519_cmov_cached t u (equal (s8 babs) 8) in
  let minust := mk_cached (fe25519_copy (YminusX t)) (fe25519_copy (YplusX t))
    (fe25519_copy (c_Z t)) (fe25519_neg (T2d t)) in
  Some (ge25519_cmov_cached t minust bnegative).

(** The first eight multiples of [p], at the start of [ge25519_scalarmult]. *)
Definition multiples8 (p : ge25519_p3) : list ge25519_cached :=
  let pi0 := ge25519_p3_to_cached p in
  let p2 := ge25519_p1p1_to_p3 (ge25519_p3_dbl p) in
  let pi1 := ge25519_p3_to_cached p2 in
  let p3 := ge25519_p1p1_to_p3 (ge25519_add p pi1) in
  let pi2 := ge25519_p3_to_cached p3 in
  let p4 := ge25519_p1p1_to_p3 (ge25519_p3_dbl p2) in
  let pi3 := ge25519_p3_to_cached p4 in
  let p5 := ge25519_p1p1_to_p3 (ge25519_add p pi3) in
  let pi4 := ge25519_p3_to_cached p5 in
  let p6 := ge25519_p1p1_to_p3 (ge25519_p3_dbl p3) in
  let pi5 := ge25519_p3_to_cached p6 in
  let p7 := ge25519_p1p1_to_p3 (ge25519_add p pi5) in
  let pi6 := ge25519_p3_to_cached p7 in
  let p8 := ge25519_p1p1_to_p3 (ge25519_p3_dbl p4) in
  let pi7 := ge25519_p3_to_cached p8 in
  [pi0; pi1; pi2; pi3; pi4; pi5; pi6; pi7].

(** One iteration of its loop: add the multiple of the digit, then four doublings. *)
Definition scalarmult_step (pi : list ge25519_cached) (e : list Z) (i : Z) (h : ge25519_p3)
    : option ge25519_p3 :=
  b ← e.[i];
  t ← ge25519_cmov8_cached pi b;
  let r := ge25519_add h t in
  let s := ge25519_p1p1_to_p2 r in
  let r := ge25519_p2_dbl s in
  let s := ge25519_p1p1_to_p2 r in
  let r := ge25519_p2_dbl s in
  let s := ge25519_p1p1_to_p2 r in
  let r := ge25519_p2_dbl s in
  let s := ge25519_p1p1_to_p2 r in
  let r := ge25519_p2_dbl s in
  Some (ge25519_p1p1_to_p3 r).

Definition ge25519_scalarmult (a : bytes) (p : ge25519_p3) : option ge25519_p3 :=
  let pi := multiples8 p in
  e ← split_digits a;
  e ← carry_digits e;
  h ← for_range 63 (λ k, scalarmult_step pi e (63 - Z.of_nat k)) ge25519_p3_0;
  b ← e.[0];
  t ← ge25519_cmov8_cached pi b;
  let r := ge25519_add h t in
  Some (ge25519_p1p1_to_p3 r).

(** The odd multiples [A, 3A, ..., 15A]. *)
Definition odd_multiples (A : ge25519_p3) : list ge25519_cached :=
  let Ai0 := ge25519_p3_to_cached A in
  let A2 := ge25519_p1p1_to_p3 (ge25519_p3_dbl A) in
  let u := ge25519_p1p1_to_p3 (ge25519_add A2 Ai0) in
  let Ai1 := ge25519_p3_to_cached u in
  let u := ge25519_p1p1_to_p3 (ge25519_add A2 Ai1) in
  let Ai2 := ge25519_p3_to_cached u in
  let u := ge25519_p1p1_to_p3 (ge25519_add A2 Ai2) in
  let Ai3 := ge25519_p3_to_cached u in
  let u := ge25519_p1p1_to_p3 (ge25519_add A2 Ai3) in
  let Ai4 := ge25519_p3_to_cached u in
  let u := ge25519_p1p1_to_p3 (ge25519_add A2 Ai4) in
  let Ai5 := ge25519_p3_to_cached u in
  let u := ge25519_p1p1_to_p3 (ge25519_add A2 Ai5) in
  let Ai6 := ge25519_p3_to_cached u in
  let u := ge25519_p1p1_to_p3 (ge25519_add A2 Ai6) in
  let Ai7 := ge25519_p3_to_cached u in
  [Ai0; Ai1; Ai2; Ai3; Ai4; Ai5; Ai6; Ai7].

(** Add or subtract the multiple of a digit of [aslide] to the completed point [t]. *)
Definition add_slide (Ai : list ge25519_cached) (d : Z) (t : ge25519_p1p1) : option ge25519_p1p1 :=
  if 0 <? d then
    let u := ge25519_p1p1_to_p3 t in
    q ← Ai.[Z.quot d 2];
    Some (ge25519_add u q)
  else if d <? 0 then
    let u := ge25519_p1p1_to_p3 t in
    q ← Ai.[Z.quot (- d) 2];
    Some (ge25519_sub u q)
  else Some t.

(** The digits of the order of the base point. *)
Definition aslide_l : list Z :=
  [13; 0; 0; 0; 0; -1; 0; 0; 0; 0; -11; 0; 0; 0; 0; 0; 0; -5; 0; 0; 0; 0; 0; 0; -3; 0; 0; 0; 0; -13;
   0; 0; 0; 0; 7; 0; 0; 0; 0; 0; 3; 0; 0; 0; 0; -13; 0; 0; 0; 0; 5; 0; 0; 0; 0; 0; 0; 0; 0; 11;
   0; 0; 0; 0; 0; 11; 0; 0; 0; 0; -13; 0; 0; 0; 0; 0; 0; -3; 0; 0; 0; 0; 0; -1; 0; 0; 0; 0; 3; 0;
   0; 0; 0; -11; 0; 0; 0; 0; 0; 0; 0; 15; 0; 0; 0; 0; 0; -1; 0; 0; 0; 0; -1; 0; 0; 0; 0; 7; 0; 0;
   0; 0; 5; 0; 0; 0; 0; 0; 0; 0; 0; 0; 0] ++ replicate 119 0 ++ [1].

Definition ge25519_mul_l (A : ge25519_p3) : option ge25519_p3 :=
  let Ai := odd_multiples A in
  for_range 253 (λ k r,
    let i := 252 - Z.of_nat k in
    let t := ge25519_p3_dbl r in
    d ← aslide_l.[i];
    t ← add_slide Ai d t;
    Some (ge25519_p1p1_to_p3 t)) ge25519_p3_0.

Definition ge25519_is_on_curve (p : ge25519_p3) : option Z :=
  let x2 := fe25519_sq (p3_X p) in
  let y2 := fe25519_sq (p3_Y p) in
  let z2 := fe25519_sq (p3_Z p) in
  let t0 := fe25519_sub y2 x2 in
  let t0 := fe25519_mul t0 z2 in
  let t1 := fe25519_mul x2 y2 in
  let t1 := fe25519_mul t1 fe_d in
  let z4 := fe25519_sq z2 in
  let t1 := fe25519_add t1 z4 in
  let t0 := fe25519_sub t0 t1 in
  fe25519_iszero t0.

Definition ge25519_is_on_main_subgroup (p : ge25519_p3) : option Z :=
  pl ← ge25519_mul_l p;
  fe25519_iszero (p3_X pl).

(** ** Points in the code's coordinates *)

(** The coordinates with the sign of [x] changed. *)
Definition ed_neg (Q : epoint) : epoint := mk_e (fsub 0 (eX Q)) (eY Q) (eZ Q) (fsub 0 (eT Q)).

(** A cached point. *)
Definition cached_is (q : ge25519_cached) (Q : epoint) : Prop :=
  (limbs 53 (YplusX q) ∧ limbs 53 (YminusX q) ∧ limbs 52 (c_Z q) ∧ limbs 53 (T2d q)) ∧
  fe_mod (YplusX q) = fadd (eY Q) (eX Q) ∧ fe_mod (YminusX q) = fsub (eY Q) (eX Q) ∧
  fe_mod (c_Z q) = fmul 1 (eZ Q) ∧ fe_mod (T2d q) = fmul (fmul 2 ed_d) (eT Q).

Definition p3_at (p : ge25519_p3) (P : point) : Prop := p3_limbs p ∧ extends (p3_val p) P.
Definition p2_at (s : ge25519_p2) (P : point) : Prop := ∃ E, p2_is s E ∧ extends E P.
Definition cached_at (q : ge25519_cached) (Q : point) : Prop := ∃ E, cached_is q E ∧ extends E Q.
Definition precomp_at (q : ge25519_precomp) (Q : point) : Prop := stands q (px Q) (py Q).

(** A completed point converts to both. *)
Definition p1p1_at (r : ge25519_p1p1) (P : point) : Prop :=
  ∃ x y z t, p1p1_is r x y z t ∧ extends (mk_e (fmul x t) (fmul y z) (fmul z t) (fmul x y)) P.

Lemma p1p1_p3_at r P : p1p1_at r P → p3_at (ge25519_p1p1_to_p3 r) P.
Proof. intros (x & y & z & t & Hr & He). destruct (to_p3_eq _ _ _ _ _ Hr) as [Hl Hv]. split; [exact Hl|by rewrite Hv]. Qed.
Lemma p1p1_p2_at r P : p1p1_at r P → p2_at (ge25519_p1p1_to_p2 r) P.
Proof. intros (x & y & z & t & Hr & He). eexists. split; [by apply to_p2_eq|exact He]. Qed.
Lemma p3_p2_at p P : p3_at p P → p2_at (ge25519_p3_to_p2 p) P.
Proof. intros [Hl He]. exists (p3_val p). split; [by apply p3_to_p2_is|exact He]. Qed.

Lemma extends_neg E P : extends E P → extends (ed_neg E) (pneg P).
Proof.
  destruct E as [X Y W T]. intros (Hz & Hx & Hy & Ht). unfold extends, ed_neg, pneg in *.
  cbn [eX eY eZ eT reduced_point px py] in *. rewrite !fsub_eqp, !eqp_mod, Hx, Hy, Ht.
  split; [exact Hz|]. split_and!; apply eq_eqp; ring.
Qed.

Lemma extends_resigned E P : extends E P → extends (resigned E) P.
Proof.
  destruct E as [X Y W T]. intros (Hz & Hx & Hy & Ht). unfold extends, resigned in *.
  cbn [eX eY eZ eT] in *. rewrite !fsub_eqp, Hx, Hy, Ht. split.
  - intros H. apply Hz. transitivity (- (0 - W)); [apply eq_eqp; ring|]. by rewrite H.
  - split_and!; apply eq_eqp; ring.
Qed.

(** The completed coordinates of a sum, up to how the constants are grouped. *)
Lemma sum_coordinates P Q c : c = fmul 1 (eZ Q) →
  let a := fmul (fadd (eY P) (eX P)) (fadd (eY Q) (eX Q)) in
  let b := fmul (fsub (eY P) (eX P)) (fsub (eY Q) (eX Q)) in
  let t := fmul (fmul (fmul 2 ed_d) (eT Q)) (eT P) in
  let w := fadd (fmul (eZ P) c) (fmul (eZ P) c) in
  mk_e (fmul (fsub a b) (fsub w t)) (fmul (fadd a b) (fadd w t)) (fmul (fadd w t) (fsub w t)) (fmul (fsub a b) (fadd a b)) =
    ed_add P Q.
Proof.
  intros ->. destruct P as [X Y W T], Q as [X' Y' W' T']. unfold ed_add. cbn [eX eY eZ eT]. cbv zeta. f_equal; field_ring.
Qed.

(** Adding and subtracting a cached point; [swap] exchanges the roles of [y + x] and [y - x]. *)
Lemma add_is p q Q : p3_limbs p → cached_is q Q →
  let P := p3_val p in
  let a := fmul (fadd (eY P) (eX P)) (fadd (eY Q) (eX Q)) in
  let b := fmul (fsub (eY P) (eX P)) (fsub (eY Q) (eX Q)) in
  let t := fmul (fmul (fmul 2 ed_d) (eT Q)) (eT P) in
  let w := fadd (fmul (eZ P) (fmul 1 (eZ Q))) (fmul (eZ P) (fmul 1 (eZ Q))) in
  p1p1_is (ge25519_add p q) (fsub a b) (fadd a b) (fadd w t) (fsub w t).
Proof.
  destruct p as [X Y W T], q as [yp ym c t2]. intros (LX & LY & LW & LT) [(La & Lb & Lc & Ld) (Ea & Eb & Ec & Ed)].
  cbn [p3_X p3_Y p3_Z p3_T YplusX YminusX c_Z T2d] in *. unfold p3_val, ge25519_add.
  cbn [p3_X p3_Y p3_Z p3_T YplusX YminusX c_Z T2d eX eY eZ eT]. rewrite <- Ea, <- Eb, <- Ec, <- Ed. clear Ea Eb Ec Ed Q. cbv zeta.
  destruct (fe_add_eq Y X LY LX) as [L1 <-]. set (f1 := fe25519_add Y X) in *.
  destruct (fe_sub_eq Y X LY (limbs_54 _ LX)) as [L2 <-]. set (f2 := fe25519_sub Y X) in *. clearbody f1 f2.
  destruct (fe_mul_eq f1 yp L1 La) as [L3 <-]. set (f3 := fe25519_mul f1 yp) in *.
  destruct (fe_mul_eq f2 ym L2 Lb) as [L4 <-]. set (f4 := fe25519_mul f2 ym) in *.
  destruct (fe_mul_eq t2 T Ld (limbs_53 _ LT)) as [L5 <-]. set (f5 := fe25519_mul t2 T) in *.
  destruct (fe_mul_eq W c (limbs_53 _ LW) (limbs_53 _ Lc)) as [L6 <-]. set (f6 := fe25519_mul W c) in *. clearbody f3 f4 f5 f6.
  destruct (fe_add_eq f6 f6 L6 L6) as [L7 <-]. set (f7 := fe25519_add f6 f6) in *. clearbody f7.
  destruct (fe_sub_eq f3 f4 L3 (limbs_54 _ L4)) as [L8 <-]. destruct (fe_add_eq f3 f4 L3 L4) as [L9 <-].
  destruct (fe_add53_eq f7 f5 L7 (limbs_53 _ L5)) as [L10 <-]. destruct (fe_sub53_eq f7 f5 L7 (limbs_54 _ L5)) as [L11 <-].
  split; [|split; [|split; [|split]]; reflexivity]. cbn [p1p1_X p1p1_Y p1p1_Z p1p1_T].
  split; [by apply limbs_53_54|]. split; [by apply limbs_53_54|]. split; [exact L10|exact L11].
Qed.

Lemma sub_as_add p q : ge25519_sub p q =
  let r := ge25519_add p (mk_cached (YminusX q) (YplusX q) (c_Z q) (T2d q)) in
  mk_p1p1 (p1p1_X r) (p1p1_Y r) (p1p1_T r) (p1p1_Z r).
Proof. unfold ge25519_sub, ge25519_add. cbn [YplusX YminusX c_Z T2d p1p1_X p1p1_Y p1p1_Z p1p1_T]. reflexivity. Qed.

Lemma exchanged_is r x y z t : p1p1_is r x y z t →
  p1p1_is (mk_p1p1 (p1p1_X r) (p1p1_Y r) (p1p1_T r) (p1p1_Z r)) x y t z.
Proof.
  destruct r as [X Y W T]. intros [(L1 & L2 & L3 & L4) (E1 & E2 & E3 & E4)].
  cbn [p1p1_X p1p1_Y p1p1_Z p1p1_T] in *. split.
  - split; [exact L1|]. split; [exact L2|]. split; [exact L4|exact L3].
  - split; [exact E1|]. split; [exact E2|]. split; [exact E4|exact E3].
Qed.

Lemma fadd_minus a b : fadd a (fsub 0 b) = fsub a b.
Proof. enough (eqp (a + fsub 0 b) (a - b)) as H by exact H. rewrite fsub_eqp. apply eq_eqp. ring. Qed.
Lemma fsub_minus a b : fsub a (fsub 0 b) = fadd a b.
Proof. enough (eqp (a - fsub 0 b) (a + b)) as H by exact H. rewrite fsub_eqp. apply eq_eqp. ring. Qed.

Lemma cached_exchanged q X Y W T : cached_is q (mk_e X Y W T) →
  cached_is (mk_cached (YminusX q) (YplusX q) (c_Z q) (T2d q)) (mk_e (fsub 0 X) Y W T).
Proof.
  destruct q as [a b c d]. intros [(La & Lb & Lc & Ld) (Ea & Eb & Ec & Ed)]. cbn [YplusX YminusX c_Z T2d eX eY eZ eT] in *.
  split; cbn [YplusX YminusX c_Z T2d eX eY eZ eT].
  - split; [exact Lb|]. split; [exact La|]. split; [exact Lc|exact Ld].
  - rewrite fadd_minus, fsub_minus. split; [exact Eb|]. split; [exact Ea|]. split; [exact Ec|exact Ed].
Qed.

(** Subtraction is the addition of the point with the roles exchanged and [T] negated. *)
Lemma sub_is p q Q : p3_limbs p → cached_is q Q →
  let P := p3_val p in
  let a := fmul (fadd (eY P) (eX P)) (fsub (eY Q) (eX Q)) in
  let b := fmul (fsub (eY P) (eX P)) (fadd (eY Q) (eX Q)) in
  let t := fmul (fmul (fmul 2 ed_d) (eT Q)) (eT P) in
  let w := fadd (fmul (eZ P) (fmul 1 (eZ Q))) (fmul (eZ P) (fmul 1 (eZ Q))) in
  p1p1_is (ge25519_sub p q) (fsub a b) (fadd a b) (fsub w t) (fadd w t).
Proof.
  destruct Q as [X Y W T]. intros Hp Hq. rewrite sub_as_add. apply cached_exchanged in Hq.
  pose proof (add_is p _ _ Hp Hq) as H. revert H. generalize (p3_val p). intros P.
  cbn [eX eY eZ eT]. rewrite fadd_minus, fsub_minus. cbv zeta. apply exchanged_is.
Qed.

Lemma msub_is p q x y : p3_limbs p → stands q x y →
  let P := p3_val p in
  let a := fmul (fadd (eY P) (eX P)) (fsub y x) in let b := fmul (fsub (eY P) (eX P)) (fadd y x) in
  let t := fmul (fmul (fmul 2 ed_d) (fmul x y)) (eT P) in let w := fadd (eZ P) (eZ P) in
  p1p1_is (ge25519_msub p q) (fsub a b) (fadd a b) (fsub w t) (fadd w t).
Proof.
  destruct p as [X Y W T], q as [a b c]. intros (LX & LY & LW & LT) [(La & Lb & Lc) (Ea & Eb & Ec)].
  cbn [p3_X p3_Y p3_Z p3_T yplusx yminusx xy2d] in *. unfold p3_val, ge25519_msub.
  cbn [p3_X p3_Y p3_Z p3_T yplusx yminusx xy2d eX eY eZ eT]. rewrite <- Ea, <- Eb, <- Ec. clear Ea Eb Ec x y. cbv zeta.
  destruct (fe_add_eq Y X LY LX) as [L1 <-]. set (f1 := fe25519_add Y X) in *.
  destruct (fe_sub_eq Y X LY (limbs_54 _ LX)) as [L2 <-]. set (f2 := fe25519_sub Y X) in *. clearbody f1 f2.
  destruct (fe_mul_eq f1 b L1 (limbs_53 _ Lb)) as [L3 <-]. set (f3 := fe25519_mul f1 b) in *.
  destruct (fe_mul_eq f2 a L2 (limbs_53 _ La)) as [L4 <-]. set (f4 := fe25519_mul f2 a) in *.
  destruct (fe_mul_eq c T Lc (limbs_53 _ LT)) as [L5 <-]. set (f5 := fe25519_mul c T) in *.
  destruct (fe_add_eq W W LW LW) as [L6 <-]. set (f6 := fe25519_add W W) in *. clearbody f3 f4 f5 f6.
  destruct (fe_sub_eq f3 f4 L3 (limbs_54 _ L4)) as [L7 <-]. destruct (fe_add_eq f3 f4 L3 L4) as [L8 <-].
  destruct (fe_add53_eq f6 f5 L6 (limbs_53 _ L5)) as [L9 <-]. destruct (fe_sub53_eq f6 f5 L6 (limbs_54 _ L5)) as [L10 <-].
  split; [|split; [|split; [|split]]; reflexivity]. cbn [p1p1_X p1p1_Y p1p1_Z p1p1_T].
  split; [by apply limbs_53_54|]. split; [by apply limbs_53_54|]. split; [exact L10|exact L9].
Qed.

(** ** The operations in the group *)

Section group.
Variables (P Q : point).

Lemma add_at p q : p3_at p P → cached_at q Q → p1p1_at (ge25519_add p q) (padd P Q).
Proof.
  intros [Hl He] (E & Hq & Hx). pose proof (add_is p q E Hl Hq) as H. cbv zeta in H.
  do 4 eexists. split; [exact H|]. rewrite (sum_coordinates (p3_val p) E _ eq_refl). by apply extends_add.
Qed.

Lemma difference_coordinates A B :
  let a := fmul (fadd (eY A) (eX A)) (fsub (eY B) (eX B)) in
  let b := fmul (fsub (eY A) (eX A)) (fadd (eY B) (eX B)) in
  let t := fmul (fmul (fmul 2 ed_d) (eT B)) (eT A) in
  let w := fadd (fmul (eZ A) (fmul 1 (eZ B))) (fmul (eZ A) (fmul 1 (eZ B))) in
  mk_e (fmul (fsub a b) (fadd w t)) (fmul (fadd a b) (fsub w t)) (fmul (fsub w t) (fadd w t)) (fmul (fsub a b) (fadd a b)) =
    ed_add A (ed_neg B).
Proof.
  destruct A as [X Y W T], B as [X' Y' W' T']. unfold ed_add, ed_neg. cbn [eX eY eZ eT]. cbv zeta.
  rewrite fadd_minus, fsub_minus. f_equal; field_ring.
Qed.

Lemma sub_at p q : p3_at p P → cached_at q Q → p1p1_at (ge25519_sub p q) (padd P (pneg Q)).
Proof.
  intros [Hl He] (E & Hq & Hx). pose proof (sub_is p q E Hl Hq) as H. cbv zeta in H.
  do 4 eexists. split; [exact H|]. rewrite difference_coordinates. by apply extends_add, extends_neg.
Qed.

Lemma madd_at p q : p3_at p P → precomp_at q Q → p1p1_at (ge25519_madd p q) (padd P Q).
Proof.
  intros [Hl He] Hq. pose proof (madd_is p q _ _ Hl Hq) as H. cbv zeta in H.
  do 4 eexists. split; [exact H|].
  destruct (to_p3_eq _ _ _ _ _ H) as [_ <-]. destruct (madd_eq p q _ _ Hl Hq) as [_ ->].
  apply extends_add; [exact He|]. exact (extends_affine Q (px Q) (py Q) (reflexivity _) (reflexivity _)).
Qed.

Lemma msub_coordinates A x y :
  let a := fmul (fadd (eY A) (eX A)) (fsub y x) in let b := fmul (fsub (eY A) (eX A)) (fadd y x) in
  let t := fmul (fmul (fmul 2 ed_d) (fmul x y)) (eT A) in let w := fadd (eZ A) (eZ A) in
  mk_e (fmul (fsub a b) (fadd w t)) (fmul (fadd a b) (fsub w t)) (fmul (fsub w t) (fadd w t)) (fmul (fsub a b) (fadd a b)) =
    ed_add A (ed_neg (ed_affine x y)).
Proof.
  destruct A as [X Y W T]. unfold ed_add, ed_neg, ed_affine. cbn [eX eY eZ eT]. cbv zeta.
  rewrite fadd_minus, fsub_minus. f_equal; field_ring.
Qed.

Lemma msub_at p q : p3_at p P → precomp_at q Q → p1p1_at (ge25519_msub p q) (padd P (pneg Q)).
Proof.
  intros [Hl He] Hq. pose proof (msub_is p q _ _ Hl Hq) as H. cbv zeta in H.
  do 4 eexists. split; [exact H|]. rewrite msub_coordinates.
  apply extends_add; [exact He|]. apply extends_neg.
  exact (extends_affine Q (px Q) (py Q) (reflexivity _) (reflexivity _)).
Qed.

Lemma dbl_at s : p2_at s P → p1p1_at (ge25519_p2_dbl s) (padd P P).
Proof.
  intros (E & Hs & He). pose proof (dbl_is s E Hs) as H. cbv zeta in H.
  do 4 eexists. split; [exact H|]. rewrite dbl_coordinates. by apply extends_resigned, extends_dbl.
Qed.

Lemma p3_dbl_at p : p3_at p P → p1p1_at (ge25519_p3_dbl p) (padd P P).
Proof. intros Hp. apply dbl_at. by apply p3_p2_at. Qed.

Lemma fe_d2_eq : limbs 52 fe_d2 ∧ fe_mod fe_d2 = fmul 2 ed_d.
Proof. split; [by_computation|by vm_compute]. Qed.

Lemma to_cached_at p : p3_at p P → cached_at (ge25519_p3_to_cached p) P.
Proof.
  destruct p as [X Y W T]. intros [(LX & LY & LW & LT) He]. exists (p3_val (mk_p3 X Y W T)). split; [|exact He].
  cbn [p3_X p3_Y p3_Z p3_T] in *. unfold ge25519_p3_to_cached, cached_is, p3_val. destruct fe_d2_eq as [Ld Ed].
  cbn [p3_X p3_Y p3_Z p3_T YplusX YminusX c_Z T2d eX eY eZ eT].
  destruct (fe_add_eq Y X LY LX) as [L1 E1]. destruct (fe_sub_eq Y X LY (limbs_54 _ LX)) as [L2 E2].
  destruct (fe_mul_eq T fe_d2 (limbs_53 _ LT) (limbs_53 _ Ld)) as [L3 E3].
  split; [split; [exact L1|split; [exact L2|split; [exact LW|by apply limbs_53]]]|].
  split; [exact E1|]. split; [exact E2|]. split.
  - unfold fe25519_copy. enough (eqp (fe_val W) (1 * fe_mod W)) as H by exact H. unfold fe_mod. rewrite eqp_mod. apply eq_eqp. ring.
  - rewrite E3, Ed. unfold fmul at 1 3. f_equal. ring.
Qed.

End group.

Lemma p3_0_at : p3_at ge25519_p3_0 pzero.
Proof. destruct p3_0_eq as [Hl Hv]. split; [exact Hl|]. rewrite Hv. apply extends_zero. Qed.
Lemma p2_0_at : p2_at ge25519_p2_0 pzero.
Proof. exists ed_zero. split; [|apply extends_zero]. split; [|by vm_compute]. split; [|split]; by split_and!. Qed.
Lemma cached_0_at : cached_at ge25519_cached_0 pzero.
Proof. exists ed_zero. split; [|apply extends_zero]. split; [|by vm_compute]. split; [|split; [|split]]; by split_and!. Qed.

#[export] Hint Resolve add_at sub_at madd_at msub_at dbl_at p3_dbl_at to_cached_at p1p1_p3_at p1p1_p2_at
  p3_p2_at p3_0_at p2_0_at cached_0_at : vpn.

(** ** Choosing a cached multiple *)

Definition cached_limbs (q : ge25519_cached) : Prop :=
  limbs 64 (YplusX q) ∧ limbs 64 (YminusX q) ∧ limbs 64 (c_Z q) ∧ limbs 64 (T2d q).

Lemma cached_at_limbs q Q : cached_at q Q → cached_limbs q.
Proof.
  intros (E & [(L1 & L2 & L3 & L4) _] & _).
  split; [by apply (limbs_64 53)|]. split; [by apply (limbs_64 53)|]. split; [by apply (limbs_64 52)|by apply (limbs_64 53)].
Qed.

Lemma cmov_cached_eq t u (b : bool) : cached_limbs t → cached_limbs u →
  ge25519_cmov_cached t u (Z.b2z b) = if b then u else t.
Proof.
  destruct t as [t1 t2 t3 t4], u as [u1 u2 u3 u4]. intros (A1 & A2 & A3 & A4) (B1 & B2 & B3 & B4).
  cbn [YplusX YminusX c_Z T2d] in *. unfold ge25519_cmov_cached. cbn [YplusX YminusX c_Z T2d].
  rewrite (fe_cmov_eq t1 u1), (fe_cmov_eq t2 u2), (fe_cmov_eq t3 u3), (fe_cmov_eq t4 u4) by assumption. by destruct b.
Qed.

Lemma cached_neg_at t Q : cached_at t Q →
  cached_at (mk_cached (fe25519_copy (YminusX t)) (fe25519_copy (YplusX t)) (fe25519_copy (c_Z t)) (fe25519_neg (T2d t))) (pneg Q).
Proof.
  destruct t as [a b c d]. intros ([X Y W T] & Ht & He). exists (ed_neg (mk_e X Y W T)). split; [|by apply extends_neg].
  destruct Ht as [(La & Lb & Lc & Ld) (Ea & Eb & Ec & Ed)]. unfold ed_neg, fe25519_copy. cbn [YplusX YminusX c_Z T2d eX eY eZ eT] in *.
  destruct (fe_neg_eq d) as [Ln En]; [by apply limbs_53_54|]. split; cbn [YplusX YminusX c_Z T2d eX eY eZ eT].
  - split; [exact Lb|]. split; [exact La|]. split; [exact Lc|exact Ln].
  - rewrite fadd_minus, fsub_minus, En, Ed. split; [exact Eb|]. split; [exact Ea|]. split; [exact Ec|].
    enough (eqp (0 - fmul (fmul 2 ed_d) T) (fmul 2 ed_d * fsub 0 T)) as H by exact H.
    rewrite !fmul_eqp, fsub_eqp. apply eq_eqp. ring.
Qed.

Section cmov8.
Variables (row : list ge25519_cached) (P : point).
Hypothesis (Hl : length row = 8%nat).
Hypothesis (Hrow : ∀ j q, row !! j = Some q → cached_at q (smul (Z.of_nat j + 1) P)).

(** The nine cases without the sign. *)
Definition cached_abs (b : Z) : ge25519_cached :=
  if b =? 0 then ge25519_cached_0 else default ge25519_cached_0 (row !! Z.to_nat (Z.abs b - 1)).

Lemma cached_abs_at b : -8 <= b <= 8 → cached_at (cached_abs b) (smul (Z.abs b) P).
Proof.
  intros Hb. unfold cached_abs. destruct (Z.eqb_spec b 0) as [->|Hne]; [apply cached_0_at|].
  destruct (lookup_lt_is_Some_2 row (Z.to_nat (Z.abs b - 1))) as [q Hq]; [lia|]. rewrite Hq. cbn [default from_option id].
  replace (Z.abs b) with (Z.of_nat (Z.to_nat (Z.abs b - 1)) + 1) by lia. by apply Hrow.
Qed.

Lemma cmov8_cached_at b : -8 <= b <= 8 → ∃ t, ge25519_cmov8_cached row b = Some t ∧ cached_at t (smul b P).
Proof.
  intros Hb. pose proof (cached_abs_at b Hb) as Habs.
  assert (∀ k, 1 <= k <= 8 → equal (s8 (u8 (b - ((- negative b) &' b) * (1 ≪ 1)))) k = Z.b2z (Z.abs b =? k))
    as Heq by (intros k Hk; by apply cmov8_flags).
  assert (negative b = Z.b2z (b <? 0)) as Hneg by (by apply (cmov8_flags b 1)).
  assert (∀ t u (c : bool), cached_limbs t → cached_limbs u →
    ge25519_cmov_cached t u (Z.b2z c) = (if c then u else t) ∧ cached_limbs (if c then u else t)) as Hstep.
  { intros t u c Ht Hu. split; [by apply cmov_cached_eq|by destruct c]. }
  assert (∀ j q, row !! j = Some q → cached_limbs q) as Hlim by (intros j q Hq; by eapply cached_at_limbs, Hrow).
  clear Hrow. unfold cached_abs in Habs.
  destruct row as [|g0 [|g1 [|g2 [|g3 [|g4 [|g5 [|g6 [|g7 [|]]]]]]]]]; try discriminate Hl.
  pose proof (cmov8_last _ b ge25519_cached_0 g0 g1 g2 g3 g4 g5 g6 g7 Hb eq_refl) as Hlast. cbv zeta in Hlast.
  rewrite <- Hlast in Habs. unfold ge25519_cmov8_cached. rewrite !Heq by lia. rewrite Hneg. clear Hlast Heq.
  pose proof (cached_at_limbs _ _ cached_0_at) as H0. revert Habs H0. generalize ge25519_cached_0. intros t0 Habs H0. cbv zeta.
  set (r := [g0; g1; g2; g3; g4; g5; g6; g7]) in *.
  change (r.[0]) with (Some g0). change (r.[1]) with (Some g1). change (r.[2]) with (Some g2).
  change (r.[3]) with (Some g3). change (r.[4]) with (Some g4). change (r.[5]) with (Some g5).
  change (r.[6]) with (Some g6). change (r.[7]) with (Some g7). cbn [mbind option_bind].
  destruct (Hstep t0 g0 (Z.abs b =? 1) H0 (Hlim 0%nat _ eq_refl)) as [-> H1].
  destruct (Hstep _ g1 (Z.abs b =? 2) H1 (Hlim 1%nat _ eq_refl)) as [-> H2].
  destruct (Hstep _ g2 (Z.abs b =? 3) H2 (Hlim 2%nat _ eq_refl)) as [-> H3].
  destruct (Hstep _ g3 (Z.abs b =? 4) H3 (Hlim 3%nat _ eq_refl)) as [-> H4].
  destruct (Hstep _ g4 (Z.abs b =? 5) H4 (Hlim 4%nat _ eq_refl)) as [-> H5].
  destruct (Hstep _ g5 (Z.abs b =? 6) H5 (Hlim 5%nat _ eq_refl)) as [-> H6].
  destruct (Hstep _ g6 (Z.abs b =? 7) H6 (Hlim 6%nat _ eq_refl)) as [-> H7].
  destruct (Hstep _ g7 (Z.abs b =? 8) H7 (Hlim 7%nat _ eq_refl)) as [-> H8].
  eexists. split; [reflexivity|]. pose proof (cached_neg_at _ _ Habs) as Hn.
  rewrite cmov_cached_eq by (by eapply cached_at_limbs). destruct (Z.ltb_spec b 0).
  - rewrite <- smul_neg in Hn. by replace (- Z.abs b) with b in Hn by lia.
  - by replace (smul b P) with (smul (Z.abs b) P) by (f_equal; lia).
Qed.
End cmov8.

(** ** Multiplication by a scalar *)

Lemma padd_self P : padd P P = smul 2 P.
Proof. change 2 with (1 + 1). by rewrite smul_add, smul_1. Qed.

(** Multiples of [P], by their factors. *)
Section multiples.
Variables (P : point).

Lemma add_multiple p q j k : p3_at p (smul j P) → cached_at q (smul k P) → p1p1_at (ge25519_add p q) (smul (j + k) P).
Proof. intros Hp Hq. rewrite smul_add. by apply add_at. Qed.
Lemma sub_multiple p q j k : p3_at p (smul j P) → cached_at q (smul k P) → p1p1_at (ge25519_sub p q) (smul (j - k) P).
Proof. intros Hp Hq. rewrite <- Z.add_opp_r, smul_add, smul_neg. by apply sub_at. Qed.
Lemma dbl_multiple s k : p2_at s (smul k P) → p1p1_at (ge25519_p2_dbl s) (smul (2 * k) P).
Proof. intros Hs. rewrite <- Z.add_diag, smul_add. by apply dbl_at. Qed.
Lemma p3_dbl_multiple p k : p3_at p (smul k P) → p1p1_at (ge25519_p3_dbl p) (smul (2 * k) P).
Proof. intros Hp. by apply dbl_multiple, p3_p2_at. Qed.

(** A table of multiples, by the list of their factors. *)
Lemma cached_as q j k : cached_at q (smul j P) → j = k → cached_at q (smul k P).
Proof. by intros H <-. Qed.
Lemma cached_by_factor ks row (f : nat → Z) : Forall2 (λ k q, cached_at q (smul k P)) ks row →
  (∀ j k, ks !! j = Some k → k = f j) → ∀ j q, row !! j = Some q → cached_at q (smul (f j) P).
Proof.
  intros H Hk j q Hq. destruct (Forall2_lookup_r _ _ _ _ _ H Hq) as (k & Hj & Hc).
  by apply (cached_as _ _ _ Hc), Hk.
Qed.

Lemma multiples8_at p : p3_at p P → ∀ j q, multiples8 p !! j = Some q → cached_at q (smul (Z.of_nat j + 1) P).
Proof.
  intros Hp. rewrite <- (smul_1 P) in Hp. unfold multiples8.
  pose proof (to_cached_at _ _ Hp) as C1.
  pose proof (p1p1_p3_at _ _ (p3_dbl_multiple _ _ Hp)) as H2. pose proof (to_cached_at _ _ H2) as C2.
  pose proof (p1p1_p3_at _ _ (add_multiple _ _ _ _ Hp C2)) as H3. pose proof (to_cached_at _ _ H3) as C3.
  pose proof (p1p1_p3_at _ _ (p3_dbl_multiple _ _ H2)) as H4. pose proof (to_cached_at _ _ H4) as C4.
  pose proof (p1p1_p3_at _ _ (add_multiple _ _ _ _ Hp C4)) as H5. pose proof (to_cached_at _ _ H5) as C5.
  pose proof (p1p1_p3_at _ _ (p3_dbl_multiple _ _ H3)) as H6. pose proof (to_cached_at _ _ H6) as C6.
  pose proof (p1p1_p3_at _ _ (add_multiple _ _ _ _ Hp C6)) as H7. pose proof (to_cached_at _ _ H7) as C7.
  pose proof (p1p1_p3_at _ _ (p3_dbl_multiple _ _ H4)) as H8. pose proof (to_cached_at _ _ H8) as C8.
  apply (cached_by_factor [1; 2; 3; 4; 5; 6; 7; 8] _ (λ j, Z.of_nat j + 1)); [|intros j k Hk; do 8 (destruct j as [|j]; [by injection Hk as <-|]); done].
  clear H2 H3 H4 H5 H6 H7 H8.
  apply Forall2_cons_2; [exact C1|]. apply Forall2_cons_2; [by apply (cached_as _ _ _ C2)|].
  apply Forall2_cons_2; [by apply (cached_as _ _ _ C3)|]. apply Forall2_cons_2; [by apply (cached_as _ _ _ C4)|].
  apply Forall2_cons_2; [by apply (cached_as _ _ _ C5)|]. apply Forall2_cons_2; [by apply (cached_as _ _ _ C6)|].
  apply Forall2_cons_2; [by apply (cached_as _ _ _ C7)|]. apply Forall2_cons_2; [by apply (cached_as _ _ _ C8)|].
  apply Forall2_nil_2.
Qed.

Lemma multiples8_length p : length (multiples8 p) = 8%nat.
Proof. unfold multiples8. cbn [length]. reflexivity. Qed.

Lemma scalarmult_step_at row e i b h k : length row = 8%nat →
  (∀ j q, row !! j = Some q → cached_at q (smul (Z.of_nat j + 1) P)) →
  e.[i] = Some b → -8 <= b <= 8 → p3_at h (smul k P) →
  ∃ h', scalarmult_step row e i h = Some h' ∧ p3_at h' (smul (16 * (k + b)) P).
Proof.
  intros Hl Hrow Hb Hbb Hh. unfold scalarmult_step. rewrite Hb. cbn [mbind option_bind].
  destruct (cmov8_cached_at row P Hl Hrow b Hbb) as (t & -> & Ht). cbn [mbind option_bind].
  eexists. split; [reflexivity|]. replace (16 * (k + b)) with (2 * (2 * (2 * (2 * (k + b))))) by ring.
  apply p1p1_p3_at. do 4 (apply dbl_multiple, p1p1_p2_at). by apply add_multiple.
Qed.

Lemma value16_drop e i b : e !! i = Some b → value16 (drop i e) = b + 16 * value16 (drop (S i) e).
Proof. intros H. by rewrite (drop_S _ _ _ H). Qed.

(** The loop and the last addition, for any table of the multiples and any digits. *)
Section loop.
Variables (row : list ge25519_cached) (e : list Z).
Hypothesis (Hl : length row = 8%nat).
Hypothesis (Hrow : ∀ j q, row !! j = Some q → cached_at q (smul (Z.of_nat j + 1) P)).
Hypothesis (Hle : length e = 64%nat) (Hd : Forall (λ d, -8 <= d <= 8) e).

Lemma digit_at i : (i < 64)%nat → ∃ b, e !! i = Some b ∧ -8 <= b <= 8.
Proof.
  intros Hi. destruct (lookup_lt_is_Some_2 e i) as [b Hb]; [lia|]. exists b. split; [exact Hb|].
  exact (Forall_lookup_1 _ _ _ _ Hd Hb).
Qed.

Lemma scalarmult_loop_at : ∃ h, for_range 63 (λ k, scalarmult_step row e (63 - Z.of_nat k)) ge25519_p3_0 = Some h ∧
  p3_at h (smul (16 * value16 (drop 1 e)) P).
Proof.
  apply (for_range_inv (λ k h, p3_at h (smul (16 * value16 (drop (64 - k) e)) P)) 63
    (λ k, scalarmult_step row e (63 - Z.of_nat k)) ge25519_p3_0).
  - rewrite drop_ge by lia. replace (16 * value16 []) with 0 by reflexivity. rewrite smul_0. apply p3_0_at.
  - intros k h Hk Hh. destruct (digit_at (63 - k)%nat) as (b & Hb & Hbb); [lia|].
    replace (63 - Z.of_nat k) with (Z.of_nat (63 - k)) by lia.
    destruct (scalarmult_step_at row e (Z.of_nat (63 - k)) b h (16 * value16 (drop (64 - k) e)) Hl Hrow)
      as (h' & Hr & Hh'); [by rewrite rd_nat|done|exact Hh|].
    exists h'. split; [exact Hr|]. replace (64 - S k)%nat with (63 - k)%nat by lia.
    rewrite (value16_drop e (63 - k) b Hb). replace (S (63 - k)) with (64 - k)%nat by lia. by rewrite (Z.add_comm b).
Qed.

Lemma scalarmult_last_at h : p3_at h (smul (16 * value16 (drop 1 e)) P) →
  ∃ b t, e.[0] = Some b ∧ ge25519_cmov8_cached row b = Some t ∧ p1p1_at (ge25519_add h t) (smul (value16 e) P).
Proof.
  intros Hh. destruct (digit_at 0%nat) as (b & Hb & Hbb); [lia|].
  destruct (cmov8_cached_at row P Hl Hrow b Hbb) as (t & Ht & Hat). exists b, t.
  split; [by rewrite <- (rd_nat e 0) in Hb|]. split; [exact Ht|].
  pose proof (value16_drop e 0 b Hb) as Hv. rewrite drop_0 in Hv. rewrite Hv, Z.add_comm. by apply add_multiple.
Qed.
End loop.

Lemma signed_digits_64 n : 0 <= n < 2 ^ 255 → Forall (λ d, -8 <= d <= 8) (signed_digits 63 n).
Proof. intros Hn. apply signed_digits_bound. replace (8 * 16 ^ Z.of_nat 63) with (2 ^ 255) by (by vm_compute). lia. Qed.

Lemma recoded_digits a : length a = 32%nat → bytes_ok a → (split_digits a ≫= carry_digits) = Some (signed_digits 63 (le_val a)).
Proof.
  intros Hla Ha. rewrite split_digits_eq by done. cbn [mbind option_bind].
  rewrite carry_digits_eq by (try (by rewrite nibbles_length, Hla); by apply nibbles_bound).
  by rewrite nibbles_value.
Qed.

Lemma scalarmult_at a p : length a = 32%nat → bytes_ok a → le_val a < 2 ^ 255 → p3_at p P →
  ∃ h, ge25519_scalarmult a p = Some h ∧ p3_at h (smul (le_val a) P).
Proof.
  intros Hla Ha Hlt Hp. pose proof (le_val_bound a Ha) as [Hpos _].
  pose proof (multiples8_at p Hp) as Hrow. pose proof (multiples8_length p) as Hl.
  pose proof (recoded_digits a Hla Ha) as Hr. pose proof (signed_digits_64 _ (conj Hpos Hlt)) as Hd.
  pose proof (signed_digits_length 63 (le_val a)) as Hle. pose proof (signed_digits_value 63 (le_val a)) as Hv.
  revert Hr Hd Hle Hv. generalize (signed_digits 63 (le_val a)). intros e Hr Hd Hle <-. unfold ge25519_scalarmult.
  destruct (split_digits a) as [e0|]; [|done]. cbn [mbind option_bind] in Hr |- *. rewrite Hr. cbn [mbind option_bind].
  clear Hr Hp Hlt Ha Hla Hpos. revert Hrow Hl. generalize (multiples8 p). intros row Hrow Hl. 
  destruct (scalarmult_loop_at row e Hl Hrow Hle Hd) as (h & -> & Hh). cbn [mbind option_bind].
  destruct (scalarmult_last_at row e Hl Hrow Hle Hd h Hh) as (b & t & -> & Ht & Hat). cbn [mbind option_bind].
  rewrite Ht. eexists. split; [reflexivity|]. by apply p1p1_p3_at.
Qed.
End multiples.

(** ** Multiplication by the order of the base point *)

Definition value2 (e : list Z) : Z := foldr (λ x v, x + 2 * v) 0 e.

(** The digits are zero or odd and below sixteen, and add up to the order. *)
Definition slide_ok (d : Z) : Prop := d = 0 ∨ (Z.odd d = true ∧ -15 <= d <= 15).
#[export] Instance slide_ok_dec d : Decision (slide_ok d).
Proof. unfold slide_ok. apply _. Defined.

Lemma aslide_l_length : length aslide_l = 253%nat.
Proof. by vm_compute. Qed.
Lemma aslide_l_ok : Forall slide_ok aslide_l.
Proof. by_computation. Qed.
Lemma aslide_l_value : value2 aslide_l = ed_order.
Proof. by vm_compute. Qed.

Lemma value2_drop e i b : e !! i = Some b → value2 (drop i e) = b + 2 * value2 (drop (S i) e).
Proof. intros H. by rewrite (drop_S _ _ _ H). Qed.

Section slide.
Variables (P : point).

Lemma odd_multiples_at p : p3_at p P → ∀ j q, odd_multiples p !! j = Some q → cached_at q (smul (2 * Z.of_nat j + 1) P).
Proof.
  intros Hp. rewrite <- (smul_1 P) in Hp. unfold odd_multiples.
  pose proof (to_cached_at _ _ Hp) as C0.
  pose proof (p1p1_p3_at _ _ (p3_dbl_multiple _ _ _ Hp)) as H2.
  pose proof (to_cached_at _ _ (p1p1_p3_at _ _ (add_multiple _ _ _ _ _ H2 C0))) as C1.
  pose proof (to_cached_at _ _ (p1p1_p3_at _ _ (add_multiple _ _ _ _ _ H2 C1))) as C2.
  pose proof (to_cached_at _ _ (p1p1_p3_at _ _ (add_multiple _ _ _ _ _ H2 C2))) as C3.
  pose proof (to_cached_at _ _ (p1p1_p3_at _ _ (add_multiple _ _ _ _ _ H2 C3))) as C4.
  pose proof (to_cached_at _ _ (p1p1_p3_at _ _ (add_multiple _ _ _ _ _ H2 C4))) as C5.
  pose proof (to_cached_at _ _ (p1p1_p3_at _ _ (add_multiple _ _ _ _ _ H2 C5))) as C6.
  pose proof (to_cached_at _ _ (p1p1_p3_at _ _ (add_multiple _ _ _ _ _ H2 C6))) as C7.
  apply (cached_by_factor P [1; 3; 5; 7; 9; 11; 13; 15] _ (λ j, 2 * Z.of_nat j + 1));
    [|intros j k Hk; do 8 (destruct j as [|j]; [by injection Hk as <-|]); done].
  clear H2.
  apply Forall2_cons_2; [exact C0|]. apply Forall2_cons_2; [by apply (cached_as _ _ _ _ C1)|].
  apply Forall2_cons_2; [by apply (cached_as _ _ _ _ C2)|]. apply Forall2_cons_2; [by apply (cached_as _ _ _ _ C3)|].
  apply Forall2_cons_2; [by apply (cached_as _ _ _ _ C4)|]. apply Forall2_cons_2; [by apply (cached_as _ _ _ _ C5)|].
  apply Forall2_cons_2; [by apply (cached_as _ _ _ _ C6)|]. apply Forall2_cons_2; [by apply (cached_as _ _ _ _ C7)|].
  apply Forall2_nil_2.
Qed.

Lemma odd_multiples_length p : length (odd_multiples p) = 8%nat.
Proof. unfold odd_multiples. cbn [length]. reflexivity. Qed.

Section table.
Variables (Ai : list ge25519_cached).
Hypothesis (Hl : length Ai = 8%nat).
Hypothesis (Hrow : ∀ j q, Ai !! j = Some q → cached_at q (smul (2 * Z.of_nat j + 1) P)).

(** The entry of the table for an odd digit. *)
Lemma odd_entry d : Z.odd d = true → 0 < d <= 15 → ∃ q, Ai.[Z.quot d 2] = Some q ∧ cached_at q (smul d P).
Proof.
  intros Ho Hd. rewrite Z.quot_div_nonneg by lia. pose proof (Z.div_mod d 2 ltac:(lia)) as Hm.
  rewrite Zmod_odd, Ho in Hm. destruct (lookup_lt_is_Some_2 Ai (Z.to_nat (d / 2))) as [q Hq]; [lia|].
  exists q. split.
  - by rewrite <- (Z2Nat.id (d / 2)), rd_nat by lia.
  - apply (cached_as P _ _ _ (Hrow _ _ Hq)). lia.
Qed.

Lemma add_slide_at d t k : slide_ok d → p1p1_at t (smul k P) →
  ∃ t', add_slide Ai d t = Some t' ∧ p1p1_at t' (smul (k + d) P).
Proof.
  intros Hd Ht. unfold add_slide. destruct (Z.ltb_spec 0 d) as [Hp|Hp].
  - destruct Hd as [->|[Ho Hd]]; [lia|]. destruct (odd_entry d Ho) as (q & -> & Hq); [lia|]. cbn [mbind option_bind].
    eexists. split; [reflexivity|]. by apply add_multiple; [apply p1p1_p3_at|].
  - destruct (Z.ltb_spec d 0) as [Hn|Hn].
    + destruct Hd as [->|[Ho Hd]]; [lia|]. rewrite <- Z.odd_opp in Ho.
      destruct (odd_entry (- d) Ho) as (q & -> & Hq); [lia|]. cbn [mbind option_bind].
      eexists. split; [reflexivity|]. rewrite <- (Z.sub_opp_r k d). by apply sub_multiple; [apply p1p1_p3_at|].
    + exists t. split; [reflexivity|]. replace (k + d) with k by lia. exact Ht.
Qed.

(** The loop over any digits of that form. *)
Lemma slide_loop_at e n : length e = n → Forall slide_ok e →
  ∃ r, for_range n (λ k r, d ← e.[Z.of_nat n - 1 - Z.of_nat k];
    t ← add_slide Ai d (ge25519_p3_dbl r); Some (ge25519_p1p1_to_p3 t)) ge25519_p3_0 = Some r ∧
  p3_at r (smul (value2 e) P).
Proof.
  intros Hn He. destruct (for_range_inv (λ k h, p3_at h (smul (value2 (drop (n - k) e)) P)) n
    (λ k r, d ← e.[Z.of_nat n - 1 - Z.of_nat k]; t ← add_slide Ai d (ge25519_p3_dbl r); Some (ge25519_p1p1_to_p3 t))
    ge25519_p3_0) as (r & Hr & Hat).
  - rewrite drop_ge by lia. replace (value2 []) with 0 by reflexivity. rewrite smul_0. apply p3_0_at.
  - intros k h Hk Hh. destruct (lookup_lt_is_Some_2 e (n - S k)) as [d Hd]; [lia|].
    replace (Z.of_nat n - 1 - Z.of_nat k) with (Z.of_nat (n - S k)) by lia. rewrite rd_nat, Hd. cbn [mbind option_bind].
    destruct (add_slide_at d (ge25519_p3_dbl h) (2 * value2 (drop (n - k) e))) as (t & -> & Ht).
    { exact (Forall_lookup_1 _ _ _ _ He Hd). } { by apply p3_dbl_multiple. }
    cbn [mbind option_bind]. eexists. split; [reflexivity|]. apply p1p1_p3_at.
    rewrite (value2_drop _ _ _ Hd). replace (S (n - S k)) with (n - k)%nat by lia. by rewrite (Z.add_comm d).
  - exists r. split; [exact Hr|]. by rewrite Nat.sub_diag, drop_0 in Hat.
Qed.
End table.

Lemma mul_l_at p : p3_at p P → ∃ r, ge25519_mul_l p = Some r ∧ p3_at r (smul ed_order P).
Proof.
  intros Hp. pose proof (odd_multiples_at p Hp) as Hrow. pose proof (odd_multiples_length p) as Hl. unfold ge25519_mul_l.
  revert Hrow Hl. generalize (odd_multiples p). intros Ai Hrow Hl. rewrite <- aslide_l_value.
  pose proof aslide_l_length as Hn. pose proof aslide_l_ok as Ho. revert Hn Ho. generalize aslide_l. intros e Hn Ho.
  exact (slide_loop_at Ai Hl Hrow e 253 Hn Ho).
Qed.
End slide.

(** ** The tests *)

Lemma fe_d_eq : limbs 52 fe_d ∧ fe_mod fe_d = ed_d.
Proof. split; [by_computation|by vm_compute]. Qed.

(** The difference the test computes, and the equation it stands for. *)
Lemma on_curve_difference X Y W : ¬ eqp W 0 →
  (eqp ((Y * Y - X * X) * (W * W) - (X * X * (Y * Y) * ed_d + W * W * (W * W))) 0 ↔
   on_curve (fmul X (finv W)) (fmul Y (finv W)) = true).
Proof.
  intros HW. pose proof (quotient_times W X HW) as Hx. pose proof (quotient_times W Y HW) as Hy. revert Hx Hy. unfold fmul.
  generalize (X * finv W) (Y * finv W). intros x y Hx Hy. rewrite <- Hx, <- Hy.
  enough (eqp ((y * W * (y * W) - x * W * (x * W)) * (W * W) - (x * W * (x * W) * (y * W * (y * W)) * ed_d + W * W * (W * W))) 0
    ↔ eqp (residue ed_d x y) 0) as ->.
  - split; [apply reduced_on_curve|]. intros (_ & _ & H)%on_curve_spec. revert H. unfold residue. by rewrite !eqp_mod.
  - assert (¬ eqp (W * W * (W * W)) 0) as H4 by (by repeat apply eqp_mul_nz).
    replace (_ - _) with (W * W * (W * W) * residue ed_d x y) by (unfold residue; ring). split.
    + by intros [H|H]%eqp_mul_0.
    + intros ->. apply eq_eqp. ring.
Qed.

Lemma on_curve_value p : p3_limbs p → ∃ t,
  ge25519_is_on_curve p = fe25519_iszero t ∧ limbs 64 t ∧
  eqp (fe_mod t) (let X := fe_mod (p3_X p) in let Y := fe_mod (p3_Y p) in let W := fe_mod (p3_Z p) in
    (Y * Y - X * X) * (W * W) - (X * X * (Y * Y) * ed_d + W * W * (W * W))).
Proof.
  destruct p as [X Y W T]. intros (LX & LY & LW & LT). cbn [p3_X p3_Y p3_Z p3_T] in *. unfold ge25519_is_on_curve.
  cbn [p3_X p3_Y p3_Z p3_T]. cbv zeta. destruct fe_d_eq as [Ld Ed].
  destruct (fe_sq_eq X (limbs_53 _ LX)) as [L1 E1]. generalize dependent (fe25519_sq X). intros x2 L1 E1.
  destruct (fe_sq_eq Y (limbs_53 _ LY)) as [L2 E2]. generalize dependent (fe25519_sq Y). intros y2 L2 E2.
  destruct (fe_sq_eq W (limbs_53 _ LW)) as [L3 E3]. generalize dependent (fe25519_sq W). intros z2 L3 E3.
  destruct (fe_sub_eq y2 x2 L2 (limbs_54 _ L1)) as [L4 E4]. generalize dependent (fe25519_sub y2 x2). intros t0 L4 E4.
  destruct (fe_mul_eq t0 z2 L4 (limbs_53 _ L3)) as [L5 E5]. generalize dependent (fe25519_mul t0 z2). intros t1 L5 E5.
  destruct (fe_mul_eq x2 y2 (limbs_53 _ L1) (limbs_53 _ L2)) as [L6 E6]. generalize dependent (fe25519_mul x2 y2). intros t2 L6 E6.
  destruct (fe_mul_eq t2 fe_d (limbs_53 _ L6) (limbs_53 _ Ld)) as [L7 E7].
  generalize dependent (fe25519_mul t2 fe_d). intros t3 L7 E7.
  destruct (fe_sq_eq z2 (limbs_53 _ L3)) as [L8 E8]. generalize dependent (fe25519_sq z2). intros z4 L8 E8.
  destruct (fe_add_eq t3 z4 L7 L8) as [L9 E9]. generalize dependent (fe25519_add t3 z4). intros t4 L9 E9.
  destruct (fe_sub_eq t1 t4 L5 (limbs_53_54 _ L9)) as [L10 E10]. generalize dependent (fe25519_sub t1 t4). intros t5 L10 E10.
  exists t5. split; [reflexivity|]. split; [by apply (limbs_64 53)|].
  rewrite E10, E9, E8, E7, E6, E5, E4, E3, E2, E1, Ed.
  by rewrite !fsub_eqp, !fadd_eqp, !fmul_eqp.
Qed.

Lemma fe_mod_0 t : fe_mod t = 0 ↔ eqp (fe_mod t) 0.
Proof. unfold fe_mod, eqp. by rewrite Zmod_mod, Zmod_0_l. Qed.

(** The test decides the equation of the curve for the affine coordinates the point stands for. *)
Lemma on_curve_test p : p3_limbs p → fe_mod (p3_Z p) ≠ 0 →
  ge25519_is_on_curve p =
    Some (if on_curve (fmul (fe_mod (p3_X p)) (finv (fe_mod (p3_Z p))))
                      (fmul (fe_mod (p3_Y p)) (finv (fe_mod (p3_Z p)))) then 1 else 0).
Proof.
  intros Hp Hz. destruct (on_curve_value p Hp) as (t & -> & Ht & Hv). rewrite fe_iszero_eq by done. do 2 f_equal.
  rewrite fe_mod_0 in Hz. pose proof (on_curve_difference (fe_mod (p3_X p)) (fe_mod (p3_Y p)) _ Hz) as Hc.
  rewrite <- Hv, <- fe_mod_0 in Hc. revert Hc. generalize (on_curve (fmul (fe_mod (p3_X p)) (finv (fe_mod (p3_Z p))))
    (fmul (fe_mod (p3_Y p)) (finv (fe_mod (p3_Z p))))). intros b Hc. destruct (Z.eqb_spec (fe_mod t) 0) as [E|E], b; try done.
  - by apply Hc in E.
  - exfalso. by apply E, Hc.
Qed.

(** *** The test of the subgroup *)

(** The point of order two. *)
Lemma two_on_curve : eqp (residue ed_d 0 (-1)) 0.
Proof. by vm_compute. Qed.
Definition ptwo : point := reduced_point 0 (-1) two_on_curve.

Lemma x_zero Q : px Q = 0 ↔ Q = pzero ∨ Q = ptwo.
Proof.
  split; [|intros [->| ->]; reflexivity]. intros Hx.
  pose proof (p_residue Q) as Hr. rewrite Hx in Hr.
  assert (eqp ((py Q - 1) * (py Q + 1)) 0) as [H|H]%eqp_mul_0
    by (rewrite <- Hr; apply eq_eqp; unfold residue; ring).
  - left. apply point_eq; [by rewrite Hx|]. apply eqp_same. rewrite <- H. apply eq_eqp. f_equal.
  - right. apply point_eq; [by rewrite Hx|]. apply eqp_same. rewrite <- H. unfold ptwo. cbn [py reduced_point].
    rewrite eqp_mod. apply eq_eqp. ring.
Qed.

Lemma ptwo_nonzero : ptwo ≠ pzero.
Proof. intros H. apply (f_equal py) in H. by vm_compute in H. Qed.

Lemma ptwo_double : padd ptwo ptwo = pzero.
Proof. apply point_eq; by vm_compute. Qed.

(** The order is odd, so the point of order two keeps its place. *)
Lemma ptwo_order : smul ed_order ptwo = ptwo.
Proof.
  replace ed_order with (1 + (ed_order / 2) * 2) by (by vm_compute). rewrite smul_add, smul_1, smul_mul.
  by rewrite <- padd_self, ptwo_double, smul_zero, padd_zero_r.
Qed.

Lemma subgroup_value p P : p3_at p P → ge25519_is_on_main_subgroup p = Some (if px (smul ed_order P) =? 0 then 1 else 0).
Proof.
  intros Hp. unfold ge25519_is_on_main_subgroup. destruct (mul_l_at P p Hp) as (r & -> & Hr). cbn [mbind option_bind].
  revert Hr. generalize (smul ed_order P). intros Q [(LX & _) (Hz & Hx & _)].
  rewrite fe_iszero_eq by (by apply (limbs_64 52)). do 2 f_equal. unfold p3_val in Hx, Hz. cbn [eX eZ] in Hx, Hz.
  assert (fe_mod (p3_X r) = 0 ↔ px Q = 0) as Heq.
  { rewrite fe_mod_0, Hx. split.
    - intros [H|H]%eqp_mul_0; [|done]. unfold eqp in H. pose proof (px_bound Q). rewrite Zmod_0_l, Z.mod_small in H by done. exact H.
    - by intros ->. }
  destruct (Z.eqb_spec (fe_mod (p3_X r)) 0) as [E|E], (Z.eqb_spec (px Q) 0) as [F|F]; tauto.
Qed.

Lemma smul_padd k P Q : smul k (padd P Q) = padd (smul k P) (smul k Q).
Proof.
  revert k. apply Z.bi_induction; [by intros ? ? ->|by rewrite !smul_0, padd_zero_l|].
  intros k. rewrite !smul_succ. split.
  - intros ->. rewrite !padd_assoc. f_equal. rewrite <- !padd_assoc. by rewrite (padd_comm Q).
  - intros H. apply (padd_cancel (padd P Q)). rewrite H, !padd_assoc. f_equal. rewrite <- !padd_assoc. by rewrite (padd_comm Q).
Qed.

(** ** Properties *)

(** C9: [ge25519_scalarmult] multiplies any point of the curve by any scalar below
    2^255: from bounded extended coordinates of [P] it runs without undefined behaviour
    and returns bounded extended coordinates of the scalar's multiple of [P].  On
    coordinates of the base point it agrees with the table-driven
    [ge25519_scalarmult_base]: both return coordinates of the same point. *)
Theorem scalarmult_multiplies a p P : length a = 32%nat → bytes_ok a → le_val a < 2 ^ 255 → p3_at p P →
  ∃ h, ge25519_scalarmult a p = Some h ∧ p3_at h (smul (le_val a) P) ∧
    (P = ed_B → ∃ h', ge25519_scalarmult_base a = Some h' ∧ p3_at h' (smul (le_val a) P)).
Proof.
  intros Hl Ha Hlt Hp. destruct (scalarmult_at P a p Hl Ha Hlt Hp) as (h & Hr & Hh). exists h.
  split; [exact Hr|]. split; [exact Hh|]. intros ->. destruct (scalarmult_base_eq a Hl Ha Hlt) as (A & HA & HL & HV).
  exists A. split; [exact HA|]. split; [exact HL|]. rewrite HV. pose proof (le_val_bound a Ha) as [Hpos _].
  apply ed_base_extends. replace (8 * 16 ^ Z.of_nat 63) with (2 ^ 255) by (by vm_compute). lia.
Qed.

(** The base point in the code's coordinates. *)
Definition B_p3 : ge25519_p3 :=
  let x := mk_fe 1738742601995546 1146398526822698 2070867633025821 562264141797630 587772402128613 in
  let y := mk_fe 1801439850948184 1351079888211148 450359962737049 900719925474099 1801439850948198 in
  mk_p3 x y fe25519_1 (fe25519_mul x y).

Lemma B_p3_at : p3_at B_p3 ed_B.
Proof.
  split; [split; [|split; [|split]]; by_computation|]. split; [by vm_compute|]. split_and!; by vm_compute.
Qed.

Lemma scalarmult_multiplies_witness :
  let a := take 31 rfc_scalar ++ [0x44] in
  ∃ h, ge25519_scalarmult a B_p3 = Some h ∧ p3_at h (smul (le_val a) ed_B) ∧
    (ed_B = ed_B → ∃ h', ge25519_scalarmult_base a = Some h' ∧ p3_at h' (smul (le_val a) ed_B)).
Proof. apply scalarmult_multiplies; [by_computation..|exact B_p3_at]. Defined.

(** What [ge25519_is_on_main_subgroup] decides.  On coordinates of a point [P] it
    runs without undefined behaviour, and returns 1 exactly when [L P], for the order
    [L] of the base point, is the neutral element or the point (0, -1) of order two: the
    code compares only the coordinate x of [L P] with zero.  So it also accepts points
    outside the subgroup: every sum of a point of the subgroup and (0, -1). *)
Theorem main_subgroup_test p P : p3_at p P →
  (∃ r, ge25519_is_on_main_subgroup p = Some r ∧ (r = 1 ↔ smul ed_order P = pzero ∨ smul ed_order P = ptwo)) ∧
  (∀ Q, smul ed_order Q = pzero → P = padd Q ptwo →
     ge25519_is_on_main_subgroup p = Some 1 ∧ smul ed_order P ≠ pzero).
Proof.
  intros Hp. rewrite (subgroup_value p P Hp). split.
  - eexists. split; [reflexivity|]. rewrite <- x_zero. revert Hp. generalize (smul ed_order P). intros Q _.
    by destruct (Z.eqb_spec (px Q) 0).
  - intros Q HQ ->. rewrite smul_padd, HQ, ptwo_order, padd_zero_l. split; [by vm_compute|exact ptwo_nonzero].
Qed.

(** The sum of the base point and (0, -1), which negates both coordinates. *)
Definition B_plus_two : ge25519_p3 :=
  mk_p3 (fe25519_neg (p3_X B_p3)) (fe25519_neg (p3_Y B_p3)) fe25519_1 (p3_T B_p3).

Lemma main_subgroup_test_witness : p3_at B_plus_two (padd ed_B ptwo) ∧
  ge25519_is_on_main_subgroup B_plus_two = Some 1 ∧ smul ed_order (padd ed_B ptwo) ≠ pzero.
Proof.
  assert (p3_at B_plus_two (padd ed_B ptwo)) as H.
  { split; [split; [|split; [|split]]; by_computation|]. split; [by vm_compute|]. split_and!; by vm_compute. }
  split; [exact H|]. destruct (main_subgroup_test B_plus_two (padd ed_B ptwo) H) as [_ Ht].
  exact (Ht ed_B order_B eq_refl).
Defined.
