(* ===== verification/Encoding.v ===== *)
(** * Encodings of points ([ed25519/ref10/ed25519_ref10.c] and [core_ed25519.c] of libsodium)

    Compressed points: the encoding of a point, its decoding with a square root, the tests of
    encodings, and the group operations on encodings that [crypto_core_ed25519] offers.
    Decoding inverts encoding, sums and differences of encodings are those of the group, and
    [crypto_core_ed25519_is_valid_point] is given by what its test of the subgroup decides. *)

From Stdlib Require Import Zpow_facts Zdivisibility Znumtheory ZmodInv.
From S2P Require Import Prelude Packet Sodium Words Poly1305 Fe25519 Utils Curve25519 Ge25519 Base25519 Primes.
From S2P Require Import Edwards Montgomery Basepoint Agreement Scalars Points.
Local Open Scope c_scope.

(** ** The code *)

Definition ge25519_p3_tobytes (s : bytes) (h : ge25519_p3) : option bytes :=
  let recip := fe25519_invert (p3_Z h) in
  let x := fe25519_mul (p3_X h) recip in
  let y := fe25519_mul (p3_Y h) recip in
  s ← fe25519_tobytes s y;
  n ← fe25519_isnegative x;
  b ← s.[31];
  wr s 31 (u8 (b ^' (n ≪ 7))).

(** The result, and [h]. *)
Definition ge25519_frombytes (s : bytes) : option (Z * ge25519_p3) :=
  Y ← fe25519_frombytes s;
  let Z := fe25519_1 in
  let u := fe25519_sq Y in
  let v := fe25519_mul u fe_d in
  let u := fe25519_sub u Z in
  let v := fe25519_add v Z in
  let X := fe25519_mul u v in
  let X := fe25519_pow22523 X in
  let X := fe25519_mul u X in
  let vxx := fe25519_sq X in
  let vxx := fe25519_mul vxx v in
  let m_root_check := fe25519_sub vxx u in
  let p_root_check := fe25519_add vxx u in
  has_m_root ← fe25519_iszero m_root_check;
  has_p_root ← fe25519_iszero p_root_check;
  let x_sqrtm1 := fe25519_mul X fe_sqrtm1 in
  let X := fe25519_cmov X x_sqrtm1 (1 - has_m_root) in
  let negx := fe25519_neg X in
  n ← fe25519_isnegative X;
  b ← s.[31];
  let X := fe25519_cmov X negx (n ^' (b ≫ 7)) in
  let T := fe25519_mul X Y in
  Some ((has_m_root |' has_p_root) - 1, mk_p3 X Y Z T).

Definition ge25519_is_canonical (s : bytes) : option Z :=
  x ← s.[31];
  let c := (x &' 0x7f) ^' 0x7f in
  c ← for_range 30 (λ k c, x ← s.[30 - Z.of_nat k]; Some (u8 (c |' (x ^' 0xff)))) c;
  let c := u8 (u32 (c - 1) ≫ 8) in
  x ← s.[0];
  let d := u8 (u32 (u32 (0xed - 1) - x) ≫ 8) in
  Some (1 - (c &' d &' 1)).

Definition ed_blacklist : list bytes :=
  [replicate 32 0x00;
   0x01 :: replicate 31 0x00;
   [0x26; 0xe8; 0x95; 0x8f; 0xc2; 0xb2; 0x27; 0xb0; 0x45; 0xc3; 0xf4] ++
   [0x89; 0xf2; 0xef; 0x98; 0xf0; 0xd5; 0xdf; 0xac; 0x05; 0xd3; 0xc6] ++
   [0x33; 0x39; 0xb1; 0x38; 0x02; 0x88; 0x6d; 0x53; 0xfc; 0x05];
   [0xc7; 0x17; 0x6a; 0x70; 0x3d; 0x4d; 0xd8; 0x4f; 0xba; 0x3c; 0x0b] ++
   [0x76; 0x0d; 0x10; 0x67; 0x0f; 0x2a; 0x20; 0x53; 0xfa; 0x2c; 0x39] ++
   [0xcc; 0xc6; 0x4e; 0xc7; 0xfd; 0x77; 0x92; 0xac; 0x03; 0x7a];
   0xec :: replicate 30 0xff ++ [0x7f];
   0xed :: replicate 30 0xff ++ [0x7f];
   0xee :: replicate 30 0xff ++ [0x7f]].

Definition ge25519_has_small_order (s : bytes) : option Z := scan_table ed_blacklist s.

Definition crypto_core_ed25519_is_valid_point (p : bytes) : option Z :=
  c ← ge25519_is_canonical p;
  if c =? 0 then Some 0 else
  k ← ge25519_has_small_order p;
  if negb (k =? 0) then Some 0 else
  '(r, p_p3) ← ge25519_frombytes p;
  if negb (r =? 0) then Some 0 else
  o ← ge25519_is_on_curve p_p3;
  if o =? 0 then Some 0 else
  m ← ge25519_is_on_main_subgroup p_p3;
  if m =? 0 then Some 0 else Some 1.

(** [ge25519_frombytes(&p_p3, p) != 0 || ge25519_is_on_curve(&p_p3) == 0]: no point, or the
    point. *)
Definition load_point (p : bytes) : option (option ge25519_p3) :=
  '(r, p_p3) ← ge25519_frombytes p;
  if negb (r =? 0) then Some None else
  o ← ge25519_is_on_curve p_p3;
  if o =? 0 then Some None else Some (Some p_p3).

(** The result and the 32 bytes at [r]. *)
Definition crypto_core_ed25519_add (r p q : bytes) : option (Z * bytes) :=
  p_p3 ← load_point p;
  match p_p3 with
  | None => Some (-1, r)
  | Some p_p3 =>
      q_p3 ← load_point q;
      match q_p3 with
      | None => Some (-1, r)
      | Some q_p3 =>
          let q_cached := ge25519_p3_to_cached q_p3 in
          let r_p1p1 := ge25519_add p_p3 q_cached in
          let r_p3 := ge25519_p1p1_to_p3 r_p1p1 in
          r ← ge25519_p3_tobytes r r_p3;
          Some (0, r)
      end
  end.

Definition crypto_core_ed25519_sub (r p q : bytes) : option (Z * bytes) :=
  p_p3 ← load_point p;
  match p_p3 with
  | None => Some (-1, r)
  | Some p_p3 =>
      q_p3 ← load_point q;
      match q_p3 with
      | None => Some (-1, r)
      | Some q_p3 =>
          let q_cached := ge25519_p3_to_cached q_p3 in
          let r_p1p1 := ge25519_sub p_p3 q_cached in
          let r_p3 := ge25519_p1p1_to_p3 r_p1p1 in
          r ← ge25519_p3_tobytes r r_p3;
          Some (0, r)
      end
  end.

(** ** Encoding *)

Definition encode_val (P : point) : Z := py P + 2 ^ 255 * (px P mod 2).
Definition encode (P : point) : bytes := le_bytes 32 (encode_val P).

Lemma p25519_lt : p25519 < 2 ^ 255.
Proof. by vm_compute. Qed.

Lemma encode_bound P : 0 <= encode_val P < 2 ^ 256.
Proof.
  unfold encode_val. pose proof (py_bound P). pose proof p25519_lt. pose proof (Z.mod_pos_bound (px P) 2 ltac:(lia)). lia.
Qed.
Lemma encode_length P : length (encode P) = 32%nat.
Proof. apply le_bytes_length. Qed.
Lemma encode_ok P : bytes_ok (encode P).
Proof. apply le_bytes_ok. Qed.
Lemma encode_le_val P : le_val (encode P) = encode_val P.
Proof. apply le_val_bytes. apply encode_bound. Qed.

(** The coordinate x of a point from its extended coordinates. *)
Lemma decoded_x X W P : ¬ eqp W 0 → eqp X (px P * W) → fmul X (finv W) = px P.
Proof.
  intros HW HX. pose proof (px_bound P) as Hb. rewrite <- (Z.mod_small (px P) p25519) by done.
  symmetry. apply (quotient_unique W (px P) X HW). by symmetry.
Qed.
Lemma decoded_y Y W P : ¬ eqp W 0 → eqp Y (py P * W) → fmul Y (finv W) = py P.
Proof.
  intros HW HY. pose proof (py_bound P) as Hb. rewrite <- (Z.mod_small (py P) p25519) by done.
  symmetry. apply (quotient_unique W (py P) Y HW). by symmetry.
Qed.

(** Setting the top bit of a number below 2^255. *)
Lemma rd_last (l : bytes) x i : Z.of_nat (length l) = i → (l ++ [x]).[i] = Some x.
Proof. intros <-. by rewrite rd_nat, lookup_app_r, Nat.sub_diag by lia. Qed.
Lemma wr_last (l : bytes) x v i : Z.of_nat (length l) = i → wr (l ++ [x]) i v = Some (l ++ [v]).
Proof.
  intros <-. rewrite wr_lt by (rewrite length_app; cbn [length]; lia). rewrite Nat2Z.id. f_equal.
  by rewrite insert_app_r_alt, Nat.sub_diag by lia.
Qed.

Lemma xor_top y b : 0 <= y < 2 ^ 7 → 0 <= b < 2 → u8 (y ^' (b ≪ 7)) = y + 2 ^ 7 * b.
Proof.
  intros Hy Hb. assert (b = 0 ∨ b = 1) as [-> | ->] by lia.
  - rewrite Z.shiftl_0_l, Z.lxor_0_r. rewrite u8_small by (unfold is_uint; lia). lia.
  - assert (y ^' (1 ≪ 7) = y + 2 ^ 7) as ->; [|rewrite u8_small by (unfold is_uint; lia); lia].
    rewrite <- Z.add_nocarry_lxor; [done|]. apply Z.bits_inj'. intros i Hi.
    rewrite Z.land_spec, Z.bits_0. change (1 ≪ 7) with (2 ^ 7). rewrite Z.pow2_bits_eqb by lia.
    destruct (Z.eqb_spec 7 i) as [<-|]; [|by rewrite andb_false_r]. rewrite andb_true_r.
    apply (uint_bit_high 7); [lia|done|lia].
Qed.

Lemma set_top y b : 0 <= y < 2 ^ 255 → 0 <= b < 2 →
  (x ← (le_bytes 32 y).[31]; wr (le_bytes 32 y) 31 (u8 (x ^' (b ≪ 7)))) = Some (le_bytes 32 (y + 2 ^ 255 * b)).
Proof.
  intros Hy Hb. rewrite !le_bytes_digits, (seq_S 31 0), !fmap_app.
  set (l := (λ j, y / 2 ^ (8 * Z.of_nat j) mod 2 ^ 8) <$> seq 0 31).
  assert (length l = 31%nat) as Hl by (unfold l; by rewrite length_fmap, length_seq).
  cbn [fmap list_fmap]. rewrite rd_last by (by rewrite Hl). cbn [mbind option_bind]. rewrite wr_last by (by rewrite Hl). f_equal. f_equal.
  - unfold l. apply Forall_fmap_ext_1, Forall_seq. intros j Hj.
    rewrite high_part by lia. by rewrite byte_multiple by lia.
  - f_equal. change (8 * Z.of_nat (0 + 31)) with 248.
    assert (0 <= y / 2 ^ 248 < 2 ^ 7) as Hd by (split; [apply Z.div_pos; lia|apply Z.div_lt_upper_bound; lia]).
    rewrite (Z.mod_small (y / 2 ^ 248)) by lia. rewrite xor_top by done. rewrite high_part by lia.
    change (255 - 248) with 7. rewrite Z.mod_small by lia. done.
Qed.

(** The affine coordinates that the code computes. *)
Lemma affine_at p P : p3_at p P →
  let recip := fe25519_invert (p3_Z p) in
  (limbs 52 (fe25519_mul (p3_X p) recip) ∧ fe_mod (fe25519_mul (p3_X p) recip) = px P) ∧
  (limbs 52 (fe25519_mul (p3_Y p) recip) ∧ fe_mod (fe25519_mul (p3_Y p) recip) = py P).
Proof.
  intros [(LX & LY & LW & _) (Hz & Hx & Hy & _)]. unfold p3_val in *. cbn [eX eY eZ eT] in *.
  destruct (fe_invert_finv _ (limbs_53 _ LW)) as [Li Ei]. revert Li Ei. cbv zeta.
  generalize (fe25519_invert (p3_Z p)). intros i Li Ei.
  destruct (fe_mul_eq _ i (limbs_53 _ LX) Li) as [Lx Ex]. destruct (fe_mul_eq _ i (limbs_53 _ LY) Li) as [Ly Ey].
  split; (split; [assumption|]); [rewrite Ex, Ei; by apply decoded_x|rewrite Ey, Ei; by apply decoded_y].
Qed.

Lemma encode_eq P : encode P = le_bytes 32 (py P + 2 ^ 255 * (px P mod 2)).
Proof. reflexivity. Qed.

Lemma p3_tobytes_at s p P : p3_at p P → length s = 32%nat → ge25519_p3_tobytes s p = Some (encode P).
Proof.
  intros Hp Hs. destruct (affine_at p P Hp) as [[Lx Ex] [Ly Ey]]. unfold ge25519_p3_tobytes. revert Lx Ex Ly Ey. cbv zeta.
  generalize (fe25519_mul (p3_X p) (fe25519_invert (p3_Z p))) (fe25519_mul (p3_Y p) (fe25519_invert (p3_Z p))).
  intros x y Lx Ex Ly Ey. rewrite fe_tobytes_eq, fe_isnegative_eq by (done || by apply (limbs_64 52)).
  rewrite Ex, Ey, encode_eq. cbn [mbind option_bind].
  pose proof (py_bound P). pose proof p25519_lt. rewrite <- set_top; [reflexivity|lia|]. by apply Z.mod_pos_bound.
Qed.

(** ** Decoding *)

(** *** Square roots *)

(** If [u / v] is a square, [u (u v)^((p-5)/8)] is one of its roots, up to the root of -1. *)
Lemma root_sign u v x e : 0 <= e → 4 * (2 * e + 1) = p25519 - 1 → eqp (v * (x * x)) u → ¬ eqp u 0 →
  let r := u * (u * v) ^ e in eqp (v * (r * r)) u ∨ eqp (v * (r * r)) (- u).
Proof.
  intros He Hp Hx Hu. set (t := (u * v) ^ e). set (w := u * v * (t * t)).
  assert (¬ eqp (v * x) 0) as Hvx.
  { intros H. apply Hu. rewrite <- Hx. transitivity (v * x * x); [apply eq_eqp; ring|]. by rewrite H. }
  assert (eqp (u * v) (v * x * (v * x))) as Huv by (rewrite <- Hx; apply eq_eqp; ring).
  assert (eqp (w * w) 1) as Hw.
  { assert (w = (u * v) ^ (2 * e + 1)) as ->.
    { unfold w, t. rewrite Z.pow_add_r, Z.pow_1_r, (Z.mul_comm 2 e), Z.pow_mul_r by lia. ring. }
    rewrite <- Z.pow_2_r, <- Z.pow_mul_r by lia.
    transitivity ((v * x * (v * x)) ^ ((2 * e + 1) * 2)).
    { unfold eqp in *. rewrite <- (Z.mod_pow_l (u * v)), Huv, Z.mod_pow_l by done. reflexivity. }
    replace (v * x * (v * x)) with ((v * x) ^ 2) by ring. rewrite <- Z.pow_mul_r by lia.
    replace (2 * ((2 * e + 1) * 2)) with (p25519 - 1) by lia.
    unfold eqp. rewrite Z.fermat_nz; [by vm_compute|apply prime_p25519|].
    intros H0. apply Hvx. unfold eqp. by rewrite Zmod_0_l. }
  assert (eqp ((w - 1) * (w + 1)) 0) as [H|H]%eqp_mul_0.
  { apply eqp_diff in Hw. rewrite <- Hw. apply eq_eqp. ring. }
  - left. transitivity (u * w); [apply eq_eqp; unfold w; ring|]. apply eqp_same in H. rewrite H. apply eq_eqp. ring.
  - right. transitivity (u * w); [apply eq_eqp; unfold w; ring|].
    assert (eqp w (-1)) as -> by (apply eqp_same; rewrite <- H; apply eq_eqp; ring). apply eq_eqp. ring.
Qed.

(** The denominator is never zero: [-1/d] is not a square. *)
Lemma denominator_nonzero y : ¬ eqp (y * y * ed_d + 1) 0.
Proof.
  intros H. destruct (decide (eqp y 0)) as [H0|H0].
  - rewrite H0 in H. by vm_compute in H.
  - pose proof (finv_inverts y H0) as Hi. revert Hi. generalize (finv y). intros i Hi.
    apply (ed_d_nonsquare (sqrtm1 * i)). 
    transitivity (sqrtm1 * sqrtm1 * (i * i)); [apply eq_eqp; ring|]. rewrite sqrtm1_squared.
    transitivity (y * i * (y * i) * ed_d); [|rewrite Hi; apply eq_eqp; ring].
    transitivity ((y * y * ed_d + 1) * (i * i) - i * i); [rewrite H; apply eq_eqp; ring|apply eq_eqp; ring].
Qed.

(** The equation of the curve, solved for x. *)
Lemma residue_root x y : eqp (residue ed_d x y) 0 ↔ eqp ((y * y * ed_d + 1) * (x * x)) (y * y - 1).
Proof.
  unfold residue. split; intros H.
  - apply eqp_same. transitivity (- (y * y - x * x - 1 - ed_d * (x * x) * (y * y))); [apply eq_eqp; ring|]. by rewrite H.
  - apply eqp_diff in H. transitivity (- ((y * y * ed_d + 1) * (x * x) - (y * y - 1))); [apply eq_eqp; ring|]. by rewrite H.
Qed.

(** Points with the same y have x up to sign. *)
Lemma same_y P x : eqp (residue ed_d x (py P)) 0 → eqp x (px P) ∨ eqp x (- px P).
Proof.
  intros H%residue_root. pose proof (proj1 (residue_root _ _) (p_residue P)) as H'.
  rewrite <- H' in H. apply eqp_cancel in H; [|apply denominator_nonzero].
  assert (eqp ((x - px P) * (x + px P)) 0) as [E|E]%eqp_mul_0.
  { apply eqp_diff in H. rewrite <- H. apply eq_eqp. ring. }
  - left. by apply eqp_same.
  - right. apply eqp_same. rewrite <- E. apply eq_eqp. ring.
Qed.

(** *** The code *)

Lemma exponent_5_8 : 0 <= (p25519 - 5) / 8 ∧ 4 * (2 * ((p25519 - 5) / 8) + 1) = p25519 - 1.
Proof. by vm_compute. Qed.

(** What the two tests decide. *)
Section roots.
Variables (y u v x0 : Z).
Hypothesis (Hu : eqp u (y * y - 1)) (Hv : eqp v (y * y * ed_d + 1)).

Lemma root_found x1 : eqp (v * (x0 * x0)) u ∧ eqp x1 x0 ∨ eqp (v * (x0 * x0)) (- u) ∧ eqp x1 (x0 * sqrtm1) →
  eqp (residue ed_d x1 y) 0.
Proof.
  rewrite residue_root, <- Hu, <- Hv. intros [[H ->]|[H ->]]; [exact H|].
  transitivity (v * (x0 * x0) * (sqrtm1 * sqrtm1)); [apply eq_eqp; ring|]. rewrite H, sqrtm1_squared. apply eq_eqp. ring.
Qed.

Lemma root_missing x : eqp x0 (u * (u * v) ^ ((p25519 - 5) / 8)) → eqp (residue ed_d x y) 0 →
  eqp (v * (x0 * x0)) u ∨ eqp (v * (x0 * x0)) (- u).
Proof.
  intros Hx0 H%residue_root. rewrite <- Hu, <- Hv in H. rewrite Hx0. destruct (decide (eqp u 0)) as [H0|H0].
  - left. generalize ((u * v) ^ ((p25519 - 5) / 8)). intros t. rewrite H0. apply eq_eqp. ring.
  - destruct exponent_5_8 as [He Hp]. exact (root_sign u v x _ He Hp H H0).
Qed.
End roots.

Lemma fe_neg52 f : limbs 54 f → limbs 52 (fe25519_neg f).
Proof.
  intros (G0 & G1 & G2 & G3 & G4). unfold fe25519_neg, fe25519_sub, limbs. cbv zeta. cbn [fe_0 fe_1 fe_2 fe_3 fe_4 fe25519_0].
  rewrite !mask51_mod, !Z.shiftr_div_pow2 by lia.
  set (h1 := u64 (fe_1 f + _)). assert (h1 = fe_1 f + fe_0 f / 2 ^ 51) as E1
    by (apply wrap_small; unfold is_uint; div_lia). clearbody h1.
  set (h2 := u64 (fe_2 f + _)). assert (h2 = fe_2 f + h1 / 2 ^ 51) as E2
    by (apply wrap_small; unfold is_uint; div_lia). clearbody h2.
  set (h3 := u64 (fe_3 f + _)). assert (h3 = fe_3 f + h2 / 2 ^ 51) as E3
    by (apply wrap_small; unfold is_uint; div_lia). clearbody h3.
  set (h4 := u64 (fe_4 f + _)). assert (h4 = fe_4 f + h3 / 2 ^ 51) as E4
    by (apply wrap_small; unfold is_uint; div_lia). clearbody h4.
  rewrite (u64_small (19 * _)) by (unfold is_uint; div_lia).
  rewrite !(u64_small (_ mod _ + _)) by (unfold is_uint; div_lia).
  rewrite !(u64_small (0 + _)) by (unfold is_uint; lia).
  rewrite !(u64_small (_ - _)) by (unfold is_uint; div_lia). div_lia.
Qed.

Lemma fe_sqrtm1_eq : limbs 52 fe_sqrtm1 ∧ fe_mod fe_sqrtm1 = sqrtm1.
Proof. split; [by_computation|by vm_compute]. Qed.

(** The numerator and denominator of x squared. *)
Lemma numerator_eq Y : limbs 52 Y →
  let u := fe25519_sub (fe25519_sq Y) fe25519_1 in
  limbs 53 u ∧ eqp (fe_mod u) (fe_mod Y * fe_mod Y - 1).
Proof.
  intros LY. cbv zeta. destruct (fe_sq_eq Y (limbs_53 _ LY)) as [L1 E1]. revert L1 E1. generalize (fe25519_sq Y). intros a L1 E1.
  destruct fe_1_eq as [L2 E2]. destruct (fe_sub_eq a fe25519_1 L1 (limbs_le 51 54 _ ltac:(lia) L2)) as [L3 E3].
  split; [exact L3|]. rewrite E3, E1, E2. by rewrite fsub_eqp, fmul_eqp.
Qed.

Lemma denominator_eq Y : limbs 52 Y →
  let v := fe25519_add (fe25519_mul (fe25519_sq Y) fe_d) fe25519_1 in
  limbs 53 v ∧ eqp (fe_mod v) (fe_mod Y * fe_mod Y * ed_d + 1).
Proof.
  intros LY. cbv zeta. destruct (fe_sq_eq Y (limbs_53 _ LY)) as [L1 E1]. revert L1 E1. generalize (fe25519_sq Y). intros a L1 E1.
  destruct fe_d_eq as [Ld Ed]. destruct (fe_mul_eq a fe_d (limbs_53 _ L1) (limbs_53 _ Ld)) as [L3 E3]. revert L3 E3.
  generalize (fe25519_mul a fe_d). intros b L3 E3.
  destruct fe_1_eq as [L2 E2]. destruct (fe_add_eq b fe25519_1 L3 (limbs_le 51 52 _ ltac:(lia) L2)) as [L4 E4].
  split; [exact L4|]. rewrite E4, E3, E1, E2, Ed. by rewrite fadd_eqp, !fmul_eqp.
Qed.

(** The candidate for x. *)
Lemma candidate_eq u v : limbs 53 u → limbs 53 v →
  let X := fe25519_mul u (fe25519_pow22523 (fe25519_mul u v)) in
  limbs 52 X ∧ eqp (fe_mod X) (fe_mod u * (fe_mod u * fe_mod v) ^ ((p25519 - 5) / 8)).
Proof.
  intros Lu Lv. cbv zeta. destruct (fe_mul_eq u v Lu Lv) as [L1 E1]. revert L1 E1. generalize (fe25519_mul u v). intros a L1 E1.
  destruct (fe_pow22523_eq a (limbs_53 _ L1)) as [L2 E2]. revert L2 E2. generalize (fe25519_pow22523 a).
  destruct exponent_5_8 as [He _]. revert He. generalize ((p25519 - 5) / 8). intros e He b L2 E2.
  destruct (fe_mul_eq u b Lu L2) as [L3 E3]. split; [exact L3|]. rewrite E3, E2, E1, fmul_eqp, eqp_mod. unfold fmul.
  unfold eqp. rewrite Zmult_mod, Z.mod_pow_l, <- Zmult_mod by done. done.
Qed.

Lemma iszero_flag f : limbs 64 f → ∃ b : bool, fe25519_iszero f = Some (Z.b2z b) ∧ (b = true ↔ eqp (fe_mod f) 0).
Proof.
  intros Lf. exists (fe_mod f =? 0). rewrite fe_iszero_eq by done. split; [by destruct (fe_mod f =? 0)|].
  rewrite <- fe_mod_0. apply Z.eqb_eq.
Qed.

Lemma checks_eq X u v : limbs 52 X → limbs 53 u → limbs 53 v →
  let vxx := fe25519_mul (fe25519_sq X) v in
  ∃ m n : bool, fe25519_iszero (fe25519_sub vxx u) = Some (Z.b2z m) ∧ fe25519_iszero (fe25519_add vxx u) = Some (Z.b2z n) ∧
    (m = true ↔ eqp (fe_mod v * (fe_mod X * fe_mod X)) (fe_mod u)) ∧
    (n = true ↔ eqp (fe_mod v * (fe_mod X * fe_mod X)) (- fe_mod u)).
Proof.
  intros LX Lu Lv. cbv zeta. destruct (fe_sq_eq X (limbs_53 _ LX)) as [L1 E1]. revert L1 E1. generalize (fe25519_sq X). intros a L1 E1.
  destruct (fe_mul_eq a v (limbs_53 _ L1) Lv) as [L2 E2]. revert L2 E2. generalize (fe25519_mul a v). intros vxx L2 E2.
  assert (eqp (fe_mod vxx) (fe_mod v * (fe_mod X * fe_mod X))) as E.
  { rewrite E2, E1, !fmul_eqp. apply eq_eqp. ring. }
  destruct (fe_sub_eq vxx u L2 (limbs_53_54 _ Lu)) as [L3 E3].
  destruct (fe_add53_eq vxx u (limbs_53 _ L2) Lu) as [L4 E4].
  destruct (iszero_flag _ (limbs_64 53 _ ltac:(lia) L3)) as (m & Hm & Bm).
  destruct (iszero_flag _ (limbs_64 54 _ ltac:(lia) L4)) as (n & Hn & Bn).
  exists m, n. split; [exact Hm|]. split; [exact Hn|]. rewrite Bm, Bn, E3, E4, fsub_eqp, fadd_eqp, <- E. split.
  - split; [apply eqp_same|apply eqp_diff].
  - rewrite <- (Z.sub_opp_r (fe_mod vxx)). split; [apply eqp_same|apply eqp_diff].
Qed.

(** The choice between the root and its product with the root of -1. *)
Lemma choose_root X (m : bool) : limbs 52 X →
  let X1 := fe25519_cmov X (fe25519_mul X fe_sqrtm1) (1 - Z.b2z m) in
  limbs 52 X1 ∧ eqp (fe_mod X1) (if m then fe_mod X else fe_mod X * sqrtm1).
Proof.
  intros LX. cbv zeta. destruct fe_sqrtm1_eq as [Ls Es].
  destruct (fe_mul_eq X fe_sqrtm1 (limbs_53 _ LX) (limbs_53 _ Ls)) as [L1 E1]. revert L1 E1. rewrite Es.
  generalize (fe25519_mul X fe_sqrtm1). intros a L1 E1. replace (1 - Z.b2z m) with (Z.b2z (negb m)) by (by destruct m).
  rewrite fe_cmov_eq by (apply (limbs_64 52); [lia|assumption]). destruct m; cbn [negb]; (split; [done|]); [done|]. by rewrite E1, fmul_eqp.
Qed.

(** The choice of the sign. *)
Lemma fsub_parity x : 0 < x < p25519 → fsub 0 x mod 2 = 1 - x mod 2.
Proof.
  intros Hx. unfold fsub. replace ((0 - x) mod p25519) with (p25519 - x) by (apply (Z.mod_unique _ _ (-1)); lia).
  pose proof (Z.mod_pos_bound x 2 ltac:(lia)) as Hb. pose proof (Z.div_mod x 2 ltac:(lia)) as Hd.
  symmetry. apply (Z.mod_unique _ _ (p25519 / 2 - x / 2)); [lia|]. 
  assert (p25519 = 2 * (p25519 / 2) + 1) as -> by (by vm_compute). rewrite Z.add_comm, Z.mul_comm, Z.div_add by lia.
  change (1 / 2) with 0. lia.
Qed.

Lemma choose_sign X c : limbs 52 X → 0 <= c < 2 →
  ∃ X', (n ← fe25519_isnegative X; Some (fe25519_cmov X (fe25519_neg X) (n ^' c))) = Some X' ∧
    limbs 52 X' ∧ (eqp (fe_mod X') (fe_mod X) ∨ eqp (fe_mod X') (- fe_mod X)) ∧ (fe_mod X' = 0 ∨ fe_mod X' mod 2 = c).
Proof.
  intros LX Hc. rewrite fe_isnegative_eq by (by apply (limbs_64 52)). cbn [mbind option_bind].
  pose proof (Z.mod_pos_bound (fe_mod X) 2 ltac:(lia)) as Hn. pose proof (fe_mod_bound X) as Hb.
  destruct (fe_neg_eq X (limbs_54 _ LX)) as [_ En]. pose proof (fe_neg52 X (limbs_54 _ LX)) as Ln.
  revert Ln En. generalize (fe25519_neg X). intros N Ln En.
  assert (fe_mod X mod 2 ^' c = Z.b2z (negb (fe_mod X mod 2 =? c))) as ->.
  { assert (fe_mod X mod 2 = 0 ∨ fe_mod X mod 2 = 1) as [-> | ->] by lia; assert (c = 0 ∨ c = 1) as [-> | ->] by lia; reflexivity. }
  rewrite fe_cmov_eq by (apply (limbs_64 52); [lia|assumption]). eexists. split; [reflexivity|].
  destruct (Z.eqb_spec (fe_mod X mod 2) c) as [E|E]; cbn [negb].
  - split; [done|]. split; [by left|by right].
  - split; [done|]. split.
    + right. rewrite En, fsub_eqp. apply eq_eqp. ring.
    + rewrite En. destruct (decide (fe_mod X = 0)) as [->|H0]; [left; by vm_compute|right]. rewrite fsub_parity by lia. lia.
Qed.

Lemma top_bit s : length s = 32%nat → bytes_ok s →
  ∃ b, s.[31] = Some b ∧ b ≫ 7 = le_val s / 2 ^ 255 ∧ 0 <= le_val s / 2 ^ 255 < 2.
Proof.
  intros Hl Hs. destruct (lookup_lt_is_Some_2 s 31) as [b Hb]; [lia|]. exists b. split; [by rewrite <- (rd_nat s 31) in Hb|].
  pose proof (le_val_div s Hs 31 ltac:(lia)) as Hd. rewrite (drop_S _ _ _ Hb), drop_ge in Hd by lia. cbn [le_val] in Hd.
  change (8 * Z.of_nat 31) with 248 in Hd.
  assert (le_val s / 2 ^ 255 = b / 2 ^ 7) as Hv.
  { change (2 ^ 255) with (2 ^ 248 * 2 ^ 7). rewrite <- Zdiv_Zdiv by lia. rewrite Hd. f_equal. lia. }
  split; [by rewrite Z.shiftr_div_pow2 by lia|]. rewrite Hv.
  assert (is_u8 b) as Hu by exact (Forall_lookup_1 _ _ _ _ Hs Hb). unfold is_uint in Hu.
  split; [apply Z.div_pos; lia|apply Z.div_lt_upper_bound; lia].
Qed.

(** Coordinates with [Z = 1] of a point. *)
Lemma affine_extends X Y (on : eqp (residue ed_d (fe_mod X) (fe_mod Y)) 0) : limbs 52 X → limbs 52 Y →
  p3_at (mk_p3 X Y fe25519_1 (fe25519_mul X Y)) (reduced_point (fe_mod X) (fe_mod Y) on).
Proof.
  intros LX LY. destruct (fe_mul_eq X Y (limbs_53 _ LX) (limbs_53 _ LY)) as [LT ET]. destruct fe_1_eq as [L1 E1].
  revert LT ET. generalize (fe25519_mul X Y). intros T LT ET. split.
  - split; [exact LX|]. split; [exact LY|]. split; [by apply (limbs_le 51)|exact LT].
  - unfold p3_val. cbn [p3_X p3_Y p3_Z p3_T]. rewrite E1, ET.
    split; [by vm_compute|]. cbn [eX eY eZ eT px py reduced_point]. rewrite !eqp_mod, fmul_eqp.
    split_and!; apply eq_eqp; ring.
Qed.

Definition decode_y (s : bytes) : Z := (le_val s mod 2 ^ 255) mod p25519.

(** The roots and the sign, from the numerator and the denominator on. *)
Lemma root_code u v : limbs 53 u → limbs 53 v → ∃ X (m n : bool),
  let X0 := fe25519_mul u (fe25519_pow22523 (fe25519_mul u v)) in
  let vxx := fe25519_mul (fe25519_sq X0) v in
  fe25519_iszero (fe25519_sub vxx u) = Some (Z.b2z m) ∧ fe25519_iszero (fe25519_add vxx u) = Some (Z.b2z n) ∧
  fe25519_cmov X0 (fe25519_mul X0 fe_sqrtm1) (1 - Z.b2z m) = X ∧ limbs 52 X ∧
  (∀ y, eqp (fe_mod u) (y * y - 1) → eqp (fe_mod v) (y * y * ed_d + 1) →
    if m || n then eqp (residue ed_d (fe_mod X) y) 0 else ∀ x, ¬ eqp (residue ed_d x y) 0).
Proof.
  intros Lu Lv. destruct (candidate_eq u v Lu Lv) as [LX EX]. revert LX EX.
  generalize (fe25519_mul u (fe25519_pow22523 (fe25519_mul u v))). intros X LX EX.
  destruct (checks_eq X u v LX Lu Lv) as (m & n & Hm & Hn & Bm & Bn). destruct (choose_root X m LX) as [L1 E1].
  eexists _, m, n. split; [exact Hm|]. split; [exact Hn|]. split; [reflexivity|]. split; [exact L1|].
  clear Hm Hn. revert L1 E1. generalize (fe25519_cmov X (fe25519_mul X fe_sqrtm1) (1 - Z.b2z m)). intros X1 L1 E1 y Eu Ev.
  destruct (m || n) eqn:Hmn.
  - apply (root_found _ _ _ (fe_mod X) Eu Ev). destruct m; [left; split; [by apply Bm|exact E1]|].
    destruct n; [right; split; [by apply Bn|exact E1]|done].
  - intros x Hx. destruct m, n; try discriminate Hmn.
    destruct (root_missing _ _ _ (fe_mod X) Eu Ev x EX Hx) as [H|H]; [by apply Bm in H|by apply Bn in H].
Qed.

(** The equation does not see the sign of x. *)
Lemma residue_sign x x' y : eqp x' x ∨ eqp x' (- x) → eqp (residue ed_d x y) 0 → eqp (residue ed_d x' y) 0.
Proof.
  generalize ed_d. intros c Hx H. transitivity (residue c x y); [|exact H]. unfold residue. destruct Hx as [E|E]; rewrite E; apply eq_eqp; ring.
Qed.

(** The code from the numerator and the denominator on. *)
Definition finish_decoding (s : bytes) (Y u v : fe25519) : option (Z * ge25519_p3) :=
  let X := fe25519_mul u (fe25519_pow22523 (fe25519_mul u v)) in
  let vxx := fe25519_mul (fe25519_sq X) v in
  has_m_root ← fe25519_iszero (fe25519_sub vxx u);
  has_p_root ← fe25519_iszero (fe25519_add vxx u);
  let X := fe25519_cmov X (fe25519_mul X fe_sqrtm1) (1 - has_m_root) in
  n ← fe25519_isnegative X;
  b ← s.[31];
  let X := fe25519_cmov X (fe25519_neg X) (n ^' (b ≫ 7)) in
  Some ((has_m_root |' has_p_root) - 1, mk_p3 X Y fe25519_1 (fe25519_mul X Y)).

Lemma frombytes_finish s : ge25519_frombytes s = (Y ← fe25519_frombytes s;
  finish_decoding s Y (fe25519_sub (fe25519_sq Y) fe25519_1) (fe25519_add (fe25519_mul (fe25519_sq Y) fe_d) fe25519_1)).
Proof. reflexivity. Qed.

Lemma finish_decoding_eq s Y u v : length s = 32%nat → bytes_ok s → limbs 52 Y → limbs 53 u → limbs 53 v →
  eqp (fe_mod u) (fe_mod Y * fe_mod Y - 1) → eqp (fe_mod v) (fe_mod Y * fe_mod Y * ed_d + 1) →
  ∃ r X, finish_decoding s Y u v = Some (r, mk_p3 X Y fe25519_1 (fe25519_mul X Y)) ∧ limbs 52 X ∧
    ((r = 0 ∧ eqp (residue ed_d (fe_mod X) (fe_mod Y)) 0 ∧ (fe_mod X = 0 ∨ fe_mod X mod 2 = le_val s / 2 ^ 255)) ∨
     (r = -1 ∧ ∀ x, ¬ eqp (residue ed_d x (fe_mod Y)) 0)).
Proof.
  intros Hl Hs LY Lu Lv Eu Ev. unfold finish_decoding.
  destruct (root_code u v Lu Lv) as (X1 & m & n & Hm & Hn & HX & L1 & HR). cbv zeta. specialize (HR _ Eu Ev).
  rewrite Hm, some_bind, Hn, some_bind, HX. clear Hm Hn HX.
  destruct (top_bit s Hl Hs) as (b & Hb & Hb7 & Hc). rewrite Hb.
  destruct (choose_sign X1 _ L1 Hc) as (X2 & H2 & L2 & E2 & P2).
  destruct (fe25519_isnegative X1) as [k|]; [|discriminate H2]. cbn [mbind option_bind] in H2 |- *. rewrite Hb7. injection H2 as ->.
  eexists _, X2. split; [reflexivity|]. split; [exact L2|]. destruct (m || n) eqn:Hmn.
  - left. split; [by destruct m, n|]. split; [|exact P2].
    exact (residue_sign _ _ _ E2 HR).
  - right. destruct m, n; try discriminate Hmn. split; [reflexivity|exact HR].
Qed.

(** The decoding: the bytes of the result, and the point or its absence. *)
Lemma frombytes_eq s : length s = 32%nat → bytes_ok s → ∃ r h, ge25519_frombytes s = Some (r, h) ∧
  ((r = 0 ∧ ∃ P, p3_at h P ∧ py P = decode_y s ∧ (px P = 0 ∨ px P mod 2 = le_val s / 2 ^ 255)) ∨
   (r = -1 ∧ ∀ P, py P ≠ decode_y s)).
Proof.
  intros Hl Hs. rewrite frombytes_finish. destruct (fe_frombytes_eq s Hl Hs) as (Y & -> & LY & EY). rewrite some_bind.
  assert (fe_mod Y = decode_y s) as Ey by (unfold fe_mod, decode_y; by rewrite EY). rewrite <- Ey. clear EY Ey.
  apply (limbs_le 51 52) in LY; [|lia]. destruct (numerator_eq Y LY) as [Lu Eu]. destruct (denominator_eq Y LY) as [Lv Ev].
  revert Lu Eu Lv Ev. generalize (fe25519_sub (fe25519_sq Y) fe25519_1) (fe25519_add (fe25519_mul (fe25519_sq Y) fe_d) fe25519_1).
  intros u v Lu Eu Lv Ev. destruct (finish_decoding_eq s Y u v Hl Hs LY Lu Lv Eu Ev) as (r & X & -> & LX & [(-> & HR & HP)|(-> & HR)]).
  - eexists _, _. split; [reflexivity|]. left. split; [done|]. exists (reduced_point _ _ HR).
    split; [by apply affine_extends|]. cbn [px py reduced_point]. rewrite !Z.mod_small by apply fe_mod_bound. done.
  - eexists _, _. split; [reflexivity|]. right. split; [done|]. intros P HP. apply (HR (px P)). rewrite <- HP. apply p_residue.
Qed.

Lemma encode_decode_y P : decode_y (encode P) = py P ∧ le_val (encode P) / 2 ^ 255 = px P mod 2.
Proof.
  unfold decode_y. rewrite encode_le_val. unfold encode_val. pose proof (py_bound P) as Hy. pose proof p25519_lt.
  rewrite (Z.mul_comm (2 ^ 255)), Z_mod_plus_full, Z.div_add, (Z.div_small (py P)) by lia.
  split; [|lia]. rewrite (Z.mod_small (py P) (2 ^ 255)), Z.mod_small by lia. done.
Qed.

Lemma eqp_small x y : 0 <= x < p25519 → 0 <= y < p25519 → eqp x y → x = y.
Proof. intros Hx Hy H. unfold eqp in H. by rewrite !Z.mod_small in H by done. Qed.

(** A point is determined by y and the parity of x. *)
Lemma point_of_parity P Q : py Q = py P → px Q = 0 ∨ px Q mod 2 = px P mod 2 → Q = P.
Proof.
  intros Hy Hp. apply point_eq; [|by rewrite Hy]. pose proof (px_bound P) as BP. pose proof (px_bound Q) as BQ.
  destruct (same_y P (px Q)) as [H|H]; [rewrite <- Hy; apply p_residue|exact H|].
  destruct (decide (px P = 0)) as [E|E]; [by rewrite H, E|]. exfalso.
  assert (px Q = fsub 0 (px P)) as EQ.
  { apply eqp_small; [done|unfold fsub; apply Z.mod_pos_bound; lia|]. rewrite H, fsub_eqp. apply eq_eqp. ring. }
  destruct Hp as [H0|Hp].
  - apply E. apply eqp_small; [done|lia|]. transitivity (- (- px P)); [apply eq_eqp; ring|]. rewrite <- H, H0. done.
  - rewrite EQ, fsub_parity in Hp by lia. pose proof (Z.mod_pos_bound (px P) 2 ltac:(lia)). lia.
Qed.

Lemma frombytes_encode P : ∃ h, ge25519_frombytes (encode P) = Some (0, h) ∧ p3_at h P.
Proof.
  destruct (frombytes_eq (encode P) (encode_length P) (encode_ok P)) as (r & h & Hr & H).
  destruct (encode_decode_y P) as [Hy Hs]. rewrite Hy, Hs in H.
  destruct H as [(-> & Q & Hh & HQ & Hp)|(_ & H)]; [|by destruct (H P)]. exists h. split; [exact Hr|].
  by rewrite <- (point_of_parity P Q HQ Hp).
Qed.

Lemma on_curve_at h P : p3_at h P → ge25519_is_on_curve h = Some 1.
Proof.
  intros [Hl (Hz & Hx & Hy & _)]. unfold p3_val in *. cbn [eX eY eZ eT] in *.
  rewrite on_curve_test by (done || by rewrite fe_mod_0). rewrite (decoded_x _ _ P Hz Hx), (decoded_y _ _ P Hz Hy).
  by rewrite p_on.
Qed.

(** Loading: a point with the encoded y, or none. *)
Lemma load_point_eq s : length s = 32%nat → bytes_ok s →
  (∃ h P, load_point s = Some (Some h) ∧ p3_at h P ∧ py P = decode_y s ∧ (px P = 0 ∨ px P mod 2 = le_val s / 2 ^ 255)) ∨
  (load_point s = Some None ∧ ∀ P, py P ≠ decode_y s).
Proof.
  intros Hl Hs. unfold load_point. destruct (frombytes_eq s Hl Hs) as (r & h & -> & [(-> & P & HP & Hy)|(-> & H)]); rewrite some_bind.
  - left. exists h, P. rewrite (on_curve_at h P HP). done.
  - right. done.
Qed.

Lemma load_point_encode P : ∃ h, load_point (encode P) = Some (Some h) ∧ p3_at h P.
Proof.
  unfold load_point. destruct (frombytes_encode P) as (h & -> & Hh). rewrite some_bind. exists h.
  by rewrite (on_curve_at h P Hh).
Qed.

Lemma core_add_eq r P Q : length r = 32%nat →
  crypto_core_ed25519_add r (encode P) (encode Q) = Some (0, encode (padd P Q)).
Proof.
  intros Hr. unfold crypto_core_ed25519_add. destruct (load_point_encode P) as (p & -> & Hp). rewrite some_bind.
  destruct (load_point_encode Q) as (q & -> & Hq). rewrite some_bind. cbv zeta.
  rewrite (p3_tobytes_at r _ (padd P Q)); [done| |done]. by apply p1p1_p3_at, add_at, to_cached_at.
Qed.

Lemma core_sub_eq r P Q : length r = 32%nat →
  crypto_core_ed25519_sub r (encode P) (encode Q) = Some (0, encode (padd P (pneg Q))).
Proof.
  intros Hr. unfold crypto_core_ed25519_sub. destruct (load_point_encode P) as (p & -> & Hp). rewrite some_bind.
  destruct (load_point_encode Q) as (q & -> & Hq). rewrite some_bind. cbv zeta.
  rewrite (p3_tobytes_at r _ (padd P (pneg Q))); [done| |done]. by apply p1p1_p3_at, sub_at, to_cached_at.
Qed.

(** ** The tests of encodings *)

Section canonical.
Variables (s : bytes).
Hypothesis (Hl : length s = 32%nat) (Hs : bytes_ok s).

(** The bytes that the loop compares, as the end of the number without its top bit. *)
Lemma canonical_loop x : s !! 31%nat = Some x →
  ∃ c, for_range 30 (λ k c, x ← s.[30 - Z.of_nat k]; Some (u8 (c |' (x ^' 0xff)))) ((x &' 0x7f) ^' 0x7f) = Some c ∧
    is_u8 c ∧ (c = 0 ↔ drop 1 (clear_top s) = replicate 30 0xff ++ [0x7f]).
Proof.
  intros Hx. destruct (clear_top_val s Hl Hs) as (Lc & Oc & _).
  assert (clear_top s = take 31 s ++ [x &' 0x7f]) as Ec by (unfold clear_top; by rewrite Hx).
  assert (is_u8 (x &' 0x7f)) as Hu.
  { pose proof (Forall_lookup_1 _ _ _ _ Hs Hx) as Hb. change 0x7f with (Z.ones 7). rewrite Z.land_ones by lia.
    unfold is_uint. pose proof (Z.mod_pos_bound x (2 ^ 7)). lia. }
  apply (for_range_inv (λ k c, is_u8 c ∧ (c = 0 ↔ drop (31 - k) (clear_top s) = replicate k 0xff ++ [0x7f]))).
  - split; [by apply lxor_uint; [lia|..]|]. rewrite lxor_zero_iff, Ec, drop_app_length' by (rewrite length_take; lia).
    cbn [replicate app]. split; congruence.
  - intros k c Hk [Hc Hz]. replace (30 - Z.of_nat k) with (Z.of_nat (30 - k)) by lia. rewrite rd_nat.
    destruct (lookup_lt_is_Some_2 s (30 - k)) as [y Hy]; [lia|]. rewrite Hy. cbn [mbind option_bind]. eexists. split; [reflexivity|].
    assert (is_u8 y) as Hyb by exact (Forall_lookup_1 _ _ _ _ Hs Hy). split; [apply u8_uint|].
    rewrite u8_small by (apply lor_uint; [lia|done|by apply lxor_uint; [lia|..]]).
    rewrite Z.lor_eq_0_iff, lxor_zero_iff, Hz. replace (31 - S k)%nat with (30 - k)%nat by lia.
    assert (clear_top s !! (30 - k)%nat = Some y) as Hcy by (rewrite Ec, lookup_app_l, lookup_take_lt by (rewrite ?length_take; lia); exact Hy).
    rewrite (drop_S _ _ _ Hcy). replace (S (30 - k)) with (31 - k)%nat by lia. cbn [replicate app]. split.
    + by intros [-> ->].
    + intros [= -> ->]. done.
Qed.

Lemma is_canonical_eq : ge25519_is_canonical s = Some (Z.b2z (le_val s mod 2 ^ 255 <? p25519)).
Proof.
  unfold ge25519_is_canonical. destruct (lookup_lt_is_Some_2 s 31) as [x Hx]; [lia|].
  change (s.[31]) with (s.[Z.of_nat 31]). rewrite rd_nat, Hx, some_bind.
  destruct (canonical_loop x Hx) as (c & -> & Hc & Hz). rewrite some_bind.
  destruct (clear_top_val s Hl Hs) as (Lc & Oc & Vc). destruct (lookup_lt_is_Some_2 s 0) as [y Hy]; [lia|].
  change (s.[0]) with (s.[Z.of_nat 0]). rewrite rd_nat, Hy, some_bind. f_equal.
  assert (clear_top s !! 0%nat = Some y) as Hcy.
  { unfold clear_top. rewrite lookup_app_l, lookup_take_lt by (rewrite ?length_take; lia). exact Hy. }
  pose proof (drop_S _ _ _ Hcy) as Hd. rewrite drop_0 in Hd.
  pose proof (Forall_drop _ 1 _ Oc) as Od. assert (length (drop 1 (clear_top s)) = 31%nat) as Ld by (rewrite length_drop; lia).
  rewrite <- Vc, Hd. cbn [le_val]. pose proof (Forall_lookup_1 _ _ _ _ Hs Hy) as Hyb. unfold is_uint in Hyb, Hc.
  assert (0 <= le_val (drop 1 (clear_top s)) < 2 ^ 247) as Hh.
  { pose proof (le_val_bound (drop 1 (clear_top s)) Od) as [Hh _]. split; [exact Hh|].
    pose proof (Z.mod_pos_bound (le_val s) (2 ^ 255) ltac:(lia)) as Hm. rewrite <- Vc, Hd in Hm. cbn [le_val] in Hm. lia. }
  assert (c = 0 ↔ le_val (drop 1 (clear_top s)) = 2 ^ 247 - 1) as Hz'.
  { rewrite Hz. split; [intros ->; by vm_compute|]. intros E.
    rewrite <- (le_bytes_val 31 (drop 1 (clear_top s)) Od Ld), E. by vm_compute. }
  revert Hh Hz'. generalize (le_val (drop 1 (clear_top s))). intros v Hh Hz'. clear - Hc Hyb Hh Hz'.
  change (u32 (0xed - 1)) with 0xec. unfold p25519. destruct (decide (c = 0)) as [->|Hne].
  - change (u8 (u32 (0 - 1) ≫ 8)) with 255. rewrite (proj1 Hz' eq_refl). destruct (Z_lt_le_dec y 0xed) as [Hlt|Hge].
    + rewrite (u32_small (0xec - y)) by (unfold is_uint; lia). rewrite Z.shiftr_div_pow2, Z.div_small by lia.
      rewrite (proj2 (Z.ltb_lt _ _)) by lia. reflexivity.
    + replace (u32 (0xec - y)) with (0xec - y + 2 ^ 32) by (apply (Z.mod_unique _ _ (-1)); lia).
      rewrite Z.shiftr_div_pow2 by lia.
      replace ((0xec - y + 2 ^ 32) / 2 ^ 8) with (2 ^ 24 - 1) by (apply (Z.div_unique _ _ _ (0xec - y + 256)); lia).
      rewrite (proj2 (Z.ltb_ge _ _)) by lia. reflexivity.
  - rewrite (u32_small (c - 1)) by (unfold is_uint; lia). rewrite (Z.shiftr_div_pow2 (c - 1)), (Z.div_small (c - 1)) by lia.
    change (u8 0) with 0. rewrite Z.land_0_l. assert (v ≠ 2 ^ 247 - 1) by tauto.
    rewrite (proj2 (Z.ltb_lt _ _)) by lia. reflexivity.
Qed.
End canonical.

Lemma ed_blacklist_shape : length ed_blacklist = 7%nat ∧ Forall (λ row, length row = 32%nat ∧ bytes_ok row) ed_blacklist.
Proof. split; [done|by_computation]. Qed.

Lemma ge_small_order_eq s : length s = 32%nat → bytes_ok s →
  ge25519_has_small_order s = Some (if bool_decide (clear_top s ∈ ed_blacklist) then 1 else 0).
Proof. destruct ed_blacklist_shape as [H7 Hs]. by apply scan_table_eq. Qed.

(** A canonical encoding of y with the parity of x is the encoding of the point. *)
Lemma canonical_encode s P : length s = 32%nat → bytes_ok s → le_val s mod 2 ^ 255 < p25519 → py P = decode_y s →
  px P mod 2 = le_val s / 2 ^ 255 → s = encode P.
Proof.
  intros Hl Hs Hc Hy Hp. rewrite <- (le_bytes_val 32 s Hs Hl). rewrite encode_eq, Hp, Hy. f_equal. unfold decode_y.
  pose proof (Z.mod_pos_bound (le_val s) (2 ^ 255) ltac:(lia)). rewrite (Z.mod_small (le_val s mod 2 ^ 255)) by lia.
  pose proof (Z.div_mod (le_val s) (2 ^ 255) ltac:(lia)). lia.
Qed.

(** The encodings with x = 0 are in the table. *)
Lemma x_zero_listed s P : length s = 32%nat → bytes_ok s → le_val s mod 2 ^ 255 < p25519 → py P = decode_y s → px P = 0 →
  clear_top s ∈ ed_blacklist.
Proof.
  intros Hl Hs Hc Hy Hx. destruct (clear_top_val s Hl Hs) as (Lc & Oc & Vc).
  pose proof (Z.mod_pos_bound (le_val s) (2 ^ 255) ltac:(lia)).
  assert (le_val (clear_top s) = py P) as Hv by (rewrite Hy, Vc; unfold decode_y; by rewrite (Z.mod_small (le_val s mod 2 ^ 255)) by lia).
  rewrite <- (le_bytes_val 32 (clear_top s) Oc Lc), Hv. apply x_zero in Hx as [-> | ->]; by_computation.
Qed.

Lemma valid_point_eq s : length s = 32%nat → bytes_ok s → ∃ b : bool,
  crypto_core_ed25519_is_valid_point s = Some (Z.b2z b) ∧
  (b = true ↔ ∃ P, s = encode P ∧ clear_top s ∉ ed_blacklist ∧ px (smul ed_order P) = 0).
Proof.
  intros Hl Hs. unfold crypto_core_ed25519_is_valid_point. rewrite is_canonical_eq by done. rewrite some_bind.
  assert (∀ P, s = encode P → le_val s mod 2 ^ 255 = py P) as Henc.
  { intros P E. destruct (encode_decode_y P) as [Hd _]. rewrite E, encode_le_val. unfold encode_val.
    pose proof (py_bound P). pose proof p25519_lt. rewrite (Z.mul_comm (2 ^ 255)), Z_mod_plus_full. apply Z.mod_small. lia. }
  destruct (Z.ltb_spec (le_val s mod 2 ^ 255) p25519) as [Hc|Hc]; cbn [Z.b2z].
  2: { exists false. split; [reflexivity|]. split; [done|]. intros (P & E & _). rewrite (Henc P E) in Hc. pose proof (py_bound P). lia. }
  change (1 =? 0) with false. cbv iota. rewrite ge_small_order_eq by done. rewrite some_bind.
  destruct (bool_decide_reflect (clear_top s ∈ ed_blacklist)) as [Hb|Hb].
  { exists false. split; [reflexivity|]. split; [done|]. by intros (P & _ & ? & _). }
  change (negb (0 =? 0)) with false. cbv iota.
  destruct (frombytes_eq s Hl Hs) as (r & h & -> & H). rewrite some_bind. destruct H as [(-> & P & Hh & Hy & Hp)|(-> & H)].
  2: { exists false. split; [reflexivity|]. split; [done|]. intros (P & E & _). destruct (H P). by rewrite E, (proj1 (encode_decode_y P)). }
  change (negb (0 =? 0)) with false. cbv iota. rewrite (on_curve_at h P Hh), some_bind. change (1 =? 0) with false. cbv iota.
  rewrite (subgroup_value h P Hh), some_bind.
  assert (s = encode P) as E.
  { apply canonical_encode; try done. destruct Hp as [H0|Hp]; [|exact Hp]. by destruct Hb; apply (x_zero_listed s P). }
  assert (∀ Q, s = encode Q → Q = P) as Hinj.
  { intros Q EQ. destruct (encode_decode_y Q) as [H1 H2]. destruct (encode_decode_y P) as [H3 H4].
    rewrite <- EQ in H1, H2. rewrite <- E in H3, H4. apply point_of_parity; [congruence|right; congruence]. }
  exists (px (smul ed_order P) =? 0). destruct (Z.eqb_spec (px (smul ed_order P)) 0) as [H0|H0].
  - split; [reflexivity|]. split; [intros _; by exists P|done].
  - split; [reflexivity|]. split; [done|]. intros (Q & EQ & _ & HQ). by rewrite (Hinj Q EQ) in HQ.
Qed.

(** ** Properties *)

(** C10: encodings carry the group.  Decoding the encoding of a point succeeds and gives
    coordinates of that point, encoding any coordinates of a point gives its encoding, and
    [crypto_core_ed25519_add] and [crypto_core_ed25519_sub] on encodings return 0 and the
    encodings of the sum and of the difference.  When either operand is 32 bytes that no point
    has the y of, both return -1 and leave the result. *)
Theorem encoded_group r p P Q s : length r = 32%nat → p3_at p P → length s = 32%nat → bytes_ok s →
  (∃ h, ge25519_frombytes (encode P) = Some (0, h) ∧ p3_at h P) ∧
  ge25519_p3_tobytes r p = Some (encode P) ∧
  crypto_core_ed25519_add r (encode P) (encode Q) = Some (0, encode (padd P Q)) ∧
  crypto_core_ed25519_sub r (encode P) (encode Q) = Some (0, encode (padd P (pneg Q))) ∧
  ((∀ R, py R ≠ decode_y s) →
     crypto_core_ed25519_add r s (encode Q) = Some (-1, r) ∧ crypto_core_ed25519_add r (encode P) s = Some (-1, r) ∧
     crypto_core_ed25519_sub r s (encode Q) = Some (-1, r) ∧ crypto_core_ed25519_sub r (encode P) s = Some (-1, r)).
Proof.
  intros Hr Hp Hl Hs. split; [apply frombytes_encode|]. split; [by apply p3_tobytes_at|].
  split; [by apply core_add_eq|]. split; [by apply core_sub_eq|]. intros Hn.
  destruct (load_point_eq s Hl Hs) as [(h & R & _ & _ & HR & _)|[H _]]; [by destruct (Hn R)|].
  unfold crypto_core_ed25519_add, crypto_core_ed25519_sub. destruct (load_point_encode P) as (k & -> & _).
  rewrite H, !some_bind. split_and!; by rewrite ?H, ?some_bind.
Qed.

(** No point has y = 2. *)
Lemma two_undecodable R : py R ≠ decode_y (le_bytes 32 2).
Proof.
  intros HR. assert (fst <$> ge25519_frombytes (le_bytes 32 2) = Some (-1)) as Hf by (by vm_compute).
  destruct (frombytes_eq (le_bytes 32 2) (le_bytes_length _ _) (le_bytes_ok _ _)) as (r & h & E & [(-> & _)|[_ H]]).
  - rewrite E in Hf. discriminate Hf.
  - exact (H R HR).
Qed.

Lemma encoded_group_witness :
  crypto_core_ed25519_add (replicate 32 0) (encode ed_B) (encode ed_B) = Some (0, encode (padd ed_B ed_B)) ∧
  crypto_core_ed25519_add (replicate 32 0) (le_bytes 32 2) (encode ed_B) = Some (-1, replicate 32 0) ∧
  crypto_core_ed25519_add (replicate 32 0) (encode ed_B) (le_bytes 32 2) = Some (-1, replicate 32 0) ∧
  crypto_core_ed25519_sub (replicate 32 0) (le_bytes 32 2) (encode ed_B) = Some (-1, replicate 32 0) ∧
  crypto_core_ed25519_sub (replicate 32 0) (encode ed_B) (le_bytes 32 2) = Some (-1, replicate 32 0).
Proof.
  destruct (encoded_group (replicate 32 0) B_p3 ed_B ed_B (le_bytes 32 2) eq_refl B_p3_at eq_refl (le_bytes_ok _ _))
    as (_ & _ & H1 & _ & H2).
  split; [exact H1|]. exact (H2 two_undecodable).
Defined.

(** C11: what [crypto_core_ed25519_is_valid_point] accepts.  On any 32 bytes it runs without
    undefined behaviour, and returns 1 exactly on the canonical encodings of points [P] that
    are not in its table of small orders and have [L P] equal to the neutral element or to
    the point (0, -1) of order two, for the order [L] of the base point.  So it also accepts
    points outside the subgroup: sums of a point of the subgroup and (0, -1). *)
Theorem valid_point_test s : length s = 32%nat → bytes_ok s →
  (∃ r, crypto_core_ed25519_is_valid_point s = Some r ∧
     (r = 1 ↔ ∃ P, s = encode P ∧ clear_top s ∉ ed_blacklist ∧
        (smul ed_order P = pzero ∨ smul ed_order P = ptwo))) ∧
  (∀ Q, smul ed_order Q = pzero → s = encode (padd Q ptwo) → clear_top s ∉ ed_blacklist →
     crypto_core_ed25519_is_valid_point s = Some 1 ∧ smul ed_order (padd Q ptwo) ≠ pzero).
Proof.
  intros Hl Hs. destruct (valid_point_eq s Hl Hs) as (b & -> & Hb). split.
  - exists (Z.b2z b). split; [done|]. setoid_rewrite <- x_zero. rewrite <- Hb. by destruct b.
  - intros Q HQ E Hn. assert (smul ed_order (padd Q ptwo) = ptwo) as HL.
    { by rewrite smul_padd, HQ, ptwo_order, padd_zero_l. }
    rewrite HL. split; [|exact ptwo_nonzero]. assert (b = true) as ->; [|done]. apply Hb. exists (padd Q ptwo).
    split; [done|]. split; [done|]. rewrite HL. by apply x_zero; right.
Qed.

Lemma valid_point_test_witness : let s := encode (padd ed_B ptwo) in
  crypto_core_ed25519_is_valid_point s = Some 1 ∧ smul ed_order (padd ed_B ptwo) ≠ pzero.
Proof.
  destruct (valid_point_test (encode (padd ed_B ptwo)) (encode_length _) (encode_ok _)) as [_ H].
  apply (H ed_B order_B eq_refl). by_computation.
Defined.
