(* ===== verification/Aead.v ===== *)
(** * ChaCha20-Poly1305 ([crypto_aead/chacha20poly1305/aead_chacha20poly1305.c] and
      [crypto_verify/verify.c] of libsodium)

    The IETF construction the daemon uses and the original one, each with its detached
    and its combined form.  Buffers are passed in and returned; [mac] of the combined
    form is the part of [c] after the ciphertext.  [seal_ietf] and [open_ietf] are the
    construction of RFC 8439, section 2.8, over the specifications of the stream and of
    the authenticator; the code is shown to compute them. *)

From S2P Require Import Prelude Packet Words Chacha20 Poly1305.
Local Open Scope c_scope.

(** ** [crypto_verify_16] *)

(** The portable comparison; [d] is a 64-bit [uint_fast16_t]. *)
Definition crypto_verify_n (x y : bytes) (n : Z) : option Z :=
  d ← for_range (Z.to_nat n)
        (λ i d, a ← x.[Z.of_nat i]; b ← y.[Z.of_nat i]; Some (d |' (a ^' b))) 0;
  Some ((1 &' (u64 (d - 1) ≫ 8)) - 1).

(** The SSE2 comparison: a vector is its sixteen bytes. *)
Definition mm_loadu (p : bytes) (i : Z) : option bytes := slice p (16 * i) 16.
Definition mm_cmpeq_epi32_zero (z : bytes) : bytes :=
  words 4 4 z ≫= λ w, replicate 4 (if w =? 0 then 0xFF else 0).
Definition mm_movemask_epi8 (z : bytes) : Z :=
  foldr (λ b acc, (b ≫ 7) + 2 * acc) 0 z.

Definition crypto_verify_n_sse2 (x y : bytes) (n : Z) : option Z :=
  v1 ← mm_loadu x 0; v2 ← mm_loadu y 0;
  z ← for_range (Z.to_nat (n / 16 - 1)) (λ i z,
        v1 ← mm_loadu x (Z.of_nat i + 1); v2 ← mm_loadu y (Z.of_nat i + 1);
        Some (zip_with Z.lor z (zip_with Z.lxor v1 v2))) (zip_with Z.lxor v1 v2);
  let m := mm_movemask_epi8 (mm_cmpeq_epi32_zero z) in
  Some ((u32 (m + 1) ≫ 16) - 1).

Definition crypto_verify_16 (x y : bytes) : option Z := crypto_verify_n x y 16.
Definition crypto_verify_32 (x y : bytes) : option Z := crypto_verify_n x y 32.
Definition crypto_verify_64 (x y : bytes) : option Z := crypto_verify_n x y 64.

Definition crypto_onetimeauth_poly1305_donna_verify (h inp : bytes) (inlen : Z) (k : bytes) : option Z :=
  '(_, correct) ← crypto_onetimeauth_poly1305_donna (replicate 16 0) inp inlen k;
  crypto_verify_16 h correct.

(** ** The IETF construction *)

Definition pad0 : bytes := replicate 16 0.

Definition crypto_aead_chacha20poly1305_ietf_ABYTES : Z := 16.
Definition crypto_aead_chacha20poly1305_ietf_MESSAGEBYTES_MAX : Z :=
  Z.min (2 ^ 64 - 1 - crypto_aead_chacha20poly1305_ietf_ABYTES) (64 * (2 ^ 32 - 1)).

(** The code, [c], [mac] and [*maclen_p]. *)
Definition ietf_encrypt_detached (c mac : bytes) (m : bytes) (mlen : Z) (ad : bytes) (adlen : Z)
    (npub k : bytes) : option (Z * bytes * bytes * Z) :=
  '(_, block0) ← crypto_stream_chacha20_ietf (replicate 64 0) 64 npub k;
  state ← poly1305_init uninit block0;
  state ← poly1305_update state ad adlen;
  state ← poly1305_update state pad0 (u64 (0x10 - adlen) &' 0xf);
  '(_, c) ← crypto_stream_chacha20_ietf_xor_ic c m mlen npub 1 k;
  state ← poly1305_update state c mlen;
  state ← poly1305_update state pad0 (u64 (0x10 - mlen) &' 0xf);
  slen ← store64_le (replicate 8 0) 0 (u64 adlen);
  state ← poly1305_update state slen 8;
  slen ← store64_le slen 0 (u64 mlen);
  state ← poly1305_update state slen 8;
  mac ← poly1305_finish state mac;
  Some (0, c, mac, crypto_aead_chacha20poly1305_ietf_ABYTES).

(** The code, [c] and [*clen_p]. *)
Definition crypto_aead_chacha20poly1305_ietf_encrypt (c m : bytes) (mlen : Z) (ad : bytes) (adlen : Z)
    (npub k : bytes) : option (Z * bytes * Z) :=
  if mlen >? crypto_aead_chacha20poly1305_ietf_MESSAGEBYTES_MAX then misuse
  else
    cbuf ← slice c 0 mlen; mac ← slice c mlen crypto_aead_chacha20poly1305_ietf_ABYTES;
    '(ret, cbuf, mac, _) ← ietf_encrypt_detached cbuf mac m mlen ad adlen npub k;
    c ← blit c 0 cbuf; c ← blit c mlen mac;
    let clen := if ret =? 0 then u64 (mlen + crypto_aead_chacha20poly1305_ietf_ABYTES) else 0 in
    Some (ret, c, clen).

(** The code and [m]; a null [m] only verifies. *)
Definition ietf_decrypt_detached (m : option bytes) (c : bytes) (clen : Z) (mac ad : bytes) (adlen : Z)
    (npub k : bytes) : option (Z * option bytes) :=
  '(_, block0) ← crypto_stream_chacha20_ietf (replicate 64 0) 64 npub k;
  state ← poly1305_init uninit block0;
  state ← poly1305_update state ad adlen;
  state ← poly1305_update state pad0 (u64 (0x10 - adlen) &' 0xf);
  let mlen := clen in
  state ← poly1305_update state c mlen;
  state ← poly1305_update state pad0 (u64 (0x10 - mlen) &' 0xf);
  slen ← store64_le (replicate 8 0) 0 (u64 adlen);
  state ← poly1305_update state slen 8;
  slen ← store64_le slen 0 (u64 mlen);
  state ← poly1305_update state slen 8;
  computed_mac ← poly1305_finish state (replicate 16 0);
  ret ← crypto_verify_16 computed_mac mac;
  match m with
  | NULL => Some (ret, NULL)
  | Some m =>
      if negb (ret =? 0) then m ← fill m 0 0 mlen; Some (-1, Some m)
      else '(_, m) ← crypto_stream_chacha20_ietf_xor_ic m c mlen npub 1 k; Some (0, Some m)
  end.

(** The code, [m] and [*mlen_p]. *)
Definition crypto_aead_chacha20poly1305_ietf_decrypt (m : option bytes) (c : bytes) (clen : Z)
    (ad : bytes) (adlen : Z) (npub k : bytes) : option (Z * option bytes * Z) :=
  '(ret, m) ←
    (if clen >=? crypto_aead_chacha20poly1305_ietf_ABYTES then
       cbuf ← slice c 0 (clen - crypto_aead_chacha20poly1305_ietf_ABYTES);
       mac ← slice c (clen - crypto_aead_chacha20poly1305_ietf_ABYTES) crypto_aead_chacha20poly1305_ietf_ABYTES;
       ietf_decrypt_detached m cbuf (clen - crypto_aead_chacha20poly1305_ietf_ABYTES) mac ad adlen npub k
     else Some (-1, m));
  let mlen := if ret =? 0 then clen - crypto_aead_chacha20poly1305_ietf_ABYTES else 0 in
  Some (ret, m, mlen).

(** ** The original construction: 64-bit nonce, no padding *)

Definition crypto_aead_chacha20poly1305_ABYTES : Z := 16.
Definition crypto_aead_chacha20poly1305_MESSAGEBYTES_MAX : Z :=
  2 ^ 64 - 1 - crypto_aead_chacha20poly1305_ABYTES.

Definition crypto_aead_chacha20poly1305_encrypt_detached (c mac : bytes) (m : bytes) (mlen : Z)
    (ad : bytes) (adlen : Z) (npub k : bytes) : option (Z * bytes * bytes * Z) :=
  '(_, block0) ← crypto_stream_chacha20 (replicate 64 0) 64 npub k;
  state ← poly1305_init uninit block0;
  state ← poly1305_update state ad adlen;
  slen ← store64_le (replicate 8 0) 0 (u64 adlen);
  state ← poly1305_update state slen 8;
  '(_, c) ← crypto_stream_chacha20_xor_ic c m mlen npub 1 k;
  state ← poly1305_update state c mlen;
  slen ← store64_le slen 0 (u64 mlen);
  state ← poly1305_update state slen 8;
  mac ← poly1305_finish state mac;
  Some (0, c, mac, crypto_aead_chacha20poly1305_ABYTES).

Definition crypto_aead_chacha20poly1305_encrypt (c m : bytes) (mlen : Z) (ad : bytes) (adlen : Z)
    (npub k : bytes) : option (Z * bytes * Z) :=
  if mlen >? crypto_aead_chacha20poly1305_MESSAGEBYTES_MAX then misuse
  else
    cbuf ← slice c 0 mlen; mac ← slice c mlen crypto_aead_chacha20poly1305_ABYTES;
    '(ret, cbuf, mac, _) ←
      crypto_aead_chacha20poly1305_encrypt_detached cbuf mac m mlen ad adlen npub k;
    c ← blit c 0 cbuf; c ← blit c mlen mac;
    let clen := if ret =? 0 then u64 (mlen + crypto_aead_chacha20poly1305_ABYTES) else 0 in
    Some (ret, c, clen).

Definition crypto_aead_chacha20poly1305_decrypt_detached (m : option bytes) (c : bytes) (clen : Z)
    (mac ad : bytes) (adlen : Z) (npub k : bytes) : option (Z * option bytes) :=
  '(_, block0) ← crypto_stream_chacha20 (replicate 64 0) 64 npub k;
  state ← poly1305_init uninit block0;
  state ← poly1305_update state ad adlen;
  slen ← store64_le (replicate 8 0) 0 (u64 adlen);
  state ← poly1305_update state slen 8;
  let mlen := clen in
  state ← poly1305_update state c mlen;
  slen ← store64_le slen 0 (u64 mlen);
  state ← poly1305_update state slen 8;
  computed_mac ← poly1305_finish state (replicate 16 0);
  ret ← crypto_verify_16 computed_mac mac;
  match m with
  | NULL => Some (ret, NULL)
  | Some m =>
      if negb (ret =? 0) then m ← fill m 0 0 mlen; Some (-1, Some m)
      else '(_, m) ← crypto_stream_chacha20_xor_ic m c mlen npub 1 k; Some (0, Some m)
  end.

Definition crypto_aead_chacha20poly1305_decrypt (m : option bytes) (c : bytes) (clen : Z)
    (ad : bytes) (adlen : Z) (npub k : bytes) : option (Z * option bytes * Z) :=
  '(ret, m) ←
    (if clen >=? crypto_aead_chacha20poly1305_ABYTES then
       cbuf ← slice c 0 (clen - crypto_aead_chacha20poly1305_ABYTES);
       mac ← slice c (clen - crypto_aead_chacha20poly1305_ABYTES) crypto_aead_chacha20poly1305_ABYTES;
       crypto_aead_chacha20poly1305_decrypt_detached m cbuf (clen - crypto_aead_chacha20poly1305_ABYTES) mac
         ad adlen npub k
     else Some (-1, m));
  let mlen := if ret =? 0 then clen - crypto_aead_chacha20poly1305_ABYTES else 0 in
  Some (ret, m, mlen).

(** ** RFC 8439, section 2.8 *)

Definition pad16 (b : bytes) : bytes := replicate ((16 - length b mod 16) mod 16)%nat 0.
Definition len64 (b : bytes) : bytes := le64_bytes (Z.of_nat (length b)).

Definition auth_ietf (ad c : bytes) : bytes := ad ++ pad16 ad ++ c ++ pad16 c ++ len64 ad ++ len64 c.
Definition auth_djb (ad c : bytes) : bytes := ad ++ len64 ad ++ c ++ len64 c.

Definition one_time_key (j : list Z) : bytes := take 32 (chacha_block j).

(** The ciphertext and the tag. *)
Definition seal_ietf (k n ad m : bytes) : bytes * bytes :=
  let c := xor_stream (ietf_ctx k n 1) m in
  (c, poly1305_mac (one_time_key (ietf_ctx k n 0)) (auth_ietf ad c)).
Definition open_ietf (k n ad c tag : bytes) : option bytes :=
  if bool_decide (tag = poly1305_mac (one_time_key (ietf_ctx k n 0)) (auth_ietf ad c))
  then Some (xor_stream (ietf_ctx k n 1) c) else None.

Definition seal_djb (k n ad m : bytes) : bytes * bytes :=
  let c := xor_stream (djb_ctx k n 1) m in
  (c, poly1305_mac (one_time_key (djb_ctx k n 0)) (auth_djb ad c)).
Definition open_djb (k n ad c tag : bytes) : option bytes :=
  if bool_decide (tag = poly1305_mac (one_time_key (djb_ctx k n 0)) (auth_djb ad c))
  then Some (xor_stream (djb_ctx k n 1) c) else None.

(** RFC 8439, 2.8.2. *)
Definition rfc_text : bytes :=
  [0x4c; 0x61; 0x64; 0x69; 0x65; 0x73; 0x20; 0x61; 0x6e; 0x64; 0x20; 0x47; 0x65; 0x6e; 0x74; 0x6c;
   0x65; 0x6d; 0x65; 0x6e; 0x20; 0x6f; 0x66; 0x20; 0x74; 0x68; 0x65; 0x20; 0x63; 0x6c; 0x61; 0x73;
   0x73; 0x20; 0x6f; 0x66; 0x20; 0x27; 0x39; 0x39; 0x3a; 0x20; 0x49; 0x66; 0x20; 0x49; 0x20; 0x63;
   0x6f; 0x75; 0x6c; 0x64; 0x20; 0x6f; 0x66; 0x66; 0x65; 0x72; 0x20; 0x79; 0x6f; 0x75; 0x20; 0x6f;
   0x6e; 0x6c; 0x79; 0x20; 0x6f; 0x6e; 0x65; 0x20; 0x74; 0x69; 0x70; 0x20; 0x66; 0x6f; 0x72; 0x20;
   0x74; 0x68; 0x65; 0x20; 0x66; 0x75; 0x74; 0x75; 0x72; 0x65; 0x2c; 0x20; 0x73; 0x75; 0x6e; 0x73;
   0x63; 0x72; 0x65; 0x65; 0x6e; 0x20; 0x77; 0x6f; 0x75; 0x6c; 0x64; 0x20; 0x62; 0x65; 0x20; 0x69;
   0x74; 0x2e].
Definition rfc_k : bytes := seqZ 0x80 32.
Definition rfc_n : bytes := [7; 0; 0; 0; 0x40; 0x41; 0x42; 0x43; 0x44; 0x45; 0x46; 0x47].
Definition rfc_ad : bytes := [0x50; 0x51; 0x52; 0x53; 0xc0; 0xc1; 0xc2; 0xc3; 0xc4; 0xc5; 0xc6; 0xc7].

Example seal_rfc :
  (seal_ietf rfc_k rfc_n rfc_ad rfc_text).2 =
    [0x1a; 0xe1; 0x0b; 0x59; 0x4f; 0x09; 0xe2; 0x6a; 0x7e; 0x90; 0x2e; 0xcb; 0xd0; 0x60; 0x06; 0x91] ∧
  take 16 (seal_ietf rfc_k rfc_n rfc_ad rfc_text).1 =
    [0xd3; 0x1a; 0x8d; 0x34; 0x64; 0x8e; 0x60; 0xdb; 0x7b; 0x86; 0xaf; 0xbc; 0x53; 0xef; 0x7e; 0xc2].
Proof. vm_compute. split; reflexivity. Qed.

(** ** Comparison *)

Lemma verify_n_spec x y n : bytes_ok x → bytes_ok y → 0 <= n → n <= Z.of_nat (length x) → n <= Z.of_nat (length y) →
  crypto_verify_n x y n =
    Some (if bool_decide (take (Z.to_nat n) x = take (Z.to_nat n) y) then 0 else -1).
Proof.
  intros Hx Hy Hn Hlx Hly. unfold crypto_verify_n.
  destruct (for_range_inv (λ n d, is_u8 d ∧ (d = 0 ↔ take n x = take n y)) (Z.to_nat n)
    (λ i d, a ← x.[Z.of_nat i]; b ← y.[Z.of_nat i]; Some (d |' (a ^' b))) 0) as (d & -> & Hd & Heq).
  - split; [done|]. by rewrite !take_0.
  - intros j d Hj [Hd Heq].
    destruct (lookup_lt_is_Some_2 x j) as [a Ha]; [lia|]. destruct (lookup_lt_is_Some_2 y j) as [b Hb]; [lia|].
    rewrite !rd_nat, Ha, Hb. bind_simpl. eexists. split; [done|]. split.
    + apply lor_uint; [lia|done|]. apply lxor_uint; [lia|by apply (Forall_lookup_1 _ _ _ _ Hx Ha)|by apply (Forall_lookup_1 _ _ _ _ Hy Hb)].
    + rewrite Z.lor_eq_0_iff, Z.lxor_eq_0_iff, Heq, (take_S_r x j a), (take_S_r y j b) by done. split.
      * by intros [-> ->].
      * intros [-> E]%app_inj_2; [|done]. split; [done|]. congruence.
  - bind_simpl. f_equal. unfold is_uint in Hd. case_bool_decide as E; [rewrite (proj2 Heq E); vm_compute; reflexivity|].
    assert (d ≠ 0) by tauto. rewrite u64_small by (unfold is_uint; lia).
    by rewrite Z.shiftr_div_pow2, Z.div_small by lia.
Qed.

Lemma verify_16_eq x y : bytes_ok x → bytes_ok y → length x = 16%nat → length y = 16%nat →
  crypto_verify_16 x y = Some (if bool_decide (x = y) then 0 else -1).
Proof.
  intros Hx Hy Hlx Hly. unfold crypto_verify_16. rewrite verify_n_spec by (done || lia).
  by rewrite !take_ge by (rewrite ?Hlx, ?Hly; cbn; lia).
Qed.

(** ** Padding and lengths *)

Lemma pad_amount (l : bytes) : Z.of_nat (length l) < 2 ^ 64 →
  u64 (0x10 - Z.of_nat (length l)) &' 0xf = Z.of_nat (length (pad16 l)).
Proof.
  intros Hl. unfold pad16. rewrite length_replicate. change 0xf with (Z.ones 4). rewrite Z.land_ones by lia.
  rewrite u64_mod by lia. rewrite Nat2Z.inj_mod, Nat2Z.inj_sub, Nat2Z.inj_mod
    by (pose proof (Nat.mod_upper_bound (length l) 16); lia).
  change (Z.of_nat 16) with (2 ^ 4). rewrite <- (Zminus_mod_idemp_r 0x10). f_equal.
Qed.

Lemma pad16_length b : (length (pad16 b) < 16)%nat.
Proof. unfold pad16. rewrite length_replicate. by apply Nat.mod_upper_bound. Qed.

Lemma pad16_take b : take (length (pad16 b)) pad0 = pad16 b.
Proof.
  pose proof (pad16_length b). unfold pad0. rewrite take_replicate, Nat.min_l by lia.
  unfold pad16. by rewrite length_replicate.
Qed.

Lemma store_len buf v : length buf = 8%nat → store64_le buf 0 v = Some (le64_bytes v).
Proof.
  intros Hl. rewrite store64_le_eq. pose proof (le64_write_mid [] buf [] 0 v eq_refl Hl) as E.
  by rewrite !app_nil_r in E.
Qed.

Lemma poly1305_mac_take k m : poly1305_mac (take 32 k) m = poly1305_mac k m.
Proof.
  unfold poly1305_mac. rewrite take_take, skipn_firstn_comm, take_take. done.
Qed.

(** One update: the state goes on holding what it has been given. *)
Ltac absorb_step :=
  match goal with
  | H : holds ?key ?msg ?st |- context [poly1305_update ?st ?m ?n] =>
      let st' := fresh "st" in let E := fresh "E" in let H' := fresh "Hst" in
      destruct (update_prefix_holds key msg st m n H) as (st' & E & H');
      [try done; try apply le64_bytes_ok; try (by apply Forall_replicate)
      |first [lia|change (length pad0) with 16%nat; lia|by cbn]|lia|rewrite E; clear H E; bind_simpl]
  end.

Lemma xor_zeros j : ctx_ok j → xor_stream j (replicate 64 0) = chacha_block j.
Proof.
  intros Hj. unfold xor_stream. rewrite length_replicate. change (nblocks 64) with 1%nat. cbn [keystream].
  rewrite app_nil_r. destruct (rounds_ok j Hj) as [_ Hr].
  pose proof (chacha_block_length j (proj1 Hj) (proj1 Hr)) as Hl. revert Hl. generalize (chacha_block j). clear.
  generalize 64%nat. intros n b. revert n. induction b as [|x b IH]; intros [|n] Hl; try done.
  cbn. rewrite Z.lxor_0_l. f_equal. apply IH. by injection Hl.
Qed.

Lemma block0_ietf k n : length k = 32%nat → bytes_ok k → length n = 12%nat → bytes_ok n →
  crypto_stream_chacha20_ietf (replicate 64 0) 64 n k = Some (0, chacha_block (ietf_ctx k n 0)).
Proof.
  intros. unfold crypto_stream_chacha20_ietf, crypto_stream_chacha20_ietf_ext.
  change (64 >? _) with false. change (64 >? _) with false. cbn [orb].
  pose proof (stream_ietf_eq k n (replicate 64 0) 64) as E. change (Z.of_nat 64) with 64 in E. rewrite E by done.
  rewrite drop_ge, app_nil_r, xor_zeros; [done|by apply ietf_ctx_ok|done].
Qed.

Lemma block0_djb k n : length k = 32%nat → bytes_ok k → length n = 8%nat → bytes_ok n →
  crypto_stream_chacha20 (replicate 64 0) 64 n k = Some (0, chacha_block (djb_ctx k n 0)).
Proof.
  intros. unfold crypto_stream_chacha20. change (64 >? _) with false.
  pose proof (stream_djb_eq k n (replicate 64 0) 64) as E. change (Z.of_nat 64) with 64 in E. rewrite E by done.
  rewrite drop_ge, app_nil_r, xor_zeros; [done|by apply djb_ctx_ok|done].
Qed.

Lemma block_ok j : ctx_ok j → bytes_ok (chacha_block j) ∧ (32 <= length (chacha_block j))%nat.
Proof.
  intros Hj. destruct (rounds_ok j Hj) as [_ Hr]. split; [apply bind_le32_ok|].
  rewrite (chacha_block_length j (proj1 Hj) (proj1 Hr)). lia.
Qed.

(** ** The code computes the construction *)

(** The messages the IETF cipher takes: 2^38 - 64 bytes (2^32 - 1 blocks). *)
Definition fits (b : bytes) : Prop := Z.of_nat (length b) <= 64 * (2 ^ 32 - 1).

Lemma fits_blocks m : fits m → Z.of_nat (nblocks (length m)) + 1 <= 2 ^ 32.
Proof. unfold fits, nblocks. intros H. rewrite Nat2Z.inj_div, Nat2Z.inj_add. div_lia. Qed.

(** The updates of the IETF construction give the tag of its authenticated data. *)
Lemma auth_ietf_chain {B} key st ad c mac (f : bytes → option B) :
  holds key [] st → bytes_ok ad → Z.of_nat (length ad) < 2 ^ 64 → bytes_ok c → Z.of_nat (length c) < 2 ^ 64 →
  length mac = 16%nat →
  (st ← poly1305_update st ad (Z.of_nat (length ad));
   st ← poly1305_update st pad0 (u64 (0x10 - Z.of_nat (length ad)) &' 0xf);
   st ← poly1305_update st c (Z.of_nat (length c));
   st ← poly1305_update st pad0 (u64 (0x10 - Z.of_nat (length c)) &' 0xf);
   slen ← store64_le (replicate 8 0) 0 (u64 (Z.of_nat (length ad)));
   st ← poly1305_update st slen 8;
   slen ← store64_le slen 0 (u64 (Z.of_nat (length c)));
   st ← poly1305_update st slen 8;
   mac ← poly1305_finish st mac; f mac) = f (poly1305_mac key (auth_ietf ad c)).
Proof.
  intros Hst Had Hadl Hc Hcl Hmac. rewrite !pad_amount by done. pose proof (pad16_length ad). pose proof (pad16_length c).
  rewrite (u64_small (Z.of_nat (length ad))), (u64_small (Z.of_nat (length c))) by (unfold is_uint; lia).
  do 4 absorb_step. rewrite store_len by done. bind_simpl. absorb_step. rewrite store_len by done. bind_simpl.
  absorb_step. erewrite finish_holds by (done || lia). bind_simpl. rewrite drop_ge, app_nil_r by lia.
  rewrite !Nat2Z.id, !pad16_take, !take_ge by (done || cbn; lia). f_equal. unfold auth_ietf.
  by rewrite <- !app_assoc.
Qed.

Lemma auth_djb_chain {B} key st ad c mac (f : bytes → option B) :
  holds key [] st → bytes_ok ad → Z.of_nat (length ad) < 2 ^ 64 → bytes_ok c → Z.of_nat (length c) < 2 ^ 64 →
  length mac = 16%nat →
  (st ← poly1305_update st ad (Z.of_nat (length ad));
   slen ← store64_le (replicate 8 0) 0 (u64 (Z.of_nat (length ad)));
   st ← poly1305_update st slen 8;
   st ← poly1305_update st c (Z.of_nat (length c));
   slen ← store64_le slen 0 (u64 (Z.of_nat (length c)));
   st ← poly1305_update st slen 8;
   mac ← poly1305_finish st mac; f mac) = f (poly1305_mac key (auth_djb ad c)).
Proof.
  intros Hst Had Hadl Hc Hcl Hmac.
  rewrite (u64_small (Z.of_nat (length ad))), (u64_small (Z.of_nat (length c))) by (unfold is_uint; lia).
  absorb_step. rewrite store_len by done. bind_simpl. do 2 absorb_step. rewrite store_len by done. bind_simpl.
  absorb_step. erewrite finish_holds by (done || lia). bind_simpl. rewrite drop_ge, app_nil_r by lia.
  rewrite !Nat2Z.id, !take_ge by (done || cbn; lia). f_equal. unfold auth_djb.
  by rewrite <- !app_assoc.
Qed.

Section ietf.
Variables (k n ad : bytes).
Hypothesis (Hkl : length k = 32%nat).
Hypothesis (Hk : bytes_ok k).
Hypothesis (Hnl : length n = 12%nat).
Hypothesis (Hn : bytes_ok n).
Hypothesis (Had : bytes_ok ad).
Hypothesis (Hadl : Z.of_nat (length ad) < 2 ^ 64).

Lemma xor_ic1_eq c m : bytes_ok m → fits m → (length m <= length c)%nat →
  crypto_stream_chacha20_ietf_xor_ic c m (Z.of_nat (length m)) n 1 k =
    Some (0, xor_stream (ietf_ctx k n 1) m ++ drop (length m) c).
Proof. intros Hm Hf Hc. apply ietf_xor_ic_eq; try done. pose proof (fits_blocks m Hf). lia. Qed.

Lemma ietf_encrypt_detached_eq c mac m : bytes_ok m → fits m → length c = length m → length mac = 16%nat →
  ietf_encrypt_detached c mac m (Z.of_nat (length m)) ad (Z.of_nat (length ad)) n k =
    Some (0, (seal_ietf k n ad m).1, (seal_ietf k n ad m).2, 16).
Proof.
  intros Hm Hf Hc Hmac. unfold ietf_encrypt_detached. rewrite block0_ietf by done. rewrite some_bind.
  assert (ctx_ok (ietf_ctx k n 0)) as Hctx by (by apply ietf_ctx_ok).
  destruct (block_ok _ Hctx) as [Hb Hbl].
  destruct (init_holds _ uninit Hbl Hb) as (st & -> & Hst); [done|by apply Forall_replicate|]. rewrite some_bind.
  rewrite xor_ic1_eq by (done || lia). rewrite <- Hc, drop_all, app_nil_r.
  bind_simpl. unfold fits in Hf.
  assert (length (xor_stream (ietf_ctx k n 1) m) = length c) as <-
    by (rewrite xor_stream_length; [done|by apply ietf_ctx_ok]).
  rewrite (auth_ietf_chain (chacha_block (ietf_ctx k n 0))) by (done || (by apply xor_stream_ok) || rewrite ?xor_stream_length by (by apply ietf_ctx_ok); lia).
  unfold seal_ietf, one_time_key. cbv zeta. cbn [fst snd]. by rewrite poly1305_mac_take.
Qed.

Lemma ietf_decrypt_detached_eq m c tag : bytes_ok c → fits c → bytes_ok tag → length tag = 16%nat →
  (length c <= length m)%nat →
  ietf_decrypt_detached (Some m) c (Z.of_nat (length c)) tag ad (Z.of_nat (length ad)) n k =
    Some (match open_ietf k n ad c tag with
          | Some p => (0, Some (p ++ drop (length c) m))
          | None => (-1, Some (replicate (length c) 0 ++ drop (length c) m))
          end).
Proof.
  intros Hc Hf Ht Htl Hm. unfold ietf_decrypt_detached. rewrite block0_ietf by done. rewrite some_bind.
  assert (ctx_ok (ietf_ctx k n 0)) as Hctx by (by apply ietf_ctx_ok).
  destruct (block_ok _ Hctx) as [Hb Hbl].
  destruct (init_holds _ uninit Hbl Hb) as (st & -> & Hst); [done|by apply Forall_replicate|]. rewrite some_bind.
  unfold fits in Hf. rewrite (auth_ietf_chain (chacha_block (ietf_ctx k n 0))) by (done || lia).
  rewrite verify_16_eq by (done || apply poly1305_mac_ok). bind_simpl.
  unfold open_ietf, one_time_key. rewrite poly1305_mac_take.
  repeat case_bool_decide; try congruence; cbn [Z.eqb negb].
  - by rewrite xor_ic1_eq.
  - change (negb (-1 =? 0)) with true. rewrite fill_0 by lia. bind_simpl. by rewrite Nat2Z.id.
Qed.
End ietf.

Section djb.
Variables (k n ad : bytes).
Hypothesis (Hkl : length k = 32%nat).
Hypothesis (Hk : bytes_ok k).
Hypothesis (Hnl : length n = 8%nat).
Hypothesis (Hn : bytes_ok n).
Hypothesis (Had : bytes_ok ad).
Hypothesis (Hadl : Z.of_nat (length ad) < 2 ^ 64).

Lemma djb_ic1_eq c m : bytes_ok m → Z.of_nat (length m) < 2 ^ 64 → (length m <= length c)%nat →
  crypto_stream_chacha20_xor_ic c m (Z.of_nat (length m)) n 1 k =
    Some (0, xor_stream (djb_ctx k n 1) m ++ drop (length m) c).
Proof.
  intros Hm Hf Hc. unfold crypto_stream_chacha20_xor_ic, crypto_stream_chacha20_MESSAGEBYTES_MAX.
  replace (_ >? _) with false by lia. by apply stream_djb_xor_eq.
Qed.

Lemma djb_encrypt_detached_eq c mac m : bytes_ok m → Z.of_nat (length m) < 2 ^ 64 → length c = length m →
  length mac = 16%nat →
  crypto_aead_chacha20poly1305_encrypt_detached c mac m (Z.of_nat (length m)) ad (Z.of_nat (length ad)) n k =
    Some (0, (seal_djb k n ad m).1, (seal_djb k n ad m).2, 16).
Proof.
  intros Hm Hf Hc Hmac. unfold crypto_aead_chacha20poly1305_encrypt_detached.
  rewrite block0_djb by done. rewrite some_bind.
  assert (ctx_ok (djb_ctx k n 0)) as Hctx by (by apply djb_ctx_ok).
  destruct (block_ok _ Hctx) as [Hb Hbl].
  destruct (init_holds _ uninit Hbl Hb) as (st & -> & Hst); [done|by apply Forall_replicate|]. rewrite some_bind.
  rewrite djb_ic1_eq by (done || lia). rewrite <- Hc, drop_all, app_nil_r. bind_simpl.
  assert (length (xor_stream (djb_ctx k n 1) m) = length c) as <-
    by (rewrite xor_stream_length; [done|by apply djb_ctx_ok]).
  rewrite (auth_djb_chain (chacha_block (djb_ctx k n 0))) by (done || (by apply xor_stream_ok) || rewrite ?xor_stream_length by (by apply djb_ctx_ok); lia).
  unfold seal_djb, one_time_key. cbv zeta. cbn [fst snd]. by rewrite poly1305_mac_take.
Qed.

Lemma djb_decrypt_detached_eq m c tag : bytes_ok c → Z.of_nat (length c) < 2 ^ 64 → bytes_ok tag →
  length tag = 16%nat → (length c <= length m)%nat →
  crypto_aead_chacha20poly1305_decrypt_detached (Some m) c (Z.of_nat (length c)) tag ad (Z.of_nat (length ad)) n k =
    Some (match open_djb k n ad c tag with
          | Some p => (0, Some (p ++ drop (length c) m))
          | None => (-1, Some (replicate (length c) 0 ++ drop (length c) m))
          end).
Proof.
  intros Hc Hf Ht Htl Hm. unfold crypto_aead_chacha20poly1305_decrypt_detached. rewrite block0_djb by done. rewrite some_bind.
  assert (ctx_ok (djb_ctx k n 0)) as Hctx by (by apply djb_ctx_ok).
  destruct (block_ok _ Hctx) as [Hb Hbl].
  destruct (init_holds _ uninit Hbl Hb) as (st & -> & Hst); [done|by apply Forall_replicate|]. rewrite some_bind.
  rewrite (auth_djb_chain (chacha_block (djb_ctx k n 0))) by (done || lia).
  rewrite verify_16_eq by (done || apply poly1305_mac_ok). bind_simpl.
  unfold open_djb, one_time_key. rewrite poly1305_mac_take.
  repeat case_bool_decide; try congruence; cbn [Z.eqb negb].
  - by rewrite djb_ic1_eq.
  - change (negb (-1 =? 0)) with true. rewrite fill_0 by lia. bind_simpl. by rewrite Nat2Z.id.
Qed.
End djb.

(** ** The combined forms *)

Lemma seal_ietf_lengths k n ad m : length k = 32%nat → bytes_ok k → length n = 12%nat → bytes_ok n → bytes_ok m →
  length (seal_ietf k n ad m).1 = length m ∧ bytes_ok (seal_ietf k n ad m).1 ∧
  length (seal_ietf k n ad m).2 = 16%nat ∧ bytes_ok (seal_ietf k n ad m).2.
Proof.
  intros. unfold seal_ietf. cbv zeta. cbn [fst snd]. split_and!.
  - by apply xor_stream_length, ietf_ctx_ok.
  - by apply xor_stream_ok.
  - apply poly1305_mac_length.
  - apply poly1305_mac_ok.
Qed.

Lemma open_seal_ietf k n ad m : length k = 32%nat → bytes_ok k → length n = 12%nat → bytes_ok n →
  open_ietf k n ad (seal_ietf k n ad m).1 (seal_ietf k n ad m).2 = Some m.
Proof.
  intros. unfold open_ietf, seal_ietf. cbv zeta. cbn [fst snd]. rewrite bool_decide_true by reflexivity.
  by rewrite xor_stream_involutive by (by apply ietf_ctx_ok).
Qed.

Section combined.
Variables (k n ad : bytes).
Hypothesis (Hkl : length k = 32%nat).
Hypothesis (Hk : bytes_ok k).
Hypothesis (Hnl : length n = 12%nat).
Hypothesis (Hn : bytes_ok n).
Hypothesis (Had : bytes_ok ad).
Hypothesis (Hadl : Z.of_nat (length ad) < 2 ^ 64).

Lemma ietf_encrypt_eq c m : bytes_ok m → fits m → length c = (length m + 16)%nat →
  crypto_aead_chacha20poly1305_ietf_encrypt c m (Z.of_nat (length m)) ad (Z.of_nat (length ad)) n k =
    Some (0, (seal_ietf k n ad m).1 ++ (seal_ietf k n ad m).2, Z.of_nat (length m) + 16).
Proof.
  intros Hm Hf Hc. unfold crypto_aead_chacha20poly1305_ietf_encrypt.
  unfold crypto_aead_chacha20poly1305_ietf_MESSAGEBYTES_MAX, crypto_aead_chacha20poly1305_ietf_ABYTES.
  unfold fits in Hf. replace (_ >? _) with false by lia.
  destruct (seal_ietf_lengths k n ad m Hkl Hk Hnl Hn Hm) as (Hcl & Hco & Htl & Hto).
  destruct (buf_split c 0 (Z.of_nat (length m))) as (pre & mid & post & -> & Hpre & Hmid); [lia..|].
  destruct pre; [|simpl in Hpre; lia]. cbn [app] in *. rewrite length_app in Hc.
  rewrite (slice_app_0 mid post 0 (Z.of_nat (length m))) by lia. rewrite some_bind. rewrite slice_app_r by lia.
  replace (_ - _) with 0 by lia. rewrite slice_all by lia. rewrite some_bind.
  rewrite (ietf_encrypt_detached_eq k n ad) by (done || lia). rewrite some_bind. cbv beta iota.
  rewrite blit_0 by lia. rewrite some_bind.
  rewrite blit_app_r by lia. rewrite Hcl, Z.sub_diag. rewrite <- (app_nil_r post), blit_0 by lia.
  rewrite app_nil_r. cbn [fmap option_fmap option_map]. rewrite some_bind.
  rewrite Z.eqb_refl, u64_small by (unfold is_uint; lia). reflexivity.
Qed.

Lemma ietf_decrypt_eq mbuf c tag : bytes_ok c → fits c → bytes_ok tag → length tag = 16%nat →
  length mbuf = length c →
  crypto_aead_chacha20poly1305_ietf_decrypt (Some mbuf) (c ++ tag) (Z.of_nat (length c) + 16)
    ad (Z.of_nat (length ad)) n k =
    Some (match open_ietf k n ad c tag with
          | Some p => (0, Some p, Z.of_nat (length c))
          | None => (-1, Some (replicate (length c) 0), 0)
          end).
Proof.
  intros Hc Hf Ht Htl Hm. unfold crypto_aead_chacha20poly1305_ietf_decrypt, crypto_aead_chacha20poly1305_ietf_ABYTES.
  replace (_ >=? 16) with true by lia. replace (Z.of_nat (length c) + 16 - 16) with (Z.of_nat (length c)) by lia.
  rewrite (slice_app_0 c tag 0 (Z.of_nat (length c))) by done. rewrite some_bind. rewrite slice_app_r by lia. rewrite Z.sub_diag.
  rewrite slice_all by lia. rewrite some_bind.
  rewrite (ietf_decrypt_detached_eq k n ad) by (done || lia). rewrite some_bind.
  destruct (open_ietf k n ad c tag); rewrite <- Hm, drop_all, app_nil_r; reflexivity.
Qed.

Lemma ietf_decrypt_short mbuf c clen : 0 <= clen < 16 →
  crypto_aead_chacha20poly1305_ietf_decrypt mbuf c clen ad (Z.of_nat (length ad)) n k = Some (-1, mbuf, 0).
Proof.
  intros Hl. unfold crypto_aead_chacha20poly1305_ietf_decrypt, crypto_aead_chacha20poly1305_ietf_ABYTES.
  by replace (clen >=? 16) with false by lia.
Qed.
End combined.

(** The vector comparison of SSE2 builds returns what the portable one does. *)
Lemma movemask_all z : bytes_ok z → length z = 16%nat →
  (u32 (mm_movemask_epi8 (mm_cmpeq_epi32_zero z) + 1) ≫ 16) - 1 = if bool_decide (z = replicate 16 0) then 0 else -1.
Proof.
  intros Hz Hl.
  assert (z = replicate 16 0 ↔ Forall (λ w, w = 0) (words 4 4 z)) as Hiff.
  { do 17 (destruct z as [|? z]; try (simpl in Hl; lia)). clear Hl.
    cbn [words take drop firstn skipn]. rewrite !Forall_cons, Forall_nil.
    rewrite !Forall_cons in Hz. destruct_and! Hz.
    rewrite !le_val_zero by (repeat (apply Forall_cons_2; [assumption|]); apply Forall_nil_2). cbn [length replicate].
    split; [intros E; simplify_eq; done|intros ([= -> -> -> ->] & [= -> -> -> ->] & [= -> -> -> ->] & [= -> -> -> ->] & _); done]. }
  unfold mm_cmpeq_epi32_zero. cbn [words] in *.
  generalize dependent (le_val (take 4 z)). intros w0.
  generalize (le_val (take 4 (drop 4 z))). intros w1.
  generalize (le_val (take 4 (drop 4 (drop 4 z)))). intros w2.
  generalize (le_val (take 4 (drop 4 (drop 4 (drop 4 z))))). intros w3 Hiff.
  rewrite !Forall_cons, Forall_nil in Hiff.
  rewrite (bool_decide_ext _ _ Hiff). cbn [mbind list_bind app].
  destruct (Z.eqb_spec w0 0), (Z.eqb_spec w1 0), (Z.eqb_spec w2 0), (Z.eqb_spec w3 0);
    first [rewrite bool_decide_true by tauto; reflexivity|rewrite bool_decide_false by tauto; reflexivity].
Qed.

Lemma zip_lor_zero z v : length z = length v → bytes_ok z → bytes_ok v →
  zip_with Z.lor z v = replicate (length z) 0 ↔ z = replicate (length z) 0 ∧ v = replicate (length v) 0.
Proof.
  revert v. induction z as [|x z IH]; intros [|y v] Hl Hz Hv; try done.
  apply Forall_cons in Hz as [Hx Hz]. apply Forall_cons in Hv as [Hy Hv]. cbn in *. split.
  - intros [= E1 E2]. apply Z.lor_eq_0_iff in E1 as [-> ->]. apply IH in E2 as [E2 E3]; try done; [|lia].
    by rewrite E2, E3 at 1.
  - intros [[= -> E2] [= -> E3]]. f_equal. apply IH; try done. lia.
Qed.

Lemma zip_lxor_zero a b : length a = length b → zip_with Z.lxor a b = replicate (length a) 0 ↔ a = b.
Proof.
  revert b. induction a as [|x a IH]; intros [|y b] Hl; try done. cbn in *. split.
  - intros [= E1 E2]. apply Z.lxor_eq_0_iff in E1 as ->. f_equal. apply IH; [lia|done].
  - intros [= -> ->]. rewrite Z.lxor_nilpotent. f_equal. apply IH; done.
Qed.

Lemma zip_lor_ok a b : bytes_ok a → bytes_ok b → bytes_ok (zip_with Z.lor a b).
Proof.
  intros Ha. revert b. induction Ha as [|x a Hx Ha IH]; intros [|y b] Hb; cbn; try constructor.
  - apply Forall_cons in Hb as [Hy _]. apply lor_uint; [lia|done..].
  - apply Forall_cons in Hb as [_ Hb]. by apply IH.
Qed.

(** The vector comparison of SSE2 builds and the portable one agree on whole vectors. *)
Lemma verify_n_sse2_eq x y j : bytes_ok x → bytes_ok y → (0 < j)%nat →
  length x = (16 * j)%nat → length y = (16 * j)%nat →
  crypto_verify_n_sse2 x y (16 * Z.of_nat j) = crypto_verify_n x y (16 * Z.of_nat j).
Proof.
  intros Hx Hy Hj Hlx Hly. rewrite verify_n_spec by (done || lia). unfold crypto_verify_n_sse2, mm_loadu.
  rewrite (slice_ok x), (slice_ok y) by lia. bind_simpl.
  replace (Z.to_nat (16 * Z.of_nat j / 16 - 1)) with (j - 1)%nat by div_lia.
  change (Z.to_nat (16 * 0)) with 0%nat. change (Z.to_nat 16) with 16%nat. rewrite !drop_0.
  match goal with |- context [for_range ?n ?body ?z0] =>
    destruct (for_range_inv (λ i z, bytes_ok z ∧ length z = 16%nat ∧
      (z = replicate 16 0 ↔ take (16 * S i) x = take (16 * S i) y)) n body z0) as (z & -> & Hz & Hl & Hiff) end.
  - assert (length (take 16 x) = 16%nat ∧ length (take 16 y) = 16%nat) as [H1 H2] by (rewrite !length_take; lia).
    split_and!; [apply zip_lxor_ok; by apply Forall_take|rewrite length_zip_with; lia|].
    rewrite Nat.mul_1_r. pose proof (zip_lxor_zero (take 16 x) (take 16 y)) as E. rewrite H1 in E. apply E. lia.
  - intros i z Hi (Hz & Hl & Hiff). rewrite !slice_ok by lia. bind_simpl. eexists. split; [reflexivity|].
    replace (Z.to_nat (16 * (Z.of_nat i + 1))) with (16 * S i)%nat by lia. change (Z.to_nat 16) with 16%nat.
    set (a := take 16 (drop (16 * S i) x)). set (b := take 16 (drop (16 * S i) y)).
    assert (length a = 16%nat) as Ha by (unfold a; rewrite length_take, length_drop; lia).
    assert (length b = 16%nat) as Hb by (unfold b; rewrite length_take, length_drop; lia).
    assert (bytes_ok (zip_with Z.lxor a b)) as Hab by (apply zip_lxor_ok; by apply Forall_take, Forall_drop).
    assert (length (zip_with Z.lxor a b) = 16%nat) as Habl by (rewrite length_zip_with; lia).
    split_and!; [by apply zip_lor_ok|rewrite length_zip_with; lia|].
    replace (16 * S (S i))%nat with (16 * S i + 16)%nat by lia.
    rewrite <- (take_take_drop x (16 * S i) 16), <- (take_take_drop y (16 * S i) 16). fold a b.
    pose proof (zip_lor_zero z (zip_with Z.lxor a b)) as E1. pose proof (zip_lxor_zero a b) as E2.
    rewrite Hl, Habl in E1. rewrite Ha in E2. rewrite E1, E2, Hiff by (done || lia). split.
    + by intros [-> ->].
    + intros E. apply app_inj_1 in E; [done|]. rewrite !length_take. lia.
  - bind_simpl. rewrite movemask_all by done. f_equal. replace (16 * S (j - 1))%nat with (16 * j)%nat in Hiff by lia.
    rewrite (bool_decide_ext _ _ Hiff). by replace (Z.to_nat (16 * Z.of_nat j)) with (16 * j)%nat by lia.
Qed.

(** ** Properties *)

(** C17: The IETF functions compute the AEAD of RFC 8439.  Encryption writes the ciphertext and the
    tag and returns their length; decryption accepts exactly the RFC tag, and otherwise
    returns -1 with the output zeroed and length 0.  This holds for every message up to
    [MESSAGEBYTES_MAX]. *)
Theorem ietf_aead_rfc8439 k n ad c m mbuf ct tag :
  length k = 32%nat → bytes_ok k → length n = 12%nat → bytes_ok n →
  bytes_ok ad → Z.of_nat (length ad) < 2 ^ 64 →
  bytes_ok m → fits m → length c = (length m + 16)%nat →
  bytes_ok ct → fits ct → bytes_ok tag → length tag = 16%nat → length mbuf = length ct →
  crypto_aead_chacha20poly1305_ietf_encrypt c m (Z.of_nat (length m)) ad (Z.of_nat (length ad)) n k =
    Some (0, (seal_ietf k n ad m).1 ++ (seal_ietf k n ad m).2, Z.of_nat (length m) + 16) ∧
  crypto_aead_chacha20poly1305_ietf_decrypt (Some mbuf) (ct ++ tag) (Z.of_nat (length ct) + 16)
      ad (Z.of_nat (length ad)) n k =
    Some (match open_ietf k n ad ct tag with
          | Some p => (0, Some p, Z.of_nat (length ct))
          | None => (-1, Some (replicate (length ct) 0), 0)
          end).
Proof. intros. split; [by apply ietf_encrypt_eq|by apply ietf_decrypt_eq]. Qed.

Lemma ietf_aead_rfc8439_witness :
  crypto_aead_chacha20poly1305_ietf_encrypt (replicate 130 7) rfc_text (Z.of_nat (length rfc_text))
      rfc_ad (Z.of_nat (length rfc_ad)) rfc_n rfc_k =
    Some (0, (seal_ietf rfc_k rfc_n rfc_ad rfc_text).1 ++ (seal_ietf rfc_k rfc_n rfc_ad rfc_text).2,
          Z.of_nat (length rfc_text) + 16) ∧
  crypto_aead_chacha20poly1305_ietf_decrypt (Some [9; 9; 9]) ([1; 2; 3] ++ replicate 16 0)
      (Z.of_nat (length [1; 2; 3]) + 16) rfc_ad (Z.of_nat (length rfc_ad)) rfc_n rfc_k =
    Some (match open_ietf rfc_k rfc_n rfc_ad [1; 2; 3] (replicate 16 0) with
          | Some p => (0, Some p, Z.of_nat (length [1; 2; 3]))
          | None => (-1, Some (replicate (length [1; 2; 3]) 0), 0)
          end).
Proof.
  apply (ietf_aead_rfc8439 rfc_k rfc_n rfc_ad (replicate 130 7) rfc_text [9; 9; 9] [1; 2; 3] (replicate 16 0));
    unfold fits; by_computation.
Defined.

(** What the IETF encryption produces decrypts to the message, with its length, under the same
    key, nonce and additional data; a ciphertext shorter than a tag is refused with the
    output untouched. *)
Theorem ietf_aead_roundtrip k n ad m c mbuf :
  length k = 32%nat → bytes_ok k → length n = 12%nat → bytes_ok n →
  bytes_ok ad → Z.of_nat (length ad) < 2 ^ 64 →
  bytes_ok m → fits m → length c = (length m + 16)%nat → length mbuf = length m →
  (∃ out clen,
    crypto_aead_chacha20poly1305_ietf_encrypt c m (Z.of_nat (length m)) ad (Z.of_nat (length ad)) n k =
      Some (0, out, clen) ∧
    crypto_aead_chacha20poly1305_ietf_decrypt (Some mbuf) out clen ad (Z.of_nat (length ad)) n k =
      Some (0, Some m, Z.of_nat (length m))) ∧
  (∀ short clen, 0 <= clen < 16 →
    crypto_aead_chacha20poly1305_ietf_decrypt (Some mbuf) short clen ad (Z.of_nat (length ad)) n k =
      Some (-1, Some mbuf, 0)).
Proof.
  intros Hkl Hk Hnl Hn Had Hadl Hm Hf Hc Hmb. split; [|intros; by apply ietf_decrypt_short].
  destruct (seal_ietf_lengths k n ad m Hkl Hk Hnl Hn Hm) as (Hcl & Hco & Htl & Hto).
  do 2 eexists. split; [by apply ietf_encrypt_eq|]. rewrite <- Hcl.
  rewrite ietf_decrypt_eq by (done || (unfold fits in *; rewrite Hcl; done) || lia).
  by rewrite open_seal_ietf.
Qed.

Lemma ietf_aead_roundtrip_witness :
  (∃ out clen,
    crypto_aead_chacha20poly1305_ietf_encrypt (replicate 130 7) rfc_text (Z.of_nat (length rfc_text))
      rfc_ad (Z.of_nat (length rfc_ad)) rfc_n rfc_k = Some (0, out, clen) ∧
    crypto_aead_chacha20poly1305_ietf_decrypt (Some (replicate 114 0)) out clen
      rfc_ad (Z.of_nat (length rfc_ad)) rfc_n rfc_k = Some (0, Some rfc_text, Z.of_nat (length rfc_text))) ∧
  (∀ short clen, 0 <= clen < 16 →
    crypto_aead_chacha20poly1305_ietf_decrypt (Some (replicate 114 0)) short clen
      rfc_ad (Z.of_nat (length rfc_ad)) rfc_n rfc_k = Some (-1, Some (replicate 114 0), 0)).
Proof. apply ietf_aead_roundtrip; unfold fits; by_computation. Defined.
