(* ===== verification/Blake2b.v ===== *)
(** * BLAKE2b ([crypto_generichash/blake2b/ref] of libsodium)

    The reference compression function ([blake2b-compress-ref.c]), the buffered hash
    ([blake2b-ref.c]) and the public functions ([generichash_blake2b.c]), which
    [crypto_generichash] forwards to.  The buffer holds up to two blocks and a block is
    compressed only once more input follows it.  [blake2b_hash] is the definition of RFC
    7693: the padded key block and the message, in blocks of 128 bytes, the last one
    flagged; the code is shown to compute it for any sequence of updates. *)

From S2P Require Import Prelude Packet Sodium Words Chacha20.
Local Open Scope c_scope.

Definition BLAKE2B_BLOCKBYTES : Z := 128.
Definition BLAKE2B_OUTBYTES : Z := 64.
Definition BLAKE2B_KEYBYTES : Z := 64.
Definition BLAKE2B_SALTBYTES : Z := 16.
Definition BLAKE2B_PERSONALBYTES : Z := 16.

Definition blake2b_IV : list Z :=
  [0x6a09e667f3bcc908; 0xbb67ae8584caa73b; 0x3c6ef372fe94f82b; 0xa54ff53a5f1d36f1;
   0x510e527fade682d1; 0x9b05688c2b3e6c1f; 0x1f83d9abfb41bd6b; 0x5be0cd19137e2179].

Definition blake2b_sigma : list (list Z) :=
  [[0; 1; 2; 3; 4; 5; 6; 7; 8; 9; 10; 11; 12; 13; 14; 15];
   [14; 10; 4; 8; 9; 15; 13; 6; 1; 12; 0; 2; 11; 7; 5; 3];
   [11; 8; 12; 0; 5; 2; 15; 13; 10; 14; 3; 6; 7; 1; 9; 4];
   [7; 9; 3; 1; 13; 12; 11; 14; 2; 6; 5; 10; 4; 0; 15; 8];
   [9; 0; 5; 7; 2; 4; 10; 15; 14; 1; 11; 12; 6; 8; 3; 13];
   [2; 12; 6; 10; 0; 11; 8; 3; 4; 13; 7; 5; 15; 14; 1; 9];
   [12; 5; 1; 15; 14; 13; 4; 10; 0; 7; 6; 3; 9; 2; 8; 11];
   [13; 11; 7; 14; 12; 1; 3; 9; 5; 0; 15; 4; 8; 6; 2; 10];
   [6; 15; 14; 9; 11; 3; 0; 8; 12; 2; 13; 7; 1; 4; 10; 5];
   [10; 2; 8; 4; 7; 6; 1; 5; 15; 11; 9; 14; 3; 12; 13; 0];
   [0; 1; 2; 3; 4; 5; 6; 7; 8; 9; 10; 11; 12; 13; 14; 15];
   [14; 10; 4; 8; 9; 15; 13; 6; 1; 12; 0; 2; 11; 7; 5; 3]].

Record blake2b_param := {
  digest_length : Z;
  key_length : Z;
  fanout : Z;
  depth : Z;
  leaf_length : bytes;
  node_offset : bytes;
  node_depth : Z;
  inner_length : Z;
  reserved : bytes;
  salt : bytes;
  personal : bytes
}.

(** The packed layout of the structure. *)
Definition param_bytes (P : blake2b_param) : bytes :=
  [digest_length P; key_length P; fanout P; depth P] ++ leaf_length P ++ node_offset P ++
  [node_depth P; inner_length P] ++ reserved P ++ salt P ++ personal P.

Record blake2b_state := {
  h : list Z;
  t_0 : Z;
  t_1 : Z;
  f_0 : Z;
  f_1 : Z;
  buf : bytes;
  buflen : Z;
  last_node : Z
}.

Definition with_h (S : blake2b_state) (x : list Z) : blake2b_state :=
  {| h := x; t_0 := t_0 S; t_1 := t_1 S; f_0 := f_0 S; f_1 := f_1 S; buf := buf S;
     buflen := buflen S; last_node := last_node S |}.
Definition with_t (S : blake2b_state) (x y : Z) : blake2b_state :=
  {| h := h S; t_0 := x; t_1 := y; f_0 := f_0 S; f_1 := f_1 S; buf := buf S;
     buflen := buflen S; last_node := last_node S |}.
Definition with_f (S : blake2b_state) (x y : Z) : blake2b_state :=
  {| h := h S; t_0 := t_0 S; t_1 := t_1 S; f_0 := x; f_1 := y; buf := buf S;
     buflen := buflen S; last_node := last_node S |}.
Definition with_buf (S : blake2b_state) (b : bytes) (n : Z) : blake2b_state :=
  {| h := h S; t_0 := t_0 S; t_1 := t_1 S; f_0 := f_0 S; f_1 := f_1 S; buf := b;
     buflen := n; last_node := last_node S |}.

(** ** Compression *)

Definition G (m : list Z) (v : list Z) (r i a b c d : Z) : option (list Z) :=
  row ← blake2b_sigma.[r]; s0 ← row.[2 * i + 0]; s1 ← row.[2 * i + 1];
  m0 ← m.[s0]; m1 ← m.[s1];
  va ← v.[a]; vb ← v.[b]; vc ← v.[c]; vd ← v.[d];
  let va := u64 (va + u64 (vb + m0)) in
  let vd := rotr64 (vd ^' va) 32 in
  let vc := u64 (vc + vd) in
  let vb := rotr64 (vb ^' vc) 24 in
  let va := u64 (va + u64 (vb + m1)) in
  let vd := rotr64 (vd ^' va) 16 in
  let vc := u64 (vc + vd) in
  let vb := rotr64 (vb ^' vc) 63 in
  v ← wr v a va; v ← wr v b vb; v ← wr v c vc; wr v d vd.

Definition ROUND (m : list Z) (r : Z) (v : list Z) : option (list Z) :=
  v ← G m v r 0 0 4 8 12;
  v ← G m v r 1 1 5 9 13;
  v ← G m v r 2 2 6 10 14;
  v ← G m v r 3 3 7 11 15;
  v ← G m v r 4 0 5 10 15;
  v ← G m v r 5 1 6 11 12;
  v ← G m v r 6 2 7 8 13;
  G m v r 7 3 4 9 14.

Definition blake2b_compress_ref (S : blake2b_state) (block : bytes) : option blake2b_state :=
  m ← loads load64_le 8 16 block 0;
  let v := take 8 (h S) ++ take 4 blake2b_IV ++
           zip_with Z.lxor [t_0 S; t_1 S; f_0 S; f_1 S] (drop 4 blake2b_IV) in
  v ← for_range 12 (λ r v, ROUND m (Z.of_nat r) v) v;
  Some (with_h S (zip_with Z.lxor (zip_with Z.lxor (h S) (take 8 v)) (drop 8 v))).

(** ** The buffered hash *)

Definition blake2b_set_lastnode (S : blake2b_state) : blake2b_state := with_f S (f_0 S) (u64 (-1)).
Definition blake2b_is_lastblock (S : blake2b_state) : bool := negb (f_0 S =? 0).
Definition blake2b_set_lastblock (S : blake2b_state) : blake2b_state :=
  let S := if negb (last_node S =? 0) then blake2b_set_lastnode S else S in
  with_f S (u64 (-1)) (f_1 S).

Definition blake2b_increment_counter (S : blake2b_state) (inc : Z) : blake2b_state :=
  let t := wrap 128 (t_1 S ≪ 64) |' t_0 S in
  let t := wrap 128 (t + inc) in
  with_t S (u64 (t ≫ 0)) (u64 (t ≫ 64)).

(** [h] is set to the initial vector; [t] to [last_node] are zeroed. *)
Definition blake2b_init0 : blake2b_state :=
  {| h := blake2b_IV; t_0 := 0; t_1 := 0; f_0 := 0; f_1 := 0; buf := replicate 256 0;
     buflen := 0; last_node := 0 |}.

Definition blake2b_init_param (P : blake2b_param) : option blake2b_state :=
  let S := blake2b_init0 in
  p ← loads load64_le 8 8 (param_bytes P) 0;
  Some (with_h S (zip_with Z.lxor (h S) p)).

Definition blake2b_param_set_salt (P : blake2b_param) (s : bytes) : option blake2b_param :=
  s ← slice s 0 BLAKE2B_SALTBYTES;
  Some {| digest_length := digest_length P; key_length := key_length P; fanout := fanout P;
          depth := depth P; leaf_length := leaf_length P; node_offset := node_offset P;
          node_depth := node_depth P; inner_length := inner_length P; reserved := reserved P;
          salt := s; personal := personal P |}.
Definition blake2b_param_set_personal (P : blake2b_param) (s : bytes) : option blake2b_param :=
  s ← slice s 0 BLAKE2B_PERSONALBYTES;
  Some {| digest_length := digest_length P; key_length := key_length P; fanout := fanout P;
          depth := depth P; leaf_length := leaf_length P; node_offset := node_offset P;
          node_depth := node_depth P; inner_length := inner_length P; reserved := reserved P;
          salt := salt P; personal := s |}.

(** The parameter block the four [init] functions fill in, with salt and personalisation zero. *)
Definition sequential_param (outlen keylen : Z) : blake2b_param :=
  {| digest_length := outlen; key_length := keylen; fanout := 1; depth := 1;
     leaf_length := le32_bytes 0; node_offset := le64_bytes 0; node_depth := 0; inner_length := 0;
     reserved := replicate 14 0; salt := replicate 16 0; personal := replicate 16 0 |}.

Definition bad_outlen (outlen : Z) : bool := (outlen =? 0) || (outlen >? BLAKE2B_OUTBYTES).

Definition blake2b_init (outlen : Z) : option blake2b_state :=
  if bad_outlen outlen then misuse else blake2b_init_param (sequential_param outlen 0).

Definition set_salt_personal (P : blake2b_param) (salt personal : option bytes) : option blake2b_param :=
  P ← match salt with NULL => Some P | Some s => blake2b_param_set_salt P s end;
  match personal with NULL => Some P | Some s => blake2b_param_set_personal P s end.

Definition blake2b_init_salt_personal (outlen : Z) (salt personal : option bytes) : option blake2b_state :=
  if bad_outlen outlen then misuse
  else P ← set_salt_personal (sequential_param outlen 0) salt personal; blake2b_init_param P.

(** The branch that fills the buffer, compresses its first block and shifts it left. *)
Definition update_fill (S : blake2b_state) (inp : bytes) (off fill : Z) : option blake2b_state :=
  b ← memcpy (buf S) (buflen S) inp off fill;
  let S := with_buf S b (buflen S + fill) in
  let S := blake2b_increment_counter S BLAKE2B_BLOCKBYTES in
  S ← blake2b_compress_ref S (buf S);
  b ← memcpy (buf S) 0 (buf S) BLAKE2B_BLOCKBYTES BLAKE2B_BLOCKBYTES;
  Some (with_buf S b (buflen S - BLAKE2B_BLOCKBYTES)).

(** One unit of fuel for each turn of the loop. *)
Fixpoint update_loop (fuel : nat) (S : blake2b_state) (inp : bytes) (off inlen : Z) : option blake2b_state :=
  match fuel with
  | O => None
  | Datatypes.S fuel =>
      if inlen >? 0 then
        let left := buflen S in
        let fill := 2 * BLAKE2B_BLOCKBYTES - left in
        if inlen >? fill then
          S ← update_fill S inp off fill;
          update_loop fuel S inp (off + fill) (inlen - fill)
        else
          b ← memcpy (buf S) left inp off inlen;
          update_loop fuel (with_buf S b (buflen S + inlen)) inp (off + inlen) (inlen - inlen)
      else Some S
  end.

Definition blake2b_update (S : blake2b_state) (inp : bytes) (inlen : Z) : option blake2b_state :=
  update_loop (Z.to_nat inlen + 2) S inp 0 inlen.

Definition init_key_param (P : blake2b_param) (key : bytes) (keylen : Z) : option blake2b_state :=
  S ← blake2b_init_param P;
  k ← slice key 0 keylen; block ← blit (replicate 128 0) 0 k;
  blake2b_update S block BLAKE2B_BLOCKBYTES.

Definition bad_key (key : option bytes) (keylen : Z) : bool :=
  match key with NULL => true | Some _ => (keylen =? 0) || (keylen >? BLAKE2B_KEYBYTES) end.

Definition blake2b_init_key (outlen : Z) (key : option bytes) (keylen : Z) : option blake2b_state :=
  if bad_outlen outlen then misuse
  else if bad_key key keylen then misuse
  else key ← key; init_key_param (sequential_param outlen keylen) key keylen.

Definition blake2b_init_key_salt_personal (outlen : Z) (key : option bytes) (keylen : Z)
    (salt personal : option bytes) : option blake2b_state :=
  if bad_outlen outlen then misuse
  else if bad_key key keylen then misuse
  else
    P ← set_salt_personal (sequential_param outlen keylen) salt personal;
    key ← key; init_key_param P key keylen.

(** The first block of a buffer that holds more than one. *)
Definition final_shift (S : blake2b_state) : option blake2b_state :=
  if buflen S >? BLAKE2B_BLOCKBYTES then
    let S := blake2b_increment_counter S BLAKE2B_BLOCKBYTES in
    S ← blake2b_compress_ref S (buf S);
    let n := buflen S - BLAKE2B_BLOCKBYTES in
    if n <=? BLAKE2B_BLOCKBYTES then
      b ← memcpy (buf S) 0 (buf S) BLAKE2B_BLOCKBYTES n; Some (with_buf S b n)
    else None
  else Some S.

(** The code, the state and [out]. *)
Definition blake2b_final (S : blake2b_state) (out : bytes) (outlen : Z) : option (Z * blake2b_state * bytes) :=
  if bad_outlen outlen then misuse
  else if blake2b_is_lastblock S then Some (-1, S, out)
  else
    S ← final_shift S;
    let S := blake2b_increment_counter S (buflen S) in
    let S := blake2b_set_lastblock S in
    b ← fill (buf S) (buflen S) 0 (2 * BLAKE2B_BLOCKBYTES - buflen S);
    let S := with_buf S b (buflen S) in
    S ← blake2b_compress_ref S (buf S);
    buffer ← stores store64_le 8 (take 8 (h S)) (replicate 64 0) 0;
    o ← slice buffer 0 outlen; out ← blit out 0 o;
    Some (0, with_buf (with_h S (replicate 8 0)) (replicate 256 0) (buflen S), out).

(** [inp], [out] and [key] may be null. *)
Definition blake2b_check (out inp key : option bytes) (outlen inlen keylen : Z) : bool :=
  match inp with NULL => inlen >? 0 | Some _ => false end ||
  match out with NULL => true | Some _ => false end ||
  bad_outlen outlen ||
  match key with NULL => keylen >? 0 | Some _ => false end ||
  (keylen >? BLAKE2B_KEYBYTES).

Definition blake2b (out inp key : option bytes) (outlen inlen keylen : Z) : option (Z * option bytes) :=
  if blake2b_check out inp key outlen inlen keylen then misuse
  else
    S ← (if keylen >? 0 then blake2b_init_key outlen key keylen else blake2b_init outlen);
    S ← blake2b_update S (default [] inp) inlen;
    out ← out;
    '(_, _, out) ← blake2b_final S out outlen;
    Some (0, Some out).

Definition blake2b_salt_personal (out inp key : option bytes) (outlen inlen keylen : Z)
    (salt personal : option bytes) : option (Z * option bytes) :=
  if blake2b_check out inp key outlen inlen keylen then misuse
  else
    S ← (if keylen >? 0 then blake2b_init_key_salt_personal outlen key keylen salt personal
         else blake2b_init_salt_personal outlen salt personal);
    S ← blake2b_update S (default [] inp) inlen;
    out ← out;
    '(_, _, out) ← blake2b_final S out outlen;
    Some (0, Some out).

Definition bad_lengths (outlen keylen : Z) : bool :=
  (outlen <=? 0) || (outlen >? BLAKE2B_OUTBYTES) || (keylen >? BLAKE2B_KEYBYTES).

Definition crypto_generichash_blake2b (out inp key : option bytes) (outlen inlen keylen : Z)
    : option (Z * option bytes) :=
  if bad_lengths outlen keylen || (inlen >? 2 ^ 64 - 1) then Some (-1, out)
  else blake2b out inp key (u8 outlen) inlen (u8 keylen).

Definition crypto_generichash_blake2b_salt_personal (out inp key : option bytes) (outlen inlen keylen : Z)
    (salt personal : option bytes) : option (Z * option bytes) :=
  if bad_lengths outlen keylen || (inlen >? 2 ^ 64 - 1) then Some (-1, out)
  else blake2b_salt_personal out inp key (u8 outlen) inlen (u8 keylen) salt personal.

Definition crypto_generichash_blake2b_init (key : option bytes) (keylen outlen : Z)
    : option (Z * option blake2b_state) :=
  if bad_lengths outlen keylen then Some (-1, NULL)
  else
    S ← (if match key with NULL => true | Some _ => keylen <=? 0 end then blake2b_init (u8 outlen)
         else blake2b_init_key (u8 outlen) key (u8 keylen));
    Some (0, Some S).

Definition crypto_generichash_blake2b_update (S : blake2b_state) (inp : bytes) (inlen : Z)
    : option (Z * blake2b_state) :=
  S ← blake2b_update S inp inlen; Some (0, S).

Definition crypto_generichash_blake2b_final (S : blake2b_state) (out : bytes) (outlen : Z)
    : option (Z * blake2b_state * bytes) :=
  blake2b_final S out (u8 outlen).

(** ** RFC 7693 *)

(** The compression of a block with offset counter [t], flagged if it is the last. *)
(** A round on the matrix of four rows of four words, as in RFC 7693: each line is one
    operation on whole rows, [xs] and [ys] the message words of the four columns; the diagonals
    are the columns between turns of the rows. *)
Definition mix_rows (xs ys a b c d : list Z) : list Z * list Z * list Z * list Z :=
  let add v w := zip_with (λ p q, (p + q) mod 2 ^ 64) v w in
  let turn n v w := zip_with (λ p q, rotr64 (Z.lxor p q) n) v w in
  let a := add (zip_with Z.add a b) xs in let d := turn 32 d a in
  let c := add c d in let b := turn 24 b c in
  let a := add (zip_with Z.add a b) ys in let d := turn 16 d a in
  let c := add c d in let b := turn 63 b c in
  (a, b, c, d).

Definition turn_row (n : nat) (x : list Z) : list Z := drop n x ++ take n x.

(** [s] is the permutation of the message words of the round. *)
Definition rfc_round (m s v : list Z) : list Z :=
  let pick ks := (λ k : nat, default 0 (m !! Z.to_nat (default 0 (s !! k)))) <$> ks in
  let '(a, b, c, d) := mix_rows (pick [0; 2; 4; 6]%nat) (pick [1; 3; 5; 7]%nat)
    (take 4 v) (take 4 (drop 4 v)) (take 4 (drop 8 v)) (drop 12 v) in
  let '(a, b, c, d) := mix_rows (pick [8; 10; 12; 14]%nat) (pick [9; 11; 13; 15]%nat)
    a (turn_row 1 b) (turn_row 2 c) (turn_row 3 d) in
  a ++ turn_row 3 b ++ turn_row 2 c ++ turn_row 1 d.

Definition F (hs : list Z) (block : bytes) (t : Z) (last : bool) : list Z :=
  let m := words 8 16 block in
  let v := hs ++ take 4 blake2b_IV ++
           zip_with Z.lxor [u64 t; u64 (t ≫ 64); if last then 2 ^ 64 - 1 else 0; 0] (drop 4 blake2b_IV) in
  let v := default v (for_range 12 (λ r v, ROUND m (Z.of_nat r) v) v) in
  zip_with Z.lxor (zip_with Z.lxor hs (take 8 v)) (drop 8 v).

Definition pad_block (b : bytes) : bytes := b ++ replicate (128 - length b) 0.

Fixpoint compress_all (hs : list Z) (t : Z) (bs : list bytes) : list Z :=
  match bs with
  | [] => F hs (pad_block []) t true
  | [b] => F hs (pad_block b) (t + Z.of_nat (length b)) true
  | b :: bs => compress_all (F hs b (t + 128) false) (t + 128) bs
  end.

Definition param_h (outlen keylen : Z) (salt personal : bytes) : list Z :=
  zip_with Z.lxor blake2b_IV
    (words 8 8 ([outlen; keylen; 1; 1] ++ replicate 28 0 ++ salt ++ personal)).

Definition blake2b_hash (outlen : nat) (key inp salt personal : bytes) : bytes :=
  let msg := (if bool_decide (key = []) then [] else pad_block key) ++ inp in
  take outlen (compress_all (param_h (Z.of_nat outlen) (Z.of_nat (length key)) salt personal) 0 (chunks 128 msg)
               ≫= le64_bytes).

(** RFC 7693, appendix A: BLAKE2b-512("abc"). *)
Definition zero16 : bytes := replicate 16 0.
Definition abc_digest : bytes :=
  [0xBA; 0x80; 0xA5; 0x3F; 0x98; 0x1C; 0x4D; 0x0D; 0x6A; 0x27; 0x97; 0xB6; 0x9F; 0x12; 0xF6; 0xE9;
   0x4C; 0x21; 0x2F; 0x14; 0x68; 0x5A; 0xC4; 0xB7; 0x4B; 0x12; 0xBB; 0x6F; 0xDB; 0xFF; 0xA2; 0xD1;
   0x7D; 0x87; 0xC5; 0x39; 0x2A; 0xAB; 0x79; 0x2D; 0xC2; 0x52; 0xD5; 0xDE; 0x45; 0x33; 0xCC; 0x95;
   0x18; 0xD3; 0x8A; 0xA8; 0xDB; 0xF1; 0x92; 0x5A; 0xB9; 0x23; 0x86; 0xED; 0xD4; 0x00; 0x99; 0x23].

Example blake2b_hash_abc : blake2b_hash 64 [] [97; 98; 99] zero16 zero16 = abc_digest.
Proof. vm_compute. reflexivity. Qed.
Example blake2b_abc : blake2b (Some (replicate 64 0)) (Some [97; 98; 99]) NULL 64 3 0 = Some (0, Some abc_digest).
Proof. vm_compute. reflexivity. Qed.

(** ** Compression is total *)

Definition vec_ok (n : nat) (v : list Z) : Prop := length v = n ∧ Forall is_u64 v.

Lemma vec_rd n v i : vec_ok n v → 0 <= i < Z.of_nat n → ∃ x, v.[i] = Some x ∧ is_u64 x.
Proof.
  intros [Hl Hv] Hi. destruct (rd_lt v i) as [x Hx]; [lia|]. exists x. split; [done|].
  apply rd_Some_lookup in Hx as [Hx _]. by apply (Forall_lookup_1 _ _ _ _ Hv Hx).
Qed.

Lemma vec_wr n v i x : vec_ok n v → 0 <= i < Z.of_nat n → is_u64 x → ∃ v', wr v i x = Some v' ∧ vec_ok n v'.
Proof.
  intros [Hl Hv] Hi Hx. rewrite wr_lt by lia. eexists. split; [done|].
  split; [by rewrite length_insert|by apply Forall_insert].
Qed.

Lemma rotr64_lxor x y b : 0 <= b <= 64 → is_u64 x → is_u64 y → is_u64 (rotr64 (x ^' y) b).
Proof. intros. apply rotr64_uint; [done|]. apply lxor_uint; [lia|done..]. Qed.

Create HintDb blake.
#[export] Hint Resolve u64_uint : blake.
#[export] Hint Extern 2 (is_uint 64 (rotr64 _ _)) => apply rotr64_lxor; [lia|..] : blake.

Lemma sigma_index r i : 0 <= r < 12 → 0 <= i < 16 →
  ∃ row s, blake2b_sigma.[r] = Some row ∧ row.[i] = Some s ∧ 0 <= s < 16.
Proof.
  intros Hr Hi.
  assert (Forall (λ row, length row = 16%nat ∧ Forall (λ s, 0 <= s < 16) row) blake2b_sigma) as Hs by by_computation.
  destruct (rd_lt blake2b_sigma r) as [row Hrow]; [done|]. pose proof Hrow as [Hl _]%rd_Some_lookup.
  destruct (Forall_lookup_1 _ _ _ _ Hs Hl) as [Hlen Hrow16].
  destruct (rd_lt row i) as [s Hsi]; [lia|]. pose proof Hsi as [Hl2 _]%rd_Some_lookup.
  exists row, s. split_and!; [done..| |]; apply (Forall_lookup_1 _ _ _ _ Hrow16 Hl2).
Qed.

Ltac vec_step :=
  match goal with
  | Hv : vec_ok ?n ?x |- context [rd ?x ?i] =>
      let v := fresh "v" in let H := fresh "H" in let H' := fresh "H'" in
      destruct (vec_rd n x i Hv) as (v & H & H'); [lia|]; rewrite H; bind_simpl
  | Hv : vec_ok ?n ?x |- context [wr ?x ?i ?v] =>
      let y := fresh "y" in let H := fresh "H" in let H' := fresh "H'" in
      destruct (vec_wr n x i v Hv) as (y & H & H'); [lia|auto 12 with blake|]; rewrite H; bind_simpl
  end.

Lemma G_ok m v r i a b c d : vec_ok 16 m → vec_ok 16 v → 0 <= r < 12 → 0 <= i < 8 →
  0 <= a < 16 → 0 <= b < 16 → 0 <= c < 16 → 0 <= d < 16 → ∃ v', G m v r i a b c d = Some v' ∧ vec_ok 16 v'.
Proof.
  intros Hm Hv Hr Hi Ha Hb Hc Hd. unfold G.
  destruct (sigma_index r (2 * i + 0)) as (row & s0 & Er & E0 & Hs0); [done|lia|].
  destruct (sigma_index r (2 * i + 1)) as (row' & s1 & Er' & E1 & Hs1); [done|lia|].
  assert (row' = row) as -> by congruence. rewrite Er. bind_simpl. rewrite E0, E1. bind_simpl.
  do 6 vec_step. do 3 vec_step.
  match goal with Hy : vec_ok 16 ?y |- context [wr ?y d ?x] => destruct (vec_wr 16 y d x Hy) as (z & -> & Hz) end;
    [lia|auto 12 with blake|]. eauto.
Qed.

Lemma ROUND_ok m r v : vec_ok 16 m → 0 <= r < 12 → vec_ok 16 v → ∃ v', ROUND m r v = Some v' ∧ vec_ok 16 v'.
Proof.
  intros Hm Hr Hv. unfold ROUND.
  repeat match goal with H : vec_ok 16 ?y |- context [G m ?y ?r ?i ?a ?b ?c ?d] =>
    let z := fresh "z" in let E := fresh "E" in let Hz := fresh "Hz" in
    destruct (G_ok m y r i a b c d Hm H) as (z & E & Hz); [lia..|]; rewrite E; clear E; bind_simpl
  end. eauto.
Qed.

(** *** The code's rounds are those of the rows *)

(** The mixing function of RFC 7693 on four words. *)
Definition mix (a b c d x y : Z) : Z * Z * Z * Z :=
  let a := (a + b + x) mod 2 ^ 64 in let d := rotr64 (d ^' a) 32 in
  let c := (c + d) mod 2 ^ 64 in let b := rotr64 (b ^' c) 24 in
  let a := (a + b + y) mod 2 ^ 64 in let d := rotr64 (d ^' a) 16 in
  let c := (c + d) mod 2 ^ 64 in let b := rotr64 (b ^' c) 63 in
  (a, b, c, d).

Lemma u64_add3 a b x : u64 (a + u64 (b + x)) = (a + b + x) mod 2 ^ 64.
Proof. unfold u64, wrap. by rewrite Z.add_mod_idemp_r, Z.add_assoc. Qed.

(** The message word of an entry of the permutation. *)
Definition word_of (m : list Z) (s : Z) : Z := default 0 (m !! Z.to_nat s).

Lemma G_mix m v r row i a b c d s0 s1 va vb vc vd :
  blake2b_sigma.[r] = Some row → (∀ k s, row.[k] = Some s → m.[s] = Some (word_of m s)) →
  row.[2 * i + 0] = Some s0 → row.[2 * i + 1] = Some s1 →
  v.[a] = Some va → v.[b] = Some vb → v.[c] = Some vc → v.[d] = Some vd →
  G m v r i a b c d =
    let '(ya, yb, yc, yd) := mix va vb vc vd (word_of m s0) (word_of m s1) in
    v ← wr v a ya; v ← wr v b yb; v ← wr v c yc; wr v d yd.
Proof.
  intros Hr Hm H0 H1 Ha Hb Hc Hd. unfold G.
  rewrite Hr, some_bind, H0, some_bind, H1, some_bind, (Hm _ _ H0), some_bind, (Hm _ _ H1), some_bind.
  rewrite Ha, some_bind, Hb, some_bind, Hc, some_bind, Hd, some_bind. cbv zeta. by rewrite !u64_add3.
Qed.

Lemma mix_rows_mix x0 x1 x2 x3 y0 y1 y2 y3 a0 a1 a2 a3 b0 b1 b2 b3 c0 c1 c2 c3 d0 d1 d2 d3 :
  mix_rows [x0; x1; x2; x3] [y0; y1; y2; y3]
    [a0; a1; a2; a3] [b0; b1; b2; b3] [c0; c1; c2; c3] [d0; d1; d2; d3] =
    let '(a0, b0, c0, d0) := mix a0 b0 c0 d0 x0 y0 in let '(a1, b1, c1, d1) := mix a1 b1 c1 d1 x1 y1 in
    let '(a2, b2, c2, d2) := mix a2 b2 c2 d2 x2 y2 in let '(a3, b3, c3, d3) := mix a3 b3 c3 d3 x3 y3 in
    ([a0; a1; a2; a3], [b0; b1; b2; b3], [c0; c1; c2; c3], [d0; d1; d2; d3]).
Proof. done. Qed.

(** Rewrites the next [G] of the code to [mix] and names its words. *)
Ltac mix_step Hrow Hm :=
  erewrite (G_mix _ _ _ _ _ _ _ _ _ _ _ _ _ _ _ Hrow Hm) by reflexivity;
  destruct (mix _ _ _ _ _ _) as [[[? ?] ?] ?];
  try (match goal with |- (?p ≫= _) = _ => let q := eval vm_compute in p in change p with q end;
       rewrite some_bind).

Lemma sigma_words m r row : vec_ok 16 m → blake2b_sigma.[r] = Some row →
  length row = 16%nat ∧ ∀ k s, row.[k] = Some s → m.[s] = Some (word_of m s).
Proof.
  intros Hm [Hrow _]%rd_Some_lookup.
  assert (Forall (λ row, length row = 16%nat ∧ Forall (λ s, 0 <= s < 16) row) blake2b_sigma) as H by by_computation.
  destruct (Forall_lookup_1 _ _ _ _ H Hrow) as [Hl Hs]. split; [done|]. intros k s [Hk _]%rd_Some_lookup.
  destruct (vec_rd 16 m s Hm) as (x & Hx & _); [by apply (Forall_lookup_1 _ _ _ _ Hs Hk)|].
  rewrite Hx. apply rd_Some_lookup in Hx as [Hx _]. unfold word_of. by rewrite Hx.
Qed.

Lemma ROUND_rows m r row v : vec_ok 16 m → blake2b_sigma.[r] = Some row → vec_ok 16 v →
  ROUND m r v = Some (rfc_round m row v).
Proof.
  intros Hm Hrow [Hv _]. destruct (sigma_words m r row Hm Hrow) as [Hl Hpick]. clear Hm.
  do 16 (destruct v as [|? v]; [done|]). destruct v; [|done].
  do 16 (destruct row as [|? row]; [done|]). destruct row; [|done]. clear Hv Hl.
  unfold rfc_round. cbn [take drop fmap list_fmap lookup list_lookup default option_rect id from_option].
  repeat match goal with |- context [default 0 (m !! Z.to_nat ?s)] => fold (word_of m s) end.
  rewrite mix_rows_mix. unfold ROUND. do 4 mix_step Hrow Hpick.
  unfold turn_row. cbn [take drop app]. rewrite mix_rows_mix. do 4 mix_step Hrow Hpick. done.
Qed.

Lemma zip_lxor_vec n a b : vec_ok n a → vec_ok n b → vec_ok n (zip_with Z.lxor a b).
Proof.
  intros [Hla Ha] [Hlb Hb]. split; [rewrite length_zip_with; lia|]. apply Forall_lookup. intros i x Hx.
  apply lookup_zip_with_Some in Hx as (p & q & -> & Hp & Hq). apply lxor_uint; [lia|..].
  - by apply (Forall_lookup_1 _ _ _ _ Ha Hp).
  - by apply (Forall_lookup_1 _ _ _ _ Hb Hq).
Qed.

Lemma words64_vec n b : bytes_ok b → vec_ok n (words 8 n b).
Proof.
  intros Hb. split; [apply words_length|]. revert b Hb. induction n as [|n IH]; intros b Hb; cbn [words].
  - constructor.
  - apply Forall_cons_2; [|apply IH; by apply Forall_drop].
    pose proof (le_val_bound (take 8 b) (Forall_take _ _ _ Hb)) as H. apply (is_uint_mono (8 * Z.of_nat (length (take 8 b)))).
    + rewrite length_take. lia.
    + done.
Qed.

(** The working vector before the rounds. *)
Definition work (hs : list Z) (t : Z) (last : bool) : list Z :=
  hs ++ take 4 blake2b_IV ++
  zip_with Z.lxor [u64 t; u64 (t ≫ 64); if last then 2 ^ 64 - 1 else 0; 0] (drop 4 blake2b_IV).

Lemma work_ok hs t last : vec_ok 8 hs → vec_ok 16 (work hs t last).
Proof.
  intros [Hl Hh]. split; [unfold work; rewrite length_app, Hl; done|]. apply Forall_app_2; [done|].
  apply Forall_app_2; [by_computation|].
  enough (vec_ok 4 (zip_with Z.lxor [u64 t; u64 (t ≫ 64); if last then 2 ^ 64 - 1 else 0; 0] (drop 4 blake2b_IV)))
    as [_ ?] by done.
  apply zip_lxor_vec; [|split; by_computation]. split; [done|].
  repeat constructor; first [apply u64_uint | by destruct last].
Qed.

Lemma rounds12_ok m v : vec_ok 16 m → vec_ok 16 v →
  ∃ v', for_range 12 (λ r v, ROUND m (Z.of_nat r) v) v = Some v' ∧ vec_ok 16 v'.
Proof.
  intros Hm Hv. apply (for_range_inv (λ _ v, vec_ok 16 v)); [done|].
  intros r u Hr Hu. apply ROUND_ok; [done|lia|done].
Qed.

Lemma vec_split v : vec_ok 16 v → vec_ok 8 (take 8 v) ∧ vec_ok 8 (drop 8 v).
Proof.
  intros [Hl Hv]. split; (split; [rewrite ?length_take, ?length_drop; lia|]); [by apply Forall_take|by apply Forall_drop].
Qed.

Lemma F_ok hs block t last : vec_ok 8 hs → bytes_ok block → vec_ok 8 (F hs block t last).
Proof.
  intros Hh Hb. unfold F. cbv zeta. fold (work hs t last).
  destruct (rounds12_ok (words 8 16 block) (work hs t last)) as (v & -> & Hv);
    [by apply words64_vec|by apply work_ok|]. cbn [default].
  apply vec_split in Hv as [H1 H2]. by repeat apply zip_lxor_vec.
Qed.

(** The state's counter is [t], and no block has been flagged as the last. *)
Definition counted (t : Z) (S : blake2b_state) : Prop := t_0 S = u64 t ∧ t_1 S = u64 (t ≫ 64).

Lemma compress_eq S t (last : bool) block rest : vec_ok 8 (h S) → counted t S →
  f_0 S = (if last then 2 ^ 64 - 1 else 0) → f_1 S = 0 →
  bytes_ok block → length block = 128%nat → bytes_ok rest →
  blake2b_compress_ref S (block ++ rest) = Some (with_h S (F (h S) block t last)).
Proof.
  intros Hh [E0 E1] F0 F1 Hb Hl Hr. unfold blake2b_compress_ref.
  rewrite (loads_words load64_le 8) by
    (done || (intros; rewrite load64_le_eq; by apply le64_read_val) || (by apply Forall_app_2) || (rewrite length_app; lia)).
  bind_simpl. cbv zeta. rewrite E0, E1, F0, F1. change (Z.to_nat 0) with 0%nat. rewrite drop_0.
  rewrite (take_ge (h S)) by (destruct Hh; lia). fold (work (h S) t last).
  assert (words 8 16 (block ++ rest) = words 8 16 block) as -> by (by apply words_app).
  destruct (rounds12_ok (words 8 16 block) (work (h S) t last)) as (v & E & Hv);
    [by apply words64_vec|by apply work_ok|]. rewrite E. bind_simpl.
  unfold F. cbv zeta. fold (work (h S) t last). by rewrite E.
Qed.

(** ** Buffering *)

Fixpoint compress_some (hs : list Z) (t : Z) (bs : list bytes) : list Z :=
  match bs with
  | [] => hs
  | b :: bs => compress_some (F hs b (t + 128) false) (t + 128) bs
  end.

Lemma compress_all_cons hs t b bs : bs ≠ [] →
  compress_all hs t (b :: bs) = compress_all (F hs b (t + 128) false) (t + 128) bs.
Proof. by destruct bs. Qed.

Lemma compress_all_app hs t bs bs' : bs' ≠ [] →
  compress_all hs t (bs ++ bs') = compress_all (compress_some hs t bs) (t + 128 * Z.of_nat (length bs)) bs'.
Proof.
  revert hs t. induction bs as [|b bs IH]; intros hs t Hne; cbn [app compress_some length].
  - by rewrite Z.mul_0_r, Z.add_0_r.
  - rewrite compress_all_cons, IH by (done || by intros [_ ?]%app_eq_nil). f_equal. lia.
Qed.

Lemma compress_some_snoc hs t bs b :
  compress_some hs t (bs ++ [b]) = F (compress_some hs t bs) b (t + 128 * Z.of_nat (length bs) + 128) false.
Proof.
  revert hs t. induction bs as [|b' bs IH]; intros hs t; cbn [app compress_some length].
  - by rewrite Z.mul_0_r, Z.add_0_r.
  - rewrite IH. f_equal. lia.
Qed.

Lemma chunks_count k l : length l = (128 * k)%nat → length (chunks 128 l) = k.
Proof.
  revert l. induction k as [|k IH]; intros l Hl; [by destruct l; [|simpl in Hl; lia]|].
  rewrite <- (take_drop 128 l), chunks_cons by (lia || rewrite length_take; lia). cbn [length]. f_equal.
  apply IH. rewrite length_drop. lia.
Qed.

Lemma chunks_snoc k l b : length l = (128 * k)%nat → length b = 128%nat →
  chunks 128 (l ++ b) = chunks 128 l ++ [b].
Proof. intros Hl Hb. rewrite (chunks_app 128 ltac:(lia) k) by done. by rewrite (chunks_last 128 ltac:(lia) b) by lia. Qed.

(** [full] has been compressed, in [k] blocks, and no block was flagged as the last. *)
Definition running (hs : list Z) (full : bytes) (k : nat) (S : blake2b_state) : Prop :=
  length full = (128 * k)%nat ∧ vec_ok 8 (h S) ∧ h S = compress_some hs 0 (chunks 128 full) ∧
  counted (128 * Z.of_nat k) S ∧ f_0 S = 0 ∧ f_1 S = 0 ∧ last_node S = 0.

(** The hash has been given [msg]: whole blocks are compressed, but never the last bytes, which are
    in the buffer. *)
Definition has (hs : list Z) (msg : bytes) (S : blake2b_state) : Prop :=
  ∃ full rest k post, msg = full ++ rest ∧ running hs full k S ∧ (k ≠ 0%nat → rest ≠ []) ∧
    buflen S = Z.of_nat (length rest) ∧ buf S = rest ++ post ∧ length (rest ++ post) = 256%nat ∧
    bytes_ok (rest ++ post).

Lemma increment_counted t S inc : counted t S → counted (t + inc) (blake2b_increment_counter S inc).
Proof.
  intros [E0 E1]. unfold blake2b_increment_counter, counted. cbn [t_0 t_1 with_t]. cbv zeta. rewrite E0, E1.
  assert (wrap 128 (u64 (t ≫ 64) ≪ 64) |' u64 t = t mod 2 ^ 128) as ->.
  { rewrite Z.lor_comm, wrap_small, lor_shift_add.
    - unfold u64, wrap. rewrite Z.shiftr_div_pow2 by lia. Z.to_euclidean_division_equations. lia.
    - lia.
    - apply u64_uint.
    - rewrite Z.shiftl_mul_pow2 by lia. pose proof (u64_uint (t ≫ 64)) as H. unfold is_uint in *. lia. }
  rewrite Z.shiftr_0_r, !Z.shiftr_div_pow2 by lia. unfold u64, wrap. rewrite Z.add_mod_idemp_l by lia.
  split; Z.to_euclidean_division_equations; lia.
Qed.

(** One compression of a block that is not the last. *)
Lemma compress_next hs full k S block post : running hs full k S → bytes_ok block → length block = 128%nat →
  bytes_ok post → buf S = block ++ post →
  ∃ S', blake2b_compress_ref (blake2b_increment_counter S BLAKE2B_BLOCKBYTES)
          (buf (blake2b_increment_counter S BLAKE2B_BLOCKBYTES)) = Some S' ∧
    running hs (full ++ block) (k + 1) S' ∧ buf S' = buf S ∧ buflen S' = buflen S.
Proof.
  intros (Hl & Hh & Eh & Hc & F0 & F1 & Hn) Hb Hbl Hp Hbuf.
  pose proof (increment_counted _ _ BLAKE2B_BLOCKBYTES Hc) as Hc'.
  cbn [buf with_t blake2b_increment_counter]. rewrite Hbuf.
  rewrite (compress_eq _ (128 * Z.of_nat k + BLAKE2B_BLOCKBYTES) false) by done.
  eexists. split; [reflexivity|]. cbn [buf buflen with_h blake2b_increment_counter with_t]. split; [|done].
  unfold running. cbn [h f_0 f_1 last_node with_h blake2b_increment_counter with_t]. split_and!; try done.
  - rewrite length_app. lia.
  - by apply F_ok.
  - rewrite (chunks_snoc k), compress_some_snoc, (chunks_count k), <- Eh by done. f_equal.
  - replace (128 * Z.of_nat (k + 1)) with (128 * Z.of_nat k + BLAKE2B_BLOCKBYTES) by (unfold BLAKE2B_BLOCKBYTES; lia).
    apply Hc'.
Qed.

Lemma update_fill_has hs msg S inp off : has hs msg S → bytes_ok inp → 0 <= off →
  off + (256 - buflen S) <= Z.of_nat (length inp) →
  ∃ S', update_fill S inp off (256 - buflen S) = Some S' ∧ buflen S' = 128 ∧
    has hs (msg ++ take (Z.to_nat (256 - buflen S)) (drop (Z.to_nat off) inp)) S'.
Proof.
  intros (full & rest & k & post & -> & Hrun & Hne & Hbl & Hbuf & H256 & Hok) Hi Ho Hl.
  rewrite length_app in H256. apply Forall_app in Hok as [Hro Hpo]. unfold update_fill, memcpy.
  rewrite Hbl in *. rewrite Hbuf, slice_ok by lia. bind_simpl. set (d := take _ (drop (Z.to_nat off) inp)).
  assert (length d = length post) as Hd by (unfold d; rewrite length_take, length_drop; lia).
  assert (bytes_ok d) as Hdo by (by apply Forall_take, Forall_drop).
  rewrite <- (app_nil_r post), blit_mid by lia. rewrite app_nil_r. bind_simpl. cbv zeta.
  assert (length (rest ++ d) = 256%nat) as Hrd by (rewrite length_app; lia).
  assert (bytes_ok (rest ++ d)) as Hrdo by (by apply Forall_app_2).
  set (b := take 128 (rest ++ d)). set (r := drop 128 (rest ++ d)).
  assert (rest ++ d = b ++ r) as Hbr by (unfold b, r; by rewrite take_drop).
  assert (length b = 128%nat ∧ length r = 128%nat) as [Hb Hr] by (unfold b, r; rewrite length_take, length_drop; lia).
  clearbody b r. rewrite Hbr in *. apply Forall_app in Hrdo as [Hbo Hr0].
  destruct (compress_next hs full k (with_buf S (b ++ r) (Z.of_nat (length rest) + (256 - Z.of_nat (length rest)))) b r)
    as (S' & E & Hrun' & Hb' & Hl'); [done..|].
  rewrite E. bind_simpl. cbn [buf buflen with_buf] in Hb', Hl'. rewrite Hb', Hl'. unfold BLAKE2B_BLOCKBYTES.
  rewrite slice_app_r by lia. rewrite Hb, slice_all by lia. bind_simpl. rewrite blit_0 by lia. bind_simpl.
  eexists. split; [reflexivity|]. split; [cbn; lia|]. exists (full ++ b), r, (k + 1)%nat, r.
  split_and!; [|done| |cbn; lia|done|rewrite length_app; lia|by apply Forall_app_2].
  - rewrite <- !app_assoc. f_equal. apply Hbr.
  - intros _ ->. simpl in Hr. lia.
Qed.

Lemma update_loop_has hs inp fuel S msg off n : bytes_ok inp → has hs msg S → 0 <= off →
  off + n = Z.of_nat (length inp) → 0 <= n →
  n + (if buflen S =? 256 then 1 else 0) < Z.of_nat fuel →
  ∃ S', update_loop fuel S inp off n = Some S' ∧ has hs (msg ++ drop (Z.to_nat off) inp) S'.
Proof.
  intros Hi. revert S msg off n.
  induction fuel as [|fuel IH]; intros S msg off n HS Ho Hn Hn0 Hf; [destruct (_ =? 256); lia|].
  cbn [update_loop]. destruct (Z.gtb_spec n 0) as [Hpos|Hz].
  2:{ exists S. split; [done|]. rewrite drop_ge by lia. by rewrite app_nil_r. }
  cbv zeta. change (2 * BLAKE2B_BLOCKBYTES) with 256.
  pose proof HS as (full & rest & k & post & -> & Hrun & Hne & Hbl & Hbuf & H256 & Hok).
  rewrite length_app in H256.
  destruct (Z.gtb_spec n (256 - buflen S)) as [Hmore|Hlast].
  - destruct (update_fill_has hs _ S inp off HS Hi Ho) as (S' & -> & Hl' & HS'); [lia|]. bind_simpl.
    destruct (IH S' _ (off + (256 - buflen S)) (n - (256 - buflen S)) HS') as (S2 & -> & H2); [lia..|rewrite Hl'; revert Hf; rewrite Hbl; destruct (Z.eqb_spec (Z.of_nat (length rest)) 256); cbn; lia|].
    exists S2. split; [done|]. rewrite <- app_assoc in H2.
    replace (drop (Z.to_nat (off + (256 - buflen S))) inp)
      with (drop (Z.to_nat (256 - buflen S)) (drop (Z.to_nat off) inp)) in H2 by (rewrite drop_drop; f_equal; lia).
    by rewrite take_drop in H2.
  - unfold memcpy. rewrite slice_ok by lia. bind_simpl. rewrite take_ge by (rewrite length_drop; lia).
    set (d := drop (Z.to_nat off) inp). assert (Z.of_nat (length d) = n) as Hd by (unfold d; rewrite length_drop; lia).
    rewrite Hbuf, Hbl in *. rewrite <- (take_drop (length d) post), blit_mid by (rewrite ?length_take; lia). bind_simpl.
    apply Forall_app in Hok as [Hro Hpo]. assert (bytes_ok d) by (by apply Forall_drop).
    rewrite Z.sub_diag. destruct fuel as [|fuel]; [destruct (_ =? 256) in Hf; lia|]. cbn [update_loop].
    eexists. split; [reflexivity|]. exists full, (rest ++ d), k, (drop (length d) post).
    split_and!; [by rewrite <- app_assoc|done| |cbn; rewrite length_app; lia|by rewrite <- app_assoc| |].
    + intros Hk [-> _]%app_eq_nil. by apply Hne.
    + rewrite !length_app, length_drop. lia.
    + rewrite <- app_assoc. repeat apply Forall_app_2; [done..|by apply Forall_drop].
Qed.

Lemma blake2b_update_has hs msg S inp : has hs msg S → bytes_ok inp →
  ∃ S', blake2b_update S inp (Z.of_nat (length inp)) = Some S' ∧ has hs (msg ++ inp) S'.
Proof.
  intros HS Hi. destruct (update_loop_has hs inp (Z.to_nat (Z.of_nat (length inp)) + 2) S msg 0 (Z.of_nat (length inp)))
    as (S' & E & H'); [done|done|lia..|destruct (_ =? 256); lia|]. eauto.
Qed.

(** ** The digest *)

Lemma final_shift_has hs msg S : has hs msg S →
  ∃ S', final_shift S = Some S' ∧ has hs msg S' ∧ buflen S' <= 128.
Proof.
  intros HS. pose proof HS as (full & rest & k & post & -> & Hrun & Hne & Hbl & Hbuf & H256 & Hok).
  rewrite length_app in H256. unfold final_shift, BLAKE2B_BLOCKBYTES at 1.
  destruct (Z.gtb_spec (buflen S) 128) as [Hgt|Hle]; [|eauto].
  assert (∃ b r, rest = b ++ r ∧ length b = 128%nat) as (b & r & -> & Hb).
  { exists (take 128 rest), (drop 128 rest). rewrite take_drop, length_take. split; [done|lia]. }
  rewrite length_app in *.
  rewrite <- app_assoc in *. apply Forall_app in Hok as [Hbo Hro].
  destruct (compress_next hs full k S b (r ++ post)) as (S' & E & Hrun' & Hb' & Hl'); [done..|].
  cbv zeta. rewrite E. bind_simpl. rewrite Hb', Hl', Hbuf, Hbl. unfold BLAKE2B_BLOCKBYTES, memcpy.
  replace (Z.of_nat (length b + length r) - 128) with (Z.of_nat (length r)) by lia.
  replace (Z.of_nat (length r) <=? 128) with true by lia.
  rewrite slice_app_r by lia. rewrite Hb, Z.sub_diag, slice_app_0 by done. bind_simpl.
  apply Forall_app in Hro as [Hro Hpo].
  rewrite <- (take_drop (length r) (b ++ r ++ post)), blit_0 by (rewrite length_take, !length_app; lia). bind_simpl.
  eexists. split; [reflexivity|]. split; [|cbn; lia].
  exists (full ++ b), r, (k + 1)%nat, (drop (length r) (b ++ r ++ post)).
  split_and!; [by rewrite <- app_assoc|done| |done|done| |].
  - intros _ ->. cbn in *. lia.
  - rewrite length_app, length_drop, !length_app. lia.
  - apply Forall_app_2; [done|]. apply Forall_drop. by repeat apply Forall_app_2.
Qed.

Lemma final_blocks hs full rest k : length full = (128 * k)%nat → (length rest <= 128)%nat → (k ≠ 0%nat → rest ≠ []) →
  compress_all hs 0 (chunks 128 (full ++ rest)) =
    F (compress_some hs 0 (chunks 128 full)) (pad_block rest) (128 * Z.of_nat k + Z.of_nat (length rest)) true.
Proof.
  intros Hf Hr Hne. destruct (decide (rest = [])) as [->|Hr0].
  - assert (k = 0%nat) as -> by (destruct k; [done|by exfalso; apply Hne]).
    destruct full; [done|simpl in Hf; lia].
  - assert (0 < length rest)%nat by (destruct rest; [done|cbn; lia]).
    rewrite (chunks_app 128 ltac:(lia) k), (chunks_last 128 ltac:(lia) rest), compress_all_app by (done || lia).
    cbn [compress_all]. rewrite (chunks_count k) by done. f_equal.
Qed.

Definition digest (hs : list Z) (outlen : nat) (msg : bytes) : bytes :=
  take outlen (compress_all hs 0 (chunks 128 msg) ≫= le64_bytes).

Lemma pad_block_ok b : bytes_ok b → (length b <= 128)%nat → bytes_ok (pad_block b) ∧ length (pad_block b) = 128%nat.
Proof.
  intros Hb Hl. unfold pad_block. split; [apply Forall_app_2; [done|by apply Forall_replicate]|].
  rewrite length_app, length_replicate. lia.
Qed.

Lemma store_digest x out outlen : vec_ok 8 x → 1 <= outlen <= 64 → (Z.to_nat outlen <= length out)%nat →
  ∃ o, stores store64_le 8 (take 8 x) (replicate 64 0) 0 = Some o ∧
    slice o 0 outlen = Some (take (Z.to_nat outlen) (x ≫= le64_bytes)) ∧
    blit out 0 (take (Z.to_nat outlen) (x ≫= le64_bytes)) =
      Some (take (Z.to_nat outlen) (x ≫= le64_bytes) ++ drop (Z.to_nat outlen) out).
Proof.
  intros [Hl Hx] Ho Hout. exists (x ≫= le64_bytes). rewrite take_ge by lia.
  assert (length (x ≫= le64_bytes) = 64%nat) as Hb by (rewrite (bind_enc_length le64_bytes 8), Hl by done; done).
  split_and!.
  - pose proof (stores_words store64_le le64_bytes 8 ltac:(done)
      ltac:(intros; rewrite store64_le_eq; by apply le64_write_mid) x [] (replicate 64 0) [] 0) as E.
    cbn [app] in E. rewrite !app_nil_r in E. apply E; [done|by rewrite Hl].
  - rewrite slice_ok by lia. by rewrite drop_0.
  - rewrite <- (take_drop (Z.to_nat outlen) out) at 1. apply blit_0. rewrite !length_take. lia.
Qed.

Lemma blake2b_final_has hs msg S out outlen : has hs msg S → 1 <= outlen <= 64 → (Z.to_nat outlen <= length out)%nat →
  ∃ S', blake2b_final S out outlen = Some (0, S', digest hs (Z.to_nat outlen) msg ++ drop (Z.to_nat outlen) out).
Proof.
  intros HS Ho Hout. unfold blake2b_final, bad_outlen, BLAKE2B_OUTBYTES.
  replace ((outlen =? 0) || (outlen >? 64)) with false by lia.
  replace (blake2b_is_lastblock S) with false.
  2:{ destruct HS as (? & ? & ? & ? & _ & (_ & _ & _ & _ & F0 & _) & _). unfold blake2b_is_lastblock. by rewrite F0. }
  destruct (final_shift_has hs msg S HS) as (S' & -> & HS' & Hl). bind_simpl. clear HS S.
  destruct HS' as (full & rest & k & post & -> & (Hf & Hh & Eh & Hc & F0 & F1 & Hn) & Hne & Hbl & Hbuf & H256 & Hok).
  rewrite length_app in H256. apply Forall_app in Hok as [Hro Hpo].
  pose proof (increment_counted _ _ (buflen S') Hc) as Hc'. set (S1 := blake2b_increment_counter S' (buflen S')) in *.
  cbv zeta. unfold blake2b_set_lastblock. replace (last_node S1) with 0 by done. cbn [Z.eqb negb].
  cbn [buf with_f buflen]. replace (buf S1) with (buf S') by done. replace (buflen S1) with (buflen S') by done.
  change (2 * BLAKE2B_BLOCKBYTES) with 256. rewrite Hbuf, Hbl in *. unfold fill.
  rewrite <- (app_nil_r post), blit_mid by (rewrite ?length_replicate; lia). rewrite app_nil_r. bind_simpl.
  replace (rest ++ replicate (Z.to_nat (256 - Z.of_nat (length rest))) 0) with (pad_block rest ++ replicate 128 0).
  2:{ unfold pad_block. rewrite <- app_assoc, <- replicate_add. do 2 f_equal. lia. }
  cbn [buf with_buf buflen]. rewrite (compress_eq _ (128 * Z.of_nat k + Z.of_nat (length rest)) true); try done.
  - bind_simpl. cbn [h with_h]. replace (h _) with (h S') by done. rewrite Eh. rewrite <- final_blocks by (done || lia).
    destruct (store_digest (compress_all hs 0 (chunks 128 (full ++ rest))) out outlen) as (o & E1 & E2 & E3); [|done..|].
    { rewrite (final_blocks hs full rest k) by (done || lia). rewrite <- Eh. apply F_ok; [done|]. apply pad_block_ok; (done || lia). }
    rewrite E1. bind_simpl. rewrite E2. bind_simpl. rewrite E3. bind_simpl. eexists. reflexivity.
  - by apply pad_block_ok; [|lia].
  - apply pad_block_ok; [done|lia].
  - by apply Forall_replicate.
Qed.

(** ** Hashing *)

Lemma param_h_ok outlen keylen s p : is_u8 outlen → is_u8 keylen → bytes_ok s → bytes_ok p →
  vec_ok 8 (param_h outlen keylen s p).
Proof.
  intros Ho Hk Hs Hp. apply zip_lxor_vec; [split; by_computation|]. apply words64_vec.
  apply Forall_app_2; [by repeat (apply Forall_cons_2; [done|]); apply Forall_nil_2|].
  apply Forall_app_2; [by apply Forall_replicate|]. by apply Forall_app_2.
Qed.

Lemma param_ok outlen keylen s p : is_u8 outlen → is_u8 keylen → length s = 16%nat → length p = 16%nat →
  bytes_ok s → bytes_ok p →
  let P := {| digest_length := outlen; key_length := keylen; fanout := 1; depth := 1;
     leaf_length := le32_bytes 0; node_offset := le64_bytes 0; node_depth := 0; inner_length := 0;
     reserved := replicate 14 0; salt := s; personal := p |} in
  ∃ S, blake2b_init_param P = Some S ∧ has (param_h outlen keylen s p) [] S ∧ vec_ok 8 (param_h outlen keylen s p).
Proof.
  intros Ho Hk Hsl Hpl Hs Hp P.
  set (pb := [outlen; keylen; 1; 1] ++ replicate 28 0 ++ s ++ p).
  assert (param_bytes P = pb) as Epb by done.
  assert (length pb = 64%nat) as Hl by (unfold pb; rewrite !length_app, Hsl, Hpl; done).
  assert (bytes_ok pb) as Hb.
  { unfold pb. apply Forall_app_2; [by repeat (apply Forall_cons_2; [done|]); apply Forall_nil_2|]. apply Forall_app_2; [by apply Forall_replicate|].
    by apply Forall_app_2. }
  unfold blake2b_init_param. rewrite Epb. rewrite (loads_words load64_le 8) by
    (done || (intros; rewrite load64_le_eq; by apply le64_read_val) || lia).
  bind_simpl. rewrite drop_0.
  assert (vec_ok 8 (param_h outlen keylen s p)) as Hv by (by apply param_h_ok).
  eexists. split; [reflexivity|]. split; [|done].
  exists [], [], 0%nat, (replicate 256 0). split_and!; try done.
  by apply Forall_replicate.
Qed.

(** The key, if there is one, is a first block of its own. *)
Definition keyed_prefix (key : bytes) : bytes := if bool_decide (key = []) then [] else pad_block key.

Lemma init_key_param_has P S hs key : blake2b_init_param P = Some S → has hs [] S → bytes_ok key →
  (0 < length key <= 64)%nat →
  ∃ S', init_key_param P key (Z.of_nat (length key)) = Some S' ∧ has hs (keyed_prefix key) S'.
Proof.
  intros ES HS Hk Hl. unfold init_key_param, keyed_prefix. rewrite ES. bind_simpl.
  rewrite bool_decide_false by (intros ->; simpl in Hl; lia). rewrite slice_all by done. bind_simpl.
  pose proof (blit_replicate key 128 0 []) as E. rewrite !app_nil_r in E. rewrite E by lia. bind_simpl.
  fold (pad_block key). destruct (pad_block_ok key Hk) as [Hp1 Hp2]; [lia|].
  destruct (blake2b_update_has _ [] S (pad_block key) HS Hp1) as (S' & EU & HS').
  rewrite Hp2 in EU. change (Z.of_nat 128) with BLAKE2B_BLOCKBYTES in EU. eauto.
Qed.

(** The [init] of a keyed or unkeyed hash. *)
Definition init_any (outlen : Z) (key : bytes) : option blake2b_state :=
  if Z.of_nat (length key) >? 0 then blake2b_init_key outlen (Some key) (Z.of_nat (length key))
  else blake2b_init outlen.

Lemma init_any_has outlen key : 1 <= outlen <= 64 → bytes_ok key → (length key <= 64)%nat →
  ∃ S, init_any outlen key = Some S ∧
    has (param_h outlen (Z.of_nat (length key)) zero16 zero16) (keyed_prefix key) S ∧
    vec_ok 8 (param_h outlen (Z.of_nat (length key)) zero16 zero16).
Proof.
  intros Ho Hk Hl. unfold init_any, blake2b_init_key, blake2b_init, bad_outlen, bad_key,
    BLAKE2B_OUTBYTES, BLAKE2B_KEYBYTES.
  replace ((outlen =? 0) || (outlen >? 64)) with false by lia.
  destruct (param_ok outlen (Z.of_nat (length key)) zero16 zero16) as (S & ES & HS & Hv);
    try done; try (by apply Forall_replicate); try (split; lia).
  destruct (Z.gtb_spec (Z.of_nat (length key)) 0) as [Hpos|H0].
  - replace ((Z.of_nat (length key) =? 0) || (Z.of_nat (length key) >? 64)) with false by lia. bind_simpl.
    unfold sequential_param. fold zero16.
    destruct (init_key_param_has _ S _ key ES HS Hk) as (S' & -> & HS'); [lia|]. eauto.
  - assert (key = []) as -> by (destruct key; [done|simpl in H0; lia]).
    unfold keyed_prefix. rewrite bool_decide_true by done. eauto.
Qed.

(** The same with a salt and a personalisation. *)
Lemma init_salt_has outlen key s p : 1 <= outlen <= 64 → bytes_ok key → (length key <= 64)%nat →
  length s = 16%nat → bytes_ok s → length p = 16%nat → bytes_ok p →
  ∃ S, (if Z.of_nat (length key) >? 0
        then blake2b_init_key_salt_personal outlen (Some key) (Z.of_nat (length key)) (Some s) (Some p)
        else blake2b_init_salt_personal outlen (Some s) (Some p)) = Some S ∧
    has (param_h outlen (Z.of_nat (length key)) s p) (keyed_prefix key) S.
Proof.
  intros Ho Hk Hl Hsl Hs Hpl Hp.
  unfold blake2b_init_key_salt_personal, blake2b_init_salt_personal, bad_outlen, bad_key, set_salt_personal,
    blake2b_param_set_salt, blake2b_param_set_personal, BLAKE2B_OUTBYTES, BLAKE2B_KEYBYTES.
  replace ((outlen =? 0) || (outlen >? 64)) with false by lia.
  rewrite !slice_all by (rewrite ?Hsl, ?Hpl; done). bind_simpl.
  destruct (param_ok outlen (Z.of_nat (length key)) s p) as (S & ES & HS & _); try done; try (split; lia).
  destruct (Z.gtb_spec (Z.of_nat (length key)) 0) as [Hpos|H0].
  - replace ((Z.of_nat (length key) =? 0) || (Z.of_nat (length key) >? 64)) with false by lia. bind_simpl.
    destruct (init_key_param_has _ S _ key ES HS Hk) as (S' & E & HS'); [lia|]. exists S'. by split; [exact E|].
  - assert (key = []) as -> by (destruct key; [done|simpl in H0; lia]).
    unfold keyed_prefix. rewrite bool_decide_true by done. exists S. by split; [exact ES|].
Qed.

Fixpoint updates (S : blake2b_state) (ms : list bytes) : option blake2b_state :=
  match ms with
  | [] => Some S
  | m :: ms => S ← blake2b_update S m (Z.of_nat (length m)); updates S ms
  end.

Lemma updates_has hs msg S ms : has hs msg S → Forall bytes_ok ms →
  ∃ S', updates S ms = Some S' ∧ has hs (msg ++ mjoin ms) S'.
Proof.
  intros HS Hms. revert msg S HS. induction Hms as [|m ms Hm Hms IH]; intros msg S HS.
  - exists S. by rewrite app_nil_r.
  - cbn [updates]. destruct (blake2b_update_has hs msg S m HS Hm) as (S1 & -> & H1). bind_simpl.
    destruct (IH _ _ H1) as (S' & -> & H2). exists S'. split; [done|]. by rewrite <- app_assoc in H2.
Qed.

Lemma blake2b_hash_digest outlen key inp : (1 <= outlen <= 64)%nat →
  blake2b_hash outlen key inp zero16 zero16 =
    digest (param_h (Z.of_nat outlen) (Z.of_nat (length key)) zero16 zero16) outlen (keyed_prefix key ++ inp).
Proof. done. Qed.

Lemma generichash_salt_eq out inp key outlen s p : 1 <= outlen <= 64 → bytes_ok key → (length key <= 64)%nat →
  bytes_ok inp → Z.of_nat (length inp) < 2 ^ 64 → (Z.to_nat outlen <= length out)%nat →
  length s = 16%nat → bytes_ok s → length p = 16%nat → bytes_ok p →
  crypto_generichash_blake2b_salt_personal (Some out) (Some inp) (Some key) outlen (Z.of_nat (length inp))
    (Z.of_nat (length key)) (Some s) (Some p) =
    Some (0, Some (blake2b_hash (Z.to_nat outlen) key inp s p ++ drop (Z.to_nat outlen) out)).
Proof.
  intros Ho Hk Hkl Hi Hil Hout Hsl Hs Hpl Hp.
  unfold crypto_generichash_blake2b_salt_personal, bad_lengths, BLAKE2B_OUTBYTES, BLAKE2B_KEYBYTES.
  replace (_ || _) with false by lia. rewrite !u8_small by (unfold is_uint; lia).
  unfold blake2b_salt_personal, blake2b_check, bad_outlen, BLAKE2B_OUTBYTES, BLAKE2B_KEYBYTES.
  replace (_ || _) with false by lia.
  destruct (init_salt_has outlen key s p Ho Hk Hkl Hsl Hs Hpl Hp) as (S & -> & HS). bind_simpl.
  change (default [] (Some inp)) with inp.
  destruct (blake2b_update_has _ _ S inp HS Hi) as (S' & -> & HS'). bind_simpl.
  destruct (blake2b_final_has _ _ S' out outlen HS' Ho Hout) as (S2 & ->). bind_simpl.
  unfold blake2b_hash. rewrite Z2Nat.id by lia. done.
Qed.

Lemma generichash_eq out inp key outlen : 1 <= outlen <= 64 → bytes_ok key → (length key <= 64)%nat → bytes_ok inp →
  Z.of_nat (length inp) < 2 ^ 64 → (Z.to_nat outlen <= length out)%nat →
  crypto_generichash_blake2b (Some out) (Some inp) (Some key) outlen (Z.of_nat (length inp)) (Z.of_nat (length key)) =
    Some (0, Some (blake2b_hash (Z.to_nat outlen) key inp zero16 zero16 ++ drop (Z.to_nat outlen) out)).
Proof.
  intros Ho Hk Hkl Hi Hil Hout. unfold crypto_generichash_blake2b, bad_lengths, BLAKE2B_OUTBYTES, BLAKE2B_KEYBYTES.
  replace (_ || _) with false by lia. rewrite !u8_small by (unfold is_uint; lia). unfold blake2b, blake2b_check, bad_outlen,
    BLAKE2B_OUTBYTES, BLAKE2B_KEYBYTES. replace (_ || _) with false by lia.
  fold (init_any outlen key).
  destruct (init_any_has outlen key Ho Hk Hkl) as (S & -> & HS & _). bind_simpl. change (default [] (Some inp)) with inp.
  destruct (blake2b_update_has _ _ S inp HS Hi) as (S' & -> & HS'). bind_simpl.
  destruct (blake2b_final_has _ _ S' out outlen HS' Ho Hout) as (S2 & ->). bind_simpl.
  rewrite blake2b_hash_digest by lia. by rewrite Z2Nat.id by lia.
Qed.

(** With no key the pointer is not looked at. *)
Lemma generichash_null_key out inp key outlen inlen :
  crypto_generichash_blake2b out inp NULL outlen inlen 0 = crypto_generichash_blake2b out inp (Some key) outlen inlen 0.
Proof. done. Qed.

Lemma generichash_refused out inp key outlen inlen keylen : outlen <= 0 ∨ 64 < outlen ∨ 64 < keylen →
  crypto_generichash_blake2b out inp key outlen inlen keylen = Some (-1, out).
Proof.
  intros Hbad. unfold crypto_generichash_blake2b, bad_lengths, BLAKE2B_OUTBYTES, BLAKE2B_KEYBYTES.
  by replace ((outlen <=? 0) || (outlen >? 64) || (keylen >? 64)) with true by lia.
Qed.

(** ** Properties *)

(** C21: The streaming hash computes BLAKE2b of RFC 7693 of the concatenation of its updates, however the
    input is cut: with the key as a padded first block, the last block flagged and never
    compressed early, a 128-bit byte counter, and the first [outlen] bytes of the state as the
    digest; the rest of the output buffer is untouched.  The one-shot [crypto_generichash]
    returns the same digest, with an empty key also when the key pointer is NULL, and it refuses
    with -1, leaving the output alone, every output length outside 1 to 64 and every key length
    above 64, whatever the other arguments.  A round of the compression mixes the columns and then
    the diagonals of the matrix of words, as the RFC has it, and the initial vector holds the
    fractional parts of the square roots of the first eight primes. *)
Theorem blake2b_rfc7693 outlen key ms out :
  1 <= outlen <= 64 → bytes_ok key → (length key <= 64)%nat → Forall bytes_ok ms →
  Z.of_nat (length (mjoin ms)) < 2 ^ 64 → (Z.to_nat outlen <= length out)%nat →
  let d := blake2b_hash (Z.to_nat outlen) key (mjoin ms) zero16 zero16 ++ drop (Z.to_nat outlen) out in
  (∃ S, (S ← init_any outlen key; S ← updates S ms; blake2b_final S out outlen) = Some (0, S, d)) ∧
  crypto_generichash_blake2b (Some out) (Some (mjoin ms)) (Some key) outlen
    (Z.of_nat (length (mjoin ms))) (Z.of_nat (length key)) = Some (0, Some d) ∧
  (key = [] → crypto_generichash_blake2b (Some out) (Some (mjoin ms)) NULL outlen
    (Z.of_nat (length (mjoin ms))) 0 = Some (0, Some d)) ∧
  (∀ o inp k ol il kl, ol <= 0 ∨ 64 < ol ∨ 64 < kl →
    crypto_generichash_blake2b o inp k ol il kl = Some (-1, o)) ∧
  (∀ m r row v, vec_ok 16 m → blake2b_sigma.[r] = Some row → vec_ok 16 v →
    ROUND m r v = Some (rfc_round m row v)) ∧
  blake2b_IV = (λ p, Z.sqrt (p * 2 ^ 128) mod 2 ^ 64) <$> [2; 3; 5; 7; 11; 13; 17; 19].
Proof.
  intros Ho Hk Hkl Hms Hil Hout. cbv zeta. split_and!.
  - destruct (init_any_has outlen key Ho Hk Hkl) as (S & -> & HS & _). bind_simpl.
    destruct (updates_has _ _ S ms HS Hms) as (S' & -> & HS'). bind_simpl.
    destruct (blake2b_final_has _ _ S' out outlen HS' Ho Hout) as (S2 & ->).
    rewrite blake2b_hash_digest by lia. rewrite Z2Nat.id by lia. eauto.
  - apply generichash_eq; try done. by apply Forall_join.
  - intros ->. rewrite (generichash_null_key _ _ []).
    apply (generichash_eq out (mjoin ms) []); try done. by apply Forall_join.
  - apply generichash_refused.
  - apply ROUND_rows.
  - by vm_compute.
Qed.

Lemma blake2b_rfc7693_witness :
  let d := blake2b_hash (Z.to_nat 32) [1; 2; 3] (mjoin [replicate 100 7; replicate 200 8; [9]]) zero16 zero16
           ++ drop (Z.to_nat 32) (replicate 40 5) in
  (∃ S, (S ← init_any 32 [1; 2; 3]; S ← updates S [replicate 100 7; replicate 200 8; [9]];
         blake2b_final S (replicate 40 5) 32) = Some (0, S, d)) ∧
  crypto_generichash_blake2b (Some (replicate 40 5)) (Some (mjoin [replicate 100 7; replicate 200 8; [9]]))
    (Some [1; 2; 3]) 32 (Z.of_nat (length (mjoin [replicate 100 7; replicate 200 8; [9]])))
    (Z.of_nat (length [1; 2; 3])) = Some (0, Some d) ∧
  crypto_generichash_blake2b (Some (replicate 40 5)) (Some [7]) NULL 32 1 0 =
    Some (0, Some (blake2b_hash 32 [] [7] zero16 zero16 ++ replicate 8 5)) ∧
  crypto_generichash_blake2b (Some [5]) (Some [7]) (Some (replicate 65 0)) 32 1 65 = Some (-1, Some [5]).
Proof.
  intros d.
  destruct (blake2b_rfc7693 32 [1; 2; 3] [replicate 100 7; replicate 200 8; [9]] (replicate 40 5))
    as (H1 & H2 & _ & H4 & _); [by_computation..|].
  destruct (blake2b_rfc7693 32 [] [[7]] (replicate 40 5)) as (_ & _ & H3 & _); [by_computation..|].
  split; [exact H1|]. split; [exact H2|]. split; [exact (H3 eq_refl)|]. apply H4. lia.
Defined.
