(* ===== verification/Libsodium.v ===== *)
(** * The daemon's primitives are the ones of libsodium

    The class [Sodium], against which the daemon is proved, is given the functions of
    libsodium whose code is modelled: ChaCha20-Poly1305, BLAKE2b and X25519.
    [libsodium_laws] shows that every law the daemon relies on holds of them, and
    [libsodium_refines] that the C functions return what the instance says. *)

From S2P Require Import Prelude Packet Sodium Words Chacha20 Poly1305 Fe25519 Curve25519 Ge25519 Base25519.
From S2P Require Import Basepoint Agreement Aead Blake2b.
Local Open Scope c_scope.

(** The first [n] bytes at an address, as the code reads them. *)
Definition octets (n : nat) (b : bytes) : bytes := take n ((u8 <$> b) ++ replicate n 0).

Lemma octets_length n b : length (octets n b) = n.
Proof. unfold octets. rewrite length_take, length_app, length_replicate. lia. Qed.
Lemma fmap_u8_ok b : bytes_ok (u8 <$> b).
Proof. apply Forall_fmap, Forall_true. intros x. apply u8_uint. Qed.
Lemma octets_ok n b : bytes_ok (octets n b).
Proof. apply Forall_take, Forall_app_2; [apply fmap_u8_ok|by apply Forall_replicate]. Qed.
Lemma fmap_u8_id b : bytes_ok b → u8 <$> b = b.
Proof. induction 1 as [|x b Hx Hb IH]; [done|]. cbn. by rewrite u8_small, IH. Qed.
Lemma octets_id n b : bytes_ok b → length b = n → octets n b = b.
Proof. intros Hb <-. unfold octets. by rewrite fmap_u8_id, take_app_length. Qed.

(** X25519: a point of small order is refused, a result of zero reported. *)
Definition x25519_bytes (a p : bytes) : Z * bytes :=
  let u := decode_u (octets 32 p) in
  if bool_decide (u ∈ small_order) then (-1, [])
  else let r := x25519 (decode_scalar (octets 32 a)) u in (if r =? 0 then -1 else 0, le_bytes 32 r).
Definition base_bytes (a : bytes) : bytes := le_bytes 32 (x25519 (decode_scalar (octets 32 a)) 9).

#[global] Instance libsodium : Sodium := {
  sodium_init := 0;
  crypto_aead_chacha20poly1305_ietf_encrypt_detached m ad n k :=
    let '(c, tag) := seal_ietf (octets 32 k) (octets 12 n) ad m in mk_aead_out 0 c tag 16;
  crypto_aead_chacha20poly1305_ietf_decrypt_detached c mac ad n k :=
    match open_ietf (octets 32 k) (octets 12 n) ad c mac with
    | Some p => (0, p)
    | None => (-1, replicate (length c) 0)
    end;
  crypto_generichash outlen inp key :=
    if bad_lengths outlen (Z.of_nat (length key)) then (-1, [])
    else (0, blake2b_hash (Z.to_nat outlen) (u8 <$> key) (u8 <$> inp) zero16 zero16);
  crypto_scalarmult := x25519_bytes;
  crypto_scalarmult_base := base_bytes;
  crypto_box_keypair rand := (0, base_bytes rand, rand)
}.

(** ** The digest has the length asked for *)

Lemma chunks_fuel_ok fuel n l : bytes_ok l → Forall bytes_ok (chunks_fuel fuel n l).
Proof.
  revert l. induction fuel as [|fuel IH]; intros [|x l] Hl; cbn [chunks_fuel]; try apply Forall_nil_2.
  apply Forall_cons_2; [by apply Forall_take|]. apply IH. by apply Forall_drop.
Qed.

Lemma compress_all_ok hs t bs : vec_ok 8 hs → Forall bytes_ok bs → vec_ok 8 (compress_all hs t bs).
Proof.
  intros Hh Hbs. revert hs t Hh. induction Hbs as [|b bs Hb Hbs IH]; intros hs t Hh.
  - apply F_ok; [done|]. by apply Forall_replicate.
  - destruct bs as [|b' bs]; cbn [compress_all].
    + apply F_ok; [done|]. apply Forall_app_2; [done|by apply Forall_replicate].
    + apply IH. by apply F_ok.
Qed.

Lemma blake2b_hash_length outlen key inp : (outlen <= 64)%nat → bytes_ok key → (length key <= 64)%nat →
  bytes_ok inp → length (blake2b_hash outlen key inp zero16 zero16) = outlen.
Proof.
  intros Ho Hk Hkl Hi. unfold blake2b_hash. rewrite length_take, (bind_enc_length le64_bytes 8) by done.
  destruct (compress_all_ok (param_h (Z.of_nat outlen) (Z.of_nat (length key)) zero16 zero16) 0
    (chunks 128 ((if bool_decide (key = []) then [] else pad_block key) ++ inp))) as [-> _]; [..|lia].
  - apply param_h_ok; (split; lia) || (by apply Forall_replicate) || done.
  - apply chunks_fuel_ok, Forall_app_2; [|done]. case_bool_decide; [done|].
    apply Forall_app_2; [done|by apply Forall_replicate].
Qed.

Lemma blake2b_hash_ok outlen key inp s p : bytes_ok (blake2b_hash outlen key inp s p).
Proof. apply Forall_take, Forall_bind, Forall_true. intros x. apply le64_bytes_ok. Qed.

(** ** The laws *)

(** The ladder on a public key neither refuses it nor arrives at zero. *)
Lemma x25519_bytes_base a b : x25519_bytes a (base_bytes b) =
  (0, le_bytes 32 (x25519 (decode_scalar (octets 32 a)) (x25519 (decode_scalar (octets 32 b)) 9))).
Proof.
  unfold x25519_bytes, base_bytes.
  rewrite (octets_id 32 (le_bytes _ _)), decode_public by (apply le_bytes_ok || apply le_bytes_length).
  rewrite bool_decide_false by apply public_not_small. cbv zeta.
  destruct (Z.eqb_spec (x25519 (decode_scalar (octets 32 a)) (x25519 (decode_scalar (octets 32 b)) 9)) 0) as [E|E];
    [by apply agreement_nz in E|done].
Qed.

#[global] Instance libsodium_laws : SodiumLaws libsodium.
Proof.
  assert (∀ n k ic, is_u32 ic → ctx_ok (ietf_ctx (octets 32 k) (octets 12 n) ic)) as Hctx.
  { intros. by apply ietf_ctx_ok; auto using octets_length, octets_ok. }
  split; cbn -[octets seal_ietf open_ietf blake2b_hash fmap x25519_bytes base_bytes].
  - done.
  - intros m ad n k _ _. cbn. rewrite xor_stream_length by (by apply Hctx). done.
  - intros m ad n k _ _.
    pose proof (open_seal_ietf (octets 32 k) (octets 12 n) ad m (octets_length _ _) (octets_ok _ _)
      (octets_length _ _) (octets_ok _ _)) as E.
    destruct (seal_ietf (octets 32 k) (octets 12 n) ad m) as [c t]. cbn [fst snd ae_c ae_mac] in *. by rewrite E.
  - intros c mac ad n k. unfold open_ietf. case_bool_decide; cbn; [|apply length_replicate].
    by apply xor_stream_length, Hctx.
  - intros c mac ad n k rc m. destruct (open_ietf _ _ _ _ _); by intros [= <- <-].
  - intros m ad n k Hm. cbn. split; [by apply xor_stream_ok|apply poly1305_mac_ok].
  - intros c mac ad n k Hc. unfold open_ietf. case_bool_decide; cbn; [by apply xor_stream_ok|by apply Forall_replicate].
  - intros outlen inp key. case_match; cbn -[blake2b_hash]; [constructor|apply blake2b_hash_ok].
  - intros outlen inp key Ho Hk. unfold bad_lengths, BLAKE2B_OUTBYTES, BLAKE2B_KEYBYTES.
    replace (_ || _) with false by lia. cbn -[blake2b_hash]. split; [done|].
    rewrite blake2b_hash_length by (lia || (rewrite length_fmap; lia) || apply fmap_u8_ok). lia.
  - done.
  - intros a Ha. split; [apply le_bytes_length|apply le_bytes_ok].
  - intros a p. unfold x25519_bytes. case_bool_decide; [done|]. intros _. apply le_bytes_length.
  - intros a p. unfold x25519_bytes. case_bool_decide; cbn [snd length]; [lia|]. by rewrite le_bytes_length.
  - intros a b _ _. by rewrite x25519_bytes_base.
  - intros a b _ _. by rewrite !x25519_bytes_base, agreement.
Qed.

(** ** The C functions return what the instance says *)

Lemma encrypt_code m ad n k c mac : length k = 32%nat → bytes_ok k → length n = 12%nat → bytes_ok n →
  bytes_ok ad → Z.of_nat (length ad) < 2 ^ 64 → bytes_ok m → fits m → length c = length m → length mac = 16%nat →
  let r := @crypto_aead_chacha20poly1305_ietf_encrypt_detached libsodium m ad n k in
  ietf_encrypt_detached c mac m (Z.of_nat (length m)) ad (Z.of_nat (length ad)) n k =
    Some (ae_rc r, ae_c r, ae_mac r, ae_maclen r).
Proof.
  cbv zeta. intros. unfold crypto_aead_chacha20poly1305_ietf_encrypt_detached, libsodium.
  rewrite !octets_id by done. rewrite ietf_encrypt_detached_eq by done.
  by destruct (seal_ietf k n ad m).
Qed.

Lemma decrypt_code c mac ad n k p : length k = 32%nat → bytes_ok k → length n = 12%nat → bytes_ok n →
  bytes_ok ad → Z.of_nat (length ad) < 2 ^ 64 → bytes_ok c → fits c → bytes_ok mac → length mac = 16%nat →
  length p = length c →
  let r := @crypto_aead_chacha20poly1305_ietf_decrypt_detached libsodium c mac ad n k in
  ietf_decrypt_detached (Some p) c (Z.of_nat (length c)) mac ad (Z.of_nat (length ad)) n k = Some (r.1, Some r.2).
Proof.
  cbv zeta. intros Hkl Hk Hnl Hn Had Hadl Hc Hf Hm Hml Hp.
  unfold crypto_aead_chacha20poly1305_ietf_decrypt_detached, libsodium.
  rewrite !octets_id by done. rewrite ietf_decrypt_detached_eq by (done || lia).
  rewrite <- Hp, drop_all. destruct (open_ietf k n ad c mac); by rewrite app_nil_r.
Qed.

Lemma generichash_code outlen inp key out : 1 <= outlen <= 64 → bytes_ok key → (length key <= 64)%nat →
  bytes_ok inp → Z.of_nat (length inp) < 2 ^ 64 → Z.of_nat (length out) = outlen →
  let r := @crypto_generichash libsodium outlen inp key in
  crypto_generichash_blake2b (Some out) (Some inp) (Some key) outlen (Z.of_nat (length inp)) (Z.of_nat (length key)) =
    Some (r.1, Some r.2).
Proof.
  cbv zeta. intros Ho Hk Hkl Hi Hil Hout. unfold crypto_generichash, libsodium.
  unfold bad_lengths, BLAKE2B_OUTBYTES, BLAKE2B_KEYBYTES. replace (_ || _) with false by lia.
  rewrite generichash_eq by (done || lia). rewrite !fmap_u8_id by done. cbn [fst snd].
  by rewrite drop_ge, app_nil_r by lia.
Qed.

Lemma scalarmult_code q n p : length q = 32%nat → length n = 32%nat → bytes_ok n →
  length p = 32%nat → bytes_ok p →
  let r := @crypto_scalarmult libsodium n p in
  crypto_scalarmult_curve25519 q n p = Some (r.1, r.2 ++ drop (length r.2) q).
Proof.
  cbv zeta. intros Hq Hn Hnb Hp Hpb. rewrite curve25519_eq by done.
  unfold crypto_scalarmult, libsodium, x25519_bytes. rewrite !octets_id by done.
  case_bool_decide; cbn [fst snd]; [done|]. by rewrite le_bytes_length, drop_ge, app_nil_r by lia.
Qed.

Lemma base_mult_code q n : length q = 32%nat → length n = 32%nat → bytes_ok n →
  crypto_scalarmult_curve25519_base q n = Some (0, @crypto_scalarmult_base libsodium n).
Proof.
  intros Hq Hn Hnb. rewrite base_eq by done.
  unfold crypto_scalarmult_base, libsodium, base_bytes. by rewrite octets_id.
Qed.

(** ** Properties *)

(** C16: The AEAD and the hash of the daemon's interface are what libsodium's code computes: on the
    lengths the daemon uses, encryption, decryption and hashing return the codes and the
    bytes that the instance gives, and so do both multiplications of X25519 (a refused
    point leaves the buffer as it was); and the instance satisfies every law the daemon's
    theorems assume, Diffie-Hellman agreement included. *)
Theorem libsodium_refines m ad n k c mac ct tag p outlen inp key out q sk pk :
  length k = 32%nat → bytes_ok k → length n = 12%nat → bytes_ok n →
  bytes_ok ad → Z.of_nat (length ad) < 2 ^ 64 →
  bytes_ok m → fits m → length c = length m → length mac = 16%nat →
  bytes_ok ct → fits ct → bytes_ok tag → length tag = 16%nat → length p = length ct →
  1 <= outlen <= 64 → bytes_ok key → (length key <= 64)%nat → bytes_ok inp → Z.of_nat (length inp) < 2 ^ 64 →
  Z.of_nat (length out) = outlen →
  length q = 32%nat → length sk = 32%nat → bytes_ok sk → length pk = 32%nat → bytes_ok pk →
  let e := @crypto_aead_chacha20poly1305_ietf_encrypt_detached libsodium m ad n k in
  let d := @crypto_aead_chacha20poly1305_ietf_decrypt_detached libsodium ct tag ad n k in
  let g := @crypto_generichash libsodium outlen inp key in
  let r := @crypto_scalarmult libsodium sk pk in
  SodiumLaws libsodium ∧
  ietf_encrypt_detached c mac m (Z.of_nat (length m)) ad (Z.of_nat (length ad)) n k =
    Some (ae_rc e, ae_c e, ae_mac e, ae_maclen e) ∧
  ietf_decrypt_detached (Some p) ct (Z.of_nat (length ct)) tag ad (Z.of_nat (length ad)) n k =
    Some (d.1, Some d.2) ∧
  crypto_generichash_blake2b (Some out) (Some inp) (Some key) outlen (Z.of_nat (length inp)) (Z.of_nat (length key)) =
    Some (g.1, Some g.2) ∧
  crypto_scalarmult_curve25519 q sk pk = Some (r.1, r.2 ++ drop (length r.2) q) ∧
  crypto_scalarmult_curve25519_base q sk = Some (0, @crypto_scalarmult_base libsodium sk).
Proof.
  cbv zeta. intros. split; [apply _|]. split; [by apply encrypt_code|]. split; [by apply decrypt_code|].
  split; [by apply generichash_code|]. split; [by apply scalarmult_code|by apply base_mult_code].
Qed.

Lemma libsodium_refines_witness :
  let e := @crypto_aead_chacha20poly1305_ietf_encrypt_detached libsodium rfc_text rfc_ad rfc_n rfc_k in
  let d := @crypto_aead_chacha20poly1305_ietf_decrypt_detached libsodium [1; 2] (replicate 16 3) rfc_ad rfc_n rfc_k in
  let g := @crypto_generichash libsodium 32 [1; 2; 3] [4; 5] in
  let r := @crypto_scalarmult libsodium rfc_scalar rfc_point in
  SodiumLaws libsodium ∧
  ietf_encrypt_detached (replicate 114 0) (replicate 16 0) rfc_text (Z.of_nat (length rfc_text)) rfc_ad
      (Z.of_nat (length rfc_ad)) rfc_n rfc_k = Some (ae_rc e, ae_c e, ae_mac e, ae_maclen e) ∧
  ietf_decrypt_detached (Some [9; 9]) [1; 2] (Z.of_nat (length [1; 2])) (replicate 16 3) rfc_ad
      (Z.of_nat (length rfc_ad)) rfc_n rfc_k = Some (d.1, Some d.2) ∧
  crypto_generichash_blake2b (Some (replicate 32 0)) (Some [1; 2; 3]) (Some [4; 5]) 32
      (Z.of_nat (length [1; 2; 3])) (Z.of_nat (length [4; 5])) = Some (g.1, Some g.2) ∧
  crypto_scalarmult_curve25519 (replicate 32 0) rfc_scalar rfc_point =
    Some (r.1, r.2 ++ drop (length r.2) (replicate 32 0)) ∧
  crypto_scalarmult_curve25519_base (replicate 32 0) rfc_scalar =
    Some (0, @crypto_scalarmult_base libsodium rfc_scalar).
Proof. apply libsodium_refines; unfold fits; by_computation. Defined.
