(* ===== verification/Crypto.v ===== *)
(** * The cryptographic wrappers ([src/crypto.c], [src/crypto.h])

    Every wrapper takes its pointers as options and its output buffers as
    values, and gives the return code with the buffers as they are left.
    Zero-length arguments are passed on as the empty list, which is what the
    one-byte dummy buffer stands for in the source. *)

From S2P Require Import Prelude Config Packet Sodium.
Local Open Scope c_scope.

Section wrappers.
Context {S : Sodium}.

Definition vpn_crypto_init : Z := if sodium_init <? 0 then - EFAULT else 0.

(** [rand] is what [randombytes_buf] produces. *)
Definition vpn_crypto_random_bytes (buf : option bytes) (len : Z) (rand : bytes)
    : option (option bytes) :=
  match buf with
  | Some b => if len >? 0 then r ← slice rand 0 len; b' ← blit b 0 r; Some (Some b')
              else Some buf
  | NULL => Some NULL
  end.

Definition vpn_crypto_memzero (p : option bytes) (len : Z) : option (option bytes) :=
  match p with
  | Some b => if len >? 0 then b' ← sodium_memzero b len; Some (Some b') else Some p
  | NULL => Some NULL
  end.

Definition vpn_crypto_memcmp (b1 b2 : option bytes) (len : Z) : option Z :=
  match b1, b2 with
  | Some x, Some y => sodium_memcmp x y len
  | _, _ => Some (-1)
  end.

Definition vpn_crypto_format_nonce (counter : Z) (nonce : bytes) : option bytes :=
  nonce ← fill nonce 0 0 4;
  le64_write nonce 4 counter.

(** A readable argument of [len] bytes; NULL is only looked at when non-empty. *)
Definition arg (p : option bytes) (len : Z) : option bytes :=
  if len >? 0 then b ← p; slice b 0 len else Some [].

Definition is_null {A} (p : option A) : bool := match p with Some _ => false | None => true end.

Definition vpn_crypto_aead_encrypt (ciphertext mac plaintext : option bytes) (plaintext_len : Z)
    (ad : option bytes) (ad_len counter : Z) (key : option bytes)
    : option (Z * option bytes * option bytes) :=
  match mac, key with
  | Some mac_buf, Some k =>
      if (plaintext_len >? 0) && (is_null ciphertext || is_null plaintext)
      then Some (- EINVAL, ciphertext, mac)
      else
        nonce ← vpn_crypto_format_nonce counter (replicate (Z.to_nat VPN_NONCE_LEN) 0);
        p_in ← arg plaintext plaintext_len;
        ad_in ← arg ad ad_len;
        k ← slice k 0 VPN_KEY_LEN;
        let r := crypto_aead_chacha20poly1305_ietf_encrypt_detached p_in ad_in nonce k in
        c_out ← (if plaintext_len >? 0
                 then c ← ciphertext; c' ← blit c 0 (ae_c r); Some (Some c')
                 else Some ciphertext);
        mac_out ← blit mac_buf 0 (ae_mac r);
        if negb (ae_rc r =? 0) || negb (ae_maclen r =? VPN_AUTH_TAG_LEN)
        then Some (- EFAULT, c_out, Some mac_out)
        else Some (0, c_out, Some mac_out)
  | _, _ => Some (- EINVAL, ciphertext, mac)
  end.

Definition vpn_crypto_aead_decrypt (plaintext ciphertext : option bytes) (ciphertext_len : Z)
    (mac ad : option bytes) (ad_len counter : Z) (key : option bytes)
    : option (Z * option bytes) :=
  match mac, key with
  | Some mac_buf, Some k =>
      if (ciphertext_len >? 0) && (is_null ciphertext || is_null plaintext)
      then Some (- EINVAL, plaintext)
      else
        nonce ← vpn_crypto_format_nonce counter (replicate (Z.to_nat VPN_NONCE_LEN) 0);
        c_in ← arg ciphertext ciphertext_len;
        tag ← slice mac_buf 0 VPN_AUTH_TAG_LEN;
        ad_in ← arg ad ad_len;
        k ← slice k 0 VPN_KEY_LEN;
        let '(rc, m) := crypto_aead_chacha20poly1305_ietf_decrypt_detached c_in tag ad_in nonce k in
        p_out ← (if ciphertext_len >? 0
                 then p ← plaintext; p' ← blit p 0 m; Some (Some p')
                 else Some plaintext);
        if negb (rc =? 0) then Some (- EBADMSG, p_out) else Some (0, p_out)
  | _, _ => Some (- EINVAL, plaintext)
  end.

(** [rand] is the randomness [crypto_box_keypair] draws. *)
Definition vpn_crypto_generate_keypair (public_key private_key : option bytes) (rand : bytes)
    : option (Z * option bytes * option bytes) :=
  match public_key, private_key with
  | Some pk, Some sk =>
      let '(rc, pk', sk') := crypto_box_keypair rand in
      pk ← blit pk 0 pk'; sk ← blit sk 0 sk';
      Some (if negb (rc =? 0) then - EFAULT else 0, Some pk, Some sk)
  | _, _ => Some (- EINVAL, public_key, private_key)
  end.

Definition vpn_crypto_dh (shared_secret their_public_key my_private_key : option bytes)
    : option (Z * option bytes) :=
  match shared_secret, their_public_key, my_private_key with
  | Some out, Some pk, Some sk =>
      pk ← slice pk 0 VPN_PUBKEY_LEN; sk ← slice sk 0 VPN_PRIVKEY_LEN;
      let '(rc, q) := crypto_scalarmult sk pk in
      out ← blit out 0 q;
      Some (if negb (rc =? 0) then - EBADMSG else 0, Some out)
  | _, _, _ => Some (- EINVAL, shared_secret)
  end.

Definition vpn_crypto_hash (out inp : option bytes) (in_len : Z) : option (Z * option bytes) :=
  match out with
  | Some o =>
      if is_null inp && (in_len >? 0) then Some (- EINVAL, out)
      else
        p_in ← arg inp in_len;
        let '(rc, h) := crypto_generichash 32 p_in [] in
        o ← blit o 0 h;
        Some (if negb (rc =? 0) then - EFAULT else 0, Some o)
  | NULL => Some (- EINVAL, out)
  end.

Definition vpn_crypto_mac16 (out key : option bytes) (key_len : Z) (inp : option bytes) (in_len : Z)
    : option (Z * option bytes) :=
  match out, key with
  | Some o, Some k =>
      if (key_len =? 0) || (is_null inp && (in_len >? 0)) then Some (- EINVAL, out)
      else
        p_in ← arg inp in_len;
        k ← slice k 0 key_len;
        let '(rc, h) := crypto_generichash 16 p_in k in
        o ← blit o 0 h;
        Some (if negb (rc =? 0) then - EFAULT else 0, Some o)
  | _, _ => Some (- EINVAL, out)
  end.
End wrappers.

(** ** Nonces *)

Definition nonce_of (counter : Z) : bytes := [0; 0; 0; 0] ++ le64_bytes counter.

Lemma format_nonce_eq counter nonce : length nonce = 12%nat →
  vpn_crypto_format_nonce counter nonce = Some (nonce_of counter).
Proof.
  intros Hn. unfold vpn_crypto_format_nonce. rewrite fill_0 by lia. bind_simpl.
  rewrite <- (app_nil_r (drop (Z.to_nat 4) nonce)).
  by rewrite le64_write_mid by len.
Qed.

Lemma nonce_of_length counter : length (nonce_of counter) = 12%nat.
Proof. done. Qed.

Lemma le64_bytes_inj a b : is_u64 a → is_u64 b → le64_bytes a = le64_bytes b → a = b.
Proof.
  intros Ha Hb Heq.
  assert (le64_read (le64_bytes a) 0 = Some a) as H1 by by apply le64_read_bytes.
  assert (le64_read (le64_bytes b) 0 = Some b) as H2 by by apply le64_read_bytes.
  rewrite Heq in H1. congruence.
Qed.

(** ** The wrappers on valid arguments *)

Lemma arg_all b len : Z.of_nat (length b) = len → arg (Some b) len = Some b.
Proof.
  intros Hl. unfold arg. destruct (len >? 0) eqn:E; bind_simpl.
  - by apply slice_all.
  - destruct b; [done|]. cbn [length] in Hl. lia.
Qed.

Lemma arg_app m rest n : n = Z.of_nat (length m) → arg (Some (m ++ rest)) n = Some m.
Proof.
  intros Hn. unfold arg. destruct (n >? 0) eqn:E; bind_simpl; [by apply slice_app_0|].
  destruct m; [done|cbn [length] in Hn; lia].
Qed.

(** The output of [n] bytes stored at the start of a buffer, nothing when [n] is 0. *)
Lemma store_eq (buf d : bytes) n : n = Z.of_nat (length d) → (length d <= length buf)%nat →
  (if n >? 0 then c' ← blit buf 0 d; Some (Some c') else Some (Some buf)) =
    Some (Some (d ++ drop (length d) buf)).
Proof.
  intros Hn Hl. destruct (n >? 0) eqn:E; bind_simpl.
  - rewrite <- (take_drop (length d) buf) at 1.
    by rewrite blit_0 by (rewrite length_take; lia).
  - destruct d; [done|]. cbn [length] in Hn. lia.
Qed.

Section valid.
Context {S : Sodium} {SL : SodiumLaws S}.

Definition seal (m ad : bytes) (counter : Z) (k : bytes) : aead_out :=
  crypto_aead_chacha20poly1305_ietf_encrypt_detached m ad (nonce_of counter) k.
Definition unseal (c mac ad : bytes) (counter : Z) (k : bytes) : Z * bytes :=
  crypto_aead_chacha20poly1305_ietf_decrypt_detached c mac ad (nonce_of counter) k.

Lemma unseal_seal m ad counter k : length k = 32%nat →
  unseal (ae_c (seal m ad counter k)) (ae_mac (seal m ad counter k)) ad counter k = (0, m).
Proof. intros. by apply aead_decrypt_encrypt. Qed.

Lemma seal_lengths m ad counter k : length k = 32%nat →
  length (ae_c (seal m ad counter k)) = length m ∧
  length (ae_mac (seal m ad counter k)) = 16%nat.
Proof.
  intros. by destruct (aead_encrypt_ok m ad (nonce_of counter) k) as (_ & _ & ? & ?).
Qed.

(** Encryption into separate buffers: the code is 0 and the ciphertext and tag
    are those of the primitive. *)
Lemma aead_encrypt_app cbuf mac m rest pn ad adn counter k (adl : bytes) :
  pn = Z.of_nat (length m) → (length m <= length cbuf)%nat →
  length mac = 16%nat → arg ad adn = Some adl → length k = 32%nat →
  vpn_crypto_aead_encrypt (Some cbuf) (Some mac) (Some (m ++ rest)) pn ad adn counter (Some k) =
    Some (0, Some (ae_c (seal m adl counter k) ++ drop (length m) cbuf),
          Some (ae_mac (seal m adl counter k))).
Proof.
  intros Hpn Hc Hm Had Hk. unfold vpn_crypto_aead_encrypt.
  change (is_null (Some cbuf) || is_null (Some (m ++ rest))) with false. rewrite andb_false_r.
  rewrite format_nonce_eq by done. bind_simpl. rewrite arg_app by done. bind_simpl.
  rewrite Had. bind_simpl. rewrite (slice_all k) by (rewrite Hk; done). bind_simpl.
  fold (seal m adl counter k).
  destruct (aead_encrypt_ok m adl (nonce_of counter) k) as (Hrc & Hml & Hcl & Hmac); [done..|].
  fold (seal m adl counter k) in *. rewrite store_eq by lia. bind_simpl.
  rewrite Hcl.
  rewrite <- (app_nil_r mac), blit_0, app_nil_r by lia. bind_simpl.
  rewrite Hrc, Hml. done.
Qed.

Lemma aead_encrypt_eq cbuf mac m pn ad adn counter k (adl : bytes) :
  pn = Z.of_nat (length m) → (length m <= length cbuf)%nat →
  length mac = 16%nat → arg ad adn = Some adl → length k = 32%nat →
  vpn_crypto_aead_encrypt (Some cbuf) (Some mac) (Some m) pn ad adn counter (Some k) =
    Some (0, Some (ae_c (seal m adl counter k) ++ drop (length m) cbuf),
          Some (ae_mac (seal m adl counter k))).
Proof. rewrite <- (app_nil_r m) at 3. apply aead_encrypt_app. Qed.

(** The empty message (keepalive, the handshake response): only the tag. *)
Lemma aead_encrypt_empty_eq mac ad adn counter k (adl : bytes) :
  length mac = 16%nat → arg ad adn = Some adl → length k = 32%nat →
  vpn_crypto_aead_encrypt NULL (Some mac) NULL 0 ad adn counter (Some k) =
    Some (0, NULL, Some (ae_mac (seal [] adl counter k))).
Proof.
  intros Hm Had Hk. unfold vpn_crypto_aead_encrypt. cbn [Z.gtb Z.compare andb].
  rewrite format_nonce_eq by done. bind_simpl. cbn [arg Z.gtb Z.compare]. bind_simpl.
  rewrite Had. bind_simpl. rewrite (slice_all k) by (rewrite Hk; done). bind_simpl.
  fold (seal [] adl counter k).
  destruct (aead_encrypt_ok [] adl (nonce_of counter) k) as (Hrc & Hml & Hcl & Hmac); [done..|].
  fold (seal [] adl counter k) in *.
  rewrite <- (app_nil_r mac), blit_0, app_nil_r by lia. bind_simpl.
  rewrite Hrc, Hml. done.
Qed.

(** Decryption of [c], at the front of a buffer or absent when empty, with its tag
    at the front of another. *)
Lemma aead_decrypt_gen pbuf cptr c cn mac mrest ad adn counter k (adl : bytes) :
  arg cptr cn = Some c → (cptr = NULL → cn = 0) →
  cn = Z.of_nat (length c) → (length c <= length pbuf)%nat →
  length mac = 16%nat → arg ad adn = Some adl → length k = 32%nat →
  vpn_crypto_aead_decrypt (Some pbuf) cptr cn (Some (mac ++ mrest)) ad adn counter (Some k) =
    Some (if (unseal c mac adl counter k).1 =? 0 then 0 else - EBADMSG,
          Some ((unseal c mac adl counter k).2 ++ drop (length c) pbuf)).
Proof.
  intros Hc Hnull Hcn Hp Hm Had Hk. unfold vpn_crypto_aead_decrypt.
  replace ((cn >? 0) && (is_null cptr || is_null (Some pbuf))) with false
    by (destruct cptr; cbn; [by rewrite andb_false_r|by rewrite Hnull]).
  rewrite format_nonce_eq by done. bind_simpl. rewrite Hc. bind_simpl.
  rewrite (slice_app_0 mac) by (rewrite ?Hm; done). bind_simpl.
  rewrite Had. bind_simpl. rewrite (slice_all k) by (rewrite Hk; done). bind_simpl.
  fold (unseal c mac adl counter k).
  pose proof (aead_decrypt_length c mac adl (nonce_of counter) k) as Hl.
  fold (unseal c mac adl counter k) in Hl.
  destruct (unseal c mac adl counter k) as [rc m] eqn:E. cbn [fst snd] in *.
  rewrite store_eq by lia. bind_simpl. rewrite Hl.
  by destruct (rc =? 0).
Qed.

Lemma aead_decrypt_eq pbuf c cn mac ad adn counter k (adl : bytes) :
  cn = Z.of_nat (length c) → (length c <= length pbuf)%nat →
  length mac = 16%nat → arg ad adn = Some adl → length k = 32%nat →
  vpn_crypto_aead_decrypt (Some pbuf) (Some c) cn (Some mac) ad adn counter (Some k) =
    Some (if (unseal c mac adl counter k).1 =? 0 then 0 else - EBADMSG,
          Some ((unseal c mac adl counter k).2 ++ drop (length c) pbuf)).
Proof.
  intros. rewrite <- (app_nil_r mac) at 1. apply aead_decrypt_gen; try done. by apply arg_all.
Qed.

Lemma aead_decrypt_empty_eq pbuf mac ad adn counter k (adl : bytes) :
  length mac = 16%nat → arg ad adn = Some adl → length k = 32%nat →
  vpn_crypto_aead_decrypt pbuf NULL 0 (Some mac) ad adn counter (Some k) =
    Some (if (unseal [] mac adl counter k).1 =? 0 then 0 else - EBADMSG, pbuf).
Proof.
  intros Hm Had Hk. unfold vpn_crypto_aead_decrypt. cbn [Z.gtb Z.compare andb].
  rewrite format_nonce_eq by done. bind_simpl. cbn [arg Z.gtb Z.compare]. bind_simpl.
  rewrite (slice_all mac) by (rewrite Hm; done). bind_simpl.
  rewrite Had. bind_simpl. rewrite (slice_all k) by (rewrite Hk; done). bind_simpl.
  fold (unseal [] mac adl counter k). destruct (unseal [] mac adl counter k) as [rc m].
  bind_simpl. by destruct (rc =? 0).
Qed.
End valid.

(** ** The remaining wrappers on valid arguments *)

Lemma blit_all (old new : bytes) : length new = length old → blit old 0 new = Some new.
Proof. intros H. rewrite <- (app_nil_r old), blit_0 by done. by rewrite app_nil_r. Qed.

Section valid_others.
Context {S : Sodium} {SL : SodiumLaws S}.

Definition hash (n : Z) (inp key : bytes) : bytes := (crypto_generichash n inp key).2.
(** The 32 bytes of a shared secret, when there is one. *)
Definition dh (sk pk : bytes) : bytes := take 32 ((crypto_scalarmult sk pk).2 ++ replicate 32 0).

Lemma hash_length n inp key : 16 <= n <= 64 → (length key <= 64)%nat →
  Z.of_nat (length (hash n inp key)) = n.
Proof. intros. by apply generichash_ok. Qed.

Lemma hash32_length inp key : (length key <= 64)%nat → length (hash 32 inp key) = 32%nat.
Proof. intros. pose proof (hash_length 32 inp key). lia. Qed.

Lemma crypto_hash_eq out inp n : length out = 32%nat → Z.of_nat (length inp) = n →
  vpn_crypto_hash (Some out) (Some inp) n = Some (0, Some (hash 32 inp [])).
Proof.
  intros Ho Hi. unfold vpn_crypto_hash. cbn [is_null andb]. rewrite arg_all by done. bind_simpl.
  pose proof (hash32_length inp [] ltac:(simpl; lia)) as Hl.
  destruct (generichash_ok 32 inp []) as [Hrc _]; [lia|simpl; lia|].
  unfold hash in *. destruct (crypto_generichash 32 inp []) as [rc h]. cbn [fst snd] in *.
  rewrite blit_all by lia. bind_simpl. by rewrite Hrc.
Qed.

Lemma crypto_mac16_eq out key kn inp n :
  length out = 16%nat → Z.of_nat (length key) = kn → 0 < kn <= 64 → Z.of_nat (length inp) = n →
  vpn_crypto_mac16 (Some out) (Some key) kn (Some inp) n = Some (0, Some (hash 16 inp key)).
Proof.
  intros Ho Hk Hkn Hi. unfold vpn_crypto_mac16. cbn [is_null andb].
  test_false (kn =? 0). bind_simpl. rewrite arg_all by done. bind_simpl.
  rewrite (slice_all key) by done. bind_simpl.
  destruct (generichash_ok 16 inp key) as [Hrc Hl]; [lia|lia|].
  unfold hash. destruct (crypto_generichash 16 inp key) as [rc h]. cbn [fst snd] in *.
  rewrite blit_all by lia. bind_simpl. by rewrite Hrc.
Qed.

Lemma dh_stored sk pk : (crypto_scalarmult sk pk).1 = 0 → (crypto_scalarmult sk pk).2 = dh sk pk.
Proof.
  intros H. unfold dh. by rewrite take_app_length' by (by rewrite scalarmult_length).
Qed.

(** A failing call stores what libsodium stored, perhaps nothing. *)
Lemma crypto_dh_eq out pk sk : length out = 32%nat → length pk = 32%nat → length sk = 32%nat →
  vpn_crypto_dh (Some out) (Some pk) (Some sk) =
    Some (if (crypto_scalarmult sk pk).1 =? 0 then (0, Some (dh sk pk))
          else (- EBADMSG, Some ((crypto_scalarmult sk pk).2 ++ drop (length (crypto_scalarmult sk pk).2) out))).
Proof.
  intros Ho Hp Hs. unfold vpn_crypto_dh.
  rewrite (slice_all pk) by (rewrite Hp; done). bind_simpl.
  rewrite (slice_all sk) by (rewrite Hs; done). bind_simpl.
  pose proof (scalarmult_stores sk pk) as Hl. pose proof (dh_stored sk pk) as Hd.
  pose proof (scalarmult_length sk pk) as H32.
  destruct (crypto_scalarmult sk pk) as [rc q]. cbn [fst snd] in *.
  assert (blit out 0 q = Some (q ++ drop (length q) out)) as ->.
  { rewrite <- (take_drop (length q) out) at 1. apply blit_0. rewrite length_take. lia. }
  bind_simpl. destruct (Z.eqb_spec rc 0) as [E|_]; [|done].
  cbn [negb]. rewrite drop_ge, app_nil_r by (rewrite Ho, H32 by done; done). by rewrite Hd.
Qed.

Lemma generate_keypair_eq pk sk rand :
  length pk = 32%nat → length sk = 32%nat → length rand = 32%nat →
  vpn_crypto_generate_keypair (Some pk) (Some sk) rand =
    Some (0, Some (crypto_scalarmult_base rand), Some rand).
Proof.
  intros Hp Hs Hr. unfold vpn_crypto_generate_keypair. rewrite keypair_ok by done.
  destruct (scalarmult_base_ok rand Hr) as [Hb _].
  rewrite blit_all by lia. bind_simpl. rewrite blit_all by lia. done.
Qed.

Lemma memzero_key k : length k = 32%nat →
  vpn_crypto_memzero (Some k) VPN_KEY_LEN = Some (Some (replicate 32 0)).
Proof.
  intros Hk. unfold vpn_crypto_memzero, sodium_memzero. change VPN_KEY_LEN with 32.
  change (32 >? 0) with true. cbn iota. rewrite fill_0 by lia.
  by rewrite drop_ge, app_nil_r by lia.
Qed.
End valid_others.

(** ** Properties *)

(** the nonce of a packet counter is 12 bytes, four zeros and the counter in
    little-endian order, and two different 64-bit counters never share a nonce. *)
Theorem nonce_injective c1 c2 buf1 buf2 n :
  is_u64 c1 → is_u64 c2 → length buf1 = 12%nat → length buf2 = 12%nat →
  vpn_crypto_format_nonce c1 buf1 = Some n → vpn_crypto_format_nonce c2 buf2 = Some n →
  c1 = c2 ∧ n = [0; 0; 0; 0] ++ le64_bytes c1.
Proof.
  intros H1 H2 Hb1 Hb2. rewrite !format_nonce_eq by done. intros [= <-] [= Heq].
  split; [|done]. apply le64_bytes_inj; [done..|]. unfold le64_bytes. congruence.
Qed.

Lemma nonce_injective_witness :
  256 = 256 ∧ [0; 0; 0; 0; 0; 1; 0; 0; 0; 0; 0; 0] = [0; 0; 0; 0] ++ le64_bytes 256.
Proof.
  apply (nonce_injective 256 256 (replicate 12 7) (replicate 12 9)); by vm_compute.
Defined.

(** what [vpn_crypto_aead_encrypt] produces for a message under a key, counter
    and additional data, [vpn_crypto_aead_decrypt] turns back into the message, for
    every message including the empty one, and both report success. *)
Theorem aead_wrapper_roundtrip {S : Sodium} {SL : SodiumLaws S} m ad k counter cbuf pbuf :
  length k = 32%nat → (length m <= length cbuf)%nat → (length m <= length pbuf)%nat →
  ∃ c mac p,
    vpn_crypto_aead_encrypt (Some cbuf) (Some (replicate 16 0)) (Some m) (Z.of_nat (length m))
      (Some ad) (Z.of_nat (length ad)) counter (Some k)
      = Some (0, Some (c ++ drop (length m) cbuf), Some mac) ∧
    length c = length m ∧
    vpn_crypto_aead_decrypt (Some pbuf) (Some c) (Z.of_nat (length c)) (Some mac)
      (Some ad) (Z.of_nat (length ad)) counter (Some k) = Some (0, Some p) ∧
    take (length m) p = m.
Proof.
  intros Hk Hc Hp.
  destruct (seal_lengths m ad counter k Hk) as [Hcl Hml].
  exists (ae_c (seal m ad counter k)), (ae_mac (seal m ad counter k)),
    (m ++ drop (length m) pbuf).
  split_and!; [by apply aead_encrypt_eq; [..|apply arg_all|]|done| |by apply take_app_length].
  rewrite (aead_decrypt_eq _ _ _ _ _ _ _ _ ad) by (done || lia || by apply arg_all).
  rewrite unseal_seal, Hcl by done. done.
Qed.

Lemma aead_wrapper_roundtrip_witness :
  ∃ c mac p,
    vpn_crypto_aead_encrypt (S := Toy.toy) (Some (replicate 8 0)) (Some (replicate 16 0))
      (Some [1; 2; 3; 4; 5]) 5 (Some [9]) 1 77 (Some (replicate 32 6))
      = Some (0, Some (c ++ drop 5 (replicate 8 0)), Some mac) ∧
    length c = 5%nat ∧
    vpn_crypto_aead_decrypt (S := Toy.toy) (Some (replicate 8 0)) (Some c) (Z.of_nat (length c))
      (Some mac) (Some [9]) 1 77 (Some (replicate 32 6)) = Some (0, Some p) ∧
    take 5 p = [1; 2; 3; 4; 5].
Proof.
  apply (aead_wrapper_roundtrip [1; 2; 3; 4; 5] [9] (replicate 32 6) 77); simpl; lia.
Defined.


