(* ===== verification/Kdf.v ===== *)
(** * Key derivation ([src/kdf.c], [src/kdf.h])

    [vpn_kdf1], [vpn_kdf2] and [vpn_kdf3] on their buffers, and the
    extract-and-expand recursion of RFC 5869 they implement.  The return code of
    [crypto_generichash] is not looked at by the source, so it is dropped here;
    the wiping of the local [prk] and [buf] is not observable. *)

From S2P Require Import Prelude Config Packet Sodium Crypto.
Local Open Scope c_scope.

Section kdf.
Context {S : Sodium}.

(** [crypto_generichash(out, VPN_KEY_LEN, input, input_len, key, VPN_KEY_LEN)] *)
Definition keyed_hash (out : bytes) (input : option bytes) (input_len : Z) (key : bytes)
    : option bytes :=
  p_in ← arg input input_len;
  k ← slice key 0 VPN_KEY_LEN;
  blit out 0 (crypto_generichash VPN_KEY_LEN p_in k).2.

(** The uninitialised local arrays of the source. *)
Definition local (n : Z) : bytes := replicate (Z.to_nat n) 0.

Definition vpn_kdf1 (out1 key : bytes) (input : option bytes) (input_len : Z) : option bytes :=
  prk ← keyed_hash (local VPN_KEY_LEN) input input_len key;
  keyed_hash out1 (Some [1]) 1 prk.

Definition vpn_kdf2 (out1 out2 key : bytes) (input : option bytes) (input_len : Z)
    : option (bytes * bytes) :=
  prk ← keyed_hash (local VPN_KEY_LEN) input input_len key;
  out1 ← keyed_hash out1 (Some [1]) 1 prk;
  buf ← memcpy (local (VPN_KEY_LEN + 1)) 0 out1 0 VPN_KEY_LEN;
  buf ← wr buf VPN_KEY_LEN 2;
  out2 ← keyed_hash out2 (Some buf) (VPN_KEY_LEN + 1) prk;
  Some (out1, out2).

Definition vpn_kdf3 (out1 out2 out3 key : bytes) (input : option bytes) (input_len : Z)
    : option (bytes * bytes * bytes) :=
  prk ← keyed_hash (local VPN_KEY_LEN) input input_len key;
  out1 ← keyed_hash out1 (Some [1]) 1 prk;
  buf ← memcpy (local (VPN_KEY_LEN + 1)) 0 out1 0 VPN_KEY_LEN;
  buf ← wr buf VPN_KEY_LEN 2;
  out2 ← keyed_hash out2 (Some buf) (VPN_KEY_LEN + 1) prk;
  buf ← memcpy buf 0 out2 0 VPN_KEY_LEN;
  buf ← wr buf VPN_KEY_LEN 3;
  out3 ← keyed_hash out3 (Some buf) (VPN_KEY_LEN + 1) prk;
  Some (out1, out2, out3).

(** ** Specification: HKDF with keyed BLAKE2b

    [T(0)] is empty and [T(i) = H(prk, T(i-1) || i)]. *)

Definition extract (ck inp : bytes) : bytes := hash 32 inp ck.

Fixpoint expand (prk : bytes) (i : nat) : bytes :=
  match i with
  | O => []
  | Datatypes.S j => hash 32 (expand prk j ++ [Z.of_nat i]) prk
  end.

Definition hkdf (ck inp : bytes) (i : nat) : bytes := expand (extract ck inp) i.
End kdf.

Section kdf_lemmas.
Context {S : Sodium} {SL : SodiumLaws S}.

Lemma keyed_hash_eq out input n key inp :
  length out = 32%nat → length key = 32%nat → arg input n = Some inp →
  keyed_hash out input n key = Some (hash 32 inp key).
Proof.
  intros Ho Hk Ha. unfold keyed_hash. rewrite Ha. bind_simpl.
  rewrite slice_all by (rewrite Hk; done). bind_simpl. apply blit_all.
  rewrite Ho. apply hash32_length. lia.
Qed.

Lemma extract_length ck inp : length ck = 32%nat → length (extract ck inp) = 32%nat.
Proof. intros. apply hash32_length. lia. Qed.

Lemma expand_length prk i : length prk = 32%nat → length (expand prk (Datatypes.S i)) = 32%nat.
Proof. intros. apply hash32_length. lia. Qed.

Lemma hkdf_length ck inp i : length ck = 32%nat → length (hkdf ck inp (Datatypes.S i)) = 32%nat.
Proof. intros. by apply expand_length, extract_length. Qed.

(** The buffer [T || i] hashed for the next output. *)
Lemma expand_buffer buf t (i : Z) : length buf = 33%nat → length t = 32%nat →
  ∃ b, memcpy buf 0 t 0 VPN_KEY_LEN = Some b ∧ wr b VPN_KEY_LEN i = Some (t ++ [i]).
Proof.
  intros Hb Ht. exists (t ++ drop 32 buf). split.
  { rewrite memcpy_all by (rewrite Ht; done).
    rewrite <- (take_drop 32 buf) at 1. by rewrite blit_0 by len. }
  rewrite wr_lt by (change VPN_KEY_LEN with 32; len). f_equal.
  destruct (drop 32 buf) as [|x [|]] eqn:E; apply (f_equal length) in E;
    rewrite length_drop, Hb in E; [done| |done].
  change (Z.to_nat VPN_KEY_LEN) with 32%nat. rewrite insert_app_r_alt by lia.
  by rewrite Ht.
Qed.

Lemma kdf1_eq out1 key input n inp :
  length out1 = 32%nat → length key = 32%nat → arg input n = Some inp →
  vpn_kdf1 out1 key input n = Some (hkdf key inp 1).
Proof.
  intros H1 Hk Ha. unfold vpn_kdf1.
  rewrite (keyed_hash_eq _ _ _ _ inp) by done. bind_simpl. fold (extract key inp).
  apply keyed_hash_eq; [done|by apply extract_length|done].
Qed.

Lemma kdf2_eq out1 out2 key input n inp :
  length out1 = 32%nat → length out2 = 32%nat → length key = 32%nat →
  arg input n = Some inp →
  vpn_kdf2 out1 out2 key input n = Some (hkdf key inp 1, hkdf key inp 2).
Proof.
  intros H1 H2 Hk Ha. unfold vpn_kdf2.
  rewrite (keyed_hash_eq _ _ _ _ inp) by done. bind_simpl. fold (extract key inp).
  pose proof (extract_length key inp Hk) as He.
  rewrite (keyed_hash_eq out1 _ _ _ [1]) by done. bind_simpl.
  assert (length (hash 32 [1] (extract key inp)) = 32%nat) as Ht1
    by apply (expand_length _ 0 He).
  destruct (expand_buffer (local (VPN_KEY_LEN + 1)) _ 2 eq_refl Ht1) as (b & Hb1 & Hb2).
  rewrite Hb1. bind_simpl. rewrite Hb2. bind_simpl.
  rewrite (keyed_hash_eq out2 _ _ _ (hash 32 [1] (extract key inp) ++ [2])); [done..|].
  apply arg_all. rewrite length_app, Ht1. done.
Qed.

Lemma kdf3_eq out1 out2 out3 key input n inp :
  length out1 = 32%nat → length out2 = 32%nat → length out3 = 32%nat →
  length key = 32%nat → arg input n = Some inp →
  vpn_kdf3 out1 out2 out3 key input n =
    Some (hkdf key inp 1, hkdf key inp 2, hkdf key inp 3).
Proof.
  intros H1 H2 H3 Hk Ha. unfold vpn_kdf3.
  rewrite (keyed_hash_eq _ _ _ _ inp) by done. bind_simpl. fold (extract key inp).
  pose proof (extract_length key inp Hk) as He.
  rewrite (keyed_hash_eq out1 _ _ _ [1]) by done. bind_simpl.
  assert (length (hash 32 [1] (extract key inp)) = 32%nat) as Ht1
    by apply (expand_length _ 0 He).
  assert (length (hash 32 (hash 32 [1] (extract key inp) ++ [2]) (extract key inp)) = 32%nat)
    as Ht2 by apply (expand_length _ 1 He).
  destruct (expand_buffer (local (VPN_KEY_LEN + 1)) _ 2 eq_refl Ht1) as (b & Hb1 & Hb2).
  rewrite Hb1. bind_simpl. rewrite Hb2. bind_simpl.
  rewrite (keyed_hash_eq out2 _ _ _ (hash 32 [1] (extract key inp) ++ [2])); [|done..|].
  2: { apply arg_all. rewrite length_app, Ht1. done. }
  bind_simpl.
  destruct (expand_buffer (hash 32 [1] (extract key inp) ++ [2]) _ 3
              ltac:(rewrite length_app, Ht1; done) Ht2) as (b3 & Hb3 & Hb4).
  rewrite Hb3. bind_simpl. rewrite Hb4. bind_simpl.
  rewrite (keyed_hash_eq out3 _ _ _
    (hash 32 (hash 32 [1] (extract key inp) ++ [2]) (extract key inp) ++ [3])); [done..|].
  apply arg_all. rewrite length_app, Ht2. done.
Qed.
End kdf_lemmas.

(** ** Properties *)

(** C31: the three key derivation functions compute the first one, two and three
    outputs of the HKDF extract-and-expand recursion over keyed BLAKE2b, for every
    chaining key and every input (absent, empty or not), whatever their output
    buffers held before; all outputs are 32 bytes. *)
Theorem kdf_refines_hkdf {S : Sodium} {SL : SodiumLaws S} ck inp n v o1 o2 o3 :
  length ck = 32%nat → arg inp n = Some v →
  length o1 = 32%nat → length o2 = 32%nat → length o3 = 32%nat →
  vpn_kdf1 o1 ck inp n = Some (hkdf ck v 1) ∧
  vpn_kdf2 o1 o2 ck inp n = Some (hkdf ck v 1, hkdf ck v 2) ∧
  vpn_kdf3 o1 o2 o3 ck inp n = Some (hkdf ck v 1, hkdf ck v 2, hkdf ck v 3) ∧
  (∀ i, (0 < i)%nat → length (hkdf ck v i) = 32%nat).
Proof.
  intros Hk Ha H1 H2 H3. split_and!; [by apply kdf1_eq|by apply kdf2_eq|by apply kdf3_eq|].
  intros [|i] ?; [lia|]. by apply hkdf_length.
Qed.

Lemma kdf_refines_hkdf_witness :
  let k := replicate 32 5 in let o := replicate 32 0 in
  vpn_kdf1 (S := Toy.toy) k k NULL 0 = Some (hkdf k [] 1) ∧
  vpn_kdf2 k o k NULL 0 = Some (hkdf k [] 1, hkdf k [] 2) ∧
  vpn_kdf3 k o o k NULL 0 = Some (hkdf k [] 1, hkdf k [] 2, hkdf k [] 3) ∧
  (∀ i, (0 < i)%nat → length (hkdf k [] i) = 32%nat).
Proof. by apply (kdf_refines_hkdf (replicate 32 5) NULL 0 []). Defined.
