(* ===== verification/Os.v ===== *)
(** * System calls

    The daemon talks to the kernel, the clock and the random generator.  A
    function that does is a [prog]: a tree that returns a value, has undefined
    behaviour, or issues a call and goes on with the reply.  [exec] runs a program
    against a list of replies and records the trace; [wp] is the weakest
    precondition with respect to a [protocol] (what a program may call, and what
    the environment promises to reply), and [wp_adequate] relates the two. *)

From S2P Require Import Prelude.

(** ** Calls and replies *)

(** Structures passed by address ([sockaddr_storage], [ifreq]) are their bytes. *)
Inductive syscall :=
  | Sys_socket (domain type : Z)
  | Sys_open (path : bytes) (flags : Z)
  | Sys_close (fd : Z)
  | Sys_ioctl (fd request : Z) (ifr : bytes)
  | Sys_fcntl (fd cmd arg : Z)
  | Sys_setsockopt (fd level optname optval : Z)
  | Sys_bind (fd : Z) (addr : bytes)
  | Sys_sendto (fd : Z) (data addr : bytes)
  | Sys_recvfrom (fd max_len : Z)
  | Sys_read (fd max_len : Z)
  | Sys_write (fd : Z) (data : bytes)
  | Sys_poll (fds : list Z) (timeout : Z)
  | Sys_time
  | Sys_randombytes (len : Z)
  | Sys_log (level : Z)
  | Sys_log_set_level (level : Z)
  | Sys_sigaction (signum : Z)
  | Sys_running.

Record reply := mk_reply {
  r_ret : Z;
  r_errno : Z;
  r_data : bytes;      (** bytes stored through the buffer argument *)
  r_addr : bytes;      (** source address of a datagram *)
  r_addrlen : Z;
  r_revents : list Z   (** what [poll] reports for each descriptor *)
}.

Abbreviation trace := (list (syscall * reply)).

#[global] Instance syscall_eq_dec : EqDecision syscall.
Proof. solve_decision. Defined.
#[global] Instance reply_eq_dec : EqDecision reply.
Proof. solve_decision. Defined.

Inductive prog (A : Type) : Type :=
  | Ret (a : A)
  | Undefined
  | Call (c : syscall) (k : reply → prog A).
Arguments Ret {A}.
Arguments Undefined {A}.
Arguments Call {A}.

#[global] Instance prog_ret : MRet prog := @Ret.
#[global] Instance prog_bind : MBind prog :=
  fix bind {A B} (f : A → prog B) (p : prog A) :=
    match p with
    | Ret a => f a
    | Undefined => Undefined
    | Call c k => Call c (λ r, bind f (k r))
    end.

Definition call (c : syscall) : prog reply := Call c Ret.

(** A computation on memory, whose [None] is undefined behaviour. *)
Definition pure {A} (o : option A) : prog A :=
  match o with Some a => Ret a | None => Undefined end.

(** ** Running a program *)

Inductive result (A : Type) : Type :=
  | Done (a : A)        (** it returned *)
  | Waiting             (** the replies ran out *)
  | Ub.                 (** undefined behaviour *)
Arguments Done {A}.
Arguments Waiting {A}.
Arguments Ub {A}.

Fixpoint exec {A} (p : prog A) (rs : list reply) : result A * trace :=
  match p with
  | Ret a => (Done a, [])
  | Undefined => (Ub, [])
  | Call c k =>
      match rs with
      | r :: rs' => let '(res, t) := exec (k r) rs' in (res, (c, r) :: t)
      | [] => (Waiting, [])
      end
  end.

(** ** Weakest preconditions *)

Record protocol := mk_protocol {
  may : syscall → Prop;
  returns : trace → syscall → reply → Prop   (** given the calls so far *)
}.

Section wp.
Context (P : protocol).

Fixpoint wp {A} (h : trace) (p : prog A) (Φ : trace → A → Prop) : Prop :=
  match p with
  | Ret a => Φ h a
  | Undefined => False
  | Call c k => may P c ∧ ∀ r, returns P h c r → wp (h ++ [(c, r)]) (k r) Φ
  end.

Lemma wp_mono {A} h (p : prog A) (Φ Ψ : trace → A → Prop) :
  (∀ t a, Φ t a → Ψ t a) → wp h p Φ → wp h p Ψ.
Proof.
  intros HΦ. revert h. induction p as [a| |c k IH]; intros h; simpl; [auto|done|].
  intros [Hm Hk]. split; [done|]. intros r Hr. by apply IH, Hk.
Qed.

Lemma wp_and {A} h (p : prog A) (Φ Ψ : trace → A → Prop) :
  wp h p Φ → wp h p Ψ → wp h p (λ t a, Φ t a ∧ Ψ t a).
Proof.
  revert h. induction p as [a| |c k IH]; intros h; simpl; [auto|done|].
  intros [Hm Hk] [_ Hk']. split; [done|]. intros r Hr. by apply IH; [apply Hk|apply Hk'].
Qed.

Lemma wp_bind {A B} h (p : prog A) (f : A → prog B) (Φ : trace → B → Prop) :
  wp h p (λ t a, wp t (f a) Φ) → wp h (p ≫= f) Φ.
Proof.
  revert h. induction p as [a| |c k IH]; intros h; simpl; [done|done|].
  intros [Hm Hk]. split; [done|]. intros r Hr. by apply IH, Hk.
Qed.

Lemma wp_call h c (Φ : trace → reply → Prop) :
  may P c → (∀ r, returns P h c r → Φ (h ++ [(c, r)]) r) → wp h (call c) Φ.
Proof. done. Qed.

Lemma wp_pure {A} h (o : option A) a (Φ : trace → A → Prop) :
  o = Some a → Φ h a → wp h (pure o) Φ.
Proof. by intros ->. Qed.

(** What the protocol promises of the environment, for a whole trace. *)
Fixpoint env_ok_from (h t : trace) : Prop :=
  match t with
  | [] => True
  | (c, r) :: t => returns P h c r ∧ env_ok_from (h ++ [(c, r)]) t
  end.
Definition env_ok : trace → Prop := env_ok_from [].

Lemma wp_adequate_from {A} h (p : prog A) Φ rs res t :
  wp h p Φ → exec p rs = (res, t) → env_ok_from h t →
  res ≠ Ub ∧ Forall (λ cr, may P cr.1) t ∧ ∀ a, res = Done a → Φ (h ++ t) a.
Proof.
  revert h rs res t. induction p as [a| |c k IH]; intros h rs res t; simpl.
  - intros HΦ [= <- <-] _. split_and!; [done|constructor|].
    intros ? [= <-]. by rewrite app_nil_r.
  - done.
  - intros [Hm Hk]. destruct rs as [|r rs].
    { intros [= <- <-] _. split_and!; [done|constructor|done]. }
    destruct (exec (k r) rs) as [res' t'] eqn:E. intros [= <- <-] [Hr Ht].
    destruct (IH r (h ++ [(c, r)]) rs res' t') as (H1 & H2 & H3); [by apply Hk|done..|].
    split_and!; [done|by constructor|]. intros a Ha. apply H3 in Ha.
    by rewrite <- app_assoc in Ha.
Qed.

(** Every execution against well-behaved replies is free of undefined behaviour,
    issues only calls the protocol allows and ends in the postcondition. *)
Lemma wp_adequate {A} (p : prog A) Φ rs res t :
  wp [] p Φ → exec p rs = (res, t) → env_ok t →
  res ≠ Ub ∧ Forall (λ cr, may P cr.1) t ∧ ∀ a, res = Done a → Φ t a.
Proof. apply wp_adequate_from. Qed.
End wp.

(** ** How many calls, and which

    [within Q n p]: whatever the replies, [p] issues at most [n] calls, all of them
    in [Q].  A program within a bound returns once it has that many replies. *)

Section within.
Context (Q : syscall → Prop).

Fixpoint within {A} (n : nat) (p : prog A) {struct p} : Prop :=
  match p with
  | Ret _ | Undefined => True
  | Call c k =>
      match n with
      | O => False
      | S n => Q c ∧ ∀ r, within n (k r)
      end
  end.

Lemma within_le {A} n m (p : prog A) : (n <= m)%nat → within n p → within m p.
Proof.
  revert n m. induction p as [a| |c k IH]; intros n m Hle; cbn [within]; [done..|].
  destruct n as [|n], m as [|m]; try done; try lia.
  intros [Hq Hk]. split; [done|]. intros r. apply (IH r n); [lia|done].
Qed.

(** [n] calls are enough for [p] and then [f] if [k] of them are enough for [p]. *)
Lemma within_bind {A B} k n (p : prog A) (f : A → prog B) :
  within k p → (k <= n)%nat → (∀ a, within (n - k) (f a)) → within n (p ≫= f).
Proof.
  intros Hp Hk Hf. revert k n Hp Hk Hf.
  induction p as [a| |c g IH]; intros k n Hp Hk Hf; cbn [mbind prog_bind within] in *.
  - apply (within_le (n - k)); [lia|apply Hf].
  - done.
  - destruct k as [|k], n as [|n]; try done; try lia. destruct Hp as [Hq Hg]. split; [done|].
    intros r. apply (IH r k); [apply Hg|lia|exact Hf].
Qed.

Lemma within_call {A} n c (f : reply → prog A) :
  Q c → (∀ r, within n (f r)) → within (S n) (call c ≫= f).
Proof. done. Qed.

Lemma within_pure {A B} n (o : option A) (f : A → prog B) :
  (∀ a, within n (f a)) → within n (pure o ≫= f).
Proof. intros H. destruct o; [apply H|done]. Qed.

Lemma within_assoc {A B C} n (p : prog A) (f : A → prog B) (g : B → prog C) :
  within n (p ≫= λ a, f a ≫= g) → within n ((p ≫= f) ≫= g).
Proof.
  revert n. induction p as [a| |c k IH]; intros n; cbn [mbind prog_bind within]; [done..|].
  destruct n as [|n]; [done|]. intros [Hq Hk]. split; [done|]. intros r. apply IH, Hk.
Qed.

Lemma within_exec {A} n (p : prog A) rs res t : within n p → (n <= length rs)%nat →
  exec p rs = (res, t) → res ≠ Waiting ∧ (length t <= n)%nat ∧ Forall (λ cr, Q cr.1) t.
Proof.
  revert n rs res t. induction p as [a| |c k IH]; intros n rs res t; cbn [within exec].
  - intros _ _ [= <- <-]. split_and!; [done|simpl; lia|constructor].
  - intros _ _ [= <- <-]. split_and!; [done|simpl; lia|constructor].
  - destruct n as [|n]; [done|]. intros [Hq Hk] Hl. destruct rs as [|r rs]; [simpl in Hl; lia|].
    destruct (exec (k r) rs) as [res' t'] eqn:E. intros [= <- <-].
    destruct (IH r n rs res' t') as (H1 & H2 & H3); [apply Hk|simpl in Hl; lia|done|].
    split_and!; [done|simpl; lia|by constructor].
Qed.

(** What a specification says of the calls of a program within a bound. *)
Lemma wp_within {A} P h n (p : prog A) Φ : within n p → wp P h p Φ →
  wp P h p (λ t a, Φ t a ∧ ∃ u, t = h ++ u ∧ Forall (λ cr, Q cr.1) u).
Proof.
  revert h n. induction p as [a| |c k IH]; intros h n; cbn [within wp]; [|done|].
  - intros _ HΦ. split; [done|]. exists []. by rewrite app_nil_r.
  - destruct n as [|n]; [done|]. intros [Hq Hw] [Hm Hk]. split; [done|]. intros r Hr.
    eapply wp_mono; [|apply (IH r _ n); [apply Hw|by apply Hk]]. cbn beta. intros t a [HΦ (u & -> & Hu)].
    split; [done|]. exists ((c, r) :: u). split; [by rewrite <- app_assoc|by constructor].
Qed.
End within.

Lemma within_weaken {A} (Q Q' : syscall → Prop) n (p : prog A) :
  (∀ c, Q c → Q' c) → within Q n p → within Q' n p.
Proof.
  intros HQ. revert n. induction p as [a| |c k IH]; intros n; cbn [within]; [done..|].
  destruct n as [|n]; [done|]. intros [Hc Hk]. split; [by apply HQ|]. intros r. by apply IH.
Qed.

Create HintDb within.

(** Counting: one bind, call or test at a time; functions with a bound of their own
    are in the hint database. *)
Ltac within_step :=
  match goal with
  | |- within _ _ (mret _) => exact I
  | |- within _ _ (Ret _) => exact I
  | |- within _ _ Undefined => exact I
  | |- within _ _ (mbind _ (pure _)) => apply within_pure; intros ?
  | |- within _ _ (mbind _ (call _)) => apply within_call; [exact I|intros ?]
  | |- within _ _ (mbind _ (if ?b then _ else _)) => destruct b
  | |- within _ _ (mbind _ (match ?o with _ => _ end)) => destruct o
  | |- within _ _ (mbind _ (mbind _ _)) => apply within_assoc
  | |- within _ _ (if ?b then _ else _) => destruct b
  | |- within _ _ (match ?o with _ => _ end) => destruct o
  | |- within _ _ (mbind _ (mret _)) => cbn [mbind prog_bind mret prog_ret]
  | |- within _ _ (let _ := _ in _) => cbv zeta
  | |- within _ _ (mbind _ _) => eapply within_bind; [solve [eauto 2 with within nocore]|lia|intros ?; cbn [Nat.sub]]
  | |- within _ _ _ => eapply within_le; [|solve [eauto 2 with within nocore]]; lia
  end.

(** ** Descriptors

    The descriptors a trace leaves open: [socket] and [open] add their result,
    [close] removes its argument. *)

Definition fd_step (fds : list Z) (cr : syscall * reply) : list Z :=
  match cr.1 with
  | Sys_socket _ _ | Sys_open _ _ => if r_ret cr.2 <? 0 then fds else r_ret cr.2 :: fds
  | Sys_close fd => filter (λ x, x ≠ fd) fds
  | _ => fds
  end.

Definition open_fds (t : trace) : list Z := foldl fd_step [] t.

Lemma open_fds_snoc t cr : open_fds (t ++ [cr]) = fd_step (open_fds t) cr.
Proof. unfold open_fds. by rewrite foldl_app. Qed.

(** ** What the kernel promises

    A call that fails sets [errno]; a new descriptor is not one that is open; one that fills a buffer stores as many bytes
    as it says and no more than fit; [ioctl] leaves a NUL-terminated name in the
    request; the random generator fills what it is asked to fill. *)

Definition sys_returns (h : trace) (c : syscall) (r : reply) : Prop :=
  (r_ret r < 0 → 0 < r_errno r) ∧
  match c with
  | Sys_socket _ _ | Sys_open _ _ => r_ret r ∉ open_fds h
  | Sys_recvfrom _ n =>
      0 <= r_ret r → Z.of_nat (length (r_data r)) = r_ret r ∧ r_ret r <= n ∧
      bytes_ok (r_data r) ∧ length (r_addr r) = 128%nat ∧ bytes_ok (r_addr r) ∧
      0 <= r_addrlen r <= 128
  | Sys_read _ n =>
      0 <= r_ret r → Z.of_nat (length (r_data r)) = r_ret r ∧ r_ret r <= n ∧ bytes_ok (r_data r)
  | Sys_ioctl _ _ ifr =>
      0 <= r_ret r → length (r_data r) = length ifr ∧ 0 ∈ take 16 (r_data r)
  | Sys_randombytes n => Z.of_nat (length (r_data r)) = n ∧ bytes_ok (r_data r)
  | Sys_poll fds _ => length (r_revents r) = length fds
  | Sys_log _ => 0 < r_errno r
  | Sys_time => 0 <= r_ret r < 2 ^ 63
  | _ => True
  end.

(** The protocol of a program that may issue any call. *)
Definition any_call : protocol := mk_protocol (λ _, True) sys_returns.

(** Symbolic execution: one bind, call or test at a time. *)
Ltac wp_step :=
  match goal with
  | |- wp _ _ (mbind _ _) _ => apply wp_bind
  | |- wp _ _ (call _) _ => apply wp_call; [done|intros ? ?]
  | |- wp _ _ (pure (Some _)) _ => eapply wp_pure; [done|cbn beta iota]
  | |- wp _ _ (mret _) _ => cbn [mret prog_ret wp]
  | |- wp _ _ (Ret _) _ => cbn [wp]
  | |- wp _ _ (if ?b then _ else _) _ => destruct b eqn:?
  | |- wp _ _ (match ?o with Some _ => _ | None => _ end) _ => destruct o eqn:?
  end.

(** Opening a descriptor and closing it again. *)
Lemma filter_ne_cons (x : Z) l : x ∉ l → filter (λ y, y ≠ x) (x :: l) = l.
Proof.
  intros Hx. rewrite filter_cons_False by (intros H; by apply H).
  induction l as [|y l IH]; [done|]. rewrite not_elem_of_cons in Hx. destruct Hx as [Hy Hl].
  rewrite filter_cons_True by congruence. by rewrite IH.
Qed.

Lemma filter_ne_singleton (x : Z) : filter (λ y, y ≠ x) [x] = [].
Proof. apply filter_ne_cons, not_elem_of_nil. Qed.

Lemma filter_ne_pair (x y : Z) : x ≠ y → filter (λ z, z ≠ y) [x; y] = [x].
Proof. intros H. by rewrite filter_cons_True, filter_ne_singleton. Qed.

(** The promises of the environment on a concrete trace. *)
Ltac by_env :=
  unfold env_ok; cbn [env_ok_from]; repeat split;
  try solve [vm_compute; done | lia | apply not_elem_of_nil | by_computation | intros; by_computation].
