(* ===== verification/Inet.v ===== *)
(** * Internet address texts: [inet_pton] and [inet_ntop]

    The C library's conversions between address bytes and text, as the transport
    and the TUN module use them: strict dotted decimal for IPv4, and glibc's
    algorithm for IPv6 (one [::], at most four hex digits per group, an optional
    dotted-decimal tail).  [htons]/[ntohs] are the byte swap of a little-endian
    host. *)

From stdpp Require Import strings.
From S2P Require Import Prelude Libc.
Local Open Scope c_scope.

Definition AF_INET : Z := 2.
Definition AF_INET6 : Z := 10.
Definition INET_ADDRSTRLEN : Z := 16.
Definition INET6_ADDRSTRLEN : Z := 46.

Definition htons (x : Z) : Z := u16 (x ≪ 8) |' (x ≫ 8).
Definition ntohs (x : Z) : Z := htons x.

(** ** IPv4 *)

(** One pass over the text: finished octets, current octet, whether the current
    octet has a digit. *)
Fixpoint pton4_loop (s : bytes) (done : bytes) (cur : Z) (saw_digit : bool) : option bytes :=
  match s with
  | [] =>
      if saw_digit && (length done =? 3)%nat then Some (done ++ [cur]) else None
  | ch :: s =>
      if is_digit ch then
        let new := cur * 10 + (ch - 48) in
        if saw_digit && (cur =? 0) then None
        else if new >? 255 then None
        else pton4_loop s done new true
      else if (ch =? 46) && saw_digit then
        if (length done =? 3)%nat then None
        else pton4_loop s (done ++ [cur]) 0 false
      else None
  end.

Definition inet_pton4 (s : bytes) : option bytes := pton4_loop s [] 0 false.

Definition ntop4_text (a : bytes) : bytes :=
  match a with
  | [w; x; y; z] => dec w ++ [46] ++ dec x ++ [46] ++ dec y ++ [46] ++ dec z
  | _ => []
  end.

(** ** IPv6 *)

Definition hex_digit_value (c : Z) : option Z :=
  if is_digit c then Some (c - 48)
  else if (97 <=? c) && (c <=? 102) then Some (c - 87)
  else if (65 <=? c) && (c <=? 70) then Some (c - 55)
  else None.

(** The state of the scan: bytes stored so far, position of [::] in them, the
    text of the current group, its digits and its value. *)
Record pton6_state := mk_pton6 {
  p6_out : bytes;
  p6_colonp : option nat;
  p6_curtok : bytes;
  p6_xdigits : nat;
  p6_val : Z
}.

Definition p6_store (st : pton6_state) : option bytes :=
  if (length (p6_out st) + 2 <=? 16)%nat
  then Some (p6_out st ++ [(p6_val st ≫ 8) &' 0xff; p6_val st &' 0xff]) else None.

Fixpoint pton6_loop (s : bytes) (st : pton6_state) : option pton6_state :=
  match s with
  | [] => Some st
  | ch :: s =>
      match hex_digit_value ch with
      | Some d =>
          if (p6_xdigits st =? 4)%nat then None
          else pton6_loop s (mk_pton6 (p6_out st) (p6_colonp st) (p6_curtok st)
                               (S (p6_xdigits st)) ((p6_val st ≪ 4) |' d))
      | None =>
          if ch =? 58 then
            if (p6_xdigits st =? 0)%nat then
              match p6_colonp st with
              | Some _ => None
              | None => pton6_loop s (mk_pton6 (p6_out st) (Some (length (p6_out st))) s 0 (p6_val st))
              end
            else
              match s with
              | [] => None
              | _ => out ← p6_store st; pton6_loop s (mk_pton6 out (p6_colonp st) s 0 0)
              end
          else if (ch =? 46) && (length (p6_out st) + 4 <=? 16)%nat then
            a ← inet_pton4 (p6_curtok st);
            Some (mk_pton6 (p6_out st ++ a) (p6_colonp st) [] 0 0)
          else None
      end
  end.

Definition inet_pton6 (s : bytes) : option bytes :=
  s ← match s with
      | [] => None
      | c :: t => if c =? 58 then
                    match t with d :: _ => if d =? 58 then Some t else None | [] => None end
                  else Some s
      end;
  st ← pton6_loop s (mk_pton6 [] None s 0 0);
  out ← (if (p6_xdigits st =? 0)%nat then Some (p6_out st) else p6_store st);
  out ← match p6_colonp st with
        | None => Some out
        | Some n =>
            if (length out =? 16)%nat then None
            else Some (take n out ++ replicate (16 - length out) 0 ++ drop n out)
        end;
  if (length out =? 16)%nat then Some out else None.

Fixpoint hex_digits (fuel : nat) (n : Z) : bytes :=
  match fuel with
  | O => []
  | S k =>
      let d := n mod 16 in
      (if n <? 16 then [] else hex_digits k (n / 16)) ++ [if d <? 10 then 48 + d else 87 + d]
  end.

(** [%x] of a 16-bit group. *)
Definition hex (n : Z) : bytes := hex_digits 4 n.

Fixpoint words16 (a : bytes) : list Z :=
  match a with
  | x :: y :: t => ((x ≪ 8) |' y) :: words16 t
  | _ => []
  end.

(** The longest run of zero groups, the first one on a tie: start and length. *)
Definition longer_run (best cur : option (nat * nat)) : option (nat * nat) :=
  match best, cur with
  | Some b, Some c => if (b.2 <? c.2)%nat then cur else best
  | None, _ => cur
  | _, None => best
  end.

Fixpoint best_run (i : nat) (ws : list Z) (best cur : option (nat * nat)) : option (nat * nat) :=
  match ws with
  | [] => longer_run best cur
  | w :: ws =>
      if w =? 0 then
        best_run (S i) ws best
          match cur with None => Some (i, 1%nat) | Some (b, n) => Some (b, S n) end
      else best_run (S i) ws (longer_run best cur) None
  end.

Fixpoint ntop6_groups (i : nat) (ws : list Z) (tail : bytes) (best : option (nat * nat)) (v4 : bool)
    : bytes :=
  match ws with
  | [] => []
  | w :: ws =>
      match best with
      | Some (b, n) =>
          if (b <=? i)%nat && (i <? b + n)%nat
          then (if (i =? b)%nat then [58] else []) ++ ntop6_groups (S i) ws tail best v4
          else (if (i =? 0)%nat then [] else [58]) ++
               (if (i =? 6)%nat && v4 then ntop4_text tail
                else hex w ++ ntop6_groups (S i) ws tail best v4)
      | None =>
          (if (i =? 0)%nat then [] else [58]) ++ hex w ++ ntop6_groups (S i) ws tail best v4
      end
  end.

Definition ntop6_text (a : bytes) : bytes :=
  let ws := words16 a in
  let best := match best_run 0 ws None None with
              | Some (b, n) => if (n <? 2)%nat then None else Some (b, n)
              | None => None
              end in
  let v4 := match best with
            | Some (b, n) =>
                (b =? 0)%nat && ((n =? 6)%nat || ((n =? 5)%nat && (default 0 (ws !! 5%nat) =? 0xffff)))
            | None => false
            end in
  ntop6_groups 0 ws (drop 12 a) best v4 ++
  match best with Some (b, n) => if (b + n =? 8)%nat then [58] else [] | None => [] end.

(** ** The library entry points *)

Definition inet_pton (af : Z) (s : bytes) : option bytes :=
  if af =? AF_INET then inet_pton4 s else if af =? AF_INET6 then inet_pton6 s else None.

(** [None] is a failure with [errno] set to [ENOSPC]: the text and its NUL do not fit. *)
Definition inet_ntop (af : Z) (a : bytes) (size : Z) : option bytes :=
  let text := if af =? AF_INET then ntop4_text a else ntop6_text a in
  if Z.of_nat (length text) <? size then Some text else None.

Example pton6_documentation :
  inet_pton6 (of_string "2001:db8::1") =
    Some [0x20; 0x01; 0x0d; 0xb8; 0; 0; 0; 0; 0; 0; 0; 0; 0; 0; 0; 1] ∧
  ntop6_text [0x20; 0x01; 0x0d; 0xb8; 0; 0; 0; 0; 0; 0; 0; 0; 0; 0; 0; 1] = of_string "2001:db8::1" ∧
  inet_pton6 (of_string "::ffff:1.2.3.4") = Some (replicate 10 0 ++ [255; 255; 1; 2; 3; 4]) ∧
  ntop6_text (replicate 10 0 ++ [255; 255; 1; 2; 3; 4]) = of_string "::ffff:1.2.3.4" ∧
  ntop6_text (replicate 16 0) = of_string "::" ∧ inet_pton6 (of_string "::") = Some (replicate 16 0).
Proof. by vm_compute. Qed.

(** ** Round trip of IPv4 addresses *)

Lemma octets_ind (Q : Z → Prop) : Forall Q (seqZ 0 256) → ∀ n, is_u8 n → Q n.
Proof.
  intros HQ n Hn. rewrite Forall_forall in HQ. apply HQ, elem_of_seqZ.
  unfold is_uint in Hn. lia.
Qed.

(** Scanning the digits of an octet leaves that octet as the current one: checked
    for each of the 256 octets. *)
Lemma pton4_octet n s acc : is_u8 n →
  pton4_loop (dec n ++ s) acc 0 false = pton4_loop s acc n true.
Proof.
  intros Hn. revert s acc. revert n Hn.
  refine (octets_ind (λ n, ∀ s acc, pton4_loop (dec n ++ s) acc 0 false = pton4_loop s acc n true) _).
  let l := eval vm_compute in (seqZ 0 256) in change (seqZ 0 256) with l.
  repeat (apply Forall_cons; split; [intros; reflexivity|]). apply Forall_nil_2.
Qed.

Lemma inet_pton4_text a : length a = 4%nat → bytes_ok a → inet_pton4 (ntop4_text a) = Some a.
Proof.
  destruct a as [|w [|x [|y [|z []]]]]; try done. intros _ H.
  rewrite !Forall_cons in H. destruct H as (Hw & Hx & Hy & Hz & _).
  unfold inet_pton4, ntop4_text. rewrite pton4_octet by done. cbn [app pton4_loop].
  cbn -[dec]. rewrite pton4_octet by done. cbn -[dec]. rewrite pton4_octet by done.
  cbn -[dec]. rewrite <- (app_nil_r (dec z)), pton4_octet by done. done.
Qed.

Lemma ntop4_length a : length a = 4%nat → bytes_ok a → (7 <= length (ntop4_text a) <= 15)%nat.
Proof.
  destruct a as [|w [|x [|y [|z []]]]]; try done. intros _ H.
  rewrite !Forall_cons in H. destruct H as (Hw & Hx & Hy & Hz & _). unfold ntop4_text.
  assert (∀ n, is_u8 n → (1 <= length (dec n) <= 3)%nat) as Hd.
  { intros n Hn. split; [|by apply dec_byte_length].
    destruct (dec_spec n) as (_ & Hne & _); [by apply (is_uint_mono 8)|].
    destruct (dec n); [done|simpl; lia]. }
  pose proof (Hd _ Hw). pose proof (Hd _ Hx). pose proof (Hd _ Hy). pose proof (Hd _ Hz).
  rewrite !length_app. simpl. lia.
Qed.

Lemma htons_involutive x : 0 <= x < 2 ^ 16 → ntohs (htons x) = x.
Proof.
  intros Hx. unfold ntohs, htons, u16. apply Z.bits_inj'. intros i Hi.
  assert (is_uint 16 x) as Hu by done.
  assert (∀ j, 16 <= j → Z.testbit x j = false) as Hhi by (intros; by apply (uint_bit_high 16)).
  assert (i < 8 ∨ 8 <= i < 16 ∨ 16 <= i) as [?|[?|?]] by lia;
    repeat bits_step; cbn [andb orb]; rewrite (Hhi (i + 8 + 8)) by lia; rewrite ?orb_false_r.
  - f_equal; lia.
  - f_equal; lia.
  - symmetry. by apply Hhi.
Qed.

Lemma inet_pton4_length s ip : inet_pton4 s = Some ip → length ip = 4%nat.
Proof.
  unfold inet_pton4. generalize (@nil Z) at 1 as acc, 0 as cur, false as saw.
  induction s as [|ch s IH]; intros acc cur saw; cbn [pton4_loop].
  - destruct (saw && _) eqn:E; [|done]. intros [= <-]. apply andb_prop in E as [_ E].
    apply Nat.eqb_eq in E. rewrite length_app. simpl. lia.
  - repeat case_match; try done; apply IH.
Qed.

Lemma inet_pton_length af s ip : inet_pton af s = Some ip →
  length ip = if af =? AF_INET then 4%nat else 16%nat.
Proof.
  unfold inet_pton. destruct (af =? AF_INET); [apply inet_pton4_length|].
  destruct (af =? AF_INET6); [|done]. unfold inet_pton6. intros H. c_cases.
  case_match eqn:E; [|done]. apply Nat.eqb_eq in E. by simplify_eq.
Qed.
