(* ===== verification/Transport.v ===== *)
(** * Endpoints and the UDP socket ([src/transport.c], [src/transport.h])

    An endpoint is the 128 bytes of a [sockaddr_storage] and a length, and the
    [sockaddr_in] and [sockaddr_in6] views are reads and writes at their offsets.
    The socket functions are programs over system calls: [log] stands for the
    [LOG_*] call between a failing call and the [return -errno] that follows it,
    since logging may itself change [errno]. *)

From stdpp Require Import strings.
From S2P Require Import Prelude Config Libc Packet Os Inet.
Local Open Scope c_scope.

(** ** Definitions *)

Record vpn_endpoint_t := mk_endpoint {
  addr : bytes;
  addr_len : Z
}.

#[global] Instance vpn_endpoint_eq_dec : EqDecision vpn_endpoint_t.
Proof. solve_decision. Defined.

Definition sizeof_sockaddr_storage : Z := 128.
Definition sizeof_sockaddr_in : Z := 16.
Definition sizeof_sockaddr_in6 : Z := 28.

(** A 16-bit field of a little-endian host. *)
Definition rd16 (b : bytes) (off : Z) : option Z :=
  lo ← b.[off]; hi ← b.[off + 1]; Some (lo |' (hi ≪ 8)).
Definition wr16 (b : bytes) (off v : Z) : option bytes := blit b off [v &' 0xFF; (v ≫ 8) &' 0xFF].

Definition ss_family (a : bytes) : option Z := rd16 a 0.
Definition sin_port (a : bytes) : option Z := rd16 a 2.
Definition s_addr (a : bytes) : option Z := le32_read a 4.
Definition sin6_addr (a : bytes) : option bytes := slice a 8 16.

Definition zero_addr : bytes := replicate (Z.to_nat sizeof_sockaddr_storage) 0.
Definition zero_endpoint : vpn_endpoint_t := mk_endpoint zero_addr 0.

(** Family, port and address written into a zeroed [sockaddr_storage]; the
    address is left zero when [inet_pton] fails. *)
Definition put_sockaddr (af port : Z) (text : bytes) (addr_off len : Z)
    : option (Z * vpn_endpoint_t) :=
  a ← wr16 zero_addr 0 af;
  a ← wr16 a 2 (htons (u16 port));
  match inet_pton af text with
  | None => Some (- EINVAL, mk_endpoint a 0)
  | Some ip => a ← blit a addr_off ip; Some (0, mk_endpoint a len)
  end.

Definition endpoint_parse (str : option bytes) (endpoint : option vpn_endpoint_t)
    : option (Z * option vpn_endpoint_t) :=
  match str, endpoint with
  | Some s, Some _ =>
      if default 0 (s !! 0%nat) =? 91 then
        match strchr s 93 with
        | None => Some (- EINVAL, Some zero_endpoint)
        | Some closing =>
            if negb (default 0 (s !! S closing) =? 58) then Some (- EINVAL, Some zero_endpoint)
            else
              let ip_len := Z.of_nat closing - 1 in
              if ip_len >=? INET6_ADDRSTRLEN then Some (- EINVAL, Some zero_endpoint)
              else
                let ip_buf := take (Z.to_nat ip_len) (drop 1 s) in
                let port := atoi (drop (closing + 2) s) in
                if (port <=? 0) || (port >? 65535) then Some (- EINVAL, Some zero_endpoint)
                else '(rc, ep) ← put_sockaddr AF_INET6 port ip_buf 8 sizeof_sockaddr_in6;
                     Some (rc, Some ep)
        end
      else
        match strrchr s 58 with
        | None => Some (- EINVAL, Some zero_endpoint)
        | Some colon =>
            let ip_len := Z.of_nat colon in
            if (ip_len =? 0) || (ip_len >=? INET_ADDRSTRLEN) then Some (- EINVAL, Some zero_endpoint)
            else
              let ip_buf := take colon s in
              let port := atoi (drop (colon + 1) s) in
              if (port <=? 0) || (port >? 65535) then Some (- EINVAL, Some zero_endpoint)
              else '(rc, ep) ← put_sockaddr AF_INET port ip_buf 4 sizeof_sockaddr_in;
                   Some (rc, Some ep)
        end
  | _, _ => Some (- EINVAL, endpoint)
  end.

(** [snprintf] of a formatted address and the [-ENOSPC] check. *)
Definition put_text (b : bytes) (buf_len : Z) (text : bytes) : option (Z * option bytes) :=
  '(written, b) ← snprintf b buf_len text;
  if (written <? 0) || (written >=? buf_len) then Some (- ENOSPC, Some b) else Some (0, Some b).

Definition endpoint_to_string (endpoint : option vpn_endpoint_t) (buf : option bytes) (buf_len : Z)
    : option (Z * option bytes) :=
  match endpoint, buf with
  | Some ep, Some b =>
      if buf_len =? 0 then Some (- EINVAL, buf)
      else
        family ← ss_family (addr ep);
        if family =? AF_INET then
          ip ← slice (addr ep) 4 4;
          match inet_ntop AF_INET ip INET_ADDRSTRLEN with
          | None => Some (- ENOSPC, buf)
          | Some text => port ← sin_port (addr ep); put_text b buf_len (text ++ [58] ++ dec (ntohs port))
          end
        else if family =? AF_INET6 then
          ip ← sin6_addr (addr ep);
          match inet_ntop AF_INET6 ip INET6_ADDRSTRLEN with
          | None => Some (- ENOSPC, buf)
          | Some text =>
              port ← sin_port (addr ep);
              put_text b buf_len ([91] ++ text ++ [93; 58] ++ dec (ntohs port))
          end
        else Some (- EAFNOSUPPORT, buf)
  | _, _ => Some (- EINVAL, buf)
  end.

Definition endpoint_equal (a b : option vpn_endpoint_t) : option bool :=
  match a, b with
  | Some a, Some b =>
      fa ← ss_family (addr a); fb ← ss_family (addr b);
      if negb (fa =? fb) then Some false
      else if fa =? AF_INET then
        pa ← sin_port (addr a); pb ← sin_port (addr b);
        xa ← s_addr (addr a); xb ← s_addr (addr b);
        Some ((pa =? pb) && (xa =? xb))
      else if fa =? AF_INET6 then
        pa ← sin_port (addr a); pb ← sin_port (addr b);
        xa ← sin6_addr (addr a); xb ← sin6_addr (addr b);
        Some ((pa =? pb) && bool_decide (xa = xb))
      else Some false
  | _, _ => Some false
  end.

(** ** The socket *)

Definition SOCK_DGRAM : Z := 2.
Definition SOCK_NONBLOCK : Z := 2048.
Definition SOCK_CLOEXEC : Z := 524288.
Definition SOL_SOCKET : Z := 1.
Definition SO_REUSEADDR : Z := 2.
Definition F_GETFD : Z := 1.
Definition F_SETFD : Z := 2.
Definition F_GETFL : Z := 3.
Definition F_SETFL : Z := 4.
Definition O_NONBLOCK : Z := 2048.
Definition FD_CLOEXEC : Z := 1.

Definition LOG_INFO : Z := 1.
Definition LOG_WARN : Z := 2.
Definition LOG_ERROR : Z := 3.

(** A log call, and the value of [errno] after it. *)
Definition log (level : Z) : prog Z := r ← call (Sys_log level); mret (r_errno r).

(** The address to bind, [None] for an invalid [bind_ip]. *)
Definition bind_address (bind_ip : option bytes) (port : Z) : option (option (Z * bytes * Z)) :=
  if match bind_ip with Some s => bool_decide (is_Some (strchr s 58)) | NULL => false end then
    let s := default [] bind_ip in
    a ← wr16 zero_addr 0 AF_INET6; a ← wr16 a 2 (htons port);
    if negb (bool_decide (s = of_string "::")) then
      match inet_pton AF_INET6 s with
      | None => Some None
      | Some ip => a ← blit a 8 ip; Some (Some (AF_INET6, a, sizeof_sockaddr_in6))
      end
    else a ← blit a 8 (replicate 16 0); Some (Some (AF_INET6, a, sizeof_sockaddr_in6))
  else
    a ← wr16 zero_addr 0 AF_INET; a ← wr16 a 2 (htons port);
    match bind_ip with
    | Some s =>
        if negb (bool_decide (s = [])) && negb (bool_decide (s = of_string "0.0.0.0")) then
          match inet_pton AF_INET s with
          | None => Some None
          | Some ip => a ← blit a 4 ip; Some (Some (AF_INET, a, sizeof_sockaddr_in))
          end
        else a ← blit a 4 (replicate 4 0); Some (Some (AF_INET, a, sizeof_sockaddr_in))
    | NULL => a ← blit a 4 (replicate 4 0); Some (Some (AF_INET, a, sizeof_sockaddr_in))
    end.

(** A socket from the combined flags or the fallback; a negative code on failure. *)
Definition open_socket (domain : Z) : prog Z :=
  r ← call (Sys_socket domain (SOCK_DGRAM |' SOCK_NONBLOCK |' SOCK_CLOEXEC));
  if r_ret r <? 0 then
    r ← call (Sys_socket domain SOCK_DGRAM);
    if r_ret r <? 0 then e ← log LOG_ERROR; mret (- e)
    else
      let fd := r_ret r in
      flags ← call (Sys_fcntl fd F_GETFL 0);
      _ ← (if r_ret flags >=? 0
           then _ ← call (Sys_fcntl fd F_SETFL (r_ret flags |' O_NONBLOCK)); mret tt else mret tt);
      flags ← call (Sys_fcntl fd F_GETFD 0);
      _ ← (if r_ret flags >=? 0
           then _ ← call (Sys_fcntl fd F_SETFD (r_ret flags |' FD_CLOEXEC)); mret tt else mret tt);
      mret fd
  else mret (r_ret r).

Definition transport_open (bind_ip : option bytes) (port : Z) : prog Z :=
  a ← pure (bind_address bind_ip port);
  match a with
  | None => _ ← log LOG_ERROR; mret (- EINVAL)
  | Some (domain, addr, addr_len) =>
      fd ← open_socket domain;
      if fd <? 0 then mret fd
      else
        _ ← call (Sys_setsockopt fd SOL_SOCKET SO_REUSEADDR 1);
        sa ← pure (slice addr 0 addr_len);
        r ← call (Sys_bind fd sa);
        if r_ret r <? 0 then
          e ← log LOG_ERROR;
          _ ← call (Sys_close fd);
          mret (- e)
        else _ ← log LOG_INFO; mret fd
  end.

(** [errno] values that mean "try again later". *)
Definition again (e : Z) : bool := (e =? EAGAIN) || (e =? EWOULDBLOCK) || (e =? EINTR).

Definition transport_send (fd : Z) (dest : option vpn_endpoint_t) (buf : option bytes) (len : Z)
    : prog Z :=
  match dest, buf with
  | Some d, Some b =>
      if (fd <? 0) || (len =? 0) then mret (- EINVAL)
      else if len >? VPN_MAX_PACKET_SIZE then _ ← log LOG_WARN; mret (- EMSGSIZE)
      else
        data ← pure (slice b 0 len);
        sa ← pure (slice (addr d) 0 (addr_len d));
        r ← call (Sys_sendto fd data sa);
        if r_ret r <? 0 then
          if again (r_errno r) then mret 0 else e ← log LOG_ERROR; mret (- e)
        else mret (r_ret r)
  | _, _ => mret (- EINVAL)
  end.

(** The code, the source endpoint and the buffer after the call. *)
Definition transport_recv (fd : Z) (src : option vpn_endpoint_t) (buf : option bytes) (max_len : Z)
    : prog (Z * option vpn_endpoint_t * option bytes) :=
  match buf with
  | Some b =>
      if (fd <? 0) || (max_len =? 0) then mret (- EINVAL, src, buf)
      else
        r ← call (Sys_recvfrom fd max_len);
        if r_ret r <? 0 then
          if again (r_errno r) then mret (0, src, buf)
          else e ← log LOG_ERROR; mret (- e, src, buf)
        else
          b ← pure (blit b 0 (r_data r));
          let src' := match src with
                      | Some _ => Some (mk_endpoint (r_addr r) (r_addrlen r))
                      | NULL => NULL
                      end in
          mret (r_ret r, src', Some b)
  | NULL => mret (- EINVAL, src, buf)
  end.

Definition transport_close (fd : option Z) : prog (option Z) :=
  match fd with
  | Some f =>
      if f >=? 0 then _ ← log LOG_INFO; _ ← call (Sys_close f); mret (Some (-1)) else mret fd
  | NULL => mret fd
  end.

(** ** Addresses in memory *)

Lemma rd16_Some b off : 0 <= off → off + 2 <= Z.of_nat (length b) → is_Some (rd16 b off).
Proof.
  intros. unfold rd16. destruct (rd_lt b off) as [x ->]; [lia|].
  destruct (rd_lt b (off + 1)) as [y ->]; [lia|]. bind_simpl. eauto.
Qed.

(** What identifies an endpoint: family, port and address of the two families the
    daemon knows. *)
Definition identity (ep : vpn_endpoint_t) : option (Z * Z * bytes) :=
  family ← ss_family (addr ep);
  port ← sin_port (addr ep);
  if family =? AF_INET then ip ← slice (addr ep) 4 4; Some (family, port, ip)
  else if family =? AF_INET6 then ip ← slice (addr ep) 8 16; Some (family, port, ip)
  else None.

Record endpoint_ok (ep : vpn_endpoint_t) : Prop := {
  addr_size : length (addr ep) = 128%nat;
  addr_bytes : bytes_ok (addr ep);
  addr_len_ok : 0 <= addr_len ep <= 128
}.

Lemma slice_is_Some (b : bytes) off n : 0 <= off → 0 <= n → off + n <= Z.of_nat (length b) →
  ∃ d, slice b off n = Some d ∧ (bytes_ok b → bytes_ok d) ∧ Z.of_nat (length d) = n.
Proof.
  intros. destruct (slice b off n) as [d|] eqn:E; [|rewrite slice_ok in E; done].
  exists d. split_and!; [done|intros; by eapply slice_Forall|by eapply slice_length].
Qed.

Lemma le32_bytes_inj a b : is_u32 a → is_u32 b → le32_bytes a = le32_bytes b → a = b.
Proof.
  intros Ha Hb Heq.
  assert (le32_read (le32_bytes a) 0 = Some a) as H1 by by apply le32_read_bytes.
  assert (le32_read (le32_bytes b) 0 = Some b) as H2 by by apply le32_read_bytes.
  rewrite Heq in H1. congruence.
Qed.

Lemma endpoint_equal_identity a b : endpoint_ok a → endpoint_ok b →
  endpoint_equal (Some a) (Some b) =
    Some (bool_decide (is_Some (identity a)) && bool_decide (identity a = identity b)).
Proof.
  intros [Hla Hba _] [Hlb Hbb _]. unfold endpoint_equal, identity.
  destruct (rd16_Some (addr a) 0) as [fa Hfa]; [lia..|]. unfold ss_family. rewrite Hfa.
  destruct (rd16_Some (addr b) 0) as [fb Hfb]; [lia..|]. rewrite Hfb.
  destruct (rd16_Some (addr a) 2) as [pa Hpa]; [lia..|]. unfold sin_port. rewrite Hpa.
  destruct (rd16_Some (addr b) 2) as [pb Hpb]; [lia..|]. rewrite Hpb. bind_simpl.
  destruct (slice_is_Some (addr a) 4 4) as (xa & Hxa & Ha4 & _); [lia..|].
  destruct (slice_is_Some (addr b) 4 4) as (xb & Hxb & Hb4 & _); [lia..|].
  destruct (slice_is_Some (addr a) 8 16) as (ya & Hya & _); [lia..|].
  destruct (slice_is_Some (addr b) 8 16) as (yb & Hyb & _); [lia..|].
  unfold s_addr, sin6_addr. rewrite Hxa, Hxb, Hya, Hyb.
  destruct (le32_bytes_read _ _ _ Hxa (Ha4 Hba)) as (va & -> & Hva & <-).
  destruct (le32_bytes_read _ _ _ Hxb (Hb4 Hbb)) as (vb & -> & Hvb & <-). bind_simpl.
  pose proof (le32_bytes_inj va vb Hva Hvb) as Hv.
  destruct (Z.eqb_spec fa fb) as [<-|Hf]; bind_simpl.
  - destruct (fa =? AF_INET); [|destruct (fa =? AF_INET6); [|done]];
      f_equal; (rewrite (bool_decide_true (is_Some _)) by eauto); cbn [andb];
      apply eq_true_iff_eq; rewrite andb_true_iff, Z.eqb_eq, ?Z.eqb_eq, ?bool_decide_eq_true.
    all: split; [by intros [-> ->]|].
    all: intros Heq%(inj Some); apply pair_equal_spec in Heq as [[_ ?]%pair_equal_spec ?]; auto.
  - f_equal. symmetry. apply andb_false_iff.
    destruct (fa =? AF_INET), (fa =? AF_INET6), (fb =? AF_INET), (fb =? AF_INET6);
      first [right; rewrite bool_decide_eq_false; congruence
            | left; rewrite bool_decide_eq_false; by intros [? ?]].
Qed.

(** ** The text of an IPv4 endpoint *)

Definition endpoint4 (ip : bytes) (port : Z) : vpn_endpoint_t :=
  mk_endpoint ([2; 0; (port ≫ 8) &' 0xFF; port &' 0xFF] ++ ip ++ replicate 120 0) sizeof_sockaddr_in.

Definition endpoint4_text (ip : bytes) (port : Z) : bytes := ntop4_text ip ++ [58] ++ dec port.

Lemma htons_bytes port : 0 <= port < 2 ^ 16 →
  [htons port &' 0xFF; (htons port ≫ 8) &' 0xFF] = [(port ≫ 8) &' 0xFF; port &' 0xFF].
Proof.
  intros Hp. assert (∀ j, 16 <= j → Z.testbit port j = false) as Hhi
    by (intros; by apply (uint_bit_high 16)).
  enough (htons port &' 0xFF = (port ≫ 8) &' 0xFF ∧ (htons port ≫ 8) &' 0xFF = port &' 0xFF)
    as [-> ->] by done.
  unfold htons, u16. split; apply Z.bits_inj'; intros i Hi;
    (destruct (decide (i < 8));
     [|rewrite !Z.land_spec, testbit_ff by lia; test_false (i <? 8); by rewrite !andb_false_r]);
    repeat bits_step; cbn [andb orb]; rewrite ?andb_true_r.
  - done.
  - rewrite (Hhi (i + 8 + 8)) by lia. rewrite orb_false_r. f_equal; lia.
Qed.

Lemma rd16_bytes b off x y : slice b off 2 = Some [x; y] → rd16 b off = Some (x |' (y ≪ 8)).
Proof.
  intros Hs. pose proof (λ k, slice_rd _ _ _ _ k Hs) as Hrd. unfold rd16.
  rewrite <- (Z.add_0_r off) at 1. by rewrite !Hrd by lia.
Qed.

Lemma port_bytes port : 0 <= port < 2 ^ 16 →
  ntohs ((port ≫ 8) &' 0xFF |' ((port &' 0xFF) ≪ 8)) = port.
Proof.
  intros Hp. assert (∀ j, 16 <= j → Z.testbit port j = false) as Hhi
    by (intros; by apply (uint_bit_high 16)).
  unfold ntohs, htons, u16. apply Z.bits_inj'. intros i Hi.
  assert (i < 8 ∨ 8 <= i < 16 ∨ 16 <= i) as [?|[?|?]] by lia;
    repeat bits_step; cbn [andb orb]; rewrite ?andb_false_r, ?andb_true_r, ?orb_false_r; cbn [orb].
  - f_equal; lia.
  - f_equal; lia.
  - symmetry. by apply Hhi.
Qed.

Lemma put_sockaddr4 ip port : length ip = 4%nat → bytes_ok ip → 0 <= port < 2 ^ 16 →
  put_sockaddr AF_INET port (ntop4_text ip) 4 sizeof_sockaddr_in = Some (0, endpoint4 ip port).
Proof.
  intros Hl Hb Hp. unfold put_sockaddr.
  change (wr16 zero_addr 0 AF_INET) with (Some ([2; 0] ++ [0; 0] ++ replicate 124 0)). bind_simpl.
  unfold wr16. unfold u16 at 1 2. rewrite wrap_small, htons_bytes by done.
  rewrite blit_mid by done. bind_simpl. cbn [inet_pton Z.eqb]. unfold inet_pton.
  change (AF_INET =? AF_INET) with true. cbn iota. rewrite inet_pton4_text by done.
  change (replicate 124 0) with (replicate 4 0 ++ replicate 120 0). rewrite app_assoc.
  by rewrite blit_mid by done.
Qed.

(** The text starts with a digit. *)
Lemma ntop4_first ip t : length ip = 4%nat → bytes_ok ip →
  (default 0 ((ntop4_text ip ++ t) !! 0%nat) =? 91) = false.
Proof.
  destruct ip as [|w [|x [|y [|z []]]]]; try done. intros _ H.
  rewrite !Forall_cons in H. destruct H as (Hw & _). cbn [ntop4_text].
  destruct (dec_spec w) as (Hd & Hne & _); [by apply (is_uint_mono 8)|].
  destruct (dec w) as [|c ds]; [done|]. apply Forall_cons in Hd as [Hc _]. cbn.
  unfold is_digit in Hc. lia.
Qed.

Lemma endpoint4_parse ip port ep : length ip = 4%nat → bytes_ok ip → 0 < port < 2 ^ 16 →
  endpoint_parse (Some (endpoint4_text ip port)) (Some ep) = Some (0, Some (endpoint4 ip port)).
Proof.
  intros Hl Hb Hp. unfold endpoint_parse, endpoint4_text.
  pose proof (ntop4_length ip Hl Hb) as Hlen. rewrite ntop4_first by done. cbn [app].
  rewrite strrchr_app by (apply dec_not_char; [len|done]).
  change INET_ADDRSTRLEN with 16.
  replace ((Z.of_nat (length (ntop4_text ip)) =? 0) ||
           (Z.of_nat (length (ntop4_text ip)) >=? 16)) with false by lia.
  rewrite take_app_length.
  replace (drop (length (ntop4_text ip) + 1) (ntop4_text ip ++ 58 :: dec port)) with (dec port)
    by (rewrite <- drop_drop, drop_app_length; done).
  rewrite <- (app_nil_r (dec port)), atoi_dec by (done || lia).
  replace ((port <=? 0) || (port >? 65535)) with false by lia.
  by rewrite put_sockaddr4 by (done || lia).
Qed.

Lemma endpoint4_fields ip port : length ip = 4%nat → bytes_ok ip → 0 <= port < 2 ^ 16 →
  ss_family (addr (endpoint4 ip port)) = Some AF_INET ∧
  slice (addr (endpoint4 ip port)) 4 4 = Some ip ∧
  ∃ p, sin_port (addr (endpoint4 ip port)) = Some p ∧ ntohs p = port.
Proof.
  intros Hl Hb Hp. cbn [endpoint4 addr]. split_and!.
  - done.
  - rewrite slice_app_r by (simpl; lia). apply slice_app_0; [done|]. by rewrite Hl.
  - eexists. split; [|by apply port_bytes]. unfold sin_port.
    apply rd16_bytes. cbn [app]. rewrite !slice_cons by lia. by apply (slice_app_0 [_; _]).
Qed.

Lemma dec_port_length port : 0 <= port < 2 ^ 16 → (length (dec port) <= 5)%nat.
Proof.
  intros Hp. unfold dec. cbn [dec_digits].
  destruct (Z.ltb_spec port 10); [simpl; lia|].
  destruct (Z.ltb_spec (port / 10) 10); [simpl; lia|].
  destruct (Z.ltb_spec (port / 10 / 10) 10); [simpl; lia|].
  destruct (Z.ltb_spec (port / 10 / 10 / 10) 10); [simpl; lia|].
  assert (port / 10 / 10 / 10 / 10 < 10)
    by (rewrite !Z.div_div by lia; apply Z.div_lt_upper_bound; lia).
  test_true (port / 10 / 10 / 10 / 10 <? 10). rewrite !length_app. simpl. lia.
Qed.

Lemma endpoint4_to_string ip port buf n : length ip = 4%nat → bytes_ok ip → 0 <= port < 2 ^ 16 →
  Z.of_nat (length buf) = n → 22 <= n →
  ∃ rest, endpoint_to_string (Some (endpoint4 ip port)) (Some buf) n =
    Some (0, Some (endpoint4_text ip port ++ [0] ++ rest)).
Proof.
  intros Hl Hb Hp Hbuf Hn. unfold endpoint_to_string. test_false (n =? 0).
  destruct (endpoint4_fields ip port Hl Hb Hp) as (-> & -> & p & -> & Hport). bind_simpl.
  change (AF_INET =? AF_INET) with true. cbn iota.
  pose proof (ntop4_length ip Hl Hb) as Hlen. unfold inet_ntop.
  change (AF_INET =? AF_INET) with true. cbn iota. change INET_ADDRSTRLEN with 16.
  test_true (Z.of_nat (length (ntop4_text ip)) <? 16). rewrite Hport.
  fold (endpoint4_text ip port). pose proof (dec_port_length port Hp) as Hd.
  assert (length (endpoint4_text ip port) <= 21)%nat as Ht
    by (unfold endpoint4_text; rewrite !length_app; simpl; lia).
  unfold put_text, snprintf. test_false (n =? 0). rewrite take_ge by lia.
  rewrite <- (take_drop (length (endpoint4_text ip port) + 1) buf).
  rewrite blit_0 by (rewrite length_take, length_app; simpl; lia). bind_simpl.
  replace ((Z.of_nat (length (endpoint4_text ip port)) <? 0) ||
           (Z.of_nat (length (endpoint4_text ip port)) >=? n)) with false by lia.
  eexists. by rewrite <- app_assoc.
Qed.

(** ** Descriptors of [transport_open] *)

Lemma fd_step_neutral fds c r :
  match c with Sys_socket _ _ | Sys_open _ _ | Sys_close _ => False | _ => True end →
  fd_step fds (c, r) = fds.
Proof. by destruct c. Qed.

Lemma wp_log h level (Φ : trace → Z → Prop) :
  (∀ r, 0 < r_errno r → Φ (h ++ [(Sys_log level, r)]) (r_errno r)) →
  wp any_call h (log level) Φ.
Proof.
  intros H. unfold log. wp_step. apply wp_call; [done|]. intros r [_ Hr]. by apply H.
Qed.

Lemma open_socket_fds h domain : open_fds h = [] →
  wp any_call h (open_socket domain) (λ t fd, open_fds t = if fd <? 0 then [] else [fd]).
Proof.
  intros Hh. unfold open_socket. wp_step. wp_step. wp_step.
  - wp_step. wp_step. wp_step.
    + wp_step. apply wp_log. intros r' He. wp_step.
      rewrite !open_fds_snoc, Hh. unfold fd_step. cbn [fst snd]. rewrite Heqb, Heqb0.
      by test_true (- r_errno r' <? 0).
    + do 2 wp_step. wp_step. apply (wp_mono _ _ _ (λ t _, open_fds t = [r_ret r0])).
      * intros t _ Ht. do 2 wp_step. wp_step. apply (wp_mono _ _ _ (λ t _, open_fds t = [r_ret r0])).
        -- intros t' _ Ht'. wp_step. by rewrite Heqb0.
        -- wp_step; repeat wp_step; by rewrite !open_fds_snoc, ?Ht, ?fd_step_neutral.
      * wp_step; repeat wp_step; rewrite !open_fds_snoc, Hh;
          unfold fd_step; cbn [fst snd]; by rewrite Heqb, Heqb0.
  - wp_step. rewrite open_fds_snoc, Hh. unfold fd_step. cbn [fst snd]. by rewrite Heqb.
Qed.

Lemma wr16_length b off v : 0 <= off → off + 2 <= Z.of_nat (length b) →
  ∃ b', wr16 b off v = Some b' ∧ length b' = length b.
Proof.
  intros. unfold wr16. destruct (blit b off _) as [b'|] eqn:E.
  - exists b'. split; [done|]. by eapply blit_length.
  - unfold blit in E. cbn [length] in E.
    by rewrite (proj2 (Z.leb_le _ _)), (proj2 (Z.leb_le _ _)) in E by lia.
Qed.

Lemma blit_Some (b d : bytes) off : 0 <= off → off + Z.of_nat (length d) <= Z.of_nat (length b) →
  ∃ b', blit b off d = Some b' ∧ length b' = length b.
Proof.
  intros. destruct (blit b off d) as [b'|] eqn:E.
  - exists b'. split; [done|]. by eapply blit_length.
  - unfold blit in E. by rewrite (proj2 (Z.leb_le _ _)), (proj2 (Z.leb_le _ _)) in E by lia.
Qed.

(** The address to bind is always computed; when there is one it is a full
    [sockaddr_storage] and the length of its family. *)
Lemma bind_address_ok bind_ip port :
  ∃ o, bind_address bind_ip port = Some o ∧
    ∀ d a n, o = Some (d, a, n) → length a = 128%nat ∧ 0 <= n <= 128.
Proof.
  unfold bind_address.
  destruct (wr16_length zero_addr 0 AF_INET6) as (a6 & -> & Ha6); [done..|].
  destruct (wr16_length zero_addr 0 AF_INET) as (a4 & -> & Ha4); [done..|].
  destruct (wr16_length a6 2 (htons port)) as (b6 & Hb6 & Hl6); [done|by rewrite Ha6|].
  destruct (wr16_length a4 2 (htons port)) as (b4 & Hb4 & Hl4); [done|by rewrite Ha4|].
  change (length zero_addr) with 128%nat in *. rewrite Ha6 in Hl6. rewrite Ha4 in Hl4.
  bind_simpl. rewrite Hb6, Hb4. bind_simpl.
  assert (∀ ip, length ip = 16%nat → ∃ c, blit b6 8 ip = Some c ∧ length c = 128%nat) as H6.
  { intros ip Hi. destruct (blit_Some b6 ip 8) as (c & -> & ?); [lia..|]. exists c. by split; [|lia]. }
  assert (∀ ip, length ip = 4%nat → ∃ c, blit b4 4 ip = Some c ∧ length c = 128%nat) as H4.
  { intros ip Hi. destruct (blit_Some b4 ip 4) as (c & -> & ?); [lia..|]. exists c. by split; [|lia]. }
  assert (∀ s ip, inet_pton AF_INET6 s = Some ip → length ip = 16%nat) as P6
    by (intros s ip Hs; by apply inet_pton_length in Hs).
  assert (∀ s ip, inet_pton AF_INET s = Some ip → length ip = 4%nat) as P4
    by (intros s ip Hs; by apply inet_pton_length in Hs).
  destruct (H6 (replicate 16 0) eq_refl) as (c6 & -> & ?).
  destruct (H4 (replicate 4 0) eq_refl) as (c4 & -> & ?). bind_simpl.
  repeat case_match;
    try (destruct (H6 _ (P6 _ _ ltac:(eassumption))) as (? & -> & ?); bind_simpl);
    try (destruct (H4 _ (P4 _ _ ltac:(eassumption))) as (? & -> & ?); bind_simpl);
    (eexists; split; [reflexivity|]; intros; simplify_eq;
     by split; [done|vm_compute]).
Qed.

Lemma transport_open_wp h bind_ip port : open_fds h = [] →
  wp any_call h (transport_open bind_ip port)
    (λ t fd, open_fds t = if fd <? 0 then [] else [fd]).
Proof.
  intros Hh. unfold transport_open. destruct (bind_address_ok bind_ip port) as (o & -> & Ho).
  wp_step. apply wp_pure with (a := o); [done|]. destruct o as [[[d a] n]|].
  - destruct (Ho d a n eq_refl) as [Ha Hn]. wp_step.
    eapply wp_mono; [|by apply open_socket_fds]. cbn beta. intros t fd Ht.
    wp_step; [wp_step; by rewrite Heqb|]. do 2 wp_step. wp_step.
    destruct (slice_is_Some a 0 n) as (sa & Hsa & _); [lia..|].
    apply wp_pure with (a := sa); [done|]. do 2 wp_step. wp_step.
    + wp_step. apply wp_log. intros r' He. do 2 wp_step. wp_step.
      rewrite !open_fds_snoc, Ht. unfold fd_step. cbn [fst snd].
      test_true (- r_errno r' <? 0). apply filter_ne_singleton.
    + wp_step. apply wp_log. intros r' He. wp_step.
      rewrite !open_fds_snoc, Ht. unfold fd_step. cbn [fst snd]. by rewrite Heqb.
  - wp_step. apply wp_log. intros r' He. wp_step. by rewrite open_fds_snoc, Hh.
Qed.

(** ** Properties *)

(** formatting an IPv4 endpoint and parsing the text gives the endpoint back,
    for every address and every non-zero port, and [endpoint_to_string] needs no
    more than 22 bytes of buffer. *)
Theorem endpoint_text_roundtrip ip port buf ep :
  length ip = 4%nat → bytes_ok ip → 0 < port < 2 ^ 16 → (22 <= length buf)%nat →
  ∃ text rest,
    endpoint_to_string (Some (endpoint4 ip port)) (Some buf) (Z.of_nat (length buf))
      = Some (0, Some (text ++ [0] ++ rest)) ∧
    endpoint_parse (Some text) (Some ep) = Some (0, Some (endpoint4 ip port)).
Proof.
  intros Hl Hb Hp Hn.
  destruct (endpoint4_to_string ip port buf _ Hl Hb ltac:(lia) eq_refl ltac:(lia)) as [rest H].
  exists (endpoint4_text ip port), rest. split; [done|]. by apply endpoint4_parse.
Qed.

Lemma endpoint_text_roundtrip_witness : ∃ text rest,
  endpoint_to_string (Some (endpoint4 [192; 168; 1; 10] 51820)) (Some (replicate 64 0)) 64
    = Some (0, Some (text ++ [0] ++ rest)) ∧
  endpoint_parse (Some text) (Some zero_endpoint)
    = Some (0, Some (endpoint4 [192; 168; 1; 10] 51820)).
Proof.
  apply (endpoint_text_roundtrip [192; 168; 1; 10] 51820 (replicate 64 0) zero_endpoint);
    [done|by repeat constructor|lia|simpl; lia].
Defined.

(** [endpoint_equal] holds exactly when both endpoints have the same family,
    IPv4 or IPv6, and the same port and address, whatever their other bytes
    (padding, flow label, scope) are; an endpoint of another family, such as the
    zeroed one of a new peer, equals nothing. *)
Theorem endpoint_equal_spec a b :
  endpoint_ok a → endpoint_ok b →
  endpoint_equal (Some a) (Some b) =
    Some (bool_decide (is_Some (identity a)) && bool_decide (identity a = identity b)).
Proof. apply endpoint_equal_identity. Qed.

Lemma endpoint_equal_spec_witness :
  endpoint_equal (Some (endpoint4 [10; 0; 0; 1] 80)) (Some zero_endpoint) =
    Some (bool_decide (is_Some (identity (endpoint4 [10; 0; 0; 1] 80))) &&
          bool_decide (identity (endpoint4 [10; 0; 0; 1] 80) = identity zero_endpoint)).
Proof.
  apply endpoint_equal_spec; (split; [done|by_computation|done]).
Defined.

(** C34: [transport_open] leaks no descriptor: whatever the kernel answers to its
    calls, it runs without undefined behaviour, and when it returns, the only
    descriptor left open is the one it returns, or none if it returns an error. *)
Theorem transport_open_no_leak bind_ip port rs res t :
  exec (transport_open bind_ip port) rs = (res, t) → env_ok any_call t →
  res ≠ Ub ∧ ∀ fd, res = Done fd → open_fds t = if fd <? 0 then [] else [fd].
Proof.
  intros Hx Ht. destruct (wp_adequate _ _ _ _ _ _ (transport_open_wp [] bind_ip port eq_refl) Hx Ht)
    as (H1 & _ & H2). auto.
Qed.

Definition ok_reply (ret : Z) : reply := mk_reply ret 1 [] [] 0 [].

Lemma transport_open_no_leak_witness :
  ∃ t, exec (transport_open NULL 51820) [ok_reply 7; ok_reply 0; mk_reply (-1) 98 [] [] 0 [];
                                          mk_reply 0 98 [] [] 0 []; ok_reply 0]
       = (Done (-98), t) ∧ open_fds t = [].
Proof.
  eexists. split; [by vm_compute|].
  refine (proj2 (transport_open_no_leak NULL 51820 [ok_reply 7; ok_reply 0;
            mk_reply (-1) 98 [] [] 0 []; mk_reply 0 98 [] [] 0 []; ok_reply 0]
            (Done (-98)) _ ltac:(by vm_compute) _) (-98) eq_refl).
  by_env.
Defined.
