(* ===== verification/Tun.v ===== *)
(** * The TUN device ([src/tun.c], [src/tun.h], the Linux branch)

    The device record and its operations as programs over system calls; a
    [struct ifreq] is its 40 bytes, the name first and the union of flags, MTU
    and address at offset 16. *)

From stdpp Require Import strings.
From S2P Require Import Prelude Config Libc Packet Os Inet Transport.
Local Open Scope c_scope.

(** ** Definitions *)

Definition IFNAMSIZ : Z := 16.
Definition sizeof_ifreq : Z := 40.
Definition IFF_UP : Z := 1.
Definition IFF_RUNNING : Z := 64.
Definition IFF_TUN : Z := 1.
Definition IFF_NO_PI : Z := 4096.
Definition O_RDWR : Z := 2.
Definition O_CLOEXEC : Z := 524288.
Definition TUNSETIFF : Z := 0x400454ca.
Definition SIOCGIFFLAGS : Z := 0x8913.
Definition SIOCSIFFLAGS : Z := 0x8914.
Definition SIOCSIFADDR : Z := 0x8916.
Definition SIOCSIFNETMASK : Z := 0x891c.
Definition SIOCSIFMTU : Z := 0x8922.

Record tun_device_t := mk_tun {
  fd : Z;
  tun_name : bytes;
  mtu : Z
}.

Definition zero_ifreq : bytes := replicate (Z.to_nat sizeof_ifreq) 0.

(** [snprintf(ifr.ifr_name, sizeof(ifr.ifr_name), "%s", s)] *)
Definition put_ifr_name (ifr s : bytes) : option bytes :=
  nm ← slice ifr 0 IFNAMSIZ;
  '(_, nm) ← snprintf nm IFNAMSIZ s;
  blit ifr 0 nm.

(** [ifr.ifr_flags] *)
Definition put_ifr_flags (ifr : bytes) (flags : Z) : option bytes := wr16 ifr 16 flags.

(** [sin_family] and [sin_addr] of the address in the request. *)
Definition put_ifr_addr (ifr ip : bytes) : option bytes :=
  ifr ← wr16 ifr 16 AF_INET; blit ifr 20 ip.

(** [open] and [TUNSETIFF]: the request as the kernel leaves it and the
    descriptor, or a negative code. *)
Definition attach_tun (dev_name : option bytes) : prog (Z + Z * bytes) :=
  r ← call (Sys_open (of_string "/dev/net/tun") (O_RDWR |' O_NONBLOCK |' O_CLOEXEC));
  if r_ret r <? 0 then e ← log LOG_ERROR; mret (inl (- e))
  else
    let f := r_ret r in
    ifr ← pure (put_ifr_flags zero_ifreq (IFF_TUN |' IFF_NO_PI));
    ifr ← pure match dev_name with
               | Some s => if bool_decide (s = []) then Some ifr else put_ifr_name ifr s
               | NULL => Some ifr
               end;
    r ← call (Sys_ioctl f TUNSETIFF ifr);
    if r_ret r <? 0 then
      e ← log LOG_ERROR; _ ← call (Sys_close f); mret (inl (- e))
    else mret (inr (f, r_data r)).

(** The temporary control socket that sets the MTU. *)
Definition set_mtu (ifr : bytes) (mtu : Z) : prog unit :=
  r ← call (Sys_socket AF_INET SOCK_DGRAM);
  if r_ret r >=? 0 then
    let sock := r_ret r in
    ifr ← pure (le32_write ifr 16 (u32 mtu));
    r ← call (Sys_ioctl sock SIOCSIFMTU ifr);
    _ ← log (if r_ret r <? 0 then LOG_WARN else LOG_INFO);
    _ ← call (Sys_close sock);
    mret tt
  else mret tt.

Definition tun_open (tun : option tun_device_t) (dev_name : option bytes) (mtu : Z)
    : prog (Z * option tun_device_t) :=
  match tun with
  | NULL => _ ← log LOG_ERROR; mret (- EINVAL, tun)
  | Some _ =>
      if (mtu <? VPN_MIN_IPV4_MTU) || (mtu >? VPN_MAX_PACKET_SIZE)
      then _ ← log LOG_ERROR; mret (- EINVAL, tun)
      else
        let closed := mk_tun (-1) (replicate (Z.to_nat IFNAMSIZ) 0) mtu in
        r ← attach_tun dev_name;
        match r with
        | inl rc => mret (rc, Some closed)
        | inr (f, ifr) =>
            nm ← pure (cstr (take (Z.to_nat IFNAMSIZ) ifr));
            buf ← pure (snd <$> snprintf (replicate (Z.to_nat IFNAMSIZ) 0) IFNAMSIZ nm);
            _ ← set_mtu ifr mtu;
            mret (0, Some (mk_tun f buf mtu))
        end
  end.

(** Close the control socket and return [rc]. *)
Definition close_return (sock rc : Z) : prog Z := _ ← call (Sys_close sock); mret rc.

(** One [SIOCSIF*] request carrying an address: a code if it failed. *)
Definition set_address (sock request : Z) (tun : tun_device_t) (text : bytes) : prog (option Z) :=
  ifr ← pure (nm ← cstr (tun_name tun); put_ifr_name zero_ifreq nm);
  match inet_pton AF_INET text with
  | None => _ ← log LOG_ERROR; rc ← close_return sock (- EINVAL); mret (Some rc)
  | Some ip =>
      ifr ← pure (put_ifr_addr ifr ip);
      r ← call (Sys_ioctl sock request ifr);
      if r_ret r <? 0 then
        e ← log LOG_ERROR; rc ← close_return sock (- e); mret (Some rc)
      else mret None
  end.

Definition tun_set_ip (tun : option tun_device_t) (ip_str netmask_str : option bytes) : prog Z :=
  match tun, ip_str, netmask_str with
  | Some d, Some ip, Some mask =>
      if fd d <? 0 then _ ← log LOG_ERROR; mret (- EINVAL)
      else
        r ← call (Sys_socket AF_INET SOCK_DGRAM);
        if r_ret r <? 0 then e ← log LOG_ERROR; mret (- e)
        else
          let sock := r_ret r in
          err ← set_address sock SIOCSIFADDR d ip;
          match err with
          | Some rc => mret rc
          | None =>
              err ← set_address sock SIOCSIFNETMASK d mask;
              match err with
              | Some rc => mret rc
              | None => _ ← call (Sys_close sock); _ ← log LOG_INFO; mret 0
              end
          end
  | _, _, _ => _ ← log LOG_ERROR; mret (- EINVAL)
  end.

Definition tun_set_up (tun : option tun_device_t) : prog Z :=
  match tun with
  | Some d =>
      if fd d <? 0 then _ ← log LOG_ERROR; mret (- EINVAL)
      else
        r ← call (Sys_socket AF_INET SOCK_DGRAM);
        if r_ret r <? 0 then e ← log LOG_ERROR; mret (- e)
        else
          let sock := r_ret r in
          ifr ← pure (nm ← cstr (tun_name d); put_ifr_name zero_ifreq nm);
          r ← call (Sys_ioctl sock SIOCGIFFLAGS ifr);
          if r_ret r <? 0 then e ← log LOG_ERROR; close_return sock (- e)
          else
            let ifr := r_data r in
            ifr ← pure (flags ← rd16 ifr 16; put_ifr_flags ifr (flags |' (IFF_UP |' IFF_RUNNING)));
            r ← call (Sys_ioctl sock SIOCSIFFLAGS ifr);
            if r_ret r <? 0 then e ← log LOG_ERROR; close_return sock (- e)
            else _ ← call (Sys_close sock); _ ← log LOG_INFO; mret 0
  | NULL => _ ← log LOG_ERROR; mret (- EINVAL)
  end.

Definition tun_read (tun : option tun_device_t) (buf : option bytes) (buf_len : Z)
    : prog (Z * option bytes) :=
  match tun, buf with
  | Some d, Some b =>
      if (fd d <? 0) || (buf_len =? 0) then mret (- EINVAL, buf)
      else
        r ← call (Sys_read (fd d) buf_len);
        if r_ret r <? 0 then
          if again (r_errno r) then mret (0, buf) else e ← log LOG_ERROR; mret (- e, buf)
        else b ← pure (blit b 0 (r_data r)); mret (r_ret r, Some b)
  | _, _ => mret (- EINVAL, buf)
  end.

Definition tun_write (tun : option tun_device_t) (buf : option bytes) (buf_len : Z) : prog Z :=
  match tun, buf with
  | Some d, Some b =>
      if (fd d <? 0) || (buf_len =? 0) then mret (- EINVAL)
      else if buf_len >? u64 (mtu d) then _ ← log LOG_WARN; mret (- EMSGSIZE)
      else
        data ← pure (slice b 0 buf_len);
        r ← call (Sys_write (fd d) data);
        if r_ret r <? 0 then
          if again (r_errno r) then mret 0 else e ← log LOG_ERROR; mret (- e)
        else mret (r_ret r)
  | _, _ => mret (- EINVAL)
  end.

Definition tun_close (tun : option tun_device_t) : prog (option tun_device_t) :=
  match tun with
  | Some d =>
      if fd d >=? 0 then
        _ ← log LOG_INFO; _ ← call (Sys_close (fd d));
        mret (Some (mk_tun (-1) (tun_name d) (mtu d)))
      else mret tun
  | NULL => mret tun
  end.

(** ** Requests are always well formed *)

(** A device record whose name is a C string. *)
Definition tun_ok (d : tun_device_t) : Prop := length (tun_name d) = 16%nat ∧ 0 ∈ tun_name d.

Lemma put_ifr_name_Some ifr s : length ifr = 40%nat →
  ∃ ifr', put_ifr_name ifr s = Some ifr' ∧ length ifr' = 40%nat.
Proof.
  intros Hl. unfold put_ifr_name.
  destruct (slice_is_Some ifr 0 IFNAMSIZ) as (nm & -> & _ & Hn); [done|done|unfold IFNAMSIZ; lia|].
  bind_simpl. unfold snprintf. change (IFNAMSIZ =? 0) with false. cbn iota. change IFNAMSIZ with 16 in *.
  destruct (blit_Some nm (take (Z.to_nat (16 - 1)) s ++ [0]) 0) as (nm' & -> & Hn'); [done|len|].
  bind_simpl. destruct (blit_Some ifr nm' 0) as (ifr' & -> & H); [done|lia|]. exists ifr'. split; [done|lia].
Qed.

Lemma put_ifr_flags_Some ifr fl : length ifr = 40%nat →
  ∃ ifr', put_ifr_flags ifr fl = Some ifr' ∧ length ifr' = 40%nat.
Proof.
  intros Hl. unfold put_ifr_flags.
  destruct (wr16_length ifr 16 fl) as (x & -> & Hx); [done|lia|]. exists x. split; [done|lia].
Qed.

Lemma put_ifr_addr_Some ifr ip : length ifr = 40%nat → length ip = 4%nat →
  ∃ ifr', put_ifr_addr ifr ip = Some ifr' ∧ length ifr' = 40%nat.
Proof.
  intros Hl Hi. unfold put_ifr_addr.
  destruct (wr16_length ifr 16 AF_INET) as (x & -> & Hx); [done|lia|]. bind_simpl.
  destruct (blit_Some x ip 20) as (y & -> & Hy); [done|lia|]. exists y. split; [done|lia].
Qed.

Lemma le32_write_Some b o v : 0 <= o → o + 4 <= Z.of_nat (length b) → is_Some (le32_write b o v).
Proof.
  intros. destruct (buf_split b o 4) as (pre & mid & post & -> & Hp & Hm); [lia..|].
  rewrite le32_write_mid by lia. eauto.
Qed.

(** ** Descriptors *)

(** The calls of the module other than the two that open and close. *)
Ltac fd_trace := rewrite ?open_fds_snoc, ?fd_step_neutral by done.

Lemma attach_tun_wp h dev_name :
  wp any_call h (attach_tun dev_name) (λ t r,
    match r with
    | inl rc => rc < 0 ∧ open_fds t = open_fds h
    | inr (f, ifr) => 0 <= f ∧ (f ∉ open_fds h) ∧ open_fds t = (f :: open_fds h) ∧
                      length ifr = 40%nat ∧ 0 ∈ take 16 ifr
    end).
Proof.
  unfold attach_tun. wp_step. apply wp_call; [done|]. intros r [_ Hnew]. wp_step.
  - wp_step. apply wp_log. intros r' He. wp_step. split; [lia|].
    fd_trace. unfold fd_step. cbn [fst snd]. by rewrite Heqb.
  - wp_step. destruct (put_ifr_flags_Some zero_ifreq (IFF_TUN |' IFF_NO_PI)) as (i1 & -> & Hi1); [done|].
    apply wp_pure with (a := i1); [done|]. wp_step.
    assert (∃ i2, match dev_name with
      | Some s => if bool_decide (s = []) then Some i1 else put_ifr_name i1 s
      | NULL => Some i1 end = Some i2 ∧ length i2 = 40%nat) as (i2 & Hi2 & Hl2).
    { destruct dev_name as [s|]; [|eauto]. case_bool_decide; [eauto|]. by apply put_ifr_name_Some. }
    apply wp_pure with (a := i2); [done|]. wp_step. apply wp_call; [done|]. intros r1 [_ Hr1]. wp_step.
    + wp_step. apply wp_log. intros r' He. do 2 wp_step. wp_step. split; [lia|].
      fd_trace. unfold fd_step. cbn [fst snd]. rewrite Heqb. by apply filter_ne_cons.
    + wp_step. destruct Hr1 as [Hlen H0]; [lia|]. rewrite Hl2 in Hlen. split_and!; [lia|done| |done..].
      fd_trace. unfold fd_step. cbn [fst snd]. by rewrite Heqb.
Qed.

Lemma set_mtu_wp h ifr m : length ifr = 40%nat →
  wp any_call h (set_mtu ifr m) (λ t _, open_fds t = open_fds h).
Proof.
  intros Hl. unfold set_mtu. wp_step. apply wp_call; [done|]. intros r [_ Hr]. wp_step.
  - wp_step. destruct (le32_write_Some ifr 16 (u32 m)) as [i Hi]; [lia..|].
    apply wp_pure with (a := i); [done|]. do 2 wp_step. wp_step. apply wp_log. intros r' _.
    do 2 wp_step. wp_step. fd_trace. unfold fd_step. cbn [fst snd].
    replace (r_ret r <? 0) with false by lia. by apply filter_ne_cons.
  - wp_step. fd_trace. unfold fd_step. cbn [fst snd]. by replace (r_ret r <? 0) with true by lia.
Qed.

Lemma tun_open_wp h d0 dev_name m : VPN_MIN_IPV4_MTU <= m <= VPN_MAX_PACKET_SIZE →
  wp any_call h (tun_open (Some d0) dev_name m) (λ t r,
    ∃ d, r.2 = Some d ∧ tun_ok d ∧ mtu d = m ∧
      (r.1 < 0 ∧ fd d = -1 ∧ open_fds t = open_fds h ∨
       r.1 = 0 ∧ 0 <= fd d ∧ (fd d ∉ open_fds h) ∧ open_fds t = (fd d :: open_fds h))).
Proof.
  intros Hm. unfold tun_open.
  replace ((m <? VPN_MIN_IPV4_MTU) || (m >? VPN_MAX_PACKET_SIZE)) with false by lia.
  wp_step. eapply wp_mono; [|apply attach_tun_wp]. intros t [rc|[f ifr]].
  - intros [Hrc Ht]. wp_step. eexists. split; [done|]. split_and!; [by split; [|left]|done|]. by left.
  - intros (Hf & Hnew & Ht & Hl & H0). wp_step. change (Z.to_nat IFNAMSIZ) with 16%nat.
    destruct (cstr_Some (take 16 ifr) H0) as [nm Hnm]. apply wp_pure with (a := nm); [done|].
    wp_step. assert (∃ buf, (snd <$> snprintf (replicate 16 0) IFNAMSIZ nm) = Some buf ∧
      length buf = 16%nat ∧ 0 ∈ buf) as (buf & Hbuf & Hbl & Hb0).
    { unfold snprintf. change (IFNAMSIZ =? 0) with false. cbn iota.
      change (Z.to_nat (IFNAMSIZ - 1)) with 15%nat.
      replace (replicate 16 0) with (replicate (length (take 15 nm) + 1) 0 ++
        replicate (15 - length (take 15 nm)) 0) by (rewrite <- replicate_add; f_equal; len).
      rewrite blit_0 by len. bind_simpl. eexists. split; [done|]. split; [len|].
      rewrite !elem_of_app. left. right. left. }
    apply wp_pure with (a := buf); [done|]. wp_step. eapply wp_mono; [|by apply set_mtu_wp].
    cbn beta. intros t' _ Ht'. wp_step. eexists. split; [done|]. split_and!; [done..|].
    right. by rewrite Ht'.
Qed.

Section control_socket.
Variables (d : tun_device_t) (h : trace) (sock : Z) (l : list Z).
Hypothesis (Hd : tun_ok d).
Hypothesis (Hh : open_fds h = sock :: l).
Hypothesis (Hl : sock ∉ l).

Lemma named_request : ∃ ifr,
  (nm ← cstr (tun_name d); put_ifr_name zero_ifreq nm) = Some ifr ∧ length ifr = 40%nat.
Proof.
  destruct Hd as [_ H0]. destruct (cstr_Some _ H0) as [nm ->]. bind_simpl.
  by apply put_ifr_name_Some.
Qed.

Lemma close_return_wp rc : wp any_call h (close_return sock rc) (λ t r, r = rc ∧ open_fds t = l).
Proof.
  unfold close_return. do 2 wp_step. wp_step. split; [done|].
  rewrite open_fds_snoc, Hh. by apply filter_ne_cons.
Qed.
End control_socket.

Lemma set_address_wp d h sock l request text : tun_ok d → open_fds h = sock :: l → sock ∉ l →
  wp any_call h (set_address sock request d text) (λ t r,
    match r with Some rc => rc < 0 ∧ open_fds t = l | None => open_fds t = sock :: l end).
Proof.
  intros Hd Hh Hl. unfold set_address. destruct (named_request d Hd) as (ifr & Hifr & Hlen). wp_step.
  apply wp_pure with (a := ifr); [done|]. destruct (inet_pton AF_INET text) as [ip|] eqn:Hip.
  - apply inet_pton_length in Hip. destruct (put_ifr_addr_Some ifr ip Hlen Hip) as (i2 & Hi2 & _).
    wp_step. apply wp_pure with (a := i2); [done|]. do 2 wp_step. wp_step.
    + wp_step. apply wp_log. intros r' He. wp_step.
      eapply wp_mono; [|apply (close_return_wp _ _ l); [by fd_trace|done]].
      intros t rc [-> Ht]. wp_step. split; [lia|done].
    + wp_step. by fd_trace.
  - wp_step. apply wp_log. intros r' He. wp_step.
    eapply wp_mono; [|apply (close_return_wp _ _ l); [by fd_trace|done]].
    intros t rc [-> Ht]. wp_step. split; [unfold EINVAL; lia|done].
Qed.

Lemma tun_set_ip_wp d h ip mask : tun_ok d →
  wp any_call h (tun_set_ip (Some d) (Some ip) (Some mask)) (λ t rc,
    rc <= 0 ∧ open_fds t = open_fds h).
Proof.
  intros Hd. unfold tun_set_ip. wp_step.
  { wp_step. apply wp_log. intros r' He. wp_step. split; [unfold EINVAL; lia|]. by fd_trace. }
  wp_step. apply wp_call; [done|]. intros r [_ Hr]. wp_step.
  { wp_step. apply wp_log. intros r' He. wp_step. split; [lia|]. fd_trace.
    unfold fd_step. cbn [fst snd]. by rewrite Heqb0. }
  assert (open_fds (h ++ [(Sys_socket AF_INET SOCK_DGRAM, r)]) = r_ret r :: open_fds h) as Ho.
  { rewrite open_fds_snoc. unfold fd_step. cbn [fst snd]. by rewrite Heqb0. }
  wp_step. eapply wp_mono; [|by apply (set_address_wp d _ (r_ret r) (open_fds h))].
  intros t [rc|]; [intros [Hrc Ht]; wp_step; split; [lia|done]|]. intros Ht.
  wp_step. eapply wp_mono; [|by apply (set_address_wp d _ (r_ret r) (open_fds h))].
  intros t' [rc|]; [intros [Hrc Ht']; wp_step; split; [lia|done]|]. intros Ht'.
  do 2 wp_step. wp_step. apply wp_log. intros r' He. wp_step. split; [done|].
  fd_trace. rewrite Ht'. by apply filter_ne_cons.
Qed.

Lemma tun_set_up_wp d h : tun_ok d →
  wp any_call h (tun_set_up (Some d)) (λ t rc, rc <= 0 ∧ open_fds t = open_fds h).
Proof.
  intros Hd. unfold tun_set_up. wp_step.
  { wp_step. apply wp_log. intros r' He. wp_step. split; [unfold EINVAL; lia|]. by fd_trace. }
  wp_step. apply wp_call; [done|]. intros r [_ Hr]. wp_step.
  { wp_step. apply wp_log. intros r' He. wp_step. split; [lia|]. fd_trace.
    unfold fd_step. cbn [fst snd]. by rewrite Heqb0. }
  assert (open_fds (h ++ [(Sys_socket AF_INET SOCK_DGRAM, r)]) = r_ret r :: open_fds h) as Ho.
  { rewrite open_fds_snoc. unfold fd_step. cbn [fst snd]. by rewrite Heqb0. }
  wp_step. destruct (named_request d Hd) as (ifr & Hifr & Hlen).
  apply wp_pure with (a := ifr); [done|]. wp_step. apply wp_call; [done|]. intros r1 [_ Hr1]. wp_step.
  { wp_step. apply wp_log. intros r' He.
    eapply wp_mono; [|apply (close_return_wp _ _ (open_fds h)); [by fd_trace; rewrite <- open_fds_snoc|done]].
    intros t rc [-> Ht]. split; [lia|done]. }
  destruct Hr1 as [Hl1 _]; [lia|]. rewrite Hlen in Hl1.
  wp_step. destruct (rd16_Some (r_data r1) 16) as [fl Hfl]; [lia..|].
  destruct (put_ifr_flags_Some (r_data r1) (fl |' (IFF_UP |' IFF_RUNNING)) Hl1) as (i2 & Hi2 & _).
  apply wp_pure with (a := i2); [rewrite Hfl; exact Hi2|]. do 2 wp_step. wp_step.
  { wp_step. apply wp_log. intros r' He.
    eapply wp_mono; [|apply (close_return_wp _ _ (open_fds h)); [by fd_trace; rewrite <- open_fds_snoc|done]].
    intros t rc [-> Ht]. split; [lia|done]. }
  do 2 wp_step. wp_step. apply wp_log. intros r' He. wp_step. split; [done|].
  fd_trace. rewrite <- open_fds_snoc, Ho. by apply filter_ne_cons.
Qed.

(** ** Properties *)

(** bringing the interface up leaks nothing.  For any device name and any MTU
    in range, whatever the kernel answers, [tun_open] followed, when it succeeds, by
    [tun_set_ip] and [tun_set_up] has no undefined behaviour; when [tun_open] fails
    the device record says so (its descriptor is -1) and nothing is open, and when
    it succeeds the only descriptor open at the end is the device's: every control
    socket has been closed on every path. *)
Theorem tun_bring_up_no_leak d0 dev_name m ip mask rs res t :
  VPN_MIN_IPV4_MTU <= m <= VPN_MAX_PACKET_SIZE →
  exec ('(rc, d) ← tun_open (Some d0) dev_name m;
        if rc =? 0 then _ ← tun_set_ip d (Some ip) (Some mask); _ ← tun_set_up d; mret (rc, d)
        else mret (rc, d)) rs = (res, t) →
  env_ok any_call t →
  res ≠ Ub ∧
  ∀ rc od, res = Done (rc, od) → ∃ d, od = Some d ∧ mtu d = m ∧
    (rc < 0 ∧ fd d = -1 ∧ open_fds t = [] ∨ rc = 0 ∧ 0 <= fd d ∧ open_fds t = [fd d]).
Proof.
  intros Hm Hx He.
  eapply (wp_adequate _ _ (λ t r, ∃ d, r.2 = Some d ∧ mtu d = m ∧
    (r.1 < 0 ∧ fd d = -1 ∧ open_fds t = [] ∨ r.1 = 0 ∧ 0 <= fd d ∧ open_fds t = [fd d])))
    in Hx as (H1 & _ & H2); [|clear Hx|done].
  { split; [done|]. intros rc od Hr. apply (H2 _ Hr). }
  wp_step. eapply wp_mono; [|by apply tun_open_wp].
  intros t1 [rc od] (d & Hd & Hok & Hmtu & Hc). cbn [fst snd] in *. subst od.
  destruct Hc as [(Hrc & Hfd & Ho)|(-> & Hfd & _ & Ho)].
  - test_false (rc =? 0). wp_step. exists d. auto 10.
  - cbn [Z.eqb]. wp_step. eapply wp_mono; [|by apply tun_set_ip_wp]. intros t2 rc2 [_ Ho2].
    wp_step. eapply wp_mono; [|by apply tun_set_up_wp]. intros t3 rc3 [_ Ho3].
    wp_step. exists d. split_and!; [done..|]. right. split_and!; [done..|]. by rewrite Ho3, Ho2.
Qed.

(** A kernel that creates "vpn0" as descriptor 5 and refuses to set its address. *)
Definition demo_ifreq : bytes := of_string "vpn0" ++ replicate 36 0.
Definition demo_bring_up : list reply :=
  [ok_reply 5; mk_reply 0 1 demo_ifreq [] 0 []; ok_reply 6; mk_reply 0 1 demo_ifreq [] 0 [];
   ok_reply 0; ok_reply 0;
   ok_reply 6; mk_reply (-1) 1 [] [] 0 []; ok_reply 0; ok_reply 0;
   ok_reply 6; mk_reply 0 1 demo_ifreq [] 0 []; mk_reply 0 1 demo_ifreq [] 0 []; ok_reply 0; ok_reply 0].

Lemma tun_bring_up_no_leak_witness :
  ∃ t, exec ('(rc, d) ← tun_open (Some (mk_tun 0 [] 0)) (Some (of_string "vpn0")) 1440;
             if rc =? 0 then
               _ ← tun_set_ip d (Some (of_string "10.0.0.1")) (Some (of_string "255.255.255.0"));
               _ ← tun_set_up d; mret (rc, d)
             else mret (rc, d)) demo_bring_up
         = (Done (0, Some (mk_tun 5 (of_string "vpn0" ++ replicate 12 0) 1440)), t) ∧
       ∃ d, Some (mk_tun 5 (of_string "vpn0" ++ replicate 12 0) 1440) = Some d ∧ mtu d = 1440 ∧
         (0 < 0 ∧ fd d = -1 ∧ open_fds t = [] ∨ 0 = 0 ∧ 0 <= fd d ∧ open_fds t = [fd d]).
Proof.
  eexists. split; [by vm_compute|].
  refine (proj2 (tun_bring_up_no_leak (mk_tun 0 [] 0) (Some (of_string "vpn0")) 1440
    (of_string "10.0.0.1") (of_string "255.255.255.0") demo_bring_up
    (Done (0, Some (mk_tun 5 (of_string "vpn0" ++ replicate 12 0) 1440))) _ _ _ _) 0 _ eq_refl).
  - unfold VPN_MIN_IPV4_MTU, VPN_MAX_PACKET_SIZE. lia.
  - by vm_compute.
  - by_env.
Defined.
