(* ===== verification/Peer.v ===== *)
(** * Peers, sessions and cryptographic routing ([src/peer.c], [src/peer.h])

    The table is the C structure: an array of [VPN_MAX_PEERS] peers, a count and
    the index generator.  A [vpn_peer_t *] is the position of the peer in the
    array, a [vpn_session_t *] a position and the field it points to.  [time]
    is an argument, one per call of [time(NULL)]. *)

From S2P Require Import Prelude Config Libc Packet Sodium Crypto Replay Routing Transport.
Local Open Scope c_scope.

(** ** Data *)

Inductive session_state_t :=
  | SESSION_STATE_NONE
  | SESSION_STATE_HANDSHAKING
  | SESSION_STATE_ESTABLISHED
  | SESSION_STATE_REKEYING.

#[global] Instance session_state_eq_dec : EqDecision session_state_t.
Proof. solve_decision. Defined.

Record vpn_session_t := mk_session {
  local_index : Z;
  peer_index : Z;
  state : session_state_t;
  send_key : bytes;
  recv_key : bytes;
  sending_counter : Z;
  replay_filter : replay_filter_t;
  established_time : Z;
  last_packet_sent : Z;
  last_packet_recv : Z
}.

Record vpn_peer_t := mk_peer {
  name : bytes;
  public_key : bytes;
  endpoint : vpn_endpoint_t;
  allowed_ips : list vpn_cidr_t;
  allowed_ips_count : Z;
  current_session : vpn_session_t;
  previous_session : vpn_session_t;
  last_handshake_time : Z
}.

Record vpn_peer_table_t := mk_table {
  peers : list vpn_peer_t;
  peer_count : Z;
  next_local_index : Z
}.

(** What [memset(p, 0, sizeof( *p))] leaves. *)
Definition zero_session : vpn_session_t :=
  mk_session 0 0 SESSION_STATE_NONE (replicate (Z.to_nat VPN_KEY_LEN) 0)
    (replicate (Z.to_nat VPN_KEY_LEN) 0) 0 replay_filter_zero 0 0 0.

Definition zero_peer : vpn_peer_t :=
  mk_peer (replicate 64 0) (replicate (Z.to_nat VPN_PUBKEY_LEN) 0) zero_endpoint
    (replicate (Z.to_nat VPN_MAX_CIDRS_PER_PEER) (mk_cidr 0 0 0)) 0 zero_session zero_session 0.

Definition zero_table : vpn_peer_table_t :=
  mk_table (replicate (Z.to_nat VPN_MAX_PEERS) zero_peer) 0 0.

#[global] Instance replay_filter_eq_dec : EqDecision replay_filter_t.
Proof. solve_decision. Defined.
#[global] Instance vpn_session_eq_dec : EqDecision vpn_session_t.
Proof. solve_decision. Defined.
#[global] Instance vpn_peer_eq_dec : EqDecision vpn_peer_t.
Proof. solve_decision. Defined.
#[global] Instance vpn_peer_table_eq_dec : EqDecision vpn_peer_table_t.
Proof. solve_decision. Defined.

(** Assignments to one field. *)
Definition set_endpoint (p : vpn_peer_t) (ep : vpn_endpoint_t) : vpn_peer_t :=
  mk_peer (name p) (public_key p) ep (allowed_ips p) (allowed_ips_count p)
    (current_session p) (previous_session p) (last_handshake_time p).

Definition set_allowed_ips (p : vpn_peer_t) (ips : list vpn_cidr_t) (count : Z) : vpn_peer_t :=
  mk_peer (name p) (public_key p) (endpoint p) ips count
    (current_session p) (previous_session p) (last_handshake_time p).

Definition set_sessions (p : vpn_peer_t) (cur prev : vpn_session_t) : vpn_peer_t :=
  mk_peer (name p) (public_key p) (endpoint p) (allowed_ips p) (allowed_ips_count p)
    cur prev (last_handshake_time p).

Definition set_last_handshake_time (p : vpn_peer_t) (t : Z) : vpn_peer_t :=
  mk_peer (name p) (public_key p) (endpoint p) (allowed_ips p) (allowed_ips_count p)
    (current_session p) (previous_session p) t.

Definition set_filter (s : vpn_session_t) (f : replay_filter_t) : vpn_session_t :=
  mk_session (local_index s) (peer_index s) (state s) (send_key s) (recv_key s)
    (sending_counter s) f (established_time s) (last_packet_sent s) (last_packet_recv s).

Definition set_sending_counter (s : vpn_session_t) (c : Z) : vpn_session_t :=
  mk_session (local_index s) (peer_index s) (state s) (send_key s) (recv_key s)
    c (replay_filter s) (established_time s) (last_packet_sent s) (last_packet_recv s).

(** A pointer into the table. *)
Definition get_peer (t : vpn_peer_table_t) (i : Z) : option vpn_peer_t := (peers t).[i].
Definition set_peer (t : vpn_peer_table_t) (i : Z) (p : vpn_peer_t) : option vpn_peer_table_t :=
  ps ← wr (peers t) i p; Some (mk_table ps (peer_count t) (next_local_index t)).

Inductive session_slot := Current | Previous.

#[global] Instance session_slot_eq_dec : EqDecision session_slot.
Proof. solve_decision. Defined.

Definition get_session (p : vpn_peer_t) (slot : session_slot) : vpn_session_t :=
  match slot with Current => current_session p | Previous => previous_session p end.

Definition set_session (p : vpn_peer_t) (slot : session_slot) (s : vpn_session_t) : vpn_peer_t :=
  match slot with
  | Current => set_sessions p s (previous_session p)
  | Previous => set_sessions p (current_session p) s
  end.

(** ** Operations *)

Definition peer_table_init (table : option vpn_peer_table_t) : option vpn_peer_table_t :=
  match table with
  | Some _ => Some (mk_table (peers zero_table) (peer_count zero_table) 1)
  | NULL => NULL
  end.

(** [vpn_crypto_memcmp(table->peers[i].public_key, public_key, VPN_PUBKEY_LEN) == 0] *)
Definition key_matches (t : vpn_peer_table_t) (i : Z) (public_key' : bytes) : option bool :=
  p ← get_peer t i;
  c ← vpn_crypto_memcmp (Some (public_key p)) (Some public_key') VPN_PUBKEY_LEN;
  Some (c =? 0).

Definition peer_find_by_pubkey (table : option vpn_peer_table_t) (public_key : option bytes)
    : option (option Z) :=
  match table, public_key with
  | Some t, Some pk =>
      for_return (Z.to_nat (peer_count t)) (λ i,
        b ← key_matches t (Z.of_nat i) pk;
        Some (if b : bool then Some (Z.of_nat i) else None))
  | _, _ => Some NULL
  end.

(** The new peer, if any, and the table. *)
Definition peer_add (table : option vpn_peer_table_t) (name public_key : option bytes)
    (initial_endpoint : option vpn_endpoint_t) : option (option Z * option vpn_peer_table_t) :=
  match table, name, public_key with
  | Some t, Some nm, Some pk =>
      if peer_count t >=? VPN_MAX_PEERS then Some (NULL, table)
      else
        dup ← for_return (Z.to_nat (peer_count t)) (λ i,
                b ← key_matches t (Z.of_nat i) pk;
                Some (if b : bool then Some tt else None));
        match dup with
        | Some _ => Some (NULL, table)
        | None =>
            let i := peer_count t in
            _ ← get_peer t i;
            '(_, nm_buf) ← snprintf (Peer.name zero_peer) 64 nm;
            pk_buf ← memcpy (Peer.public_key zero_peer) 0 pk 0 VPN_PUBKEY_LEN;
            let ep := default (endpoint zero_peer) initial_endpoint in
            let p := mk_peer nm_buf pk_buf ep (allowed_ips zero_peer) (allowed_ips_count zero_peer)
                       (current_session zero_peer) (previous_session zero_peer)
                       (last_handshake_time zero_peer) in
            ps ← wr (peers t) i p;
            Some (Some i, Some (mk_table ps (peer_count t + 1) (next_local_index t)))
        end
  | _, _, _ => Some (NULL, table)
  end.

Definition peer_add_allowed_ip (peer : option vpn_peer_t) (cidr_str : option bytes)
    : option (Z * option vpn_peer_t) :=
  match peer, cidr_str with
  | Some p, Some s =>
      if allowed_ips_count p >=? VPN_MAX_CIDRS_PER_PEER then Some (- ENOSPC, peer)
      else
        let '(rc, cidr) := vpn_cidr_parse (Some s) (Some (mk_cidr 0 0 0)) in
        if negb (rc =? 0) then Some (rc, peer)
        else
          ips ← wr (allowed_ips p) (allowed_ips_count p) (default (mk_cidr 0 0 0) cidr);
          Some (0, Some (set_allowed_ips p ips (allowed_ips_count p + 1)))
  | _, _ => Some (- EINVAL, peer)
  end.

Definition peer_allows_source_ip (peer : option vpn_peer_t) (src_ip : Z) : option bool :=
  match peer with
  | NULL => Some false
  | Some p =>
      r ← for_return (Z.to_nat (allowed_ips_count p)) (λ i,
            c ← (allowed_ips p).[Z.of_nat i];
            Some (if vpn_cidr_match (Some c) src_ip then Some tt else None));
      Some (match r with Some _ => true | None => false end)
  end.

(** [state == SESSION_STATE_ESTABLISHED && local_index == receiver_index] *)
Definition session_matches (s : vpn_session_t) (receiver_index : Z) : bool :=
  bool_decide (state s = SESSION_STATE_ESTABLISHED) && (local_index s =? receiver_index).

(** The peer and the session [*out_session] is set to. *)
Definition peer_find_by_index (table : option vpn_peer_table_t) (receiver_index : Z)
    : option (option (Z * session_slot)) :=
  match table with
  | NULL => Some NULL
  | Some t =>
      if receiver_index =? 0 then Some NULL
      else
        for_return (Z.to_nat (peer_count t)) (λ i,
          p ← get_peer t (Z.of_nat i);
          Some (if session_matches (current_session p) receiver_index
                then Some (Z.of_nat i, Current)
                else if session_matches (previous_session p) receiver_index
                then Some (Z.of_nat i, Previous)
                else None))
  end.

Definition peer_find_by_dest_ip (table : option vpn_peer_table_t) (dest_ip : Z)
    : option (option Z) :=
  match table with
  | NULL => Some NULL
  | Some t =>
      for_return (Z.to_nat (peer_count t)) (λ i,
        p ← get_peer t (Z.of_nat i);
        b ← peer_allows_source_ip (Some p) dest_ip;
        Some (if b : bool then Some (Z.of_nat i) else None))
  end.

(** The texts of the old and the new endpoint go to the log only. *)
Definition peer_update_endpoint (peer : option vpn_peer_t) (new_ep : option vpn_endpoint_t)
    : option (Z * option vpn_peer_t) :=
  match peer, new_ep with
  | Some p, Some ep =>
      eq ← endpoint_equal (Some (endpoint p)) (Some ep);
      if negb eq then
        _ ← endpoint_to_string (Some (endpoint p)) (Some (replicate 64 0)) 64;
        _ ← endpoint_to_string (Some ep) (Some (replicate 64 0)) 64;
        Some (1, Some (set_endpoint p ep))
      else Some (0, peer)
  | _, _ => Some (- EINVAL, peer)
  end.

Definition peer_destroy_session (session : option vpn_session_t) : option (option vpn_session_t) :=
  match session with
  | Some s =>
      if bool_decide (state s = SESSION_STATE_NONE) then Some session
      else
        _ ← vpn_crypto_memzero (Some (send_key s)) VPN_KEY_LEN;
        _ ← vpn_crypto_memzero (Some (recv_key s)) VPN_KEY_LEN;
        Some (Some zero_session)
  | NULL => Some NULL
  end.

(** [now1] and [now2] are the two readings of the clock. *)
Definition peer_init_session (peer : option vpn_peer_t) (local_idx peer_idx : Z)
    (send_key recv_key : option bytes) (now1 now2 : Z) : option (option vpn_peer_t) :=
  match peer, send_key, recv_key with
  | Some p, Some sk, Some rk =>
      prev ← (if bool_decide (state (current_session p) = SESSION_STATE_ESTABLISHED)
              then _ ← peer_destroy_session (Some (previous_session p));
                   Some (current_session p)
              else Some (previous_session p));
      sk ← memcpy (Peer.send_key zero_session) 0 sk 0 VPN_KEY_LEN;
      rk ← memcpy (Peer.recv_key zero_session) 0 rk 0 VPN_KEY_LEN;
      f ← replay_init (Some (replay_filter zero_session));
      let cur := mk_session local_idx peer_idx SESSION_STATE_ESTABLISHED sk rk 0 f now1 0 0 in
      Some (Some (set_last_handshake_time (set_sessions p cur prev) now2))
  | _, _, _ => Some peer
  end.

Definition peer_table_destroy (table : option vpn_peer_table_t) : option (option vpn_peer_table_t) :=
  match table with
  | NULL => Some NULL
  | Some t =>
      _ ← for_range (Z.to_nat (peer_count t)) (λ i t,
            p ← get_peer t (Z.of_nat i);
            cur ← peer_destroy_session (Some (current_session p));
            prev ← peer_destroy_session (Some (previous_session p));
            set_peer t (Z.of_nat i)
              (set_sessions p (default zero_session cur) (default zero_session prev))) t;
      Some (Some zero_table)
  end.

(** ** Invariant *)

Record session_ok (s : vpn_session_t) : Prop := {
  session_indices : is_u32 (local_index s) ∧ is_u32 (peer_index s);
  session_send_key : length (send_key s) = 32%nat;
  session_recv_key : length (recv_key s) = 32%nat;
  session_counter : is_u64 (sending_counter s);
  session_filter : ∃ h, Forall is_u64 h ∧ represents (replay_filter s) h
}.

Record peer_ok (p : vpn_peer_t) : Prop := {
  peer_name : length (name p) = 64%nat;
  peer_key : length (public_key p) = 32%nat ∧ bytes_ok (public_key p);
  peer_endpoint : endpoint_ok (endpoint p);
  peer_ips : length (allowed_ips p) = 64%nat;
  peer_ips_count : 0 <= allowed_ips_count p <= 64;
  peer_ips_ok : Forall cidr_ok (take (Z.to_nat (allowed_ips_count p)) (allowed_ips p));
  peer_current : session_ok (current_session p);
  peer_previous : session_ok (previous_session p)
}.

(** The peers in use: what the table stands for. *)
Definition live (t : vpn_peer_table_t) : list vpn_peer_t := take (Z.to_nat (peer_count t)) (peers t).

Record table_ok (t : vpn_peer_table_t) : Prop := {
  table_size : length (peers t) = 256%nat;
  table_count : 0 <= peer_count t <= 256;
  table_index : is_u32 (next_local_index t);
  table_peers : Forall peer_ok (live t);
  table_keys : NoDup (public_key <$> live t)
}.

(** The networks a peer may use, and the addresses in them. *)
Definition networks (p : vpn_peer_t) : list vpn_cidr_t :=
  take (Z.to_nat (allowed_ips_count p)) (allowed_ips p).

Definition allows (p : vpn_peer_t) (ip : Z) : Prop :=
  Exists (λ c, vpn_cidr_match (Some c) ip = true) (networks p).

#[global] Instance allows_dec p ip : Decision (allows p ip).
Proof. unfold allows. apply _. Defined.

(** ** The searches as searches of the list of live peers *)

Section lookups.
Context (t : vpn_peer_table_t) (Ht : table_ok t).

Lemma live_length : length (live t) = Z.to_nat (peer_count t).
Proof. destruct Ht. unfold live. rewrite length_take. lia. Qed.

Lemma live_get i p : live t !! i = Some p → get_peer t (Z.of_nat i) = Some p ∧ peer_ok p.
Proof.
  intros Hi. split.
  - unfold get_peer. rewrite rd_nat. by apply lookup_take_Some in Hi as [? _].
  - destruct Ht. by eapply Forall_lookup_1.
Qed.

Lemma key_matches_eq i p pk : live t !! i = Some p → length pk = 32%nat → bytes_ok pk →
  key_matches t (Z.of_nat i) pk = Some (bool_decide (public_key p = pk)).
Proof.
  intros Hi Hl Hb. destruct (live_get i p Hi) as [Hg [_ [Hk Hkb] _ _ _ _ _ _]].
  unfold key_matches. rewrite Hg. bind_simpl. unfold vpn_crypto_memcmp.
  rewrite sodium_memcmp_keys by (done || rewrite ?Hk, ?Hl; done). bind_simpl.
  by case_bool_decide.
Qed.

Lemma find_by_pubkey_eq pk : length pk = 32%nat → bytes_ok pk →
  peer_find_by_pubkey (Some t) (Some pk) =
    Some ((λ ip, Z.of_nat ip.1) <$> list_find (λ p, public_key p = pk) (live t)).
Proof.
  intros Hl Hb. unfold peer_find_by_pubkey. rewrite <- live_length.
  apply (for_return_list_find _ _ (λ i _, Z.of_nat i)). intros i p Hi.
  rewrite (key_matches_eq i p) by done. bind_simpl. case_bool_decide; by case_decide.
Qed.

Lemma allows_source_eq p ip : peer_ok p →
  peer_allows_source_ip (Some p) ip = Some (bool_decide (allows p ip)).
Proof.
  intros [_ _ _ Hl Hc _ _ _]. unfold peer_allows_source_ip.
  assert (length (networks p) = Z.to_nat (allowed_ips_count p)) as Hn
    by (unfold networks; rewrite length_take; lia).
  rewrite <- Hn.
  rewrite (for_return_list_find (λ c, vpn_cidr_match (Some c) ip = true) (networks p) (λ _ _, tt)).
  - bind_simpl. f_equal. destruct (list_find _ _) as [[i c]|] eqn:E; cbn.
    + apply list_find_Some in E as (Hi & Hm & _). symmetry. apply bool_decide_true.
      apply Exists_exists. exists c. split; [by eapply list_elem_of_lookup_2|done].
    + apply list_find_None in E. symmetry. apply bool_decide_false. unfold allows.
      by rewrite <- Forall_Exists_neg.
  - intros i c Hi. rewrite rd_nat. apply lookup_take_Some in Hi as [-> _]. bind_simpl.
    destruct (vpn_cidr_match (Some c) ip); by case_decide.
Qed.

Lemma find_by_dest_ip_eq ip :
  peer_find_by_dest_ip (Some t) ip =
    Some ((λ x, Z.of_nat x.1) <$> list_find (λ p, allows p ip) (live t)).
Proof.
  unfold peer_find_by_dest_ip. rewrite <- live_length.
  apply (for_return_list_find _ _ (λ i _, Z.of_nat i)). intros i p Hi.
  destruct (live_get i p Hi) as [-> Hp]. bind_simpl. rewrite allows_source_eq by done.
  bind_simpl. case_bool_decide; by case_decide.
Qed.

(** A peer owns an index through its current or its previous session. *)
Definition slot_of (p : vpn_peer_t) (idx : Z) : option session_slot :=
  if session_matches (current_session p) idx then Some Current
  else if session_matches (previous_session p) idx then Some Previous else None.

Lemma find_by_index_eq idx :
  peer_find_by_index (Some t) idx =
    Some (if idx =? 0 then None else
      ix ← list_find (λ p, is_Some (slot_of p idx)) (live t);
      slot ← slot_of ix.2 idx; Some (Z.of_nat ix.1, slot)).
Proof.
  unfold peer_find_by_index. destruct (idx =? 0); [done|]. rewrite <- live_length.
  rewrite (for_return_list_find (λ p, is_Some (slot_of p idx)) (live t)
    (λ i p, (Z.of_nat i, default Current (slot_of p idx)))).
  - f_equal. destruct (list_find _ _) as [[i p]|] eqn:E; cbn; [|done].
    apply list_find_Some in E as (_ & [s Hs] & _). by rewrite Hs.
  - intros i p Hi. destruct (live_get i p Hi) as [-> Hp]. bind_simpl. unfold slot_of.
    destruct (session_matches _ _); [by case_decide as H; [|destruct H; eauto]|].
    destruct (session_matches _ _); [by case_decide as H; [|destruct H; eauto]|].
    case_decide as H; [|done]. by destruct H.
Qed.
End lookups.

(** ** The operations preserve the invariant *)

Lemma zero_session_ok : session_ok zero_session.
Proof. split; [done..|]. exists []. split; [constructor|apply represents_nil]. Qed.

Lemma zero_endpoint_ok : endpoint_ok zero_endpoint.
Proof. split; [done|by_computation|done]. Qed.

#[export] Hint Resolve zero_session_ok zero_endpoint_ok : vpn.

Lemma snprintf_total buf n s : Z.of_nat (length buf) = n → 0 < n →
  ∃ b, snprintf buf n s = Some (Z.of_nat (length s), b) ∧ length b = length buf.
Proof.
  intros Hn Hp. unfold snprintf. test_false (n =? 0).
  destruct (blit_Some buf (take (Z.to_nat (n - 1)) s ++ [0]) 0) as (b & -> & Hb); [done|len|].
  exists b. done.
Qed.

Lemma put_text_total buf n s : Z.of_nat (length buf) = n → 0 < n → is_Some (put_text buf n s).
Proof.
  intros Hn Hp. unfold put_text. destruct (snprintf_total buf n s Hn Hp) as (b & -> & _).
  bind_simpl. destruct (_ || _); eauto.
Qed.

Lemma endpoint_to_string_total ep buf n : endpoint_ok ep → Z.of_nat (length buf) = n → 0 < n →
  is_Some (endpoint_to_string (Some ep) (Some buf) n).
Proof.
  intros [Hl _ _] Hn Hp. unfold endpoint_to_string. test_false (n =? 0).
  destruct (rd16_Some (addr ep) 0) as [f Hf]; [lia..|]. unfold ss_family. rewrite Hf.
  destruct (rd16_Some (addr ep) 2) as [p Hpt]; [lia..|]. unfold sin_port. rewrite Hpt.
  destruct (slice_is_Some (addr ep) 4 4) as (x & -> & _); [lia..|].
  destruct (slice_is_Some (addr ep) 8 16) as (y & Hy & _); [lia..|].
  unfold sin6_addr. rewrite Hy. bind_simpl.
  repeat case_match; (eauto || by apply put_text_total).
Qed.

Lemma update_endpoint_eq p ep : endpoint_ok (endpoint p) → endpoint_ok ep →
  peer_update_endpoint (Some p) (Some ep) =
    Some (if bool_decide (is_Some (identity (endpoint p)) ∧ identity (endpoint p) = identity ep)
          then (0, Some p) else (1, Some (set_endpoint p ep))).
Proof.
  intros Hp He. unfold peer_update_endpoint. rewrite endpoint_equal_identity by done. bind_simpl.
  destruct (endpoint_to_string_total (endpoint p) (replicate 64 0) 64) as [? ->]; [done..|].
  destruct (endpoint_to_string_total ep (replicate 64 0) 64) as [? ->]; [done..|]. bind_simpl.
  rewrite bool_decide_and. by destruct (_ && _).
Qed.

Lemma destroy_session_eq s : session_ok s →
  peer_destroy_session (Some s) =
    Some (Some (if bool_decide (state s = SESSION_STATE_NONE) then s else zero_session)).
Proof.
  intros [_ Hs Hr _ _]. unfold peer_destroy_session. case_bool_decide; [done|].
  by rewrite !memzero_key.
Qed.

(** The session a successful handshake installs. *)
Definition new_session (local_idx peer_idx : Z) (sk rk : bytes) (now : Z) : vpn_session_t :=
  mk_session local_idx peer_idx SESSION_STATE_ESTABLISHED sk rk 0 replay_filter_zero now 0 0.

Lemma init_session_eq p li pi sk rk now1 now2 : peer_ok p →
  length sk = 32%nat → length rk = 32%nat →
  peer_init_session (Some p) li pi (Some sk) (Some rk) now1 now2 =
    Some (Some (set_last_handshake_time
      (set_sessions p (new_session li pi sk rk now1)
         (if bool_decide (state (current_session p) = SESSION_STATE_ESTABLISHED)
          then current_session p else previous_session p)) now2)).
Proof.
  intros [_ _ _ _ _ _ _ Hprev] Hs Hr. unfold peer_init_session.
  rewrite destroy_session_eq by done. bind_simpl.
  rewrite !memcpy_all by (rewrite ?Hs, ?Hr; done).
  rewrite (blit_all (send_key zero_session)), (blit_all (recv_key zero_session))
    by (rewrite ?Hs, ?Hr; done).
  case_bool_decide; done.
Qed.

Lemma new_session_ok li pi sk rk now : is_u32 li → is_u32 pi →
  length sk = 32%nat → length rk = 32%nat → session_ok (new_session li pi sk rk now).
Proof.
  intros. split; cbn; [done..|]. exists []. split; [constructor|apply represents_nil].
Qed.

(** Writing back a live peer with the same key keeps the table well formed. *)
Lemma set_peer_eq t i p q : table_ok t → live t !! i = Some q →
  set_peer t (Z.of_nat i) p =
    Some (mk_table (<[i := p]> (peers t)) (peer_count t) (next_local_index t)).
Proof.
  intros [Hl Hc _ _ _] Hi. apply lookup_take_Some in Hi as [_ Hi]. unfold set_peer.
  rewrite wr_lt by lia. by rewrite Nat2Z.id.
Qed.

Lemma live_insert t i p n :
  live (mk_table (<[i := p]> (peers t)) (peer_count t) n) = <[i := p]> (live t).
Proof.
  unfold live. cbn. rewrite take_insert. case_decide; [done|].
  rewrite list_insert_ge; [done|]. rewrite length_take. lia.
Qed.

Lemma set_peer_ok t i p q n : table_ok t → live t !! i = Some q →
  peer_ok p → public_key p = public_key q → is_u32 n →
  table_ok (mk_table (<[i := p]> (peers t)) (peer_count t) n).
Proof.
  intros [Hl Hc Hn Hp Hk] Hi Hok Hkey Hn'. split; rewrite ?live_insert; cbn; [len|done|done| |].
  - by apply Forall_insert.
  - rewrite list_fmap_insert, Hkey, list_insert_id; [done|]. by rewrite list_lookup_fmap, Hi.
Qed.

(** Destroying the sessions of every peer meets only well-formed sessions. *)
Lemma table_destroy_eq t : table_ok t → peer_table_destroy (Some t) = Some (Some zero_table).
Proof.
  intros Ht. unfold peer_table_destroy.
  edestruct (for_range_inv (λ _ t', table_ok t' ∧ peer_count t' = peer_count t)
    (Z.to_nat (peer_count t))) as (t' & -> & _); [by split| |done].
  intros j t' Hj [Ht' Hc].
  destruct (lookup_lt_is_Some_2 (live t') j) as [p Hp].
  { unfold live. rewrite length_take, (table_size t' Ht'), Hc. pose proof (table_count t Ht). lia. }
  destruct (live_get t' Ht' j p Hp) as [-> Hok]. bind_simpl.
  pose proof (peer_current p Hok) as Hcur. pose proof (peer_previous p Hok) as Hprev.
  rewrite !destroy_session_eq by done. bind_simpl. cbn [default].
  rewrite (set_peer_eq t' j _ p) by done. eexists. split; [done|]. split; [|done].
  eapply set_peer_ok; [done..| |done|apply Ht'].
  destruct Hok. split; try done; cbn; case_bool_decide; auto with vpn.
Qed.

(** ** Adding peers and networks *)

Definition keys (t : vpn_peer_table_t) : list bytes := public_key <$> live t.

(** The peer [peer_add] stores. *)
Definition fresh_peer (nm pk : bytes) (ep : vpn_endpoint_t) : vpn_peer_t :=
  mk_peer nm pk ep (allowed_ips zero_peer) 0 zero_session zero_session 0.

Lemma fresh_peer_ok nm pk ep : length nm = 64%nat → length pk = 32%nat → bytes_ok pk →
  endpoint_ok ep → peer_ok (fresh_peer nm pk ep).
Proof.
  intros. split; cbn [fresh_peer name public_key endpoint allowed_ips allowed_ips_count
    current_session previous_session]; auto with vpn; lia.
Qed.

Section adding.
Context (t : vpn_peer_table_t) (nm pk : bytes) (ep : option vpn_endpoint_t).
Hypothesis (Ht : table_ok t).
Hypothesis (Hpk : length pk = 32%nat ∧ bytes_ok pk).
Hypothesis (Hep : ∀ e, ep = Some e → endpoint_ok e).

(** The duplicate check. *)
Lemma duplicate_loop :
  for_return (Z.to_nat (peer_count t)) (λ i,
    b ← key_matches t (Z.of_nat i) pk; Some (if b : bool then Some tt else None)) =
  Some (if decide (pk ∈ keys t) then Some tt else None).
Proof.
  destruct Hpk as [Hl Hb]. rewrite <- (live_length t Ht).
  rewrite (for_return_list_find (λ p, public_key p = pk) (live t) (λ _ _, tt)).
  - f_equal. destruct (list_find _ _) as [[i p]|] eqn:E; cbn.
    + apply list_find_Some in E as (Hi & Hk & _). rewrite decide_True; [done|].
      apply list_elem_of_fmap. exists p. split; [done|]. by eapply list_elem_of_lookup_2.
    + apply list_find_None in E. rewrite decide_False; [done|].
      intros (p & -> & Hin)%list_elem_of_fmap. rewrite Forall_forall in E. by apply (E p).
  - intros i p Hi. rewrite (key_matches_eq t Ht i p) by done. bind_simpl.
    case_bool_decide; by case_decide.
Qed.

Lemma peer_add_full : peer_count t = 256 →
  peer_add (Some t) (Some nm) (Some pk) ep = Some (NULL, Some t).
Proof. intros H. unfold peer_add. by rewrite H. Qed.

Lemma peer_add_duplicate : pk ∈ keys t →
  peer_add (Some t) (Some nm) (Some pk) ep = Some (NULL, Some t).
Proof.
  intros H. unfold peer_add. rewrite duplicate_loop, decide_True by done.
  by destruct (peer_count t >=? VPN_MAX_PEERS).
Qed.

Lemma peer_add_new : peer_count t < 256 → pk ∉ keys t →
  ∃ nm' t', length nm' = 64%nat ∧
    peer_add (Some t) (Some nm) (Some pk) ep = Some (Some (peer_count t), Some t') ∧
    live t' = live t ++ [fresh_peer nm' pk (default zero_endpoint ep)] ∧
    peer_count t' = peer_count t + 1 ∧ next_local_index t' = next_local_index t ∧ table_ok t'.
Proof.
  intros Hc Hk. destruct Ht as [Hl Hcount Hidx Hps Hnd]. destruct Hpk as [Hpl Hpb].
  destruct (snprintf_total (name zero_peer) 64 nm) as (nm' & Hnm & Hnml); [done..|].
  change (length (name zero_peer)) with 64%nat in Hnml.
  set (p := fresh_peer nm' pk (default zero_endpoint ep)).
  assert (live (mk_table (<[Z.to_nat (peer_count t) := p]> (peers t)) (peer_count t + 1)
                  (next_local_index t)) = live t ++ [p]) as Hlive.
  { unfold live. cbn. replace (Z.to_nat (peer_count t + 1)) with (S (Z.to_nat (peer_count t))) by lia.
    rewrite (take_S_r _ _ p) by (apply list_lookup_insert_eq; lia).
    by rewrite take_insert_ge by lia. }
  assert (peer_ok p) as Hp.
  { apply fresh_peer_ok; [done..|]. destruct ep; [by apply Hep|apply zero_endpoint_ok]. }
  exists nm', (mk_table (<[Z.to_nat (peer_count t) := p]> (peers t)) (peer_count t + 1)
                 (next_local_index t)).
  split_and!; [done| |done|done|done|].
  - unfold peer_add. test_false (256 <=? peer_count t).
    replace (peer_count t >=? VPN_MAX_PEERS) with false by (unfold VPN_MAX_PEERS; lia).
    rewrite duplicate_loop, decide_False by done. bind_simpl.
    destruct (rd_lt (peers t) (peer_count t)) as [q Hq]; [lia|].
    unfold get_peer. rewrite Hq. bind_simpl. rewrite Hnm. bind_simpl.
    rewrite memcpy_all by (rewrite Hpl; done). rewrite blit_all by (rewrite Hpl; done).
    bind_simpl. rewrite wr_lt by lia. done.
  - split; rewrite ?Hlive; cbn; [len|lia|done| |].
    + apply Forall_app. by split; [|apply Forall_singleton].
    + rewrite fmap_app. apply NoDup_app. split_and!; [done| |apply NoDup_singleton].
      intros k Hin Hk'. cbn in Hk'. apply list_elem_of_singleton in Hk' as ->. by apply Hk.
Qed.
End adding.

Lemma cidr_parse_rc s c0 rc c : vpn_cidr_parse (Some s) (Some c0) = (rc, c) → is_Some c.
Proof.
  unfold vpn_cidr_parse. destruct (strchr s 47) as [k|].
  - case_match; [intros [= <- <-]; eauto|]. destruct (cidr_of _ _ _). intros [= <- <-]; eauto.
  - destruct (cidr_of _ _ _). intros [= <- <-]; eauto.
Qed.

Lemma add_allowed_ip_ok p s : peer_ok p → allowed_ips_count p < 64 →
  (vpn_cidr_parse (Some s) (Some (mk_cidr 0 0 0))).1 = 0 →
  ∃ c p', vpn_cidr_parse (Some s) (Some (mk_cidr 0 0 0)) = (0, Some c) ∧
    peer_add_allowed_ip (Some p) (Some s) = Some (0, Some p') ∧
    networks p' = networks p ++ [c] ∧ peer_ok p' ∧
    public_key p' = public_key p ∧ current_session p' = current_session p ∧
    previous_session p' = previous_session p ∧ endpoint p' = endpoint p.
Proof.
  intros Hp Hlt Hrc. unfold peer_add_allowed_ip.
  replace (allowed_ips_count p >=? VPN_MAX_CIDRS_PER_PEER) with false
    by (unfold VPN_MAX_CIDRS_PER_PEER; lia).
  destruct (vpn_cidr_parse (Some s) _) as [rc oc] eqn:E. cbn in Hrc. subst rc.
  destruct (cidr_parse_rc _ _ _ _ E) as [c ->]. pose proof (cidr_parse_ok _ _ _ E) as Hcok.
  pose proof Hp as [H1 H2 H3 Hl Hc Hcs H7 H8]. cbn [negb Z.eqb default].
  rewrite wr_lt by lia. bind_simpl.
  set (p' := set_allowed_ips p _ _). exists c, p'.
  assert (networks p' = networks p ++ [c]) as Hnet.
  { unfold networks, p'. cbn.
    replace (Z.to_nat (allowed_ips_count p + 1)) with (S (Z.to_nat (allowed_ips_count p))) by lia.
    rewrite (take_S_r _ _ c) by (apply list_lookup_insert_eq; lia).
    by rewrite take_insert_ge by lia. }
  split_and!; try done. split; try done; cbn [p' set_allowed_ips allowed_ips allowed_ips_count].
  - len.
  - lia.
  - change (Forall cidr_ok (networks p')). rewrite Hnet.
    apply Forall_app. split; [done|by apply Forall_singleton].
Qed.

(** ** A table with two peers

    The second one has the overlapping network 10.0.0.0/8. *)

Definition demo_peer (key : Z) (c : vpn_cidr_t) : vpn_peer_t :=
  set_allowed_ips (fresh_peer (replicate 64 0) (replicate 32 key) zero_endpoint)
    (c :: replicate 63 (mk_cidr 0 0 0)) 1.

Definition demo_table : vpn_peer_table_t :=
  mk_table ([demo_peer 7 (mk_cidr 0x0A000000 0xFFFFFF00 24);
             demo_peer 9 (mk_cidr 0x0A000000 0xFF000000 8)] ++ replicate 254 zero_peer) 2 1.

Lemma demo_peer_ok key c : is_u8 key → cidr_ok c → peer_ok (demo_peer key c).
Proof.
  intros Hk Hc. split; cbn -[replicate]; auto with vpn; [|lia|by constructor].
  split; [done|]. by apply Forall_replicate.
Qed.

Lemma demo_table_ok : table_ok demo_table.
Proof.
  split; [done..| |].
  - apply Forall_cons; split; [|apply Forall_singleton]; apply demo_peer_ok; split; done.
  - apply (bool_decide_unpack (NoDup (public_key <$> live demo_table))). by vm_compute.
Qed.

(** ** Properties *)

(** C29: on a well-formed table [peer_add] either refuses, and changes nothing,
    exactly when the table is full or the key is already there, or appends one
    fresh peer with that key, no session and no networks behind the existing ones,
    returns its position, and leaves a well-formed table in which all keys are
    still distinct. *)
Theorem peer_add_refines_append t nm pk ep :
  table_ok t → length pk = 32%nat → bytes_ok pk → (∀ e, ep = Some e → endpoint_ok e) →
  ∃ r t', peer_add (Some t) (Some nm) (Some pk) ep = Some (r, Some t') ∧ table_ok t' ∧
    match r with
    | None => t' = t ∧ (peer_count t = VPN_MAX_PEERS ∨ (pk ∈ keys t))
    | Some i => i = peer_count t ∧ (pk ∉ keys t) ∧
        ∃ nm', live t' = live t ++ [fresh_peer nm' pk (default zero_endpoint ep)]
    end.
Proof.
  intros Ht Hl Hb Hep. destruct (decide (peer_count t = 256)) as [Hf|Hf].
  { exists None, t. rewrite (peer_add_full t nm pk ep Hf). auto. }
  destruct (decide (pk ∈ keys t)) as [Hd|Hd].
  { exists None, t. rewrite (peer_add_duplicate t nm pk ep Ht (conj Hl Hb) Hd). auto. }
  pose proof (table_count t Ht).
  destruct (peer_add_new t nm pk ep Ht (conj Hl Hb) Hep) as (nm' & t' & _ & -> & Hlive & _ & _ & Hok);
    [lia|done|].
  exists (Some (peer_count t)), t'. eauto 10.
Qed.

Lemma peer_add_refines_append_witness :
  ∃ r t', peer_add (Some demo_table) (Some [98; 111; 98]) (Some (replicate 32 8)) NULL
            = Some (r, Some t') ∧ table_ok t' ∧
    match r with
    | None => t' = demo_table ∧ (peer_count demo_table = VPN_MAX_PEERS ∨ (replicate 32 8 ∈ keys demo_table))
    | Some i => i = peer_count demo_table ∧ (replicate 32 8 ∉ keys demo_table) ∧
        ∃ nm', live t' = live demo_table ++ [fresh_peer nm' (replicate 32 8) (default zero_endpoint NULL)]
    end.
Proof.
  apply peer_add_refines_append; [apply demo_table_ok|done|by_computation|done].
Defined.

(** the lookup by public key returns the position of the one live peer with
    that key, and NULL exactly when no live peer has it. *)
Theorem find_by_pubkey_finds t pk :
  table_ok t → length pk = 32%nat → bytes_ok pk →
  ∃ r, peer_find_by_pubkey (Some t) (Some pk) = Some r ∧
    (∀ i, r = Some (Z.of_nat i) ↔ ∃ p, live t !! i = Some p ∧ public_key p = pk) ∧
    (r = None ↔ pk ∉ keys t).
Proof.
  intros Ht Hl Hb. rewrite find_by_pubkey_eq by done. eexists; split; [done|].
  destruct (list_find _ _) as [[i p]|] eqn:E; cbn.
  - apply list_find_Some in E as (Hi & Hk & _). split.
    + intros j. split; [intros [= ->%Nat2Z.inj]; eauto|]. intros (q & Hj & Hq). do 2 f_equal.
      eapply (NoDup_lookup (keys t)); [apply Ht|..]; unfold keys; rewrite list_lookup_fmap.
      * by rewrite Hi.
      * rewrite Hj. cbn. congruence.
    + split; [done|]. intros []. apply list_elem_of_fmap. exists p.
      split; [done|]. by eapply list_elem_of_lookup_2.
  - apply list_find_None in E. rewrite Forall_forall in E. split.
    + intros j. split; [done|]. intros (q & Hj & Hq). exfalso.
      apply (E q); [by eapply list_elem_of_lookup_2|done].
    + split; [|done]. intros _ (q & -> & Hin)%list_elem_of_fmap. by apply (E q).
Qed.

Lemma find_by_pubkey_finds_witness :
  ∃ r, peer_find_by_pubkey (Some demo_table) (Some (replicate 32 7)) = Some r ∧
    (∀ i, r = Some (Z.of_nat i) ↔ ∃ p, live demo_table !! i = Some p ∧ public_key p = replicate 32 7) ∧
    (r = None ↔ replicate 32 7 ∉ keys demo_table).
Proof. apply find_by_pubkey_finds; [apply demo_table_ok|done|by_computation]. Defined.

(** the outbound routing lookup returns the first live peer, in the order
    they were added, one of whose AllowedIPs networks contains the destination,
    and NULL exactly when no live peer's do. *)
Theorem find_by_dest_ip_first_match t ip :
  table_ok t →
  ∃ r, peer_find_by_dest_ip (Some t) ip = Some r ∧
    (∀ i, r = Some (Z.of_nat i) ↔
       (∃ p, live t !! i = Some p ∧ allows p ip) ∧
       ∀ j q, (j < i)%nat → live t !! j = Some q → ¬ allows q ip) ∧
    (r = None ↔ Forall (λ p, ¬ allows p ip) (live t)).
Proof.
  intros Ht. rewrite find_by_dest_ip_eq by done. eexists; split; [done|].
  destruct (list_find _ _) as [[i p]|] eqn:E; cbn.
  - apply list_find_Some in E as (Hi & Ha & Hbefore). split.
    + intros j. split; [intros [= ->%Nat2Z.inj]; eauto 10|]. intros [(q & Hj & Hq) Hj'].
      do 2 f_equal. destruct (Nat.lt_trichotomy i j) as [Hlt|[->|Hlt]]; [|done|].
      * by destruct (Hj' i p Hlt Hi).
      * by destruct (Hbefore j q Hj Hlt).
    + split; [done|]. intros H. by destruct (Forall_lookup_1 _ _ _ _ H Hi).
  - apply list_find_None in E. split; [|by split].
    intros j. split; [done|]. intros [(q & Hj & Hq) _]. exfalso.
    by apply (Forall_lookup_1 _ _ _ _ E Hj).
Qed.

Lemma find_by_dest_ip_first_match_witness :
  ∃ r, peer_find_by_dest_ip (Some demo_table) 0x0A050001 = Some r ∧
    (∀ i, r = Some (Z.of_nat i) ↔
       (∃ p, live demo_table !! i = Some p ∧ allows p 0x0A050001) ∧
       ∀ j q, (j < i)%nat → live demo_table !! j = Some q → ¬ allows q 0x0A050001) ∧
    (r = None ↔ Forall (λ p, ¬ allows p 0x0A050001) (live demo_table)).
Proof. apply find_by_dest_ip_first_match, demo_table_ok. Defined.

(** [peer_add_allowed_ip] with a text that parses adds exactly that network to
    the peer: afterwards a source address is allowed iff it was allowed before or
    lies in the new network; at 64 networks it refuses with -ENOSPC. *)
Theorem add_allowed_ip_extends p s c :
  peer_ok p → vpn_cidr_parse (Some s) (Some (mk_cidr 0 0 0)) = (0, Some c) →
  (allowed_ips_count p = 64 → peer_add_allowed_ip (Some p) (Some s) = Some (- ENOSPC, Some p)) ∧
  (allowed_ips_count p < 64 →
    ∃ p', peer_add_allowed_ip (Some p) (Some s) = Some (0, Some p') ∧ peer_ok p' ∧
      ∀ ip, peer_allows_source_ip (Some p') ip =
        Some (bool_decide (allows p ip) || vpn_cidr_match (Some c) ip)).
Proof.
  intros Hp Hc. split.
  { intros H. unfold peer_add_allowed_ip. by rewrite H. }
  intros Hlt. destruct (add_allowed_ip_ok p s Hp Hlt) as (c' & p' & Hc' & Hadd & Hnet & Hok & _).
  { by rewrite Hc. }
  rewrite Hc' in Hc. injection Hc as ->. exists p'. split_and!; [done..|].
  intros ip. rewrite allows_source_eq by done. f_equal.
  apply eq_true_iff_eq. rewrite bool_decide_eq_true. unfold allows at 1. rewrite Hnet. rewrite Exists_app, orb_true_iff, bool_decide_eq_true.
  by rewrite Exists_cons, Exists_nil, (right_id False or).
Qed.

Lemma add_allowed_ip_extends_witness :
  let p := demo_peer 7 (mk_cidr 0x0A000000 0xFFFFFF00 24) in
  ∃ p', peer_add_allowed_ip (Some p) (Some [49; 46; 50; 46; 51; 46; 52; 47; 56]) = Some (0, Some p') ∧
    peer_ok p' ∧
    ∀ ip, peer_allows_source_ip (Some p') ip =
      Some (bool_decide (allows p ip) || vpn_cidr_match (Some (mk_cidr 0x01000000 0xFF000000 8)) ip).
Proof.
  refine (proj2 (add_allowed_ip_extends (demo_peer 7 (mk_cidr 0x0A000000 0xFFFFFF00 24))
    [49; 46; 50; 46; 51; 46; 52; 47; 56] (mk_cidr 0x01000000 0xFF000000 8) _ _) _).
  - apply demo_peer_ok; split; done.
  - by vm_compute.
  - done.
Defined.

(** establishing a session under a fresh index keeps the previous one
    reachable: afterwards the new index selects the current session, which starts
    with counter 0 and an empty replay window, the index of the session that was
    established selects the previous one, with its keys and its replay window, and
    every other index selects nothing: the session before that is gone. *)
Theorem rekey_keeps_one_previous_session p idx peer_idx sk rk now1 now2 :
  peer_ok p → is_u32 idx → is_u32 peer_idx → length sk = 32%nat → length rk = 32%nat →
  state (current_session p) = SESSION_STATE_ESTABLISHED → local_index (current_session p) ≠ idx →
  ∃ p', peer_init_session (Some p) idx peer_idx (Some sk) (Some rk) now1 now2 = Some (Some p') ∧
    peer_ok p' ∧ public_key p' = public_key p ∧
    current_session p' = new_session idx peer_idx sk rk now1 ∧
    previous_session p' = current_session p ∧
    slot_of p' idx = Some Current ∧
    slot_of p' (local_index (current_session p)) = Some Previous ∧
    ∀ i, i ≠ idx → i ≠ local_index (current_session p) → slot_of p' i = None.
Proof.
  intros Hp Hi Hpi Hs Hr Hst Hne. rewrite init_session_eq, bool_decide_true by done.
  eexists. split; [done|]. pose proof Hp as [? ? ? ? ? ? Hcur ?].
  pose proof (new_session_ok idx peer_idx sk rk now1 Hi Hpi Hs Hr).
  split_and!; try done; unfold slot_of, session_matches;
    cbn [set_last_handshake_time set_sessions current_session previous_session new_session
         local_index state]; rewrite ?Hst, bool_decide_true, ?Z.eqb_refl by done; cbn [andb].
  - done.
  - by test_false (idx =? local_index (current_session p)).
  - intros i H1 H2. by test_false (idx =? i); test_false (local_index (current_session p) =? i).
Qed.

Definition demo_established : vpn_peer_t :=
  set_sessions (demo_peer 7 (mk_cidr 0x0A000000 0xFFFFFF00 24))
    (new_session 1 40 (replicate 32 1) (replicate 32 2) 1000) zero_session.

Lemma demo_established_ok : peer_ok demo_established.
Proof.
  destruct (demo_peer_ok 7 (mk_cidr 0x0A000000 0xFFFFFF00 24)); [done|by split|].
  split; try done. by apply new_session_ok.
Qed.

Lemma rekey_keeps_one_previous_session_witness :
  ∃ p', peer_init_session (Some demo_established) 2 41 (Some (replicate 32 3))
          (Some (replicate 32 4)) 2000 2000 = Some (Some p') ∧
    peer_ok p' ∧ public_key p' = replicate 32 7 ∧
    current_session p' = new_session 2 41 (replicate 32 3) (replicate 32 4) 2000 ∧
    previous_session p' = current_session demo_established ∧
    slot_of p' 2 = Some Current ∧ slot_of p' 1 = Some Previous ∧
    ∀ i, i ≠ 2 → i ≠ 1 → slot_of p' i = None.
Proof.
  apply (rekey_keeps_one_previous_session demo_established 2 41); try done.
  apply demo_established_ok.
Defined.

(** roaming: after [peer_update_endpoint] with an endpoint of a known family
    the peer's endpoint has exactly that family, port and address, nothing else of
    the peer changed, and the result says whether it moved. *)
Theorem update_endpoint_roams p ep :
  peer_ok p → endpoint_ok ep → is_Some (identity ep) →
  ∃ rc p', peer_update_endpoint (Some p) (Some ep) = Some (rc, Some p') ∧ peer_ok p' ∧
    identity (endpoint p') = identity ep ∧
    p' = set_endpoint p (endpoint p') ∧
    (rc = 0 ∧ p' = p ∨ rc = 1 ∧ endpoint p' = ep ∧ identity (endpoint p) ≠ identity ep).
Proof.
  intros Hp He Hid. rewrite update_endpoint_eq by (done || apply Hp).
  case_bool_decide as E.
  - destruct E as [_ E]. do 2 eexists. split; [done|]. split_and!; [done..| |auto]. by destruct p.
  - do 2 eexists. split; [done|]. split_and!; [|done|by destruct p|].
    + destruct Hp. by split.
    + right. split_and!; [done..|]. intros Heq. apply E. by rewrite Heq.
Qed.

Lemma update_endpoint_roams_witness :
  ∃ rc p', peer_update_endpoint (Some demo_established) (Some (endpoint4 [1; 2; 3; 4] 5))
      = Some (rc, Some p') ∧ peer_ok p' ∧
    identity (endpoint p') = identity (endpoint4 [1; 2; 3; 4] 5) ∧
    p' = set_endpoint demo_established (endpoint p') ∧
    (rc = 0 ∧ p' = demo_established ∨
     rc = 1 ∧ endpoint p' = endpoint4 [1; 2; 3; 4] 5 ∧
     identity (endpoint demo_established) ≠ identity (endpoint4 [1; 2; 3; 4] 5)).
Proof.
  apply update_endpoint_roams;
    [apply demo_established_ok|split; [done|by_computation|done]|by eexists].
Defined.
