(* ===== verification/Handshake.v ===== *)
(** * The 1-RTT handshake ([src/handshake.c], [src/handshake.h])

    The four handshake functions on their buffers and output structures, on
    every path.  The random bytes of the ephemeral key pair and the clock are
    arguments; local arrays that are wiped before they go out of scope are not
    represented after their last use. *)

From stdpp Require Import strings.
From S2P Require Import Prelude Config Libc Packet Sodium Crypto Kdf Routing Transport Peer.
Local Open Scope c_scope.

Record handshake_init_state_t := mk_init_state {
  hs_ephemeral_private : bytes;
  hs_chaining_key : bytes;
  hs_hash : bytes;
  hs_local_index : Z;
  hs_timestamp : Z
}.

(** [struct timespec] as [clock_gettime] fills it. *)
Record timespec := mk_timespec { tv_sec : Z; tv_nsec : Z }.

Definition PROTOCOL_IDENTIFIER : bytes := of_string "VPN_Tunnel_Noise_IK_25519_ChaChaPoly_BLAKE2b".
Definition PROTOCOL_LABEL : bytes := of_string "VPN_Tunnel_v1_EduZx".

Definition zero_init_msg : packet_handshake_init_t :=
  mk_handshake_init 0 (replicate 32 0) (replicate 48 0) (replicate 28 0) (replicate 16 0)
    (replicate 16 0).
Definition zero_resp_msg : packet_handshake_resp_t :=
  mk_handshake_resp 0 0 (replicate 32 0) (replicate 16 0) (replicate 16 0) (replicate 16 0).

(** The buffer of a call whose pointer is not NULL, with the return code. *)
Definition outbuf {A} (r : option (A * option bytes)) : option (A * bytes) :=
  '(rc, p) ← r; b ← p; Some (rc, b).

Section handshake.
Context {S : Sodium}.

Definition mix_hash (hash : bytes) (data : option bytes) (len : Z) : option bytes :=
  if len >? 256 then Some hash
  else
    input ← memcpy (local (32 + 256)) 0 hash 0 32;
    input ← match data with
            | Some d => if len >? 0 then memcpy input 32 d 0 len else Some input
            | NULL => Some input
            end;
    '(_, hash) ← outbuf (vpn_crypto_hash (Some hash) (Some input) (32 + len));
    Some hash.

Definition init_chaining_and_hash (chaining_key hash : bytes) : option (bytes * bytes) :=
  '(_, chaining_key) ← outbuf (vpn_crypto_hash (Some chaining_key) (Some PROTOCOL_IDENTIFIER)
                                 (Z.of_nat (length PROTOCOL_IDENTIFIER)));
  '(_, hash) ← outbuf (vpn_crypto_hash (Some hash) (Some PROTOCOL_LABEL)
                         (Z.of_nat (length PROTOCOL_LABEL)));
  Some (chaining_key, hash).

(** [vpn_crypto_aead_encrypt(out, out + n, m, n, h, 32, 0, k)]: ciphertext and tag
    side by side in [out]. *)
Definition encrypt_field (out m : bytes) (n : Z) (h k : bytes) : option bytes :=
  c_buf ← slice out 0 n;
  mac_buf ← slice out n VPN_AUTH_TAG_LEN;
  '(_, c, mac) ← vpn_crypto_aead_encrypt (Some c_buf) (Some mac_buf) (Some m) n (Some h) 32 0 (Some k);
  c ← c; mac ← mac;
  blit out 0 (c ++ mac).

(** [vpn_crypto_aead_decrypt(out, in, n, in + n, h, 32, 0, k)] *)
Definition decrypt_field (out inp : bytes) (n : Z) (h k : bytes) : option (Z * bytes) :=
  c ← slice inp 0 n;
  tag ← slice inp n VPN_AUTH_TAG_LEN;
  outbuf (vpn_crypto_aead_decrypt (Some out) (Some c) n (Some tag) (Some h) 32 0 (Some k)).

Definition handshake_create_initiation (out_packet : option bytes) (max_len : Z)
    (my_privkey my_pubkey their_pubkey : option bytes) (local_index : Z)
    (out_state : option handshake_init_state_t) (rand : bytes) (ts : timespec)
    : option (Z * option bytes * option handshake_init_state_t) :=
  match out_packet, my_privkey, my_pubkey, their_pubkey, out_state with
  | Some out, Some priv, Some pub, Some their, Some st =>
      if max_len <? PACKET_HANDSHAKE_INIT_LEN then Some (- ENOSPC, out_packet, out_state)
      else
        '(_, e_pub, e_priv) ← vpn_crypto_generate_keypair (Some (local 32))
                                (Some (hs_ephemeral_private st)) rand;
        e_pub ← e_pub; e_priv ← e_priv;
        ephemeral ← memcpy (hi_unencrypted_ephemeral zero_init_msg) 0 e_pub 0 VPN_PUBKEY_LEN;
        '(ck, h) ← init_chaining_and_hash (hs_chaining_key st) (hs_hash st);
        h ← mix_hash h (Some their) VPN_PUBKEY_LEN;
        h ← mix_hash h (Some ephemeral) VPN_PUBKEY_LEN;
        ck ← vpn_kdf1 ck ck (Some ephemeral) VPN_PUBKEY_LEN;
        '(rc, dh1) ← outbuf (vpn_crypto_dh (Some (local VPN_KEY_LEN)) (Some their) (Some e_priv));
        if negb (rc =? 0)
        then Some (- EFAULT, out_packet,
               Some (mk_init_state e_priv ck h (hs_local_index st) (hs_timestamp st)))
        else
          '(ck, kappa1) ← vpn_kdf2 ck (local VPN_KEY_LEN) ck (Some dh1) VPN_KEY_LEN;
          encrypted_static ← encrypt_field (hi_encrypted_static zero_init_msg) pub
                               VPN_PUBKEY_LEN h kappa1;
          h ← mix_hash h (Some encrypted_static) 48;
          '(rc, dh2) ← outbuf (vpn_crypto_dh (Some (local VPN_KEY_LEN)) (Some their) (Some priv));
          if negb (rc =? 0)
          then Some (- EFAULT, out_packet,
                 Some (mk_init_state e_priv ck h (hs_local_index st) (hs_timestamp st)))
          else
            '(ck, kappa2) ← vpn_kdf2 ck (local VPN_KEY_LEN) ck (Some dh2) VPN_KEY_LEN;
            timestamp_buf ← le64_write (replicate 12 0) 0 (u64 (tv_sec ts));
            timestamp_buf ← le32_write timestamp_buf 8 (u32 (tv_nsec ts));
            encrypted_timestamp ← encrypt_field (hi_encrypted_timestamp zero_init_msg)
                                    timestamp_buf 12 h kappa2;
            h ← mix_hash h (Some encrypted_timestamp) 28;
            '(_, mac_key) ← outbuf (vpn_crypto_hash (Some (local 32)) (Some their) VPN_PUBKEY_LEN);
            '(_, mac1) ← outbuf (vpn_crypto_mac16 (Some (hi_mac1 zero_init_msg)) (Some mac_key) 32
                           (Some (ephemeral ++ encrypted_static ++ encrypted_timestamp)) 108);
            let msg := mk_handshake_init local_index ephemeral encrypted_static
                         encrypted_timestamp mac1 (hi_mac2 zero_init_msg) in
            '(rc, out_packet) ← packet_serialize_handshake_init out_packet max_len (Some msg);
            Some (rc, out_packet, Some (mk_init_state e_priv ck h local_index (tv_sec ts)))
  | _, _, _, _, _ => Some (- EINVAL, out_packet, out_state)
  end.

(** The return code, [*out_peer], [*out_parsed], the chaining key and the hash. *)
Definition consume_result : Type :=
  Z * option (option Z) * option packet_handshake_init_t * option bytes * option bytes.

Definition handshake_consume_initiation (packet : option bytes) (packet_len : Z)
    (my_privkey my_pubkey : option bytes) (peer_table : option vpn_peer_table_t)
    (out_peer : option (option Z)) (out_parsed : option packet_handshake_init_t)
    (chaining_key hash : option bytes) : option consume_result :=
  match packet, my_privkey, my_pubkey, peer_table, out_peer, out_parsed, chaining_key, hash with
  | Some _, Some priv, Some pub, Some table, Some _, Some _, Some ck0, Some h0 =>
      '(rc, parsed) ← packet_parse_handshake_init packet packet_len out_parsed;
      if negb (rc =? 0) then Some (rc, out_peer, parsed, chaining_key, hash)
      else
        m ← parsed;
        '(ck, h) ← init_chaining_and_hash ck0 h0;
        h ← mix_hash h (Some pub) VPN_PUBKEY_LEN;
        h ← mix_hash h (Some (hi_unencrypted_ephemeral m)) VPN_PUBKEY_LEN;
        ck ← vpn_kdf1 ck ck (Some (hi_unencrypted_ephemeral m)) VPN_PUBKEY_LEN;
        '(rc, dh1) ← outbuf (vpn_crypto_dh (Some (local VPN_KEY_LEN))
                               (Some (hi_unencrypted_ephemeral m)) (Some priv));
        if negb (rc =? 0) then Some (- EBADMSG, out_peer, parsed, Some ck, Some h)
        else
          '(ck, kappa1) ← vpn_kdf2 ck (local VPN_KEY_LEN) ck (Some dh1) VPN_KEY_LEN;
          '(rc, their_static) ← decrypt_field (local VPN_PUBKEY_LEN) (hi_encrypted_static m)
                                  VPN_PUBKEY_LEN h kappa1;
          if negb (rc =? 0) then Some (- EBADMSG, out_peer, parsed, Some ck, Some h)
          else
            peer ← peer_find_by_pubkey (Some table) (Some their_static);
            match peer with
            | NULL => Some (- EACCES, out_peer, parsed, Some ck, Some h)
            | Some i =>
                h ← mix_hash h (Some (hi_encrypted_static m)) 48;
                '(rc, dh2) ← outbuf (vpn_crypto_dh (Some (local VPN_KEY_LEN))
                                       (Some their_static) (Some priv));
                if negb (rc =? 0) then Some (- EBADMSG, out_peer, parsed, Some ck, Some h)
                else
                  '(ck, kappa2) ← vpn_kdf2 ck (local VPN_KEY_LEN) ck (Some dh2) VPN_KEY_LEN;
                  '(rc, timestamp_buf) ← decrypt_field (local 12) (hi_encrypted_timestamp m) 12
                                           h kappa2;
                  if negb (rc =? 0) then Some (- EBADMSG, out_peer, parsed, Some ck, Some h)
                  else
                    sec ← le64_read timestamp_buf 0;
                    p ← get_peer table i;
                    if negb (last_handshake_time p =? 0) && (s64 sec <=? last_handshake_time p)
                    then Some (- EBADMSG, out_peer, parsed, Some ck, Some h)
                    else
                      h ← mix_hash h (Some (hi_encrypted_timestamp m)) 28;
                      Some (0, Some (Some i), parsed, Some ck, Some h)
            end
  | _, _, _, _, _, _, _, _ => Some (- EINVAL, out_peer, out_parsed, chaining_key, hash)
  end.

(** The return code, the packet and the two keys. *)
Definition handshake_create_response (out_packet : option bytes) (max_len : Z)
    (my_privkey their_ephemeral their_static : option bytes) (my_index their_index : Z)
    (chaining_key hash send_key recv_key : option bytes) (rand : bytes)
    : option (Z * option bytes * option bytes * option bytes) :=
  match out_packet, my_privkey, their_ephemeral, their_static, chaining_key, hash,
        send_key, recv_key with
  | Some _, Some _, Some their_e, Some their_s, Some ck0, Some h0, Some sk, Some rk =>
      if max_len <? PACKET_HANDSHAKE_RESP_LEN
      then Some (- ENOSPC, out_packet, send_key, recv_key)
      else
        '(_, e_pub, e_priv) ← vpn_crypto_generate_keypair (Some (local 32)) (Some (local 32)) rand;
        e_pub ← e_pub; e_priv ← e_priv;
        ephemeral ← memcpy (hr_unencrypted_ephemeral zero_resp_msg) 0 e_pub 0 VPN_PUBKEY_LEN;
        c ← memcpy (local VPN_KEY_LEN) 0 ck0 0 VPN_KEY_LEN;
        h ← memcpy (local 32) 0 h0 0 32;
        h ← mix_hash h (Some ephemeral) VPN_PUBKEY_LEN;
        c ← vpn_kdf1 c c (Some ephemeral) VPN_PUBKEY_LEN;
        '(rc, dh1) ← outbuf (vpn_crypto_dh (Some (local VPN_KEY_LEN)) (Some their_e) (Some e_priv));
        if negb (rc =? 0) then Some (- EFAULT, out_packet, send_key, recv_key)
        else
          c ← vpn_kdf1 c c (Some dh1) VPN_KEY_LEN;
          '(rc, dh2) ← outbuf (vpn_crypto_dh (Some (local VPN_KEY_LEN)) (Some their_s) (Some e_priv));
          if negb (rc =? 0) then Some (- EFAULT, out_packet, send_key, recv_key)
          else
            '(c, kappa) ← vpn_kdf2 c (local VPN_KEY_LEN) c (Some dh2) VPN_KEY_LEN;
            '(_, _, nothing) ← vpn_crypto_aead_encrypt NULL (Some (hr_encrypted_nothing zero_resp_msg))
                                 NULL 0 (Some h) 32 0 (Some kappa);
            nothing ← nothing;
            h ← mix_hash h (Some nothing) 16;
            '(sk, rk) ← vpn_kdf2 sk rk c NULL 0;
            '(_, mac_key) ← outbuf (vpn_crypto_hash (Some (local 32)) (Some their_s) VPN_PUBKEY_LEN);
            mac_tail ← slice (hr_mac1 zero_resp_msg) 0 4;
            '(_, mac1) ← outbuf (vpn_crypto_mac16 (Some (hr_mac1 zero_resp_msg)) (Some mac_key) 32
                           (Some (ephemeral ++ nothing ++ mac_tail)) 52);
            let msg := mk_handshake_resp my_index their_index ephemeral nothing mac1
                         (hr_mac2 zero_resp_msg) in
            '(rc, out_packet) ← packet_serialize_handshake_resp out_packet max_len (Some msg);
            Some (rc, out_packet, Some sk, Some rk)
  | _, _, _, _, _, _, _, _ => Some (- EINVAL, out_packet, send_key, recv_key)
  end.

(** The return code, [*out_peer_index] and the two keys. *)
Definition handshake_consume_response (packet : option bytes) (packet_len : Z)
    (my_privkey : option bytes) (init_state : option handshake_init_state_t)
    (their_static : option bytes) (out_peer_index : option Z) (send_key recv_key : option bytes)
    : option (Z * option Z * option bytes * option bytes) :=
  match packet, my_privkey, init_state, their_static, out_peer_index, send_key, recv_key with
  | Some _, Some priv, Some st, Some _, Some _, Some sk, Some rk =>
      '(rc, parsed) ← packet_parse_handshake_resp packet packet_len (Some zero_resp_msg);
      if negb (rc =? 0) then Some (rc, out_peer_index, send_key, recv_key)
      else
        m ← parsed;
        if negb (hr_receiver_index m =? hs_local_index st)
        then Some (- EBADMSG, out_peer_index, send_key, recv_key)
        else
          c ← memcpy (local VPN_KEY_LEN) 0 (hs_chaining_key st) 0 VPN_KEY_LEN;
          h ← memcpy (local 32) 0 (hs_hash st) 0 32;
          h ← mix_hash h (Some (hr_unencrypted_ephemeral m)) VPN_PUBKEY_LEN;
          c ← vpn_kdf1 c c (Some (hr_unencrypted_ephemeral m)) VPN_PUBKEY_LEN;
          '(rc, dh1) ← outbuf (vpn_crypto_dh (Some (local VPN_KEY_LEN))
                                 (Some (hr_unencrypted_ephemeral m))
                                 (Some (hs_ephemeral_private st)));
          if negb (rc =? 0) then Some (- EBADMSG, out_peer_index, send_key, recv_key)
          else
            c ← vpn_kdf1 c c (Some dh1) VPN_KEY_LEN;
            '(rc, dh2) ← outbuf (vpn_crypto_dh (Some (local VPN_KEY_LEN))
                                   (Some (hr_unencrypted_ephemeral m)) (Some priv));
            if negb (rc =? 0) then Some (- EBADMSG, out_peer_index, send_key, recv_key)
            else
              '(c, kappa) ← vpn_kdf2 c (local VPN_KEY_LEN) c (Some dh2) VPN_KEY_LEN;
              '(rc, _) ← vpn_crypto_aead_decrypt NULL NULL 0 (Some (hr_encrypted_nothing m))
                           (Some h) 32 0 (Some kappa);
              if negb (rc =? 0) then Some (- EBADMSG, out_peer_index, send_key, recv_key)
              else
                h ← mix_hash h (Some (hr_encrypted_nothing m)) 16;
                '(key_send, key_recv) ← vpn_kdf2 (local VPN_KEY_LEN) (local VPN_KEY_LEN) c NULL 0;
                sk ← memcpy sk 0 key_recv 0 VPN_KEY_LEN;
                rk ← memcpy rk 0 key_send 0 VPN_KEY_LEN;
                Some (0, Some (hr_sender_index m), Some sk, Some rk)
  | _, _, _, _, _, _, _ => Some (- EINVAL, out_peer_index, send_key, recv_key)
  end.
End handshake.

(** ** Specification

    The key schedule of the handshake as a function of the Diffie-Hellman results
    and the transcript. *)

Section noise.
Context {S : Sodium}.

Definition mixh (h d : bytes) : bytes := hash 32 (h ++ d) [].

(** After the responder's static key and the initiator's ephemeral key. *)
Definition noise_h1 (s_r e_i : bytes) : bytes := mixh (mixh (hash 32 PROTOCOL_LABEL []) s_r) e_i.
Definition noise_ck1 (e_i : bytes) : bytes := hkdf (hash 32 PROTOCOL_IDENTIFIER []) e_i 1.

Definition sealed (m h k : bytes) : bytes := ae_c (seal m h 0 k) ++ ae_mac (seal m h 0 k).
Definition opened (c h k : bytes) (n : nat) : Z * bytes := unseal (take n c) (drop n c) h 0 k.

Definition timestamp_bytes (ts : timespec) : bytes :=
  le64_bytes (u64 (tv_sec ts)) ++ le32_bytes (u32 (tv_nsec ts)).

(** Directional keys from the transcript of the response: ephemeral key of the
    responder and the two shared secrets it is part of. *)
Definition resp_ck (ck e_r dh_ee dh_es : bytes) : bytes :=
  hkdf (hkdf (hkdf ck e_r 1) dh_ee 1) dh_es 1.
Definition resp_kappa (ck e_r dh_ee dh_es : bytes) : bytes :=
  hkdf (hkdf (hkdf ck e_r 1) dh_ee 1) dh_es 2.
End noise.

Section steps.
Context {S : Sodium} {SL : SodiumLaws S}.

Lemma crypto_hash_arg out inp n v : length out = 32%nat → arg (Some inp) n = Some v →
  outbuf (vpn_crypto_hash (Some out) (Some inp) n) = Some (0, hash 32 v []).
Proof.
  intros Ho Ha. unfold vpn_crypto_hash. cbn [is_null andb]. rewrite Ha. bind_simpl.
  pose proof (hash32_length v [] ltac:(simpl; lia)) as Hl.
  destruct (generichash_ok 32 v []) as [Hrc _]; [lia|simpl; lia|].
  unfold hash in *. destruct (crypto_generichash 32 v []) as [rc h]. cbn [fst snd] in *.
  rewrite blit_all by lia. bind_simpl. by rewrite Hrc.
Qed.

Lemma hash32_nokey_length inp : length (hash 32 inp []) = 32%nat.
Proof. apply hash32_length. simpl. lia. Qed.

Lemma dh_length sk pk : length (dh sk pk) = 32%nat.
Proof. unfold dh. rewrite length_take, length_app, length_replicate. lia. Qed.

Lemma mixh_length h d : length (mixh h d) = 32%nat.
Proof. apply hash32_length. simpl. lia. Qed.

Lemma noise_h1_length s e : length (noise_h1 s e) = 32%nat.
Proof. apply mixh_length. Qed.

Lemma noise_ck1_length e : length (noise_ck1 e) = 32%nat.
Proof. apply hkdf_length, hash32_length. simpl. lia. Qed.

Lemma mix_hash_eq h d n : length h = 32%nat → Z.of_nat (length d) = n → n <= 256 →
  mix_hash h (Some d) n = Some (mixh h d).
Proof.
  intros Hh Hd Hn. unfold mix_hash. test_false (256 <? n).
  replace (n >? 256) with false by lia. rewrite memcpy_all by (rewrite Hh; done).
  change (local (32 + 256)) with (replicate 32 0 ++ replicate 256 0).
  rewrite blit_0 by (rewrite Hh; done). bind_simpl.
  assert ((if n >? 0 then memcpy (h ++ replicate 256 0) 32 d 0 n
           else Some (h ++ replicate 256 0)) =
          Some ((h ++ d) ++ replicate (256 - length d) 0)) as ->.
  { destruct (n >? 0) eqn:E.
    - rewrite memcpy_all by done. rewrite blit_app_r by lia. rewrite Hh.
      change (32 - Z.of_nat 32) with 0. rewrite <- (app_nil_r (replicate 256 0)).
      rewrite blit_replicate by lia. cbn. by rewrite app_nil_r, app_assoc.
    - destruct d; [by rewrite app_nil_r|cbn [length] in Hd; lia]. }
  bind_simpl. rewrite (crypto_hash_arg _ _ _ (h ++ d)); [done|done|].
  unfold arg. test_true (0 <? 32 + n). replace (32 + n >? 0) with true by lia. bind_simpl.
  apply slice_app_0; [done|]. rewrite length_app. lia.
Qed.

Lemma init_chaining_eq ck h : length ck = 32%nat → length h = 32%nat →
  init_chaining_and_hash ck h =
    Some (hash 32 PROTOCOL_IDENTIFIER [], hash 32 PROTOCOL_LABEL []).
Proof.
  intros Hc Hh. unfold init_chaining_and_hash.
  rewrite (crypto_hash_arg ck PROTOCOL_IDENTIFIER _ PROTOCOL_IDENTIFIER)
    by (done || by apply arg_all). bind_simpl.
  by rewrite (crypto_hash_arg h PROTOCOL_LABEL _ PROTOCOL_LABEL) by (done || by apply arg_all).
Qed.

Lemma dh_eq pk sk : length pk = 32%nat → length sk = 32%nat →
  outbuf (vpn_crypto_dh (Some (local VPN_KEY_LEN)) (Some pk) (Some sk)) =
    Some (if (crypto_scalarmult sk pk).1 =? 0 then 0 else - EBADMSG,
          if (crypto_scalarmult sk pk).1 =? 0 then dh sk pk
          else (crypto_scalarmult sk pk).2 ++
                 drop (length (crypto_scalarmult sk pk).2) (local VPN_KEY_LEN)).
Proof. intros. rewrite crypto_dh_eq by done. by destruct (_ =? 0). Qed.

Lemma encrypt_field_eq out m n h k :
  Z.of_nat (length m) = n → length out = (length m + 16)%nat → length h = 32%nat →
  length k = 32%nat → encrypt_field out m n h k = Some (sealed m h k).
Proof.
  intros Hm Ho Hh Hk. unfold encrypt_field. destruct (seal_lengths m h 0 k Hk) as [Hc Ht].
  rewrite !slice_ok by (unfold VPN_AUTH_TAG_LEN; lia). bind_simpl.
  rewrite (aead_encrypt_eq _ _ _ _ _ _ _ _ h);
    [|done|len|change (Z.to_nat VPN_AUTH_TAG_LEN) with 16%nat; len
     |apply arg_all; by rewrite Hh|done].
  bind_simpl. rewrite drop_ge, app_nil_r by len. fold (sealed m h k).
  apply blit_all. unfold sealed. rewrite length_app. lia.
Qed.

Lemma decrypt_field_eq out c n h k :
  Z.of_nat (length out) = n → length c = (length out + 16)%nat → length h = 32%nat →
  length k = 32%nat →
  decrypt_field out c n h k =
    Some (if (opened c h k (length out)).1 =? 0 then 0 else - EBADMSG, (opened c h k (length out)).2).
Proof.
  intros Hm Ho Hh Hk. unfold decrypt_field.
  rewrite !slice_ok by (unfold VPN_AUTH_TAG_LEN; lia). bind_simpl.
  rewrite (aead_decrypt_eq _ _ _ _ _ _ _ _ h);
    [|len|len|change (Z.to_nat VPN_AUTH_TAG_LEN) with 16%nat; len
     |apply arg_all; by rewrite Hh|done].
  cbn [outbuf]. unfold outbuf. bind_simpl. unfold opened.
  replace (Z.to_nat n) with (length out) by lia.
  change (Z.to_nat VPN_AUTH_TAG_LEN) with 16%nat. change (Z.to_nat 0) with 0%nat. rewrite drop_0.
  rewrite (take_ge (drop _ _)) by len. rewrite (drop_ge out) by len. by rewrite app_nil_r.
Qed.

Lemma sealed_length m h k : length k = 32%nat → length (sealed m h k) = (length m + 16)%nat.
Proof.
  intros Hk. destruct (seal_lengths m h 0 k Hk). unfold sealed. rewrite length_app. lia.
Qed.

Lemma opened_sealed m h k : length k = 32%nat → opened (sealed m h k) h k (length m) = (0, m).
Proof.
  intros Hk. destruct (seal_lengths m h 0 k Hk) as [Hc _]. unfold opened, sealed.
  rewrite take_app_length', drop_app_length' by done. by apply unseal_seal.
Qed.

Lemma opened_length c h k n : (n <= length c)%nat → length (opened c h k n).2 = n.
Proof.
  intros Hn. unfold opened, unseal. rewrite aead_decrypt_length, length_take. lia.
Qed.
End steps.

(** Lengths of the values of the key schedule, and the side conditions of the
    step lemmas. *)
Create HintDb noise.
#[export] Hint Resolve hash32_nokey_length mixh_length noise_h1_length noise_ck1_length
  hkdf_length dh_length : noise.

Ltac side :=
  first [ done | solve [eauto with noise] | solve [apply arg_all; side] | lia
        | match goal with H : length ?x = _ |- context [length ?x] => rewrite H; (done || lia) end
        | match goal with |- context [length ?x] =>
            let H := fresh in
            assert (length x = 32%nat) as H by (eauto with noise); rewrite H; (done || lia) end ].

(** ** What the responder computes from an initiation *)

Section responder.
Context {S : Sodium}.
Variables (priv pub : bytes) (m : packet_handshake_init_t).
Let e_i := hi_unencrypted_ephemeral m.

Definition ri_static : Z * bytes :=
  opened (hi_encrypted_static m) (noise_h1 pub e_i) (hkdf (noise_ck1 e_i) (dh priv e_i) 2) 32.
Definition ri_h2 : bytes := mixh (noise_h1 pub e_i) (hi_encrypted_static m).
Definition ri_ck2 : bytes := hkdf (noise_ck1 e_i) (dh priv e_i) 1.
Definition ri_ck3 : bytes := hkdf ri_ck2 (dh priv ri_static.2) 1.
Definition ri_time : Z * bytes :=
  opened (hi_encrypted_timestamp m) ri_h2 (hkdf ri_ck2 (dh priv ri_static.2) 2) 12.
Definition ri_sec : Z := s64 (default 0 (le64_read ri_time.2 0)).
Definition ri_h3 : bytes := mixh ri_h2 (hi_encrypted_timestamp m).

(** The code and the peer [handshake_consume_initiation] settles on. *)
Definition init_verdict (t : vpn_peer_table_t) : Z * option nat :=
  if negb ((crypto_scalarmult priv e_i).1 =? 0) then (- EBADMSG, None)
  else if negb (ri_static.1 =? 0) then (- EBADMSG, None)
  else match list_find (λ p, public_key p = ri_static.2) (live t) with
       | None => (- EACCES, None)
       | Some (i, p) =>
           if negb ((crypto_scalarmult priv ri_static.2).1 =? 0) then (- EBADMSG, None)
           else if negb (ri_time.1 =? 0) then (- EBADMSG, None)
           else if negb (last_handshake_time p =? 0) && (ri_sec <=? last_handshake_time p)
           then (- EBADMSG, None)
           else (0, Some i)
       end.

(** The chaining key and the hash it leaves, which depend on the check that failed. *)
Definition init_left (t : vpn_peer_table_t) : bytes * bytes :=
  if negb ((crypto_scalarmult priv e_i).1 =? 0) then (noise_ck1 e_i, noise_h1 pub e_i)
  else if negb (ri_static.1 =? 0) then (ri_ck2, noise_h1 pub e_i)
  else match list_find (λ p, public_key p = ri_static.2) (live t) with
       | None => (ri_ck2, noise_h1 pub e_i)
       | Some (i, p) =>
           if negb ((crypto_scalarmult priv ri_static.2).1 =? 0) then (ri_ck2, ri_h2)
           else if negb (ri_time.1 =? 0) then (ri_ck3, ri_h2)
           else if negb (last_handshake_time p =? 0) && (ri_sec <=? last_handshake_time p)
           then (ri_ck3, ri_h2)
           else (ri_ck3, ri_h3)
       end.

Lemma init_left_accepted t : (init_verdict t).1 = 0 → init_left t = (ri_ck3, ri_h3).
Proof.
  unfold init_verdict, init_left. do 2 (case_match; [done|]). destruct (list_find _ _) as [[i p]|]; [|done].
  by do 3 (case_match; [done|]).
Qed.
End responder.

Section responder_lemmas.
Context {S : Sodium} {SL : SodiumLaws S}.
Variables (priv pub : bytes) (m : packet_handshake_init_t) (t : vpn_peer_table_t).
Hypothesis (Hpriv : length priv = 32%nat).
Hypothesis (Hpub : length pub = 32%nat).
Hypothesis (Hm : init_ok m).
Hypothesis (Hmb : bytes_ok (hi_encrypted_static m)).
Hypothesis (Ht : table_ok t).

Lemma ri_static_length : length (ri_static priv pub m).2 = 32%nat.
Proof. apply opened_length. rewrite (init_static _ Hm). lia. Qed.

Lemma ri_static_bytes : bytes_ok (ri_static priv pub m).2.
Proof. apply aead_decrypt_bytes. by apply Forall_take. Qed.

Lemma ri_time_length : length (ri_time priv pub m).2 = 12%nat.
Proof. apply opened_length. rewrite (init_timestamp _ Hm). lia. Qed.

Lemma ri_ck3_length : length (ri_ck3 priv pub m) = 32%nat.
Proof. apply hkdf_length, hkdf_length, noise_ck1_length. Qed.

Lemma ri_h3_length : length (ri_h3 pub m) = 32%nat.
Proof. apply mixh_length. Qed.

Lemma rc_nonzero (b : bool) : negb ((if b then 0 else - EBADMSG) =? 0) = negb b.
Proof. by destruct b. Qed.

Lemma consume_initiation_left pkt n o ck0 h0 out :
  packet_parse_handshake_init (Some pkt) n (Some o) = Some (0, Some m) →
  length ck0 = 32%nat → length h0 = 32%nat →
  handshake_consume_initiation (Some pkt) n (Some priv) (Some pub) (Some t) (Some out)
    (Some o) (Some ck0) (Some h0) =
  Some ((init_verdict priv pub m t).1,
        Some match (init_verdict priv pub m t).2 with
             | Some i => Some (Z.of_nat i) | None => out end,
        Some m, Some (init_left priv pub m t).1, Some (init_left priv pub m t).2).
Proof.
  intros Hp Hck Hh. destruct Hm as [_ He Hs Hts _ _]. unfold handshake_consume_initiation.
  pose proof ri_static_length as Hst. pose proof ri_static_bytes as Hsb.
  pose proof ri_time_length as Htl. pose proof ri_ck3_length as Hc3.
  rewrite Hp. bind_simpl. rewrite init_chaining_eq by side. bind_simpl.
  rewrite (mix_hash_eq _ pub) by side. bind_simpl.
  rewrite (mix_hash_eq _ (hi_unencrypted_ephemeral m)) by side. bind_simpl.
  fold (noise_h1 pub (hi_unencrypted_ephemeral m)).
  rewrite (kdf1_eq _ _ _ _ (hi_unencrypted_ephemeral m)) by side. bind_simpl.
  fold (noise_ck1 (hi_unencrypted_ephemeral m)).
  rewrite (dh_eq (hi_unencrypted_ephemeral m) priv) by side. bind_simpl. rewrite rc_nonzero.
  unfold init_verdict, init_left.
  destruct ((crypto_scalarmult priv (hi_unencrypted_ephemeral m)).1 =? 0); cbn [negb]; [|done].
  rewrite (kdf2_eq _ _ _ _ _ (dh priv (hi_unencrypted_ephemeral m))) by side. bind_simpl.
  fold (ri_ck2 priv m).
  rewrite (decrypt_field_eq (local VPN_PUBKEY_LEN)) by side. bind_simpl.
  change (length (local VPN_PUBKEY_LEN)) with 32%nat.
  fold (ri_static priv pub m). rewrite rc_nonzero.
  destruct ((ri_static priv pub m).1 =? 0); cbn [negb]; [|done].
  rewrite find_by_pubkey_eq by done. bind_simpl.
  destruct (list_find _ _) as [[i p]|] eqn:Hfind; bind_simpl; [|done].
  apply list_find_Some in Hfind as (Hi & _ & _).
  rewrite (mix_hash_eq _ (hi_encrypted_static m)) by side. bind_simpl. fold (ri_h2 pub m).
  rewrite (dh_eq (ri_static priv pub m).2 priv) by side. bind_simpl. rewrite rc_nonzero.
  destruct ((crypto_scalarmult priv (ri_static priv pub m).2).1 =? 0); cbn [negb]; [|done].
  rewrite (kdf2_eq _ _ _ _ _ (dh priv (ri_static priv pub m).2)) by side. bind_simpl.
  fold (ri_ck3 priv pub m).
  rewrite (decrypt_field_eq (local 12)) by side. bind_simpl.
  change (length (local 12)) with 12%nat.
  fold (ri_time priv pub m). rewrite rc_nonzero.
  destruct ((ri_time priv pub m).1 =? 0); cbn [negb]; [|done].
  destruct (le64_read_in (ri_time priv pub m).2 0) as [sec Hsec]; [lia..|].
  rewrite Hsec. bind_simpl. destruct (live_get t Ht i p Hi) as [-> _]. bind_simpl.
  unfold ri_sec. rewrite Hsec. cbn [default].
  destruct (_ && _); [done|].
  by rewrite (mix_hash_eq _ (hi_encrypted_timestamp m)) by side.
Qed.

Lemma consume_initiation_eq pkt n o ck0 h0 out :
  packet_parse_handshake_init (Some pkt) n (Some o) = Some (0, Some m) →
  length ck0 = 32%nat → length h0 = 32%nat →
  ∃ ck h,
    handshake_consume_initiation (Some pkt) n (Some priv) (Some pub) (Some t) (Some out)
      (Some o) (Some ck0) (Some h0) =
    Some ((init_verdict priv pub m t).1,
          Some match (init_verdict priv pub m t).2 with
               | Some i => Some (Z.of_nat i) | None => out end,
          Some m, Some ck, Some h) ∧
    ((init_verdict priv pub m t).1 = 0 → ck = ri_ck3 priv pub m ∧ h = ri_h3 pub m).
Proof.
  intros Hp Hck Hh. do 2 eexists. split; [by apply consume_initiation_left|].
  intros Hrc. by rewrite init_left_accepted.
Qed.
End responder_lemmas.

(** ** What the other three functions compute *)

Section initiator.
Context {S : Sodium} {SL : SodiumLaws S}.

Lemma keypair_eq pkbuf skbuf rand : length pkbuf = 32%nat → length skbuf = 32%nat →
  length rand = 32%nat →
  vpn_crypto_generate_keypair (Some pkbuf) (Some skbuf) rand =
    Some (0, Some (crypto_scalarmult_base rand), Some rand).
Proof. apply generate_keypair_eq. Qed.

Lemma base_length a : length a = 32%nat → length (crypto_scalarmult_base a) = 32%nat.
Proof. intros H. by apply scalarmult_base_ok. Qed.

(** The message [handshake_create_initiation] sends and the state it keeps, for
    an ephemeral key [e], static key pair [(s, pub)] and responder [their]. *)
Definition init_static_field (e pub their : bytes) : bytes :=
  let e_i := crypto_scalarmult_base e in
  sealed pub (noise_h1 their e_i) (hkdf (noise_ck1 e_i) (dh e their) 2).
Definition init_h2 (e pub their : bytes) : bytes :=
  mixh (noise_h1 their (crypto_scalarmult_base e)) (init_static_field e pub their).
Definition init_ck2 (e their : bytes) : bytes :=
  hkdf (noise_ck1 (crypto_scalarmult_base e)) (dh e their) 1.
Definition init_time_field (e s pub their : bytes) (ts : timespec) : bytes :=
  sealed (timestamp_bytes ts) (init_h2 e pub their) (hkdf (init_ck2 e their) (dh s their) 2).

Definition init_mac (e s pub their : bytes) (ts : timespec) : bytes :=
  hash 16 (crypto_scalarmult_base e ++ init_static_field e pub their
           ++ init_time_field e s pub their ts) (hash 32 their []).

Definition init_msg (e s pub their : bytes) (idx : Z) (ts : timespec) : packet_handshake_init_t :=
  mk_handshake_init idx (crypto_scalarmult_base e) (init_static_field e pub their)
    (init_time_field e s pub their ts) (init_mac e s pub their ts) (replicate 16 0).

Definition init_state (e s pub their : bytes) (idx : Z) (ts : timespec) : handshake_init_state_t :=
  mk_init_state e (hkdf (init_ck2 e their) (dh s their) 1)
    (mixh (init_h2 e pub their) (init_time_field e s pub their ts)) idx (tv_sec ts).

Lemma timestamp_split ts :
  ∃ b, le64_write (replicate 12 0) 0 (u64 (tv_sec ts)) = Some b ∧
       le32_write b 8 (u32 (tv_nsec ts)) = Some (timestamp_bytes ts).
Proof.
  change (replicate 12 0) with ([] ++ replicate 8 0 ++ replicate 4 0).
  rewrite le64_write_mid by done. eexists; split; [done|]. cbn [app].
  rewrite <- (app_nil_r (replicate 4 0)). rewrite le32_write_mid by done.
  by rewrite app_nil_r.
Qed.

Lemma timestamp_bytes_length ts : length (timestamp_bytes ts) = 12%nat.
Proof. done. Qed.

Lemma hash16_length inp key : (length key <= 64)%nat → length (hash 16 inp key) = 16%nat.
Proof. intros. pose proof (hash_length 16 inp key). lia. Qed.

Lemma mac16_eq out key inp n : length out = 16%nat → length key = 32%nat →
  Z.of_nat (length inp) = n →
  outbuf (vpn_crypto_mac16 (Some out) (Some key) 32 (Some inp) n) = Some (0, hash 16 inp key).
Proof. intros. by rewrite crypto_mac16_eq by (done || lia). Qed.

Lemma init_static_field_length e pub their : length pub = 32%nat →
  length (init_static_field e pub their) = 48%nat.
Proof.
  intros H. unfold init_static_field. rewrite sealed_length by eauto with noise. by rewrite H.
Qed.

Lemma init_time_field_length e s pub their ts :
  length (init_time_field e s pub their ts) = 28%nat.
Proof.
  unfold init_time_field. rewrite sealed_length; [done|].
  apply hkdf_length, hkdf_length, noise_ck1_length.
Qed.

Lemma init_msg_ok e s pub their idx ts : length e = 32%nat → length pub = 32%nat → is_u32 idx →
  init_ok (init_msg e s pub their idx ts).
Proof.
  intros He Hp Hi. split; cbn; [done|by apply base_length|by apply init_static_field_length
    |apply init_time_field_length| |done].
  apply hash16_length. rewrite hash32_nokey_length. lia.
Qed.
End initiator.

#[export] Hint Resolve base_length init_static_field_length init_time_field_length : noise.

Section initiator_lemmas.
Context {S : Sodium} {SL : SodiumLaws S}.
Variables (e s pub their : bytes) (idx : Z) (ts : timespec).
Hypothesis (He : length e = 32%nat).
Hypothesis (Hs : length s = 32%nat).
Hypothesis (Hpub : length pub = 32%nat).
Hypothesis (Htheir : length their = 32%nat).
Hypothesis (Hidx : is_u32 idx).

Lemma init_ck2_length : length (init_ck2 e their) = 32%nat.
Proof. apply hkdf_length, noise_ck1_length. Qed.

Lemma create_initiation_eq out n st :
  148 <= n → n <= Z.of_nat (length out) →
  length (hs_ephemeral_private st) = 32%nat → length (hs_chaining_key st) = 32%nat →
  length (hs_hash st) = 32%nat →
  (crypto_scalarmult e their).1 = 0 → (crypto_scalarmult s their).1 = 0 →
  handshake_create_initiation (Some out) n (Some s) (Some pub) (Some their) idx (Some st) e ts =
    Some (148, Some (init_wire (init_msg e s pub their idx ts) ++ drop 148 out),
          Some (init_state e s pub their idx ts)).
Proof.
  intros Hn Hout H1 H2 H3 Hd1 Hd2. unfold handshake_create_initiation.
  pose proof init_ck2_length as Hck2.
  replace (n <? PACKET_HANDSHAKE_INIT_LEN) with false by (unfold PACKET_HANDSHAKE_INIT_LEN; lia).
  rewrite keypair_eq by done. bind_simpl.
  rewrite memcpy_all by (rewrite base_length; done).
  rewrite blit_all by (rewrite base_length; done). bind_simpl.
  rewrite init_chaining_eq by done. bind_simpl.
  rewrite (mix_hash_eq _ their) by side. bind_simpl.
  rewrite (mix_hash_eq _ (crypto_scalarmult_base e)) by side. bind_simpl.
  fold (noise_h1 their (crypto_scalarmult_base e)).
  rewrite (kdf1_eq _ _ _ _ (crypto_scalarmult_base e)) by side. bind_simpl.
  fold (noise_ck1 (crypto_scalarmult_base e)).
  rewrite (dh_eq their e), Hd1 by side. bind_simpl.
  rewrite (kdf2_eq _ _ _ _ _ (dh e their)) by side. bind_simpl. fold (init_ck2 e their).
  rewrite (encrypt_field_eq _ pub) by side. bind_simpl. fold (init_static_field e pub their).
  rewrite (mix_hash_eq _ (init_static_field e pub their))
    by (done || rewrite ?init_static_field_length by done; side). bind_simpl.
  fold (init_h2 e pub their).
  rewrite (dh_eq their s), Hd2 by side. bind_simpl.
  rewrite (kdf2_eq _ _ _ _ _ (dh s their)) by side. bind_simpl.
  destruct (timestamp_split ts) as (b & -> & Hb). bind_simpl. rewrite Hb. bind_simpl.
  rewrite (encrypt_field_eq _ (timestamp_bytes ts)) by (done || apply mixh_length || side).
  bind_simpl. fold (init_time_field e s pub their ts).
  rewrite (mix_hash_eq _ (init_time_field e s pub their ts))
    by (apply mixh_length || rewrite ?init_time_field_length; side). bind_simpl.
  rewrite (crypto_hash_arg _ their _ their) by side. bind_simpl.
  rewrite mac16_eq by (side || rewrite !length_app, init_static_field_length,
    init_time_field_length, base_length by done; done). bind_simpl.
  fold (init_mac e s pub their ts). fold (init_msg e s pub their idx ts).
  rewrite serialize_init_eq by (done || by apply init_msg_ok). done.
Qed.

End initiator_lemmas.

Section response.
Context {S : Sodium}.

(** The response to [their_e], [their_s] with ephemeral key [e] on top of the
    chaining key and hash of the initiation. *)
Definition resp_tag (ck h e_r dh_ee dh_es : bytes) : bytes :=
  ae_mac (seal [] (mixh h e_r) 0 (resp_kappa ck e_r dh_ee dh_es)).

Definition resp_msg (ck h e their_e their_s : bytes) (my_idx their_idx : Z)
    : packet_handshake_resp_t :=
  let e_r := crypto_scalarmult_base e in
  let nothing := resp_tag ck h e_r (dh e their_e) (dh e their_s) in
  mk_handshake_resp my_idx their_idx e_r nothing
    (hash 16 (e_r ++ nothing ++ replicate 4 0) (hash 32 their_s [])) (replicate 16 0).

(** What the initiator makes of a response: the code and the two keys. *)
Definition resp_verdict (st : handshake_init_state_t) (priv : bytes) (m : packet_handshake_resp_t)
    : Z :=
  let e_r := hr_unencrypted_ephemeral m in
  let d1 := dh (hs_ephemeral_private st) e_r in
  let d2 := dh priv e_r in
  if negb (hr_receiver_index m =? hs_local_index st) then - EBADMSG
  else if negb ((crypto_scalarmult (hs_ephemeral_private st) e_r).1 =? 0) then - EBADMSG
  else if negb ((crypto_scalarmult priv e_r).1 =? 0) then - EBADMSG
  else if negb ((unseal [] (hr_encrypted_nothing m) (mixh (hs_hash st) e_r) 0
                   (resp_kappa (hs_chaining_key st) e_r d1 d2)).1 =? 0) then - EBADMSG
  else 0.
End response.

Section response_lemmas.
Context {S : Sodium} {SL : SodiumLaws S}.

Lemma resp_ck_length ck e d1 d2 : length ck = 32%nat → length (resp_ck ck e d1 d2) = 32%nat.
Proof. intros. by do 3 apply hkdf_length. Qed.
Lemma resp_kappa_length ck e d1 d2 : length ck = 32%nat → length (resp_kappa ck e d1 d2) = 32%nat.
Proof. intros. by do 3 apply hkdf_length. Qed.
Lemma resp_tag_length ck h e d1 d2 : length ck = 32%nat → length (resp_tag ck h e d1 d2) = 16%nat.
Proof. intros. by apply seal_lengths, resp_kappa_length. Qed.

Lemma resp_msg_ok ck h e te ts mi ti : length ck = 32%nat → length e = 32%nat →
  is_u32 mi → is_u32 ti → resp_ok (resp_msg ck h e te ts mi ti).
Proof.
  intros Hc He Hmi Hti. split; cbn; [done|done|by apply base_length|by apply resp_tag_length| |done].
  apply hash16_length. rewrite hash32_nokey_length. lia.
Qed.

Lemma create_response_eq out n priv e their_e their_s mi ti ck h sk rk :
  92 <= n → n <= Z.of_nat (length out) → length e = 32%nat →
  length their_e = 32%nat → length their_s = 32%nat → length ck = 32%nat → length h = 32%nat →
  length sk = 32%nat → length rk = 32%nat → is_u32 mi → is_u32 ti →
  let e_r := crypto_scalarmult_base e in
  let c := resp_ck ck e_r (dh e their_e) (dh e their_s) in
  handshake_create_response (Some out) n (Some priv) (Some their_e) (Some their_s) mi ti
    (Some ck) (Some h) (Some sk) (Some rk) e =
  Some (if ((crypto_scalarmult e their_e).1 =? 0) && ((crypto_scalarmult e their_s).1 =? 0)
        then (92, Some (resp_wire (resp_msg ck h e their_e their_s mi ti) ++ drop 92 out),
              Some (hkdf c [] 1), Some (hkdf c [] 2))
        else (- EFAULT, Some out, Some sk, Some rk)).
Proof.
  intros Hn Hout He Hte Hts Hck Hh Hsk Hrk Hmi Hti e_r c. unfold handshake_create_response.
  assert (length e_r = 32%nat) as Her by (by apply base_length).
  replace (n <? PACKET_HANDSHAKE_RESP_LEN) with false by (unfold PACKET_HANDSHAKE_RESP_LEN; lia).
  rewrite keypair_eq by done. bind_simpl. fold e_r.
  rewrite (memcpy_all _ e_r) by side. rewrite (blit_all _ e_r) by side. bind_simpl.
  rewrite (memcpy_all _ ck) by side. rewrite (blit_all _ ck) by side. bind_simpl.
  rewrite (memcpy_all _ h) by side. rewrite (blit_all _ h) by side. bind_simpl.
  rewrite (mix_hash_eq _ e_r) by side. bind_simpl.
  rewrite (kdf1_eq _ _ _ _ e_r) by side. bind_simpl.
  rewrite (dh_eq their_e e) by done. bind_simpl. rewrite rc_nonzero.
  destruct ((crypto_scalarmult e their_e).1 =? 0); cbn [negb andb]; [|done].
  rewrite (kdf1_eq _ _ _ _ (dh e their_e)) by side. bind_simpl.
  rewrite (dh_eq their_s e) by done. bind_simpl. rewrite rc_nonzero.
  destruct ((crypto_scalarmult e their_s).1 =? 0); cbn [negb]; [|done].
  rewrite (kdf2_eq _ _ _ _ _ (dh e their_s)) by side. bind_simpl.
  fold (resp_ck ck e_r (dh e their_e) (dh e their_s)).
  fold (resp_kappa ck e_r (dh e their_e) (dh e their_s)). fold c.
  assert (length c = 32%nat) as Hc by (by apply resp_ck_length).
  rewrite (aead_encrypt_empty_eq _ _ _ _ _ (mixh h e_r));
    [|done|apply arg_all; by rewrite mixh_length|by apply resp_kappa_length].
  bind_simpl. fold (resp_tag ck h e_r (dh e their_e) (dh e their_s)).
  assert (length (resp_tag ck h e_r (dh e their_e) (dh e their_s)) = 16%nat) as Htag
    by (by apply resp_tag_length).
  rewrite (mix_hash_eq _ (resp_tag ck h e_r (dh e their_e) (dh e their_s)))
    by (apply mixh_length || rewrite ?Htag; done). bind_simpl.
  rewrite (kdf2_eq sk rk c _ _ []) by side. bind_simpl.
  rewrite (crypto_hash_arg _ their_s _ their_s) by side. bind_simpl.
  change (slice (hr_mac1 zero_resp_msg) 0 4) with (Some (replicate 4 0)). bind_simpl.
  rewrite mac16_eq by (side || rewrite !length_app, Her, Htag; done). bind_simpl.
  rewrite serialize_resp_eq by (done || by apply (resp_msg_ok ck h e their_e their_s mi ti)).
  done.
Qed.

Lemma consume_response_eq pkt n priv st their_s idx0 sk rk m :
  packet_parse_handshake_resp (Some pkt) n (Some zero_resp_msg) = Some (0, Some m) → resp_ok m →
  length priv = 32%nat → length (hs_ephemeral_private st) = 32%nat →
  length (hs_chaining_key st) = 32%nat → length (hs_hash st) = 32%nat →
  length sk = 32%nat → length rk = 32%nat →
  let e_r := hr_unencrypted_ephemeral m in
  let c := resp_ck (hs_chaining_key st) e_r (dh (hs_ephemeral_private st) e_r) (dh priv e_r) in
  handshake_consume_response (Some pkt) n (Some priv) (Some st) (Some their_s) (Some idx0)
    (Some sk) (Some rk) =
  Some (if resp_verdict st priv m =? 0
        then (0, Some (hr_sender_index m), Some (hkdf c [] 2), Some (hkdf c [] 1))
        else (- EBADMSG, Some idx0, Some sk, Some rk)).
Proof.
  intros Hp [_ _ He Hno _ _] Hpr He' Hck Hh Hsk Hrk e_r c. fold e_r in He.
  unfold handshake_consume_response, resp_verdict. rewrite Hp. bind_simpl.
  destruct (hr_receiver_index m =? hs_local_index st); cbn [negb]; [|done].
  rewrite (memcpy_all _ (hs_chaining_key st)) by side.
  rewrite (blit_all _ (hs_chaining_key st)) by side. bind_simpl.
  rewrite (memcpy_all _ (hs_hash st)) by side. rewrite (blit_all _ (hs_hash st)) by side.
  bind_simpl. fold e_r. rewrite (mix_hash_eq _ e_r) by side. bind_simpl.
  rewrite (kdf1_eq _ _ _ _ e_r) by side. bind_simpl.
  rewrite (dh_eq e_r (hs_ephemeral_private st)) by done. bind_simpl. rewrite rc_nonzero.
  destruct ((crypto_scalarmult (hs_ephemeral_private st) e_r).1 =? 0); cbn [negb]; [|done].
  rewrite (kdf1_eq _ _ _ _ (dh (hs_ephemeral_private st) e_r)) by side. bind_simpl.
  rewrite (dh_eq e_r priv) by done. bind_simpl. rewrite rc_nonzero.
  destruct ((crypto_scalarmult priv e_r).1 =? 0); cbn [negb]; [|done].
  rewrite (kdf2_eq _ _ _ _ _ (dh priv e_r)) by side. bind_simpl.
  fold (resp_ck (hs_chaining_key st) e_r (dh (hs_ephemeral_private st) e_r) (dh priv e_r)).
  fold (resp_kappa (hs_chaining_key st) e_r (dh (hs_ephemeral_private st) e_r) (dh priv e_r)).
  fold c. assert (length c = 32%nat) as Hc by (by apply resp_ck_length).
  rewrite (aead_decrypt_empty_eq _ _ _ _ _ _ (mixh (hs_hash st) e_r));
    [|done|apply arg_all; by rewrite mixh_length|by apply resp_kappa_length].
  bind_simpl. rewrite rc_nonzero.
  destruct ((unseal _ _ _ _ _).1 =? 0); cbn [negb]; [|done].
  rewrite (mix_hash_eq _ (hr_encrypted_nothing m))
    by (apply mixh_length || rewrite ?Hno; done). bind_simpl.
  rewrite (kdf2_eq _ _ c _ _ []) by side. bind_simpl.
  rewrite (memcpy_all sk), (memcpy_all rk) by side.
  rewrite (blit_all sk), (blit_all rk) by side. done.
Qed.
End response_lemmas.

(** ** An honest run *)

(** Keys are distinct, so the search finds the owner of a key. *)
Lemma list_find_key t i p k : table_ok t → live t !! i = Some p → public_key p = k →
  list_find (λ p, public_key p = k) (live t) = Some (i, p).
Proof.
  intros Ht Hi Hk. apply list_find_Some. split_and!; [done..|]. intros j q Hj Hlt Hq.
  assert (j = i); [|lia]. eapply (NoDup_lookup (keys t)); [apply Ht|..];
    unfold keys; rewrite list_lookup_fmap; [by rewrite Hj|]. rewrite Hi. cbn. congruence.
Qed.

Lemma s64_u64 x : 0 <= x < 2 ^ 63 → s64 (u64 x) = x.
Proof.
  intros H. unfold s64. rewrite (u64_small (u64 x)) by apply u64_uint.
  rewrite u64_small by (unfold is_uint; lia). by test_true (x <? 2 ^ 63).
Qed.

Section honest.
Context {S : Sodium} {SL : SodiumLaws S}.
Variables (e_i s_i s_r : bytes) (idx : Z) (ts : timespec).
Hypothesis (Hei : length e_i = 32%nat).
Hypothesis (Hsi : length s_i = 32%nat).
Hypothesis (Hsr : length s_r = 32%nat).

Abbreviation base := crypto_scalarmult_base.
Abbreviation msg := (init_msg e_i s_i (base s_i) (base s_r) idx ts).
Abbreviation st := (init_state e_i s_i (base s_i) (base s_r) idx ts).

Lemma dh_comm a b : length a = 32%nat → length b = 32%nat → dh a (base b) = dh b (base a).
Proof. intros. unfold dh. by rewrite dh_agree. Qed.

Lemma honest_static : ri_static s_r (base s_r) msg = (0, base s_i).
Proof.
  unfold ri_static. cbn [init_msg hi_encrypted_static hi_unencrypted_ephemeral].
  unfold init_static_field. rewrite (dh_comm s_r e_i) by done.
  rewrite <- (base_length s_i Hsi). apply opened_sealed. eauto with noise.
Qed.

Lemma honest_h2 : ri_h2 (base s_r) msg = init_h2 e_i (base s_i) (base s_r).
Proof. done. Qed.

Lemma honest_ck2 : ri_ck2 s_r msg = init_ck2 e_i (base s_r).
Proof. unfold ri_ck2, init_ck2. cbn. by rewrite (dh_comm s_r e_i). Qed.

Lemma honest_ck3 : ri_ck3 s_r (base s_r) msg = hs_chaining_key st.
Proof.
  unfold ri_ck3. rewrite honest_static, honest_ck2. cbn. by rewrite (dh_comm s_r s_i).
Qed.

Lemma honest_time : ri_time s_r (base s_r) msg = (0, timestamp_bytes ts).
Proof.
  unfold ri_time. rewrite honest_static, honest_ck2, honest_h2. cbn [snd].
  rewrite (dh_comm s_r s_i) by done. cbn [init_msg hi_encrypted_timestamp].
  unfold init_time_field. apply (opened_sealed (timestamp_bytes ts)).
  apply hkdf_length, hkdf_length, noise_ck1_length.
Qed.

Lemma honest_h3 : ri_h3 (base s_r) msg = hs_hash st.
Proof. done. Qed.

Lemma honest_sec : 0 <= tv_sec ts < 2 ^ 63 → ri_sec s_r (base s_r) msg = tv_sec ts.
Proof.
  intros Hs. unfold ri_sec. rewrite honest_time. cbn [snd].
  rewrite (le64_read_bytes _ _ (u64 (tv_sec ts))); [|apply u64_uint|done].
  by apply s64_u64.
Qed.

(** A newer initiation of a registered peer is accepted and attributed to it. *)
Lemma honest_verdict t i p : table_ok t → live t !! i = Some p → public_key p = base s_i →
  0 <= tv_sec ts < 2 ^ 63 → last_handshake_time p = 0 ∨ last_handshake_time p < tv_sec ts →
  init_verdict s_r (base s_r) msg t = (0, Some i).
Proof.
  intros Ht Hi Hk Hs Hnew. unfold init_verdict. rewrite honest_static, honest_time. cbn [fst snd].
  cbn [init_msg hi_unencrypted_ephemeral]. rewrite !dh_ok by done. cbn [negb Z.eqb].
  rewrite (list_find_key t i p) by done. rewrite honest_sec by done.
  by replace (negb (last_handshake_time p =? 0) && (tv_sec ts <=? last_handshake_time p))
    with false by lia.
Qed.

(** The response to it is accepted, and the keys are the same, crossed. *)
Lemma honest_response e_r my_idx : length e_r = 32%nat →
  let m := resp_msg (hs_chaining_key st) (hs_hash st) e_r (base e_i) (base s_i) my_idx idx in
  resp_verdict st s_i m = 0 ∧
  resp_ck (hs_chaining_key st) (base e_r) (dh e_i (base e_r)) (dh s_i (base e_r)) =
  resp_ck (hs_chaining_key st) (base e_r) (dh e_r (base e_i)) (dh e_r (base s_i)).
Proof.
  intros Her m. rewrite (dh_comm e_i e_r), (dh_comm s_i e_r) by done. split; [|done].
  unfold resp_verdict, m. cbn [resp_msg hr_receiver_index hr_unencrypted_ephemeral
    hr_encrypted_nothing hs_ephemeral_private hs_local_index init_state].
  rewrite Z.eqb_refl, !dh_ok, (dh_comm e_i e_r), (dh_comm s_i e_r) by done. cbn [negb Z.eqb].
  unfold resp_tag. set (k := resp_kappa _ _ _ _).
  assert (length k = 32%nat) as Hk by (apply resp_kappa_length; do 3 apply hkdf_length; side).
  assert (ae_c (seal [] (mixh (hs_hash st) (base e_r)) 0 k) = []) as Hc.
  { apply nil_length_inv. by apply seal_lengths. }
  pose proof (unseal_seal [] (mixh (hs_hash st) (base e_r)) 0 k Hk) as Hu. rewrite Hc in Hu.
  cbn [init_state hs_hash] in Hu |- *. by rewrite Hu.
Qed.
Hypothesis (Hidx : is_u32 idx).

Lemma honest_msg_ok : init_ok msg.
Proof. apply init_msg_ok; eauto with noise. Qed.

Lemma honest_static_bytes : bytes_ok (hi_encrypted_static msg).
Proof.
  cbn [init_msg hi_encrypted_static]. unfold init_static_field, sealed.
  destruct (aead_encrypt_bytes (base s_i) (noise_h1 (base s_r) (base e_i)) (nonce_of 0)
    (hkdf (noise_ck1 (base e_i)) (dh e_i (base s_r)) 2)) as [H1 H2]; [by apply scalarmult_base_ok|].
  by apply Forall_app.
Qed.

Lemma honest_ck_length : length (hs_chaining_key st) = 32%nat.
Proof. do 3 apply hkdf_length. side. Qed.

Lemma honest_hash_length : length (hs_hash st) = 32%nat.
Proof. apply mixh_length. Qed.

Lemma honest_create buf st0 : length buf = 148%nat →
  length (hs_ephemeral_private st0) = 32%nat → length (hs_chaining_key st0) = 32%nat →
  length (hs_hash st0) = 32%nat →
  handshake_create_initiation (Some buf) 148 (Some s_i) (Some (base s_i)) (Some (base s_r)) idx
    (Some st0) e_i ts = Some (148, Some (init_wire msg), Some st).
Proof.
  intros Hb H1 H2 H3. rewrite create_initiation_eq by (eauto using dh_ok with noise; lia).
  by rewrite (drop_ge buf), app_nil_r by lia.
Qed.

Lemma honest_consume t i p o ck0 h0 : table_ok t → live t !! i = Some p →
  public_key p = base s_i → 0 <= tv_sec ts < 2 ^ 63 →
  last_handshake_time p = 0 ∨ last_handshake_time p < tv_sec ts →
  length ck0 = 32%nat → length h0 = 32%nat →
  handshake_consume_initiation (Some (init_wire msg)) 148 (Some s_r) (Some (base s_r)) (Some t)
    (Some NULL) (Some o) (Some ck0) (Some h0) =
  Some (0, Some (Some (Z.of_nat i)), Some msg, Some (hs_chaining_key st), Some (hs_hash st)).
Proof.
  intros Ht Hi Hk Hsec Hnew Hck Hh.
  assert (packet_parse_handshake_init (Some (init_wire msg)) 148 (Some o) = Some (0, Some msg)) as Hp
    by (rewrite <- (app_nil_r (init_wire msg)); apply parse_init_wire, honest_msg_ok).
  destruct (consume_initiation_eq s_r (base s_r) msg t Hsr (base_length _ Hsr) honest_msg_ok
    honest_static_bytes Ht (init_wire msg) 148 o ck0 h0 NULL Hp Hck Hh) as (ck & h & Hc & Hkeys).
  rewrite (honest_verdict t i p) in Hc, Hkeys by done. destruct (Hkeys eq_refl) as [-> ->].
  by rewrite honest_ck3, honest_h3 in Hc.
Qed.

Section response.
Variables (e_r : bytes) (idx_r : Z).
Hypothesis (Her : length e_r = 32%nat).
Hypothesis (Hir : is_u32 idx_r).

Abbreviation rmsg := (resp_msg (hs_chaining_key st) (hs_hash st) e_r (base e_i) (base s_i) idx_r idx).

Definition honest_ck : bytes :=
  resp_ck (hs_chaining_key st) (base e_r) (dh e_r (base e_i)) (dh e_r (base s_i)).

Lemma honest_respond buf k1 k2 : length buf = 92%nat → length k1 = 32%nat → length k2 = 32%nat →
  handshake_create_response (Some buf) 92 (Some s_r) (Some (base e_i)) (Some (base s_i)) idx_r idx
    (Some (hs_chaining_key st)) (Some (hs_hash st)) (Some k1) (Some k2) e_r =
  Some (92, Some (resp_wire rmsg), Some (hkdf honest_ck [] 1), Some (hkdf honest_ck [] 2)).
Proof.
  intros Hb H1 H2. rewrite create_response_eq
    by (eauto using honest_ck_length, honest_hash_length with noise; lia).
  by rewrite !dh_ok, (drop_ge buf), app_nil_r by (done || lia).
Qed.

Lemma honest_complete j0 k3 k4 : length k3 = 32%nat → length k4 = 32%nat →
  handshake_consume_response (Some (resp_wire rmsg)) 92 (Some s_i) (Some st) (Some (base s_r))
    (Some j0) (Some k3) (Some k4) =
  Some (0, Some idx_r, Some (hkdf honest_ck [] 2), Some (hkdf honest_ck [] 1)).
Proof.
  intros H3 H4. destruct (honest_response e_r idx_r Her) as [Hrv Hrck].
  rewrite (consume_response_eq _ _ _ _ _ _ _ _ rmsg);
    [|rewrite <- (app_nil_r (resp_wire rmsg)); apply parse_resp_wire
     |..]; try (by apply resp_msg_ok; [apply honest_ck_length|..]);
    try done; try apply honest_ck_length; try apply honest_hash_length.
  rewrite Hrv. unfold honest_ck. by rewrite <- Hrck.
Qed.
End response.
End honest.

(** ** Arbitrary packets *)

Lemma parse_init_bytes b n o m : bytes_ok b →
  packet_parse_handshake_init (Some b) n (Some o) = Some (0, Some m) →
  n = 148 ∧ bytes_ok (hi_unencrypted_ephemeral m) ∧ bytes_ok (hi_encrypted_static m) ∧
  bytes_ok (hi_encrypted_timestamp m).
Proof.
  intros Hb. unfold packet_parse_handshake_init. destruct (negb _) eqn:E; [done|].
  intros H. c_cases. destruct (negb _) eqn:E2 in H; [done|]. c_cases. simplify_eq.
  bool_to_prop. split; [done|]. cbn. split_and!; by eapply slice_Forall.
Qed.

Lemma init_verdict_cases {S : Sodium} priv pub m t :
  (∃ i, init_verdict priv pub m t = (0, Some i)) ∨
  (∃ rc, rc < 0 ∧ init_verdict priv pub m t = (rc, None)).
Proof.
  unfold init_verdict. repeat case_match; first [left; by eexists | right; eexists; split; [|done]; unfold EBADMSG, EACCES; lia].
Qed.

(** What makes an initiation acceptable to a responder. *)
Record acceptable {S : Sodium} (priv pub : bytes) (t : vpn_peer_table_t)
    (m : packet_handshake_init_t) (i : nat) (p : vpn_peer_t) : Prop := {
  acc_peer : live t !! i = Some p;
  acc_dh1 : (crypto_scalarmult priv (hi_unencrypted_ephemeral m)).1 = 0;
  acc_static : ri_static priv pub m = (0, public_key p);
  acc_dh2 : (crypto_scalarmult priv (public_key p)).1 = 0;
  acc_time : (ri_time priv pub m).1 = 0;
  acc_fresh : last_handshake_time p = 0 ∨ last_handshake_time p < ri_sec priv pub m
}.

Lemma verdict_acceptable {S : Sodium} priv pub t m i : table_ok t →
  init_verdict priv pub m t = (0, Some i) ↔ ∃ p, acceptable priv pub t m i p.
Proof.
  intros Ht. split.
  - unfold init_verdict. destruct (negb ((crypto_scalarmult priv _).1 =? 0)) eqn:E0; [done|].
    destruct (negb ((ri_static priv pub m).1 =? 0)) eqn:E1; [done|].
    destruct (list_find _ _) as [[j p]|] eqn:E2; [|done].
    apply list_find_Some in E2 as (Hj & Hk & _).
    destruct (negb ((crypto_scalarmult priv (ri_static priv pub m).2).1 =? 0)) eqn:E5; [done|].
    destruct (negb ((ri_time priv pub m).1 =? 0)) eqn:E3; [done|]. destruct (_ && _) eqn:E4; [done|].
    intros [= ->]. exists p. bool_to_prop. rewrite <- Hk in E5. split; [done|done| |done|done|lia].
    rewrite Hk. destruct (ri_static priv pub m). by cbn in *; subst.
  - intros [p [Hi H1 H2 H3 H4 H5]]. unfold init_verdict. rewrite H1, H2. cbn [fst snd negb Z.eqb].
    rewrite (list_find_key t i p) by done. rewrite H3, H4. cbn [negb Z.eqb].
    by replace (negb (last_handshake_time p =? 0) && (ri_sec priv pub m <=? last_handshake_time p))
      with false by lia.
Qed.

Section any_packet.
Context {S : Sodium} {SL : SodiumLaws S}.
Variables (priv pub : bytes) (t : vpn_peer_table_t) (b : bytes) (n : Z).
Hypothesis (Hpriv : length priv = 32%nat).
Hypothesis (Hpub : length pub = 32%nat).
Hypothesis (Ht : table_ok t).
Hypothesis (Hb : bytes_ok b).
Hypothesis (Hn : 0 <= n <= Z.of_nat (length b)).

(** Whatever arrives, [handshake_consume_initiation] returns: either an error, and
    no peer, or success, and then the packet parsed and passed every check. *)
Lemma consume_initiation_any o ck0 h0 :
  length ck0 = 32%nat → length h0 = 32%nat →
  ∃ rc r parsed ck h,
    handshake_consume_initiation (Some b) n (Some priv) (Some pub) (Some t) (Some NULL)
      (Some o) (Some ck0) (Some h0) = Some (rc, Some r, Some parsed, Some ck, Some h) ∧
    ((rc < 0 ∧ r = NULL ∧
      ∀ m, packet_parse_handshake_init (Some b) n (Some o) = Some (0, Some m) →
           ∀ i, init_verdict priv pub m t ≠ (0, Some i)) ∨
     (rc = 0 ∧ packet_parse_handshake_init (Some b) n (Some o) = Some (0, Some parsed) ∧
      init_ok parsed ∧ bytes_ok (hi_unencrypted_ephemeral parsed) ∧
      ∃ i, r = Some (Z.of_nat i) ∧ init_verdict priv pub parsed t = (0, Some i) ∧
           ck = ri_ck3 priv pub parsed ∧ h = ri_h3 pub parsed)).
Proof.
  intros Hck Hh.
  destruct (parse_init_safe b n o) as (rc & o' & Hp & Hin & Herr & Hok); [lia|].
  destruct (decide (rc = 0)) as [->|Hne].
  - destruct (Hok eq_refl) as [m ->].
    destruct (parse_init_bytes b n o m Hb Hp) as (-> & Hbe & Hbs & _).
    destruct (parse_init_inv b o m Hb Hp) as [Hm _]; [lia|].
    destruct (consume_initiation_eq priv pub m t Hpriv Hpub Hm Hbs Ht b 148 o ck0 h0 NULL Hp Hck Hh)
      as (ck & h & Heq & Hkeys).
    destruct (init_verdict_cases priv pub m t) as [[i Hv]|(rc & Hlt & Hv)];
      rewrite Hv in Heq, Hkeys; cbn [fst snd] in *.
    + destruct (Hkeys eq_refl) as [-> ->].
      exists 0, (Some (Z.of_nat i)), m, (ri_ck3 priv pub m), (ri_h3 pub m).
      split; [exact Heq|]. right. split_and!; [done..|]. exists i. by split_and!.
    + exists rc, NULL, m, ck, h. split; [exact Heq|]. left. split_and!; [done..|].
      intros m'. rewrite Hp. intros [= <-] i. rewrite Hv. congruence.
  - exists rc, NULL, o, ck0, h0. rewrite (Herr Hne) in Hp. split.
    + unfold handshake_consume_initiation. rewrite Hp. bind_simpl. by test_false (rc =? 0).
    + left. split_and!; [|done|intros m; rewrite Hp; congruence]. rewrite !elem_of_cons in Hin. unfold EBADMSG in Hin.
      destruct Hin as [->|[->|Hin]]; [done|lia|by apply not_elem_of_nil in Hin].
Qed.
End any_packet.

(** ** Properties *)

(** C6: handshake agreement.  When an initiator with key [s_i] runs the handshake
    with a responder with key [s_r] that has the initiator's public key registered
    at position [i], and the initiator's clock is past the peer's last handshake,
    then all four functions succeed: the responder attributes the packet to peer
    [i] and learns the initiator's index, the initiator learns the responder's,
    and both end up with the same two 32-byte keys, each one's sending key being
    the other's receiving key. *)
Theorem handshake_agreement {S : Sodium} {SL : SodiumLaws S}
    s_i s_r e_i e_r idx_i idx_r ts t i p buf1 buf2 st0 o ck0 h0 k1 k2 k3 k4 j0 :
  length s_i = 32%nat → length s_r = 32%nat → length e_i = 32%nat → length e_r = 32%nat →
  is_u32 idx_i → is_u32 idx_r → 0 <= tv_sec ts < 2 ^ 63 →
  table_ok t → live t !! i = Some p → public_key p = crypto_scalarmult_base s_i →
  last_handshake_time p = 0 ∨ last_handshake_time p < tv_sec ts →
  length buf1 = 148%nat → length buf2 = 92%nat →
  Forall (λ b, length b = 32%nat) [hs_ephemeral_private st0; hs_chaining_key st0; hs_hash st0;
                                   ck0; h0; k1; k2; k3; k4] →
  ∃ pkt1 st parsed ck h pkt2 send recv,
    handshake_create_initiation (Some buf1) 148 (Some s_i) (Some (crypto_scalarmult_base s_i))
      (Some (crypto_scalarmult_base s_r)) idx_i (Some st0) e_i ts = Some (148, Some pkt1, Some st) ∧
    handshake_consume_initiation (Some pkt1) 148 (Some s_r) (Some (crypto_scalarmult_base s_r))
      (Some t) (Some NULL) (Some o) (Some ck0) (Some h0)
      = Some (0, Some (Some (Z.of_nat i)), Some parsed, Some ck, Some h) ∧
    hi_sender_index parsed = idx_i ∧
    handshake_create_response (Some buf2) 92 (Some s_r) (Some (hi_unencrypted_ephemeral parsed))
      (Some (public_key p)) idx_r (hi_sender_index parsed) (Some ck) (Some h) (Some k1) (Some k2) e_r
      = Some (92, Some pkt2, Some send, Some recv) ∧
    handshake_consume_response (Some pkt2) 92 (Some s_i) (Some st)
      (Some (crypto_scalarmult_base s_r)) (Some j0) (Some k3) (Some k4)
      = Some (0, Some idx_r, Some recv, Some send) ∧
    length send = 32%nat ∧ length recv = 32%nat.
Proof.
  intros Hsi Hsr Hei Her Hii Hir Hsec Ht Hi Hk Hnew Hb1 Hb2 Hbufs.
  repeat rewrite Forall_cons in Hbufs.
  destruct Hbufs as (Hs1 & Hs2 & Hs3 & Hck0 & Hh0 & H1 & H2 & H3 & H4 & _).
  do 8 eexists. split_and!.
  - by apply honest_create.
  - by eapply honest_consume.
  - done.
  - rewrite Hk. by apply honest_respond.
  - by apply honest_complete.
  - by apply hkdf_length, resp_ck_length, honest_ck_length.
  - by apply hkdf_length, resp_ck_length, honest_ck_length.
Qed.

Definition demo_init_state : handshake_init_state_t :=
  mk_init_state (replicate 32 0) (replicate 32 0) (replicate 32 0) 0 0.

Lemma handshake_agreement_witness :
  let s_i := replicate 32 7 in let s_r := replicate 32 3 in
  let z := replicate 32 0 in
  ∃ pkt1 st parsed ck h pkt2 send recv,
    handshake_create_initiation (S := Toy.toy) (Some (replicate 148 0)) 148 (Some s_i) (Some s_i)
      (Some s_r) 77 (Some demo_init_state) (replicate 32 11) (mk_timespec 1700000000 5)
      = Some (148, Some pkt1, Some st) ∧
    handshake_consume_initiation (Some pkt1) 148 (Some s_r) (Some s_r)
      (Some demo_table) (Some NULL) (Some zero_init_msg) (Some z) (Some z)
      = Some (0, Some (Some 0), Some parsed, Some ck, Some h) ∧
    hi_sender_index parsed = 77 ∧
    handshake_create_response (Some (replicate 92 0)) 92 (Some s_r)
      (Some (hi_unencrypted_ephemeral parsed)) (Some s_i) 1 (hi_sender_index parsed)
      (Some ck) (Some h) (Some z) (Some z) (replicate 32 13)
      = Some (92, Some pkt2, Some send, Some recv) ∧
    handshake_consume_response (Some pkt2) 92 (Some s_i) (Some st) (Some s_r) (Some 0) (Some z) (Some z)
      = Some (0, Some 1, Some recv, Some send) ∧
    length send = 32%nat ∧ length recv = 32%nat.
Proof.
  refine (handshake_agreement (S := Toy.toy) (replicate 32 7) (replicate 32 3) (replicate 32 11)
    (replicate 32 13) 77 1 (mk_timespec 1700000000 5) demo_table 0
    (demo_peer 7 (mk_cidr 0x0A000000 0xFFFFFF00 24)) (replicate 148 0) (replicate 92 0)
    demo_init_state zero_init_msg (replicate 32 0) (replicate 32 0) (replicate 32 0) (replicate 32 0)
    (replicate 32 0) (replicate 32 0) 0 _ _ _ _ _ _ _ _ _ _ _ _ _ _); try done.
  - apply demo_table_ok.
  - by left.
  - by_computation.
Defined.

(** C25: a received initiation is accepted exactly when it is 148 bytes of type 1,
    the Diffie-Hellman results are valid, both encrypted fields authenticate under
    the keys of this responder, the decrypted static key is that of a registered
    peer, and the decrypted time is after that peer's last handshake; the peer
    reported is the owner of that key.  The return code is 0 only together with a
    peer: every other packet is refused with a negative code and no peer, and no packet causes undefined behaviour. *)
Theorem initiation_accepted_iff {S : Sodium} {SL : SodiumLaws S} priv pub t b n o ck0 h0 :
  length priv = 32%nat → length pub = 32%nat → table_ok t → bytes_ok b →
  0 <= n <= Z.of_nat (length b) → length ck0 = 32%nat → length h0 = 32%nat →
  ∃ rc r parsed ck h,
    handshake_consume_initiation (Some b) n (Some priv) (Some pub) (Some t) (Some NULL)
      (Some o) (Some ck0) (Some h0) = Some (rc, Some r, Some parsed, Some ck, Some h) ∧
    (rc < 0 ∧ r = NULL ∨ rc = 0 ∧ ∃ i : nat, r = Some (Z.of_nat i)) ∧
    ∀ i, (rc = 0 ∧ r = Some (Z.of_nat i)) ↔
      ∃ m p, packet_parse_handshake_init (Some b) n (Some o) = Some (0, Some m) ∧
             acceptable priv pub t m i p.
Proof.
  intros Hpriv Hpub Ht Hb Hn Hck Hh.
  destruct (consume_initiation_any priv pub t b n Hpriv Hpub Ht Hb Hn o ck0 h0 Hck Hh)
    as (rc & r & parsed & ck & h & Heq & Hcase).
  exists rc, r, parsed, ck, h. split; [done|].
  destruct Hcase as [(Hrc & -> & Hno)|(-> & Hp & _ & _ & i & -> & Hv & _)].
  - split; [by left|]. intros i. split; [lia|]. intros (m & p & Hp & Ha).
    destruct (Hno m Hp i). apply verdict_acceptable; [done|by exists p].
  - split; [right; by eauto|]. intros j. split.
    + intros [_ [= ->%Nat2Z.inj]]. apply verdict_acceptable in Hv as [p Ha]; [|done]. by exists parsed, p.
    + intros (m & p & Hp' & Ha). rewrite Hp in Hp'. injection Hp' as <-.
      assert (init_verdict priv pub parsed t = (0, Some j)) as Hv'
        by (apply verdict_acceptable; [done|by exists p]). rewrite Hv in Hv'. by injection Hv' as ->.
Qed.

Lemma initiation_accepted_iff_witness :
  let k := replicate 32 3 in let z := replicate 32 0 in
  ∃ rc r parsed ck h,
    handshake_consume_initiation (S := Toy.toy) (Some (1 :: replicate 147 0)) 148 (Some k) (Some k)
      (Some demo_table) (Some NULL) (Some zero_init_msg) (Some z) (Some z)
      = Some (rc, Some r, Some parsed, Some ck, Some h) ∧
    (rc < 0 ∧ r = NULL ∨ rc = 0 ∧ ∃ i : nat, r = Some (Z.of_nat i)) ∧
    ∀ i, (rc = 0 ∧ r = Some (Z.of_nat i)) ↔
      ∃ m p, packet_parse_handshake_init (Some (1 :: replicate 147 0)) 148 (Some zero_init_msg)
               = Some (0, Some m) ∧ acceptable k k demo_table m i p.
Proof.
  apply (initiation_accepted_iff (S := Toy.toy) (replicate 32 3) (replicate 32 3) demo_table
    (1 :: replicate 147 0) 148); try done; [apply demo_table_ok|by_computation].
Defined.

(** C37: the MAC1 and MAC2 fields of an initiation have no influence: replacing
    them by anything gives the same return code, peer, chaining key and hash,
    whether the packet is accepted or at which check it is refused, so a packet with a wrong MAC1 is processed, and accepted, like one with the right
    one. *)
Theorem initiation_macs_ignored {S : Sodium} {SL : SodiumLaws S} priv pub t m mac1 mac2 o ck0 h0 :
  length priv = 32%nat → length pub = 32%nat → table_ok t →
  init_ok m → bytes_ok (hi_encrypted_static m) → length mac1 = 16%nat → length mac2 = 16%nat →
  length ck0 = 32%nat → length h0 = 32%nat →
  let m' := mk_handshake_init (hi_sender_index m) (hi_unencrypted_ephemeral m)
              (hi_encrypted_static m) (hi_encrypted_timestamp m) mac1 mac2 in
  ∃ rc r ck h,
    handshake_consume_initiation (Some (init_wire m)) 148 (Some priv) (Some pub) (Some t)
      (Some NULL) (Some o) (Some ck0) (Some h0) = Some (rc, r, Some m, Some ck, Some h) ∧
    handshake_consume_initiation (Some (init_wire m')) 148 (Some priv) (Some pub) (Some t)
      (Some NULL) (Some o) (Some ck0) (Some h0) = Some (rc, r, Some m', Some ck, Some h).
Proof.
  intros Hpriv Hpub Ht Hm Hmb H1 H2 Hck Hh m'.
  assert (init_ok m') as Hm' by (destruct Hm; by split).
  do 4 eexists. split.
  - apply (consume_initiation_left priv pub m t); try done.
    rewrite <- (app_nil_r (init_wire m)). by apply parse_init_wire.
  - apply (consume_initiation_left priv pub m' t); try done.
    rewrite <- (app_nil_r (init_wire m')). by apply parse_init_wire.
Qed.

Definition demo_init_msg : packet_handshake_init_t :=
  init_msg (S := Toy.toy) (replicate 32 11) (replicate 32 7) (replicate 32 7) (replicate 32 3) 77
    (mk_timespec 1700000000 5).

Lemma initiation_macs_ignored_witness :
  let k := replicate 32 3 in let z := replicate 32 0 in
  let m' := mk_handshake_init (hi_sender_index demo_init_msg)
              (hi_unencrypted_ephemeral demo_init_msg) (hi_encrypted_static demo_init_msg)
              (hi_encrypted_timestamp demo_init_msg) (replicate 16 0) (replicate 16 0) in
  ∃ rc r ck h,
    handshake_consume_initiation (S := Toy.toy) (Some (init_wire demo_init_msg)) 148 (Some k) (Some k)
      (Some demo_table) (Some NULL) (Some zero_init_msg) (Some z) (Some z)
      = Some (rc, r, Some demo_init_msg, Some ck, Some h) ∧
    handshake_consume_initiation (Some (init_wire m')) 148 (Some k) (Some k)
      (Some demo_table) (Some NULL) (Some zero_init_msg) (Some z) (Some z)
      = Some (rc, r, Some m', Some ck, Some h).
Proof.
  apply (initiation_macs_ignored (S := Toy.toy) (replicate 32 3) (replicate 32 3) demo_table
    demo_init_msg (replicate 16 0) (replicate 16 0)); try done.
  - apply demo_table_ok.
  - by_computation.
Defined.
