(* ===== verification/Machine.v ===== *)
(** * The daemon as a state machine on its peer table

    What one datagram or one TUN packet may do to the peer table, as a labelled
    step relation that knows nothing of buffers, parsing or system calls.  The
    label says which counter of which session was accepted, established or used.
    The invariant of runs ties the index, the replay window and the sending counter of
    every session to the events so far; [Service] draws the loop's properties from it. *)

From S2P Require Import Prelude Config Packet Sodium Crypto Kdf Transport Tun Replay Routing Peer.
From S2P Require Import Handshake.
Local Open Scope c_scope.

(** ** Events and steps *)

Inductive event :=
  (** a data packet was authenticated, and written to the TUN device or not *)
  | Ev_accept (idx counter : Z) (m : bytes) (delivered : bool)
  (** peer [i] has a new session under index [idx]; [resp] was sent *)
  | Ev_handshake (i : nat) (idx : Z) (resp : bytes)
  (** an index was used up by a handshake that could not be answered *)
  | Ev_wasted (idx : Z)
  (** [m] was sealed under a counter of session [idx], and sent if it fits *)
  | Ev_send (idx counter : Z) (m : bytes) (pkt : option bytes).

(** The IPv4 address at offset [off] of a packet. *)
Definition ip_of (m : bytes) (off : nat) : Z :=
  quad (default 0 (m !! off)) (default 0 (m !! (off + 1)%nat)) (default 0 (m !! (off + 2)%nat))
       (default 0 (m !! (off + 3)%nat)).

(** Whether an authenticated packet of a peer goes to the TUN device. *)
Definition deliverable (dev : tun_device_t) (p : vpn_peer_t) (m : bytes) : Prop :=
  20 <= Z.of_nat (length m) <= mtu dev ∧ 0 <= fd dev ∧ allows p (ip_of m 12).

#[global] Instance deliverable_dec dev p m : Decision (deliverable dev p m).
Proof. unfold deliverable. apply _. Defined.

(** Roaming: the endpoint is replaced unless it is the same. *)
Definition moved (p : vpn_peer_t) (ep : vpn_endpoint_t) : vpn_peer_t :=
  if bool_decide (is_Some (identity (endpoint p)) ∧ identity (endpoint p) = identity ep)
  then p else set_endpoint p ep.

(** The peer after a session was established. *)
Definition rekeyed (p : vpn_peer_t) (s : vpn_session_t) (now : Z) : vpn_peer_t :=
  set_last_handshake_time
    (set_sessions p s
       (if bool_decide (state (current_session p) = SESSION_STATE_ESTABLISHED)
        then current_session p else previous_session p)) now.

(** The table with peer [i] replaced. *)
Definition put (t : vpn_peer_table_t) (i : nat) (p : vpn_peer_t) (next : Z) : vpn_peer_table_t :=
  mk_table (<[i := p]> (peers t)) (peer_count t) next.

Section machine.
Context {S : Sodium}.
Variables (priv pub : bytes) (dev : tun_device_t).

(** Transport keys a handshake message and an ephemeral key lead to. *)
Definition session_ck (m : packet_handshake_init_t) (p : vpn_peer_t) (e_r : bytes) : bytes :=
  resp_ck (ri_ck3 priv pub m) (crypto_scalarmult_base e_r)
    (dh e_r (hi_unencrypted_ephemeral m)) (dh e_r (public_key p)).

Inductive step : vpn_peer_table_t → option event → vpn_peer_table_t → Prop :=
  | step_silent t : step t None t
  | step_accept t i p slot idx c ct tag m f ep :
      idx ≠ 0 →
      list_find (λ p, is_Some (slot_of p idx)) (live t) = Some (i, p) →
      slot_of p idx = Some slot →
      replay_check (Some (replay_filter (get_session p slot))) c = Some 1 →
      unseal ct tag [] c (recv_key (get_session p slot)) = (0, m) →
      replay_update (Some (replay_filter (get_session p slot))) c = Some (Some f) →
      is_u64 c → endpoint_ok ep →
      step t
        (Some (Ev_accept idx c m (bool_decide (deliverable dev p m))))
        (put t i (moved (set_session p slot (set_filter (get_session p slot) f)) ep)
           (next_local_index t))
  | step_handshake t m i p e_r now1 now2 ep :
      acceptable priv pub t m i p →
      init_ok m → length e_r = 32%nat → endpoint_ok ep →
      (crypto_scalarmult e_r (hi_unencrypted_ephemeral m)).1 = 0 →
      (crypto_scalarmult e_r (public_key p)).1 = 0 →
      step t
        (Some (Ev_handshake i (next_local_index t)
           (resp_wire (resp_msg (ri_ck3 priv pub m) (ri_h3 pub m) e_r
              (hi_unencrypted_ephemeral m) (public_key p) (next_local_index t)
              (hi_sender_index m)))))
        (put t i
           (moved (rekeyed p (new_session (next_local_index t) (hi_sender_index m)
                                (hkdf (session_ck m p e_r) [] 1) (hkdf (session_ck m p e_r) [] 2)
                                now1) now2) ep)
           (u32 (next_local_index t + 1)))
  | step_wasted t m i p :
      acceptable priv pub t m i p →
      step t (Some (Ev_wasted (next_local_index t)))
        (mk_table (peers t) (peer_count t) (u32 (next_local_index t + 1)))
  | step_send t i p m :
      20 <= Z.of_nat (length m) →
      list_find (λ p, allows p (ip_of m 16)) (live t) = Some (i, p) →
      state (current_session p) = SESSION_STATE_ESTABLISHED →
      let s := current_session p in
      let sealed := seal m [] (sending_counter s) (send_key s) in
      step t
        (Some (Ev_send (local_index s) (sending_counter s) m
           (if Z.of_nat (length m) + 32 <=? VPN_MAX_PACKET_SIZE
            then Some (data_wire (peer_index s) (sending_counter s) (ae_c sealed) (ae_mac sealed))
            else None)))
        (put t i (set_session p Current (set_sending_counter s (u64 (sending_counter s + 1))))
           (next_local_index t)).

(** Runs, with the events in order. *)
Inductive steps (t0 : vpn_peer_table_t) : list event → vpn_peer_table_t → Prop :=
  | steps_nil : steps t0 [] t0
  | steps_snoc evs t oe t' :
      steps t0 evs t → step t oe t' → steps t0 (evs ++ option_list oe) t'.
End machine.

(** ** What a list of events says *)

Definition accepted (evs : list event) : list (Z * Z) :=
  omap (λ e, match e with Ev_accept idx c _ _ => Some (idx, c) | _ => None end) evs.

Definition sealed_counters (evs : list event) : list (Z * Z) :=
  omap (λ e, match e with Ev_send idx c _ _ => Some (idx, c) | _ => None end) evs.

(** Counters of one session. *)
Definition of_session (idx : Z) (l : list (Z * Z)) : list Z :=
  omap (λ ic, if ic.1 =? idx then Some ic.2 else None) l.

(** Session indices handed out. *)
Definition handed_out (evs : list event) : list Z :=
  omap (λ e, match e with Ev_handshake _ idx _ | Ev_wasted idx => Some idx | _ => None end) evs.

(** ** Established sessions *)

Definition established (s : vpn_session_t) : option vpn_session_t :=
  if bool_decide (state s = SESSION_STATE_ESTABLISHED) then Some s else None.

(** The established session in a slot of a live peer. *)
Definition sess (t : vpn_peer_table_t) (i : nat) (slot : session_slot) : option vpn_session_t :=
  p ← live t !! i; established (get_session p slot).

Lemma sess_put t i p n j slot : (i < length (live t))%nat →
  sess (put t i p n) j slot = if decide (j = i) then established (get_session p slot) else sess t j slot.
Proof.
  intros Hi. unfold sess, put. rewrite live_insert. case_decide as E.
  - subst j. by rewrite list_lookup_insert_eq.
  - by rewrite list_lookup_insert_ne by done.
Qed.

Lemma get_session_moved p ep slot : get_session (moved p ep) slot = get_session p slot.
Proof. unfold moved. case_bool_decide; by destruct slot. Qed.

Lemma get_session_set p slot s slot' :
  get_session (set_session p slot s) slot' = if decide (slot' = slot) then s else get_session p slot'.
Proof. by destruct slot, slot'. Qed.

Lemma session_matches_true s idx : session_matches s idx = true →
  established s = Some s ∧ local_index s = idx.
Proof.
  unfold session_matches, established. intros [H1 H2]%andb_prop. rewrite H1. split; [done|lia].
Qed.

Lemma slot_of_Some p idx slot : slot_of p idx = Some slot →
  established (get_session p slot) = Some (get_session p slot) ∧
  local_index (get_session p slot) = idx.
Proof.
  unfold slot_of. destruct (session_matches (current_session p) idx) eqn:E1.
  { intros [= <-]. by apply session_matches_true. }
  destruct (session_matches (previous_session p) idx) eqn:E2; [|done].
  intros [= <-]. by apply session_matches_true.
Qed.

(** ** The invariant of runs *)

Record inv (t : vpn_peer_table_t) (evs : list event) : Prop := {
  inv_next : next_local_index t = 1 + Z.of_nat (length (handed_out evs));
  inv_index : ∀ i slot s, sess t i slot = Some s → 0 < local_index s < next_local_index t;
  inv_distinct : ∀ i slot s j slot' s', sess t i slot = Some s → sess t j slot' = Some s' →
    local_index s = local_index s' → i = j ∧ slot = slot';
  inv_filter : ∀ i slot s, sess t i slot = Some s →
    represents (replay_filter s) (of_session (local_index s) (accepted evs));
  inv_counter : ∀ i slot s, sess t i slot = Some s →
    sending_counter s = Z.of_nat (length (of_session (local_index s) (sealed_counters evs))) ∧
    Forall (λ c, c < sending_counter s) (of_session (local_index s) (sealed_counters evs));
  inv_past : ∀ idx c, (idx, c) ∈ accepted evs ∨ (idx, c) ∈ sealed_counters evs →
    idx < next_local_index t;
  inv_nodup : NoDup (accepted evs) ∧ NoDup (sealed_counters evs)
}.

(** ** Preservation *)

Lemma of_session_app idx l l' : of_session idx (l ++ l') = of_session idx l ++ of_session idx l'.
Proof. apply omap_app. Qed.

Lemma of_session_elem idx c l : c ∈ of_session idx l ↔ (idx, c) ∈ l.
Proof.
  unfold of_session. rewrite list_elem_of_omap. split.
  - intros ([i c'] & Hin & Heq). cbn in Heq. destruct (Z.eqb_spec i idx); [|done]. by simplify_eq.
  - intros Hin. exists (idx, c). split; [done|]. cbn. by rewrite Z.eqb_refl.
Qed.

Lemma omap_length_le {A B} (f : A → option B) l : (length (omap f l) <= length l)%nat.
Proof. induction l as [|x l IH]; cbn; [lia|]. destruct (f x); cbn; lia. Qed.

Lemma accepted_app l l' : accepted (l ++ l') = accepted l ++ accepted l'.
Proof. apply omap_app. Qed.
Lemma sealed_app l l' : sealed_counters (l ++ l') = sealed_counters l ++ sealed_counters l'.
Proof. apply omap_app. Qed.
Lemma handed_out_app l l' : handed_out (l ++ l') = handed_out l ++ handed_out l'.
Proof. apply omap_app. Qed.

(** A session is known by its index: no counters of an index not handed out yet. *)
Lemma inv_fresh_index t evs l idx : inv t evs → l = accepted evs ∨ l = sealed_counters evs →
  next_local_index t <= idx → of_session idx l = [].
Proof.
  intros Hinv Hl Hidx. destruct (of_session idx l) as [|c r] eqn:E; [done|].
  assert (c ∈ of_session idx l) as Hin by (rewrite E; left). apply of_session_elem in Hin.
  pose proof (inv_past t evs Hinv idx c). destruct Hl as [->| ->]; naive_solver lia.
Qed.

Lemma window_accepts_new h c : window_accepts h c = true → c ∉ h.
Proof.
  unfold window_accepts. destruct h as [|x t]; [intros _ H; by apply not_elem_of_nil in H|].
  intros H Hin. rewrite (bool_decide_true (c ∈ x :: t)) in H by done.
  rewrite andb_false_r, orb_false_r in H. apply Z.ltb_lt in H. revert H Hin.
  generalize (x :: t) as l. intros l. induction l as [|y l IH]; intros H Hin; [by apply not_elem_of_nil in Hin|].
  change (newest (y :: l)) with (Z.max y (newest l)) in H.
  apply elem_of_cons in Hin as [->|Hin]; [lia|]. apply IH; [lia|done].
Qed.

(** Replacing one established session by one with the same index. *)
Lemma sess_update t i p sl s' ep : live t !! i = Some p →
  established (get_session p sl) = Some (get_session p sl) →
  state s' = state (get_session p sl) →
  ∀ j sl', sess (put t i (moved (set_session p sl s') ep) (next_local_index t)) j sl' =
    if decide (j = i ∧ sl' = sl) then Some s' else sess t j sl'.
Proof.
  intros Hi Hest Hst j sl'. rewrite sess_put by (by eapply lookup_lt_Some).
  rewrite get_session_moved, get_session_set.
  destruct (decide (j = i)) as [->|Hj]; [|by rewrite decide_False by naive_solver].
  destruct (decide (sl' = sl)) as [->|Hs].
  - rewrite decide_True by done. unfold established in *. rewrite Hst. by case_bool_decide.
  - rewrite decide_False by naive_solver. unfold sess. by rewrite Hi.
Qed.

Lemma put_self_moved p sl s' : ∃ ep, set_session p sl s' = moved (set_session p sl s') ep.
Proof.
  exists (endpoint p). unfold moved. case_bool_decide as E; [done|].
  destruct sl; by destruct p.
Qed.

(** The session found by an index. *)
Lemma sess_slot t i p sl : live t !! i = Some p →
  established (get_session p sl) = Some (get_session p sl) → sess t i sl = Some (get_session p sl).
Proof. intros Hi He. unfold sess. by rewrite Hi. Qed.

Section update.
Variables (t t' : vpn_peer_table_t) (evs : list event) (i : nat) (sl : session_slot).
Variables (s s' : vpn_session_t) (e : event).
Hypothesis (Hinv : inv t evs).
Hypothesis (Hs : sess t i sl = Some s).
Hypothesis (Hidx : local_index s' = local_index s).
Hypothesis (Hsess : ∀ j sl', sess t' j sl' = if decide (j = i ∧ sl' = sl) then Some s' else sess t j sl').
Hypothesis (Hnext : next_local_index t' = next_local_index t).
Hypothesis (Hout : handed_out [e] = []).

(** The other sessions have another index. *)
Lemma other_index j sl' r : sess t j sl' = Some r → ¬ (j = i ∧ sl' = sl) →
  local_index r ≠ local_index s.
Proof.
  intros Hr Hne Heq. destruct (inv_distinct t evs Hinv j sl' r i sl s Hr Hs Heq) as [-> ->]. by apply Hne.
Qed.

(** Reduction to the obligations that concern the replaced session. *)
Lemma inv_update :
  represents (replay_filter s') (of_session (local_index s) (accepted (evs ++ [e]))) →
  sending_counter s' = Z.of_nat (length (of_session (local_index s) (sealed_counters (evs ++ [e])))) →
  Forall (λ c, c < sending_counter s') (of_session (local_index s) (sealed_counters (evs ++ [e]))) →
  (∀ idx, idx ≠ local_index s →
     of_session idx (accepted [e]) = [] ∧ of_session idx (sealed_counters [e]) = []) →
  NoDup (accepted (evs ++ [e])) → NoDup (sealed_counters (evs ++ [e])) →
  inv t' (evs ++ [e]).
Proof.
  intros Hf Hc Hcs Hother Hn1 Hn2. pose proof (inv_index t evs Hinv i sl s Hs) as Hsi.
  assert (∀ idx c, (idx, c) ∈ accepted [e] ∨ (idx, c) ∈ sealed_counters [e] → idx = local_index s) as He.
  { intros idx c Hin. destruct (decide (idx = local_index s)) as [|Hne]; [done|].
    destruct (Hother idx Hne) as [Ha Hb]. rewrite <- !of_session_elem, Ha, Hb in Hin.
    destruct Hin as [H|H]; by apply not_elem_of_nil in H. }
  split.
  - rewrite Hnext, handed_out_app, Hout, app_nil_r. apply (inv_next t evs Hinv).
  - intros j sl' r. rewrite Hsess, Hnext. case_decide; [intros [= <-]; by rewrite Hidx|].
    apply (inv_index t evs Hinv).
  - intros j1 l1 r1 j2 l2 r2. rewrite !Hsess.
    case_decide as D1; case_decide as D2; [naive_solver|intros [= <-] H2|intros H1 [= <-]|].
    + rewrite Hidx. intros H. by destruct (other_index j2 l2 r2 H2 D2).
    + rewrite Hidx. intros H. by destruct (other_index j1 l1 r1 H1 D1).
    + apply (inv_distinct t evs Hinv).
  - intros j sl' r. rewrite Hsess. case_decide as D; [intros [= <-]; by rewrite Hidx|]. intros Hr.
    rewrite accepted_app, of_session_app, (proj1 (Hother _ (other_index j sl' r Hr D))), app_nil_r.
    by apply (inv_filter t evs Hinv j sl').
  - intros j sl' r. rewrite Hsess. case_decide as D; [intros [= <-]; by rewrite Hidx|]. intros Hr.
    rewrite sealed_app, of_session_app, (proj2 (Hother _ (other_index j sl' r Hr D))), app_nil_r.
    by apply (inv_counter t evs Hinv j sl').
  - intros idx c. rewrite accepted_app, sealed_app, !elem_of_app, Hnext.
    pose proof (inv_past t evs Hinv idx c). specialize (He idx c). naive_solver lia.
  - done.
Qed.
End update.

Section preservation.
Context {S : Sodium}.
Variables (priv pub : bytes) (dev : tun_device_t).

Lemma NoDup_snoc {A} (l : list A) x : NoDup l → x ∉ l → NoDup (l ++ [x]).
Proof.
  intros Hl Hx. apply NoDup_app. split_and!; [done| |apply NoDup_singleton].
  intros y Hy ->%list_elem_of_singleton. done.
Qed.

Lemma inv_accept t evs i p sl c m dl f ep : inv t evs → live t !! i = Some p →
  let s := get_session p sl in
  established s = Some s →
  replay_check (Some (replay_filter s)) c = Some 1 →
  replay_update (Some (replay_filter s)) c = Some (Some f) → is_u64 c →
  inv (put t i (moved (set_session p sl (set_filter s f)) ep) (next_local_index t))
      (evs ++ [Ev_accept (local_index s) c m dl]).
Proof.
  intros Hinv Hi s Hest Hck Hup Hc. pose proof (sess_slot t i p sl Hi Hest) as Hs. fold s in Hs.
  pose proof (inv_filter t evs Hinv i sl s Hs) as Hrep.
  rewrite (represents_check _ _ Hrep c Hc) in Hck.
  destruct (window_accepts _ c) eqn:Hw; [|done]. apply window_accepts_new in Hw.
  destruct (represents_update _ _ Hrep c Hc) as (f' & Hf' & Hrep'). rewrite Hup in Hf'.
  simplify_eq.
  apply (inv_update t _ evs i sl s (set_filter s f') _ Hinv Hs);
    [done|by apply sess_update|done|done|..]; rewrite ?accepted_app, ?sealed_app;
    cbn [accepted sealed_counters omap list_omap option_bind app]; rewrite ?app_nil_r.
  - rewrite of_session_app. cbn. by rewrite Z.eqb_refl.
  - apply (inv_counter t evs Hinv i sl s Hs).
  - apply (inv_counter t evs Hinv i sl s Hs).
  - intros idx Hne. cbn. by rewrite (proj2 (Z.eqb_neq _ _)) by congruence.
  - apply NoDup_snoc; [apply (inv_nodup t evs Hinv)|]. by rewrite <- of_session_elem.
  - apply (inv_nodup t evs Hinv).
Qed.

Lemma inv_send t evs i p m pkt : inv t evs → live t !! i = Some p →
  let s := current_session p in
  state s = SESSION_STATE_ESTABLISHED → Z.of_nat (length evs) < 2 ^ 64 - 1 →
  inv (put t i (set_session p Current (set_sending_counter s (u64 (sending_counter s + 1))))
         (next_local_index t))
      (evs ++ [Ev_send (local_index s) (sending_counter s) m pkt]).
Proof.
  intros Hinv Hi s Hst Hlen.
  assert (established (get_session p Current) = Some (get_session p Current)) as Hest
    by (unfold established; by rewrite bool_decide_true).
  pose proof (sess_slot t i p Current Hi Hest) as Hs. cbn [get_session] in Hs. fold s in Hs.
  destruct (inv_counter t evs Hinv i Current s Hs) as [Hcnt Hall].
  assert (u64 (sending_counter s + 1) = sending_counter s + 1) as Hu.
  { apply u64_small. unfold is_uint. rewrite Hcnt.
    assert (length (of_session (local_index s) (sealed_counters evs)) <= length evs)%nat; [|lia].
    unfold of_session, sealed_counters. etrans; apply omap_length_le. }
  destruct (put_self_moved p Current (set_sending_counter s (u64 (sending_counter s + 1)))) as [ep ->].
  apply (inv_update t _ evs i Current s (set_sending_counter s (u64 (sending_counter s + 1))) _ Hinv Hs);
    [done|by apply (sess_update t i p Current)|done|done|..]; rewrite ?accepted_app, ?sealed_app;
    cbn [accepted sealed_counters omap list_omap option_bind app set_sending_counter
         sending_counter replay_filter]; rewrite ?app_nil_r.
  - apply (inv_filter t evs Hinv i Current s Hs).
  - rewrite of_session_app, length_app. cbn. rewrite Z.eqb_refl. cbn. lia.
  - rewrite of_session_app. cbn. rewrite Z.eqb_refl, Hu. apply Forall_app. split.
    + eapply Forall_impl; [exact Hall|]. cbn. lia.
    + apply Forall_singleton. lia.
  - intros idx Hne. cbn. by rewrite (proj2 (Z.eqb_neq _ _)) by congruence.
  - apply (inv_nodup t evs Hinv).
  - apply NoDup_snoc; [apply (inv_nodup t evs Hinv)|]. rewrite <- of_session_elem.
    intros Hin. rewrite Forall_forall in Hall. specialize (Hall _ Hin). lia.
Qed.

(** Consuming an index: nothing changes but the next index. *)
Lemma inv_wasted t evs idx : inv t evs → idx = next_local_index t →
  Z.of_nat (length (handed_out evs)) < 2 ^ 32 - 2 →
  inv (mk_table (peers t) (peer_count t) (u32 (next_local_index t + 1))) (evs ++ [Ev_wasted idx]).
Proof.
  intros Hinv -> Hlen. pose proof (inv_next t evs Hinv) as Hn.
  assert (u32 (next_local_index t + 1) = next_local_index t + 1) as Hu
    by (apply u32_small; unfold is_uint; lia).
  split; rewrite ?accepted_app, ?sealed_app; cbn [accepted sealed_counters omap list_omap option_bind];
    rewrite ?app_nil_r; cbn [next_local_index]; rewrite ?Hu.
  - rewrite handed_out_app, length_app. cbn. lia.
  - intros i sl s Hs. pose proof (inv_index t evs Hinv i sl s Hs). lia.
  - apply (inv_distinct t evs Hinv).
  - apply (inv_filter t evs Hinv).
  - apply (inv_counter t evs Hinv).
  - intros j c H. pose proof (inv_past t evs Hinv j c H). lia.
  - apply (inv_nodup t evs Hinv).
Qed.

(** Where the sessions of a rekeyed peer come from. *)
Lemma sess_rekeyed t i p s now ep n j sl r : live t !! i = Some p →
  state s = SESSION_STATE_ESTABLISHED →
  sess (put t i (moved (rekeyed p s now) ep) n) j sl = Some r →
  (j = i ∧ sl = Current ∧ r = s) ∨
  (j = i ∧ sl = Previous ∧ (sess t i Current = Some r ∨ sess t i Current = None ∧ sess t i Previous = Some r)) ∨
  (j ≠ i ∧ sess t j sl = Some r).
Proof.
  intros Hi Hst. rewrite sess_put by (by eapply lookup_lt_Some). rewrite get_session_moved.
  case_decide as D; [subst j|auto]. destruct sl; cbn [get_session rekeyed set_last_handshake_time
    set_sessions current_session previous_session].
  - unfold established. rewrite bool_decide_true by done. intros [= <-]. auto.
  - intros H. right. left. split_and!; [done..|]. revert H. unfold sess. rewrite Hi.
    cbn [mbind option_bind get_session]. unfold established.
    destruct (bool_decide (state (current_session p) = SESSION_STATE_ESTABLISHED)) eqn:E;
      [rewrite E|]; auto.
Qed.

Lemma inv_handshake t evs i p s now ep resp : inv t evs → live t !! i = Some p →
  state s = SESSION_STATE_ESTABLISHED → local_index s = next_local_index t →
  replay_filter s = replay_filter_zero → sending_counter s = 0 →
  Z.of_nat (length (handed_out evs)) < 2 ^ 32 - 2 →
  inv (put t i (moved (rekeyed p s now) ep) (u32 (next_local_index t + 1)))
      (evs ++ [Ev_handshake i (next_local_index t) resp]).
Proof.
  intros Hinv Hi Hst Hidx Hf Hc Hlen. pose proof (inv_next t evs Hinv) as Hn.
  assert (u32 (next_local_index t + 1) = next_local_index t + 1) as Hu
    by (apply u32_small; unfold is_uint; lia).
  assert (∀ j sl r, sess t j sl = Some r → local_index r ≠ local_index s) as Hold.
  { intros j sl r Hr. pose proof (inv_index t evs Hinv j sl r Hr). lia. }
  assert (∀ j sl r, sess (put t i (moved (rekeyed p s now) ep) (u32 (next_local_index t + 1))) j sl
              = Some r →
    (j = i ∧ sl = Current ∧ r = s) ∨
    ∃ sl0, sess t j sl0 = Some r ∧ (j = i → sl = Previous) ∧ (j ≠ i → sl0 = sl) ∧
           (j = i → sl0 = Previous → sess t i Current = None)) as Hfrom.
  { intros j sl r Hr. destruct (sess_rekeyed t i p s now ep _ j sl r Hi Hst Hr) as [?|[H|[? ?]]].
    - auto.
    - destruct H as (-> & -> & [?|[? ?]]); right; [exists Current|exists Previous]; by split_and!.
    - right. exists sl. naive_solver. }
  split; rewrite ?accepted_app, ?sealed_app; cbn [accepted sealed_counters omap list_omap option_bind];
    rewrite ?app_nil_r; cbn [put next_local_index]; rewrite ?Hu.
  - rewrite handed_out_app, length_app. cbn. lia.
  - intros j sl r [(_ & _ & ->)|(sl0 & Hr & _)]%Hfrom; [lia|].
    pose proof (inv_index t evs Hinv j sl0 r Hr). lia.
  - intros j1 l1 r1 j2 l2 r2 H1 H2 Heq. apply Hfrom in H1, H2.
    destruct H1 as [(-> & -> & ->)|(s1 & H1 & A1 & B1 & C1)],
             H2 as [(-> & -> & ->)|(s2 & H2 & A2 & B2 & C2)]; [done| | |].
    + by destruct (Hold _ _ _ H2).
    + by destruct (Hold _ _ _ H1).
    + destruct (inv_distinct t evs Hinv _ _ _ _ _ _ H1 H2 Heq) as [-> ->]. split; [done|].
      destruct (decide (j2 = i)) as [E|E]; [by rewrite A1, A2|by rewrite <- B1, <- B2].
  - intros j sl r [(_ & _ & ->)|(sl0 & Hr & _)]%Hfrom; [|by apply (inv_filter t evs Hinv j sl0)].
    rewrite Hf, (inv_fresh_index t evs (accepted evs)) by (auto || lia). apply represents_nil.
  - intros j sl r [(_ & _ & ->)|(sl0 & Hr & _)]%Hfrom; [|by apply (inv_counter t evs Hinv j sl0)].
    rewrite Hc, (inv_fresh_index t evs (sealed_counters evs)) by (auto || lia). by split.
  - intros j c H. pose proof (inv_past t evs Hinv j c H). lia.
  - apply (inv_nodup t evs Hinv).
Qed.

Lemma step_inv t evs oe t' : step priv pub dev t oe t' → inv t evs →
  Z.of_nat (length (evs ++ option_list oe)) < 2 ^ 64 →
  Z.of_nat (length (handed_out (evs ++ option_list oe))) < 2 ^ 32 - 1 →
  inv t' (evs ++ option_list oe).
Proof.
  rewrite handed_out_app, !length_app.
  intros [| t0 i p sl idx c ct tag m f ep Hidx Hfind Hslot Hck _ Hup Hc Hep
          | t0 m i p e_r n1 n2 ep Hacc _ _ _ _ _ | t0 m i p Hacc | t0 i p m Hlen Hfind Hst s0 sl0]
    Hinv Hl Ho; cbn [option_list option_rect] in *.
  - by rewrite app_nil_r.
  - apply list_find_Some in Hfind as (Hi & _ & _). apply slot_of_Some in Hslot as [Hest <-].
    by apply inv_accept.
  - apply inv_handshake; try done; [apply Hacc|]. cbn in Ho. lia.
  - apply inv_wasted; [done..|]. cbn in Ho. lia.
  - apply list_find_Some in Hfind as (Hi & _ & _). apply inv_send; try done. cbn in Hl. lia.
Qed.
End preservation.

(** ** Runs from a table without sessions *)

Definition no_sessions (t : vpn_peer_table_t) : Prop :=
  next_local_index t = 1 ∧ Forall (λ p, ∀ sl, established (get_session p sl) = None) (live t).

Lemma no_sessions_inv t : no_sessions t → inv t [].
Proof.
  intros [Hn Hs]. assert (∀ i sl s, sess t i sl ≠ Some s) as H.
  { intros i sl s. unfold sess. destruct (live t !! i) as [p|] eqn:Hi; [|done]. cbn.
    rewrite (Forall_lookup_1 _ _ _ _ Hs Hi sl). done. }
  split; try (intros; by edestruct H); [done| |split; constructor].
  intros idx c [Hin|Hin]; by apply not_elem_of_nil in Hin.
Qed.

Lemma steps_inv {S : Sodium} priv pub dev t0 evs t : no_sessions t0 →
  steps priv pub dev t0 evs t →
  Z.of_nat (length evs) < 2 ^ 64 → Z.of_nat (length (handed_out evs)) < 2 ^ 32 - 1 →
  inv t evs.
Proof.
  intros H0. induction 1 as [|evs t oe t' Hsteps IH Hstep]; intros Hl Ho.
  - by apply no_sessions_inv.
  - eapply step_inv; [done| |done..]. apply IH.
    + rewrite length_app in Hl. lia.
    + rewrite handed_out_app, length_app in Ho. lia.
Qed.

(** Every step keeps the table well formed. *)
Section table.
Context {S : Sodium} {SL : SodiumLaws S}.

Lemma moved_ok p ep : peer_ok p → endpoint_ok ep → peer_ok (moved p ep).
Proof. intros [] He. unfold moved. case_bool_decide; by split. Qed.
Lemma moved_key p ep : public_key (moved p ep) = public_key p.
Proof. unfold moved. by case_bool_decide. Qed.

Lemma set_session_ok p sl s : peer_ok p → session_ok s → peer_ok (set_session p sl s).
Proof. intros [] Hs. destruct sl; by split. Qed.
Lemma set_session_key p sl s : public_key (set_session p sl s) = public_key p.
Proof. by destruct sl. Qed.
Lemma get_session_ok p sl : peer_ok p → session_ok (get_session p sl).
Proof. intros []. by destruct sl. Qed.

Lemma rekeyed_ok p s now : peer_ok p → session_ok s → peer_ok (rekeyed p s now).
Proof. intros [] Hs. unfold rekeyed. case_bool_decide; by split. Qed.

Lemma set_filter_ok s c f : session_ok s → is_u64 c →
  replay_update (Some (replay_filter s)) c = Some (Some f) → session_ok (set_filter s f).
Proof.
  intros [? ? ? ? (h & Hh & Hr)] Hc Hup. split; try done. exists (h ++ [c]).
  destruct (represents_update _ _ Hr c Hc) as (f' & Hf & Hr'). rewrite Hup in Hf. simplify_eq.
  split; [|done]. apply Forall_app. by split; [|apply Forall_singleton].
Qed.

Lemma step_table_ok priv pub dev t oe t' : step priv pub dev t oe t' → table_ok t → table_ok t'.
Proof.
  intros [| t0 i p sl idx c ct tag m f ep Hidx Hfind Hslot Hck _ Hup Hc Hep
          | t0 m i p e_r n1 n2 ep Hacc Hm He Hep _ _ | t0 m i p Hacc | t0 i p m Hlen Hfind Hst s0 sl0] Ht.
  - done.
  - apply list_find_Some in Hfind as (Hi & _ & _). destruct (live_get t0 Ht i p Hi) as [_ Hp].
    eapply set_peer_ok; [done|done| | |apply Ht].
    + apply moved_ok; [|done]. apply set_session_ok; [done|].
      eapply set_filter_ok; [by apply get_session_ok|done..].
    + by rewrite moved_key, set_session_key.
  - pose proof (acc_peer _ _ _ _ _ _ Hacc) as Hi. destruct (live_get t0 Ht i p Hi) as [_ Hp].
    eapply set_peer_ok; [done|done| | |apply u32_uint].
    + apply moved_ok; [|done]. apply rekeyed_ok; [done|].
      assert (length (session_ck priv pub m p e_r) = 32%nat) as Hck
        by (apply resp_ck_length, ri_ck3_length).
      apply new_session_ok; [apply Ht|apply Hm|by apply hkdf_length..].
    + by rewrite moved_key.
  - destruct Ht as [? ? ? ? ?]. split; try done. apply u32_uint.
  - apply list_find_Some in Hfind as (Hi & _ & _). destruct (live_get t0 Ht i p Hi) as [_ Hp].
    eapply set_peer_ok; [done|done| |done|apply Ht].
    apply (set_session_ok p Current); [done|].
    destruct (get_session_ok p Current Hp) as [? ? ? ? ?]. split; try done. apply u64_uint.
Qed.
End table.

(** ** A run: a handshake, a packet in, a packet out *)

Module Demo.
Definition key : bytes := replicate 32 3.
Definition dev : tun_device_t := mk_tun 5 (replicate 16 0) 1440.
Definition e_r : bytes := replicate 32 13.
Definition ep : vpn_endpoint_t := endpoint4 [1; 2; 3; 4] 5.
Definition p0 : vpn_peer_t := demo_peer 7 (mk_cidr 0x0A000000 0xFFFFFF00 24).
(** An IPv4 header from 10.0.0.9 to 10.0.0.8. *)
Definition ip_packet : bytes := [0x45; 0; 0; 20] ++ replicate 8 0 ++ [10; 0; 0; 9; 10; 0; 0; 8].

Definition ck : bytes := session_ck (S := Toy.toy) key key demo_init_msg p0 e_r.
Definition s1 : vpn_session_t :=
  new_session 1 77 (hkdf (S := Toy.toy) ck [] 1) (hkdf (S := Toy.toy) ck [] 2) 100.
Definition p1 : vpn_peer_t := moved (rekeyed p0 s1 101) ep.
Definition t1 : vpn_peer_table_t := put demo_table 0 p1 2.
Definition f2 : replay_filter_t :=
  default replay_filter_zero (default None (replay_update (Some replay_filter_zero) 5)).
Definition p2 : vpn_peer_t := moved (set_session p1 Current (set_filter s1 f2)) ep.
Definition t2 : vpn_peer_table_t := put t1 0 p2 2.
Definition t3 : vpn_peer_table_t :=
  put t2 0 (set_session p2 Current (set_sending_counter (current_session p2) 1)) 2.

Definition sealed_in : aead_out := seal (S := Toy.toy) ip_packet [] 5 (recv_key s1).
Definition sealed_out : aead_out := seal (S := Toy.toy) ip_packet [] 0 (send_key s1).
Definition events : list event :=
  [Ev_handshake 0 1 (resp_wire (resp_msg (S := Toy.toy) (ri_ck3 key key demo_init_msg)
     (ri_h3 key demo_init_msg) e_r (hi_unencrypted_ephemeral demo_init_msg) (public_key p0) 1 77));
   Ev_accept 1 5 ip_packet true;
   Ev_send 1 0 ip_packet (Some (data_wire 77 0 (ae_c sealed_out) (ae_mac sealed_out)))].

Lemma ep_ok : endpoint_ok ep.
Proof. split; [done|by_computation|done]. Qed.

Lemma acceptable_init : acceptable (S := Toy.toy) key key demo_table demo_init_msg 0 p0.
Proof. split; try (by vm_compute). by left. Qed.

Lemma run : steps (S := Toy.toy) key key dev demo_table events t3.
Proof.
  apply (steps_snoc _ _ _ _ [_; _] t2 (Some _)); [apply (steps_snoc _ _ _ _ [_] t1 (Some _));
    [apply (steps_snoc _ _ _ _ [] demo_table (Some _)); [constructor|]|]|].
  - apply (step_handshake key key dev demo_table demo_init_msg 0 p0 e_r 100 101 ep);
      [apply acceptable_init|done|done|apply ep_ok|done|done].
  - apply (step_accept key key dev t1 0 p1 Current 1 5 (ae_c sealed_in) (ae_mac sealed_in)
      ip_packet f2 ep); try (by vm_compute); apply ep_ok.
  - apply (step_send key key dev t2 0 p2 ip_packet); by vm_compute.
Qed.

Lemma start : no_sessions demo_table.
Proof.
  split; [done|]. apply Forall_cons; split; [|apply Forall_singleton]; by intros [].
Qed.
End Demo.

(** ** Properties *)

(** C18: in any run of the daemon's machine from a table without sessions, no
    counter of a session is accepted twice, whatever packets arrive and in whatever
    order, across rekeying and roaming (runs that hand out fewer than 2^32 - 1
    session indices and take fewer than 2^64 labelled steps). *)
Theorem counters_accepted_once {S : Sodium} priv pub dev t0 evs t :
  no_sessions t0 → steps priv pub dev t0 evs t →
  Z.of_nat (length evs) < 2 ^ 64 → Z.of_nat (length (handed_out evs)) < 2 ^ 32 - 1 →
  NoDup (accepted evs).
Proof. intros H0 Hs Hl Ho. apply (steps_inv priv pub dev t0 evs t H0 Hs Hl Ho). Qed.

Lemma counters_accepted_once_witness : NoDup (accepted Demo.events).
Proof.
  apply (counters_accepted_once (S := Toy.toy) Demo.key Demo.key Demo.dev demo_table Demo.events Demo.t3);
    [apply Demo.start|apply Demo.run|done|done].
Defined.
