(* ===== verification/Daemon.v ===== *)
(** * The event loop ([src/main.c])

    The daemon's state is the host keys, the peer table, the two descriptors and
    the four packet buffers that live on [main]'s stack.  The two handlers of a
    loop iteration, the iteration, the loop (bounded by fuel, one unit an
    iteration) and [main] are programs over system calls.  Reading the volatile
    flag [g_running] that the signal handler clears is a call to the environment.
    The log lines of the callees that are pure here are left out. *)

From stdpp Require Import strings.
From S2P Require Import Prelude Config Libc Keyhex Logging Packet Sodium Crypto Kdf Os Inet Transport Tun Replay.
From S2P Require Import Routing Peer Handshake.
Local Open Scope c_scope.

Record daemon := mk_daemon {
  static_pub : bytes;
  static_priv : bytes;
  table : vpn_peer_table_t;
  sock_fd : Z;
  tun : tun_device_t;
  net_buf : bytes;
  tun_buf : bytes;
  plain_buf : bytes;
  cipher_buf : bytes
}.

Definition set_table (d : daemon) (t : vpn_peer_table_t) : daemon :=
  mk_daemon (static_pub d) (static_priv d) t (sock_fd d) (tun d)
    (net_buf d) (tun_buf d) (plain_buf d) (cipher_buf d).
Definition set_net_buf (d : daemon) (b : bytes) : daemon :=
  mk_daemon (static_pub d) (static_priv d) (table d) (sock_fd d) (tun d)
    b (tun_buf d) (plain_buf d) (cipher_buf d).
Definition set_tun_buf (d : daemon) (b : bytes) : daemon :=
  mk_daemon (static_pub d) (static_priv d) (table d) (sock_fd d) (tun d)
    (net_buf d) b (plain_buf d) (cipher_buf d).
Definition set_plain_buf (d : daemon) (b : bytes) : daemon :=
  mk_daemon (static_pub d) (static_priv d) (table d) (sock_fd d) (tun d)
    (net_buf d) (tun_buf d) b (cipher_buf d).
Definition set_cipher_buf (d : daemon) (b : bytes) : daemon :=
  mk_daemon (static_pub d) (static_priv d) (table d) (sock_fd d) (tun d)
    (net_buf d) (tun_buf d) (plain_buf d) b.

Definition POLLIN : Z := 1.

(** Four bytes of an IPv4 header as a host-order address. *)
Definition ip_at (b : bytes) (off : Z) : option Z :=
  b0 ← b.[off]; b1 ← b.[off + 1]; b2 ← b.[off + 2]; b3 ← b.[off + 3];
  Some (u32 (b0 ≪ 24) |' u32 (b1 ≪ 16) |' u32 (b2 ≪ 8) |' b3).

Section daemon.
Context {S : Sodium}.

(** The answer to an initiation accepted for the peer at position [i]. *)
Definition answer_initiation (d : daemon) (src_ep : vpn_endpoint_t) (i : Z)
    (parsed_init : packet_handshake_init_t) (chaining_key hash : option bytes) : prog daemon :=
  let my_local_idx := next_local_index (table d) in
  let t := mk_table (peers (table d)) (peer_count (table d)) (u32 (my_local_idx + 1)) in
  p ← pure (get_peer t i);
  rand ← call (Sys_randombytes 32);
  '(rlen, resp_packet, send_key, recv_key) ←
    pure (handshake_create_response (Some (local PACKET_HANDSHAKE_RESP_LEN))
            PACKET_HANDSHAKE_RESP_LEN (Some (static_priv d))
            (Some (hi_unencrypted_ephemeral parsed_init)) (Some (public_key p))
            my_local_idx (hi_sender_index parsed_init) chaining_key hash
            (Some (local VPN_KEY_LEN)) (Some (local VPN_KEY_LEN)) (r_data rand));
  t ← (if rlen >? 0 then
         now1 ← call Sys_time;
         now2 ← call Sys_time;
         p ← pure (peer_init_session (Some p) my_local_idx (hi_sender_index parsed_init)
                     send_key recv_key (r_ret now1) (r_ret now2));
         '(_, p) ← pure (peer_update_endpoint p (Some src_ep));
         p ← pure p;
         t ← pure (set_peer t i p);
         _ ← transport_send (sock_fd d) (Some src_ep) resp_packet rlen;
         mret t
       else mret t);
  _ ← pure (vpn_crypto_memzero send_key VPN_KEY_LEN);
  _ ← pure (vpn_crypto_memzero recv_key VPN_KEY_LEN);
  mret (set_table d t).

(** A 0x01 packet of [n] bytes in [net_buf]. *)
Definition handle_initiation (d : daemon) (src_ep : vpn_endpoint_t) (n : Z) : prog daemon :=
  '(rc, peer, parsed, chaining_key, hash) ←
    pure (handshake_consume_initiation (Some (net_buf d)) n (Some (static_priv d))
            (Some (static_pub d)) (Some (table d)) (Some NULL) (Some zero_init_msg)
            (Some (local VPN_KEY_LEN)) (Some (local 32)));
  match peer, parsed with
  | Some (Some i), Some parsed_init =>
      if rc =? 0 then answer_initiation d src_ep i parsed_init chaining_key hash else mret d
  | _, _ => mret d
  end.

(** The AllowedIPs check and delivery of [n] decrypted bytes. *)
Definition deliver (d : daemon) (p : vpn_peer_t) (n : Z) : prog unit :=
  if (n >=? 20) && (fd (tun d) >=? 0) then
    src_ip ← pure (ip_at (plain_buf d) 12);
    ok ← pure (peer_allows_source_ip (Some p) src_ip);
    if ok : bool then _ ← tun_write (Some (tun d)) (Some (plain_buf d)) n; mret tt
    else _ ← log LOG_WARN; mret tt
  else mret tt.

(** A 0x03 or 0x04 packet of [n] bytes in [net_buf]. *)
Definition handle_data (d : daemon) (src_ep : vpn_endpoint_t) (n : Z) : prog daemon :=
  '(rc, parsed) ← pure (packet_parse_data (Some (net_buf d)) n (Some (mk_packet_data 0 0 NULL 0 0)));
  parsed_data ← pure parsed;
  if rc =? 0 then
    found ← pure (peer_find_by_index (Some (table d)) (pd_receiver_index parsed_data));
    match found with
    | NULL => mret d
    | Some (i, slot) =>
        p ← pure (get_peer (table d) i);
        let session := get_session p slot in
        if bool_decide (state session = SESSION_STATE_ESTABLISHED) then
          fresh ← pure (replay_check (Some (replay_filter session)) (pd_counter parsed_data));
          if negb (fresh =? 0) then
            let at_ off := drop (Z.to_nat off) (net_buf d) in
            '(rc, plain) ←
              pure (vpn_crypto_aead_decrypt (Some (plain_buf d))
                      (at_ <$> pd_ciphertext parsed_data) (pd_ciphertext_len parsed_data)
                      (Some (at_ (pd_auth_tag parsed_data))) NULL 0
                      (pd_counter parsed_data) (Some (recv_key session)));
            plain ← pure plain;
            let d := set_plain_buf d plain in
            if rc =? 0 then
              f ← pure (replay_update (Some (replay_filter session)) (pd_counter parsed_data));
              f ← pure f;
              let p := set_session p slot (set_filter session f) in
              '(_, p) ← pure (peer_update_endpoint (Some p) (Some src_ep));
              p ← pure p;
              t ← pure (set_peer (table d) i p);
              let d := set_table d t in
              _ ← deliver d p (pd_ciphertext_len parsed_data);
              mret d
            else mret d
          else mret d
        else mret d
    end
  else mret d.

(** A datagram on the UDP socket. *)
Definition handle_udp (d : daemon) : prog daemon :=
  '(n, src_ep, buf) ← transport_recv (sock_fd d) (Some zero_endpoint) (Some (net_buf d))
                        VPN_MAX_PACKET_SIZE;
  buf ← pure buf; src_ep ← pure src_ep;
  let d := set_net_buf d buf in
  if n >? 0 then
    ptype ← pure (packet_peek_type (Some (net_buf d)) n);
    match ptype with
    | PACKET_TYPE_HANDSHAKE_INIT => handle_initiation d src_ep n
    | PACKET_TYPE_DATA | PACKET_TYPE_KEEPALIVE => handle_data d src_ep n
    | _ => mret d
    end
  else mret d.

(** [n] bytes in [tun_buf] for the peer at position [i]. *)
Definition send_to_peer (d : daemon) (i : Z) (p : vpn_peer_t) (n : Z) : prog daemon :=
  let s := current_session p in
  let counter := sending_counter s in
  let p := set_session p Current (set_sending_counter s (u64 (counter + 1))) in
  t ← pure (set_peer (table d) i p);
  let d := set_table d t in
  '(rc, cipher, tag) ←
    pure (vpn_crypto_aead_encrypt (Some (cipher_buf d)) (Some (local VPN_AUTH_TAG_LEN))
            (Some (tun_buf d)) n NULL 0 counter (Some (send_key s)));
  cipher ← pure cipher;
  let d := set_cipher_buf d cipher in
  if rc =? 0 then
    '(pkt_len, net) ← pure (packet_serialize_data (Some (net_buf d)) VPN_MAX_PACKET_SIZE
                              (peer_index s) counter (Some (cipher_buf d)) n tag);
    net ← pure net;
    let d := set_net_buf d net in
    if pkt_len >? 0 then
      _ ← transport_send (sock_fd d) (Some (endpoint p)) (Some (net_buf d)) pkt_len;
      mret d
    else mret d
  else mret d.

(** A packet on the TUN device. *)
Definition handle_tun (d : daemon) : prog daemon :=
  '(n, buf) ← tun_read (Some (tun d)) (Some (tun_buf d)) VPN_MAX_PACKET_SIZE;
  buf ← pure buf;
  let d := set_tun_buf d buf in
  if n >=? 20 then
    dest_ip ← pure (ip_at (tun_buf d) 16);
    found ← pure (peer_find_by_dest_ip (Some (table d)) dest_ip);
    match found with
    | NULL => mret d
    | Some i =>
        p ← pure (get_peer (table d) i);
        if bool_decide (state (current_session p) = SESSION_STATE_ESTABLISHED)
        then send_to_peer d i p n else mret d
    end
  else mret d.

Definition poll_fds (d : daemon) : list Z :=
  if fd (tun d) >=? 0 then [sock_fd d; fd (tun d)] else [sock_fd d].

(** [fds[k].revents & POLLIN] *)
Definition readable (revents : list Z) (k : nat) : bool :=
  negb (default 0 (revents !! k) &' POLLIN =? 0).

Inductive loop_exit := Keep_running | Poll_failed | Terminated.

(** The body of the loop. *)
Definition main_iteration (d : daemon) : prog (loop_exit * daemon) :=
  r ← call (Sys_poll (poll_fds d) 1000);
  if r_ret r <? 0 then
    if r_errno r =? EINTR then mret (Keep_running, d)
    else _ ← log LOG_ERROR; mret (Poll_failed, d)
  else
    d ← (if readable (r_revents r) 0 then handle_udp d else mret d);
    d ← (if (1 <? Z.of_nat (length (poll_fds d))) && readable (r_revents r) 1
         then handle_tun d else mret d);
    mret (Keep_running, d).

(** [while (g_running)], at most [fuel] iterations. *)
Fixpoint main_loop (fuel : nat) (d : daemon) : prog (loop_exit * daemon) :=
  match fuel with
  | O => mret (Keep_running, d)
  | Datatypes.S fuel =>
      r ← call Sys_running;
      if r_ret r =? 0 then mret (Terminated, d)
      else
        '(exit, d) ← main_iteration d;
        match exit with
        | Keep_running => main_loop fuel d
        | _ => mret (exit, d)
        end
  end.

Definition SIGINT : Z := 2.
Definition SIGTERM : Z := 15.

(** The log level the command line asks for. *)
Definition main_level (argv : list bytes) : log_level_t :=
  match argv with
  | _ :: arg :: _ => if bool_decide (arg = of_string "--debug") then LOG_LEVEL_DEBUG else LOG_LEVEL_INFO
  | _ => LOG_LEVEL_INFO
  end.

(** Everything before the loop; [None] is the early return 1. *)
Definition main_setup (argv : list bytes) : prog (option daemon) :=
  _ ← call (Sys_log_set_level (level_value (main_level argv)));
  _ ← log LOG_INFO;
  if negb (vpn_crypto_init =? 0) then _ ← log LOG_ERROR; mret None
  else
    _ ← call (Sys_sigaction SIGINT);
    _ ← call (Sys_sigaction SIGTERM);
    rand ← call (Sys_randombytes 32);
    '(_, static_pub, static_priv) ← pure (vpn_crypto_generate_keypair (Some (local 32))
                                            (Some (local 32)) (r_data rand));
    static_pub ← pure static_pub; static_priv ← pure static_priv;
    _ ← pure (config_key_to_hex (Some static_pub) (Some (local 65)));
    _ ← log LOG_INFO;
    peer_table ← pure (peer_table_init (Some zero_table));
    sock_fd ← transport_open NULL VPN_DEFAULT_PORT;
    if sock_fd <? 0 then
      _ ← log LOG_ERROR;
      _ ← pure (vpn_crypto_memzero (Some static_priv) VPN_PRIVKEY_LEN);
      mret None
    else
      '(tun_rc, tun) ← tun_open (Some (mk_tun 0 [] 0)) (Some (of_string "vpn0")) VPN_DEFAULT_INNER_MTU;
      _ ← (if tun_rc =? 0 then
             _ ← tun_set_ip tun (Some (of_string "10.0.0.1")) (Some (of_string "255.255.255.0"));
             _ ← tun_set_up tun; mret tt
           else _ ← log LOG_WARN; mret tt);
      tun ← pure tun;
      _ ← log LOG_INFO;
      let buf := local VPN_MAX_PACKET_SIZE in
      mret (Some (mk_daemon static_pub static_priv peer_table sock_fd tun buf buf buf buf)).

(** Cleanup after the loop. *)
Definition main_cleanup (d : daemon) : prog daemon :=
  _ ← log LOG_INFO;
  t ← pure (peer_table_destroy (Some (table d))); t ← pure t;
  sock ← transport_close (Some (sock_fd d)); sock ← pure sock;
  tun' ← tun_close (Some (tun d)); tun' ← pure tun';
  priv ← pure (vpn_crypto_memzero (Some (static_priv d)) VPN_PRIVKEY_LEN); priv ← pure priv;
  _ ← log LOG_INFO;
  mret (mk_daemon (static_pub d) priv t sock tun'
          (net_buf d) (tun_buf d) (plain_buf d) (cipher_buf d)).

(** [main] has returned a code (and left its variables), or, when the fuel ran out
    before the loop was left, it is still running. *)
Inductive main_end := Running (d : daemon) | Returned (code : Z) (d : option daemon).

Definition main (argv : list bytes) (fuel : nat) : prog main_end :=
  d ← main_setup argv;
  match d with
  | None => mret (Returned 1 None)
  | Some d =>
      '(exit, d) ← main_loop fuel d;
      match exit with
      | Keep_running => mret (Running d)
      | Poll_failed | Terminated => d ← main_cleanup d; mret (Returned 0 (Some d))
      end
  end.
End daemon.
