(* ===== verification/Calls.v ===== *)
(** * Which system calls, and how many

    A bound on the number of calls of every function of the daemon, so that an
    iteration of its loop always ends, and which calls each part can issue: only set-up
    and cleanup open and close descriptors, only the loop reads the flag, and a handler
    receives nothing after the packet it was called for. *)

From S2P Require Import Prelude Config Libc Packet Sodium Crypto Kdf Os Inet Transport Tun Replay.
From S2P Require Import Routing Peer Handshake Daemon.
Local Open Scope c_scope.

(** Calls that open and close nothing. *)
Definition keeps_fds (c : syscall) : Prop :=
  match c with Sys_socket _ _ | Sys_open _ _ | Sys_close _ => False | _ => True end.
(** Calls of an iteration: these also leave the flag alone. *)
Definition serves (c : syscall) : Prop := match c with Sys_running => False | _ => keeps_fds c end.
#[export] Hint Extern 1 (serves _) => exact I : within.

(** Calls of a handler once it has its packet: nothing more is received. *)
Definition acts (c : syscall) : Prop :=
  match c with Sys_recvfrom _ _ | Sys_read _ _ => False | _ => serves c end.
#[export] Hint Extern 1 (acts _) => exact I : within.
(** Calls before and after the loop: nothing is sent and the flag is not read. *)
Definition offline (c : syscall) : Prop :=
  match c with Sys_running | Sys_write _ _ | Sys_sendto _ _ _ => False | _ => True end.
#[export] Hint Extern 1 (offline _) => exact I : within.

Lemma acts_serves {A} n (p : prog A) : within acts n p → within serves n p.
Proof. apply within_weaken. by intros []. Qed.

Ltac within_tac := repeat within_step.

Lemma log_within (Q : syscall → Prop) level : Q (Sys_log level) → within Q 1 (log level).
Proof. intros H. by split. Qed.
#[export] Hint Resolve log_within : within.

Lemma transport_send_within fd ep b n : within acts 2 (transport_send fd ep b n).
Proof. unfold transport_send. within_tac. Qed.
Lemma transport_recv_within fd ep b n : within serves 2 (transport_recv fd ep b n).
Proof. unfold transport_recv. within_tac. Qed.
Lemma tun_read_within d b n : within serves 2 (tun_read d b n).
Proof. unfold tun_read. within_tac. Qed.
Lemma tun_write_within d b n : within acts 2 (tun_write d b n).
Proof. unfold tun_write. within_tac. Qed.
#[export] Hint Resolve transport_send_within transport_recv_within tun_read_within
  tun_write_within : within.

Lemma open_socket_within domain : within offline 6 (open_socket domain).
Proof. unfold open_socket. within_tac. Qed.
#[export] Hint Resolve open_socket_within : within.
Lemma transport_open_within bind_ip port : within offline 10 (transport_open bind_ip port).
Proof. unfold transport_open. within_tac. Qed.
Lemma transport_close_within fd : within offline 2 (transport_close fd).
Proof. unfold transport_close. within_tac. Qed.
Lemma attach_tun_within name : within offline 4 (attach_tun name).
Proof. unfold attach_tun. within_tac. Qed.
Lemma set_mtu_within ifr m : within offline 4 (set_mtu ifr m).
Proof. unfold set_mtu. within_tac. Qed.
#[export] Hint Resolve transport_open_within transport_close_within attach_tun_within
  set_mtu_within : within.
Lemma tun_open_within d name m : within offline 8 (tun_open d name m).
Proof. unfold tun_open. within_tac. Qed.
Lemma close_return_within sock rc : within offline 1 (close_return sock rc).
Proof. unfold close_return. within_tac. Qed.
#[export] Hint Resolve tun_open_within close_return_within : within.
Lemma set_address_within sock request d text : within offline 3 (set_address sock request d text).
Proof. unfold set_address. within_tac. Qed.
#[export] Hint Resolve set_address_within : within.
Lemma tun_set_ip_within d ip mask : within offline 9 (tun_set_ip d ip mask).
Proof. unfold tun_set_ip. within_tac. Qed.
Lemma tun_set_up_within d : within offline 5 (tun_set_up d).
Proof. unfold tun_set_up. within_tac. Qed.
Lemma tun_close_within d : within offline 2 (tun_close d).
Proof. unfold tun_close. within_tac. Qed.
#[export] Hint Resolve tun_set_ip_within tun_set_up_within tun_close_within : within.

Section counting.
Context {S : Sodium}.

Lemma answer_initiation_within d ep i m ck h : within acts 5 (answer_initiation d ep i m ck h).
Proof. unfold answer_initiation. within_tac. Qed.
#[local] Hint Resolve answer_initiation_within : within.
Lemma handle_initiation_acts d ep n : within acts 5 (handle_initiation d ep n).
Proof. unfold handle_initiation. within_tac. Qed.
Lemma deliver_within d p n : within acts 2 (deliver d p n).
Proof. unfold deliver. within_tac. Qed.
#[local] Hint Resolve deliver_within : within.
Lemma handle_data_acts d ep n : within acts 2 (handle_data d ep n).
Proof. unfold handle_data. within_tac. Qed.
Lemma handle_initiation_within d ep n : within serves 5 (handle_initiation d ep n).
Proof. apply acts_serves, handle_initiation_acts. Qed.
Lemma handle_data_within d ep n : within serves 2 (handle_data d ep n).
Proof. apply acts_serves, handle_data_acts. Qed.
#[local] Hint Resolve handle_initiation_within handle_data_within : within.
Lemma handle_udp_within d : within serves 7 (handle_udp d).
Proof. unfold handle_udp. within_tac. Qed.
Lemma send_to_peer_acts d i p n : within acts 2 (send_to_peer d i p n).
Proof. unfold send_to_peer. within_tac. Qed.
Lemma send_to_peer_within d i p n : within serves 2 (send_to_peer d i p n).
Proof. apply acts_serves, send_to_peer_acts. Qed.
#[local] Hint Resolve handle_udp_within send_to_peer_within : within.
Lemma handle_tun_within d : within serves 4 (handle_tun d).
Proof. unfold handle_tun. within_tac. Qed.
#[local] Hint Resolve handle_tun_within : within.
Lemma main_iteration_within d : within serves 12 (main_iteration d).
Proof. unfold main_iteration. within_tac. Qed.
Lemma main_iteration_keeps d : within keeps_fds 12 (main_iteration d).
Proof. eapply within_weaken, main_iteration_within. by intros []. Qed.

Lemma main_loop_within fuel d : within keeps_fds (13 * fuel) (main_loop fuel d).
Proof.
  revert d. induction fuel as [|fuel IH]; intros d; [exact I|].
  replace (13 * Datatypes.S fuel)%nat with (Datatypes.S (12 + 13 * fuel)) by lia. cbn [main_loop].
  within_step. within_step; [exact I|].
  eapply within_bind; [apply main_iteration_keeps|lia|]. intros [e d'].
  replace (12 + 13 * fuel - 12)%nat with (13 * fuel)%nat by lia. by destruct e.
Qed.

Lemma main_setup_within argv : within offline 40 (main_setup argv).
Proof. unfold main_setup. within_tac. Qed.
Lemma main_cleanup_within d : within offline 6 (main_cleanup d).
Proof. unfold main_cleanup. within_tac. Qed.
End counting.
