(* ===== verification/Refinement.v ===== *)
(** * The event loop implements the state machine

    Every handler of [Daemon], run from a well-formed state against a kernel that
    keeps its promises, is one step of [Machine]: it has no undefined behaviour,
    and what it writes to the TUN device and sends on the socket is what the step's
    event says.  The loop therefore produces runs, and inherits their properties. *)

From S2P Require Import Prelude Config Libc Packet Sodium Crypto Kdf Os Inet Transport Tun Replay.
From S2P Require Import Routing Peer Handshake Machine Daemon Calls.
Local Open Scope c_scope.

(** ** Observables *)

(** Packets written to the TUN device. *)
Definition tun_writes (t : trace) : list bytes :=
  omap (λ cr, match cr.1 with Sys_write _ data => Some data | _ => None end) t.
(** Datagrams handed to the socket. *)
Definition udp_sends (t : trace) : list bytes :=
  omap (λ cr, match cr.1 with Sys_sendto _ data _ => Some data | _ => None end) t.

(** Datagrams received, and packets read from the TUN device. *)
Definition received (t : trace) : list bytes :=
  omap (λ cr, match cr.1 with
              | Sys_recvfrom _ _ => if 0 <=? r_ret cr.2 then Some (r_data cr.2) else None
              | _ => None
              end) t.
Definition tun_reads (t : trace) : list bytes :=
  omap (λ cr, match cr.1 with
              | Sys_read _ _ => if 0 <=? r_ret cr.2 then Some (r_data cr.2) else None
              | _ => None
              end) t.

Definition delivered (evs : list event) : list bytes :=
  omap (λ e, match e with Ev_accept _ _ m true => Some m | _ => None end) evs.
Definition sent (evs : list event) : list bytes :=
  omap (λ e, match e with
             | Ev_handshake _ _ r => Some r
             | Ev_send _ _ _ pkt => pkt
             | _ => None
             end) evs.

(** Packets that were sealed. *)
Definition plaintexts (evs : list event) : list bytes :=
  omap (λ e, match e with Ev_send _ _ m _ => Some m | _ => None end) evs.

Definition quiet (c : syscall) : Prop :=
  match c with Sys_write _ _ | Sys_sendto _ _ _ => False | _ => True end.

Lemma tun_writes_snoc h c r :
  tun_writes (h ++ [(c, r)]) = tun_writes h ++ match c with Sys_write _ data => [data] | _ => [] end.
Proof. unfold tun_writes. rewrite omap_app. by destruct c. Qed.
Lemma udp_sends_snoc h c r :
  udp_sends (h ++ [(c, r)]) = udp_sends h ++ match c with Sys_sendto _ data _ => [data] | _ => [] end.
Proof. unfold udp_sends. rewrite omap_app. by destruct c. Qed.

(** What the calls after [h] in [t] did, as events. *)
Definition outputs (h t : trace) (evs : list event) : Prop :=
  tun_writes t = tun_writes h ++ delivered evs ∧ udp_sends t = udp_sends h ++ sent evs.

Lemma outputs_nil h : outputs h h [].
Proof. split; by rewrite app_nil_r. Qed.

Lemma outputs_trans h1 h2 h3 e1 e2 : outputs h1 h2 e1 → outputs h2 h3 e2 → outputs h1 h3 (e1 ++ e2).
Proof.
  intros [A1 B1] [A2 B2]. unfold outputs, delivered, sent in *.
  by rewrite A2, A1, B2, B1, !omap_app, !app_assoc.
Qed.

Lemma outputs_quiet h t evs c r : quiet c → outputs h t evs → outputs h (t ++ [(c, r)]) evs.
Proof.
  intros Hq [A B]. split; [rewrite tun_writes_snoc, A|rewrite udp_sends_snoc, B];
    destruct c; (done || by rewrite app_nil_r).
Qed.

(** What prompted the events: every event has an input of its own, every session index
    handed out a datagram of 148 bytes, and every packet sealed was read from the TUN device. *)
Definition prompted (h t : trace) (evs : list event) : Prop :=
  ∃ rcv rd, received t = received h ++ rcv ∧ tun_reads t = tun_reads h ++ rd ∧
    (length (handed_out evs) <= length (filter (λ b, length b = 148%nat) rcv))%nat ∧
    plaintexts evs `sublist_of` rd ∧ (length evs <= length rcv + length rd)%nat.

Lemma received_app t u : received (t ++ u) = received t ++ received u.
Proof. apply omap_app. Qed.
Lemma tun_reads_app t u : tun_reads (t ++ u) = tun_reads t ++ tun_reads u.
Proof. apply omap_app. Qed.

(** Calls that receive nothing. *)
Definition deaf (c : syscall) : Prop := match c with Sys_recvfrom _ _ | Sys_read _ _ => False | _ => True end.

Lemma deaf_inputs u : Forall (λ cr, deaf cr.1) u → received u = [] ∧ tun_reads u = [].
Proof. by induction 1 as [|[c r] u Hc _ [IH1 IH2]]; [|destruct c]. Qed.

Lemma acts_inputs u : Forall (λ cr, acts cr.1) u → received u = [] ∧ tun_reads u = [].
Proof. intros H. apply deaf_inputs. eapply Forall_impl; [exact H|]. by intros [[] r]. Qed.

Lemma prompted_deaf h c r : deaf c → prompted h (h ++ [(c, r)]) [].
Proof.
  intros Hc. destruct (deaf_inputs [(c, r)]) as [H1 H2]; [by constructor|].
  exists [], []. rewrite received_app, tun_reads_app, H1, H2. split_and!; (done || simpl; lia).
Qed.

Lemma prompted_nil h : prompted h h [].
Proof. exists [], []. rewrite !app_nil_r. split_and!; (done || simpl; lia). Qed.

Lemma prompted_trans h1 h2 h3 e1 e2 : prompted h1 h2 e1 → prompted h2 h3 e2 → prompted h1 h3 (e1 ++ e2).
Proof.
  intros (r1 & d1 & A1 & B1 & C1 & D1 & E1) (r2 & d2 & A2 & B2 & C2 & D2 & E2).
  exists (r1 ++ r2), (d1 ++ d2). rewrite A2, A1, B2, B1, <- !app_assoc. split; [done|]. split; [done|].
  rewrite handed_out_app, filter_app, !length_app. split; [lia|]. split; [|lia].
  unfold plaintexts. rewrite omap_app. by apply sublist_app.
Qed.

(** What a received datagram can prompt. *)
Definition udp_event (n : nat) (e : event) : Prop :=
  plaintexts [e] = [] ∧ (handed_out [e] ≠ [] → n = 148%nat).

Lemma accept_udp_event n idx c m b : udp_event n (Ev_accept idx c m b).
Proof. split; [done|]. by intros []. Qed.

Lemma prompted_udp h t w oe : received t = received h ++ [w] → tun_reads t = tun_reads h →
  (∀ e, oe = Some e → udp_event (length w) e) → prompted h t (option_list oe).
Proof.
  intros Hr Hd He. exists [w], []. rewrite app_nil_r. split; [done|]. split; [done|].
  destruct oe as [e|]; cbn [option_list option_rect]; [|split_and!; (done || simpl; lia)].
  destruct (He e eq_refl) as [Hp Hn]. rewrite Hp. split; [|split; [done|simpl; lia]].
  assert (length (handed_out [e]) <= 1)%nat as H1 by apply (omap_length_le _ [e]).
  destruct (decide (handed_out [e] = [])) as [->|Hne]; [simpl; lia|].
  rewrite filter_cons_True by (by apply Hn). exact H1.
Qed.

Lemma prompted_tun h t m oe : received t = received h → tun_reads t = tun_reads h ++ [m] →
  (∀ e, oe = Some e → plaintexts [e] = [m] ∧ handed_out [e] = []) → prompted h t (option_list oe).
Proof.
  intros Hr Hd He. exists [], [m]. rewrite app_nil_r. split; [done|]. split; [done|].
  destruct oe as [e|]; cbn [option_list option_rect]; [|split_and!; (apply sublist_nil_l || simpl; lia)].
  destruct (He e eq_refl) as [-> ->]. split_and!; (done || simpl; lia).
Qed.

(** ** Well-formed daemon states *)

Record daemon_ok (d : daemon) : Prop := {
  ok_pub : length (static_pub d) = 32%nat;
  ok_priv : length (static_priv d) = 32%nat;
  ok_table : table_ok (table d);
  ok_sock : 0 <= sock_fd d;
  ok_tun : 0 <= mtu (tun d) <= VPN_MAX_PACKET_SIZE;
  ok_net : length (net_buf d) = 2048%nat ∧ bytes_ok (net_buf d);
  ok_tun_buf : length (tun_buf d) = 2048%nat ∧ bytes_ok (tun_buf d);
  ok_plain : length (plain_buf d) = 2048%nat;
  ok_cipher : length (cipher_buf d) = 2048%nat
}.

(** What a handler leaves alone. *)
Definition same_host (d d' : daemon) : Prop :=
  static_pub d' = static_pub d ∧ static_priv d' = static_priv d ∧
  sock_fd d' = sock_fd d ∧ tun d' = tun d.

(** ** The I/O functions *)

Lemma transport_send_wp h fd ep b n : 0 <= fd → endpoint_ok ep → 0 < n <= VPN_MAX_PACKET_SIZE →
  n <= Z.of_nat (length b) →
  wp any_call h (transport_send fd (Some ep) (Some b) n) (λ t _,
    tun_writes t = tun_writes h ∧ udp_sends t = udp_sends h ++ [take (Z.to_nat n) b]).
Proof.
  intros Hfd [Hl _ Hal] Hn Hb. unfold transport_send.
  replace ((fd <? 0) || (n =? 0)) with false by lia.
  replace (n >? VPN_MAX_PACKET_SIZE) with false by lia.
  wp_step. rewrite slice_ok by lia. do 2 wp_step. rewrite slice_ok by lia. do 2 wp_step. wp_step.
  change (drop (Z.to_nat 0) b) with b.
  wp_step; [wp_step; [|wp_step; apply wp_log; intros r' _]|]; wp_step;
    rewrite ?tun_writes_snoc, ?udp_sends_snoc, ?app_nil_r; done.
Qed.

Lemma tun_write_wp h dev b n : 0 <= fd dev → 0 <= mtu dev <= VPN_MAX_PACKET_SIZE → 0 < n →
  n <= Z.of_nat (length b) →
  wp any_call h (tun_write (Some dev) (Some b) n) (λ t _,
    tun_writes t = tun_writes h ++ (if n <=? mtu dev then [take (Z.to_nat n) b] else []) ∧
    udp_sends t = udp_sends h).
Proof.
  intros Hfd Hm Hn Hb. unfold VPN_MAX_PACKET_SIZE in Hm. unfold tun_write.
  replace ((fd dev <? 0) || (n =? 0)) with false by lia. rewrite u64_small by (split; lia).
  destruct (n <=? mtu dev) eqn:E.
  - replace (n >? mtu dev) with false by lia. wp_step. rewrite slice_ok by lia. do 2 wp_step. wp_step.
    change (drop (Z.to_nat 0) b) with b.
    wp_step; [wp_step; [|wp_step; apply wp_log; intros r' _]|]; wp_step;
      rewrite ?tun_writes_snoc, ?udp_sends_snoc, ?app_nil_r; done.
  - replace (n >? mtu dev) with true by lia. wp_step. apply wp_log. intros r' _. wp_step.
    by rewrite tun_writes_snoc, udp_sends_snoc, !app_nil_r.
Qed.

(** A receive: either nothing arrived, or [n] fresh bytes are at the front of the
    buffer. *)
Lemma blit_front (b m : bytes) : (length m <= length b)%nat →
  blit b 0 m = Some (m ++ drop (length m) b).
Proof.
  intros H. rewrite <- (take_drop (length m) b) at 1. apply blit_0. rewrite length_take. lia.
Qed.

Lemma transport_recv_wp h f src b : 0 <= f → length b = 2048%nat → bytes_ok b → endpoint_ok src →
  wp any_call h (transport_recv f (Some src) (Some b) VPN_MAX_PACKET_SIZE) (λ t r,
    outputs h t [] ∧ ∃ n ep b', r = (n, Some ep, Some b') ∧ endpoint_ok ep ∧
      length b' = 2048%nat ∧ bytes_ok b' ∧ n <= 2048 ∧
      tun_reads t = tun_reads h ∧ ∃ rcv, received t = received h ++ rcv ∧
        (0 < n → rcv = [take (Z.to_nat n) b'])).
Proof.
  intros Hf Hl Hb Hsrc. unfold transport_recv. change (VPN_MAX_PACKET_SIZE =? 0) with false.
  replace ((f <? 0) || false) with false by lia. wp_step. apply wp_call; [done|]. intros r [_ Hr].
  wp_step; [wp_step; [|wp_step; apply wp_log; intros r' Hr']|].
  - wp_step. split; [apply outputs_quiet; [done|apply outputs_nil]|]. do 3 eexists. split; [done|].
    split_and!; try (done || lia); [by rewrite !tun_reads_app, !app_nil_r|].
    eexists. split; [by rewrite !received_app, <- ?app_assoc|lia].
  - wp_step. split; [do 2 (apply outputs_quiet; [done|]); apply outputs_nil|].
    do 3 eexists. split; [done|].
    split_and!; try (done || lia); [by rewrite !tun_reads_app, !app_nil_r|].
    eexists. split; [by rewrite !received_app, <- ?app_assoc|lia].
  - destruct Hr as (Hlen & Hmax & Hrb & Ha & Hab & Hal); [lia|]. unfold VPN_MAX_PACKET_SIZE in Hmax.
    wp_step. rewrite blit_front by lia.
    do 2 wp_step. split; [apply outputs_quiet; [done|apply outputs_nil]|].
    do 3 eexists. split; [done|]. split_and!; [by split|rewrite length_app, length_drop; lia| |lia|..].
    + apply Forall_app_2; [done|by apply Forall_drop].
    + by rewrite tun_reads_app, app_nil_r.
    + rewrite received_app. eexists. split; [done|]. intros _. rewrite take_app_length' by lia.
      cbn. by replace (0 <=? r_ret r) with true by lia.
Qed.

Lemma tun_read_wp h dev b : 0 <= fd dev → length b = 2048%nat → bytes_ok b →
  wp any_call h (tun_read (Some dev) (Some b) VPN_MAX_PACKET_SIZE) (λ t r,
    outputs h t [] ∧ ∃ n b', r = (n, Some b') ∧ length b' = 2048%nat ∧ bytes_ok b' ∧ n <= 2048 ∧
      received t = received h ∧ ∃ rd, tun_reads t = tun_reads h ++ rd ∧
        (0 < n → rd = [take (Z.to_nat n) b'])).
Proof.
  intros Hf Hl Hb. unfold tun_read. change (VPN_MAX_PACKET_SIZE =? 0) with false.
  replace ((fd dev <? 0) || false) with false by lia. wp_step. apply wp_call; [done|]. intros r [_ Hr].
  wp_step; [wp_step; [|wp_step; apply wp_log; intros r' Hr']|].
  - wp_step. split; [apply outputs_quiet; [done|apply outputs_nil]|]. do 2 eexists. split; [done|].
    split_and!; try (done || lia); [by rewrite !received_app, !app_nil_r|].
    eexists. split; [by rewrite !tun_reads_app, <- ?app_assoc|lia].
  - wp_step. split; [do 2 (apply outputs_quiet; [done|]); apply outputs_nil|].
    do 2 eexists. split; [done|].
    split_and!; try (done || lia); [by rewrite !received_app, !app_nil_r|].
    eexists. split; [by rewrite !tun_reads_app, <- ?app_assoc|lia].
  - destruct Hr as (Hlen & Hmax & Hrb); [lia|]. unfold VPN_MAX_PACKET_SIZE in Hmax.
    wp_step. rewrite blit_front by lia.
    do 2 wp_step. split; [apply outputs_quiet; [done|apply outputs_nil]|].
    do 2 eexists. split; [done|]. split_and!; [rewrite length_app, length_drop; lia| |lia|..].
    + apply Forall_app_2; [done|by apply Forall_drop].
    + by rewrite received_app, app_nil_r.
    + rewrite tun_reads_app. eexists. split; [done|]. intros _. rewrite take_app_length' by lia.
      cbn. by replace (0 <=? r_ret r) with true by lia.
Qed.

(** ** Inbound data *)

Lemma parse_data_inv b n o pd : bytes_ok b → n <= Z.of_nat (length b) →
  packet_parse_data (Some b) n (Some o) = Some (0, Some pd) →
  is_u32 (pd_receiver_index pd) ∧ is_u64 (pd_counter pd) ∧
  ∃ ct tag rest, length tag = 16%nat ∧ (length ct <= 1440)%nat ∧
    pd_ciphertext_len pd = Z.of_nat (length ct) ∧
    pd_auth_tag pd = 16 + Z.of_nat (length ct) ∧
    pd_ciphertext pd = (if pd_ciphertext_len pd >? 0 then Some 16 else NULL) ∧
    drop 16 b = ct ++ tag ++ rest.
Proof.
  intros Hb Hn. unfold packet_parse_data. change PACKET_DATA_MIN_LEN with 32.
  change PACKET_DATA_MAX_LEN with 1472. change PACKET_DATA_HEADER_LEN with 16.
  destruct (n <? 32) eqn:E1; [done|]. destruct (n >? 1472) eqn:E2; [done|].
  intros H. c_cases. destruct (_ && _) in H; [done|]. c_cases. simplify_eq.
  rewrite u64_small by (split; lia). cbn [pd_receiver_index pd_counter pd_ciphertext_len
    pd_auth_tag pd_ciphertext].
  destruct (slice_is_Some b 4 4) as (d4 & Hd4 & Hb4 & _); [lia..|].
  destruct (slice_is_Some b 8 8) as (d8 & Hd8 & Hb8 & _); [lia..|].
  destruct (le32_bytes_read b 4 d4 Hd4 (Hb4 Hb)) as (v & Hv & Hvu & _).
  destruct (le64_bytes_read b 8 d8 Hd8 (Hb8 Hb)) as (w & Hw & Hwu & _). simplify_eq.
  split_and!; [done..|]. set (k := Z.to_nat (n - 32)).
  exists (take k (drop 16 b)), (take 16 (drop k (drop 16 b))), (drop 16 (drop k (drop 16 b))).
  rewrite !take_drop. rewrite !length_take, !length_drop. split_and!; lia || done.
Qed.

Section handlers.
Context {S : Sodium} {SL : SodiumLaws S}.

(** A handler's postcondition: it was one step of the machine, with an event in [K] if any. *)
Definition handled (K : event → Prop) (h : trace) (d : daemon) (t : trace) (d' : daemon) : Prop :=
  ∃ oe, (∀ e, oe = Some e → K e) ∧
        step (static_priv d) (static_pub d) (tun d) (table d) oe (table d') ∧
        daemon_ok d' ∧ same_host d d' ∧ outputs h t (option_list oe).

(** More precisely: it did [e] and left the peer table [tb]. *)
Definition did (h : trace) (d : daemon) (e : event) (tb : vpn_peer_table_t)
    (t : trace) (d' : daemon) : Prop :=
  table d' = tb ∧ daemon_ok d' ∧ same_host d d' ∧ outputs h t [e].

Lemma did_handled (K : event → Prop) h d e tb t d' : K e →
  step (static_priv d) (static_pub d) (tun d) (table d) (Some e) tb → did h d e tb t d' →
  handled K h d t d'.
Proof.
  intros HK Hs (Ht & Hok & Hh & Ho). exists (Some e). rewrite Ht. split; [by intros ? [= <-]|done].
Qed.

Lemma handled_silent K h d t d' : daemon_ok d' → same_host d d' → table d' = table d →
  outputs h t [] → handled K h d t d'.
Proof. intros Hok Hs Ht Ho. exists None. rewrite Ht. by split_and!; [|constructor|..]. Qed.

(** The postcondition of the two handlers that take their input from a descriptor. *)
Definition served (h : trace) (d : daemon) (t : trace) (d' : daemon) : Prop :=
  ∃ oe, step (static_priv d) (static_pub d) (tun d) (table d) oe (table d') ∧
        daemon_ok d' ∧ same_host d d' ∧ outputs h t (option_list oe) ∧ prompted h t (option_list oe).

Lemma served_handled K h d t d' : handled K h d t d' →
  (∀ oe, (∀ e, oe = Some e → K e) → prompted h t (option_list oe)) → served h d t d'.
Proof.
  intros (oe & HK & Hs & Hok & Hh & Ho) Hp. exists oe. split_and!; [done..|by apply Hp].
Qed.

Lemma served_silent h d t d' : daemon_ok d' → same_host d d' → table d' = table d →
  outputs h t [] → prompted h t [] → served h d t d'.
Proof. intros Hok Hs Ht Ho Hp. exists None. rewrite Ht. by split_and!; [constructor|..]. Qed.

Lemma ip_at_of m rest off : (off + 4 <= length m)%nat →
  ip_at (m ++ rest) (Z.of_nat off) = Some (ip_of m off).
Proof.
  intros Hl. unfold ip_at.
  replace (Z.of_nat off + 1) with (Z.of_nat (off + 1)) by lia.
  replace (Z.of_nat off + 2) with (Z.of_nat (off + 2)) by lia.
  replace (Z.of_nat off + 3) with (Z.of_nat (off + 3)) by lia.
  rewrite !rd_nat, !lookup_app_l by lia. unfold ip_of.
  destruct (lookup_lt_is_Some_2 m off) as [a ->]; [lia|].
  destruct (lookup_lt_is_Some_2 m (off + 1)) as [b ->]; [lia|].
  destruct (lookup_lt_is_Some_2 m (off + 2)) as [c ->]; [lia|].
  by destruct (lookup_lt_is_Some_2 m (off + 3)) as [e ->]; [lia|].
Qed.

Lemma deliver_wp h d p m rest n idx c : peer_ok p → 0 <= mtu (tun d) <= VPN_MAX_PACKET_SIZE →
  plain_buf d = m ++ rest → n = Z.of_nat (length m) →
  wp any_call h (deliver d p n) (λ t _,
    outputs h t [Ev_accept idx c m (bool_decide (deliverable (tun d) p m))]).
Proof.
  intros Hp Hm Hbuf Hn. unfold deliver.
  destruct ((n >=? 20) && (fd (tun d) >=? 0)) eqn:E.
  - apply andb_prop in E as [E1 E2]. rewrite Hbuf. wp_step.
    change (ip_at (m ++ rest) 12) with (ip_at (m ++ rest) (Z.of_nat 12)).
    rewrite ip_at_of by lia. wp_step. wp_step. rewrite allows_source_eq by done.
    wp_step. case_bool_decide as Ha.
    + wp_step. eapply wp_mono; [|apply tun_write_wp; [lia|done|lia|rewrite length_app; lia]].
      cbn beta. intros t _ [H1 H2]. wp_step. unfold outputs. rewrite H1, H2. cbn.
      destruct (n <=? mtu (tun d)) eqn:E3.
      * rewrite bool_decide_true by (split; [lia|split; [lia|done]]).
        rewrite Hn, Nat2Z.id, take_app_length, app_nil_r. done.
      * rewrite bool_decide_false by (intros [? _]; lia). by rewrite !app_nil_r.
    + wp_step. apply wp_log. intros r' _. wp_step. rewrite bool_decide_false by (by intros (_ & _ & ?)).
      apply (outputs_quiet h h []); [done|apply outputs_nil].
  - wp_step. rewrite bool_decide_false; [apply outputs_nil|].
    intros (? & ? & _). lia.
Qed.

Lemma networks_moved p ep : networks (moved p ep) = networks p.
Proof. unfold moved. by case_bool_decide. Qed.
Lemma networks_set_session p slot s : networks (set_session p slot s) = networks p.
Proof. by destruct slot. Qed.

Lemma deliverable_same dev p p' m : networks p' = networks p →
  deliverable dev p' m ↔ deliverable dev p m.
Proof. intros H. unfold deliverable, allows. by rewrite H. Qed.

(** Decryption of the parsed packet into the plaintext buffer. *)
Lemma decrypt_parsed d pd ct tag rest k :
  drop 16 (net_buf d) = ct ++ tag ++ rest → length tag = 16%nat → (length ct <= 1440)%nat →
  pd_ciphertext_len pd = Z.of_nat (length ct) → pd_auth_tag pd = 16 + Z.of_nat (length ct) →
  pd_ciphertext pd = (if pd_ciphertext_len pd >? 0 then Some 16 else NULL) →
  length (plain_buf d) = 2048%nat → length k = 32%nat →
  vpn_crypto_aead_decrypt (Some (plain_buf d))
    ((λ off, drop (Z.to_nat off) (net_buf d)) <$> pd_ciphertext pd) (pd_ciphertext_len pd)
    (Some (drop (Z.to_nat (pd_auth_tag pd)) (net_buf d))) NULL 0 (pd_counter pd) (Some k) =
  Some (if (unseal ct tag [] (pd_counter pd) k).1 =? 0 then 0 else - EBADMSG,
        Some ((unseal ct tag [] (pd_counter pd) k).2 ++ drop (length ct) (plain_buf d))).
Proof.
  intros Hd Htag Hct Hlen Hat Hptr Hpl Hk. rewrite Hat.
  replace (Z.to_nat (16 + Z.of_nat (length ct))) with (16 + length ct)%nat by lia.
  rewrite <- drop_drop, Hd, drop_app_length. apply aead_decrypt_gen; try done; [| |lia].
  - rewrite Hptr. destruct (pd_ciphertext_len pd >? 0) eqn:E; cbn [fmap option_fmap option_map].
    + change (Z.to_nat 16) with 16%nat. rewrite Hd. by apply arg_app.
    + unfold arg. rewrite E. destruct ct; [done|cbn [length] in Hlen; lia].
  - rewrite Hptr. destruct (pd_ciphertext_len pd >? 0) eqn:E; [done|]. lia.
Qed.

Lemma unseal_length ct tag ad c k : length (unseal ct tag ad c k).2 = length ct.
Proof. apply aead_decrypt_length. Qed.

(** The table after an accepted packet, as the handler computes it. *)
Lemma accept_table t i p slot f ep : table_ok t → live t !! i = Some p →
  peer_ok (set_session p slot (set_filter (get_session p slot) f)) → endpoint_ok ep →
  peer_update_endpoint (Some (set_session p slot (set_filter (get_session p slot) f))) (Some ep) =
    Some (if bool_decide (is_Some (identity (endpoint p)) ∧ identity (endpoint p) = identity ep)
          then 0 else 1,
          Some (moved (set_session p slot (set_filter (get_session p slot) f)) ep)) ∧
  set_peer t (Z.of_nat i) (moved (set_session p slot (set_filter (get_session p slot) f)) ep) =
    Some (put t i (moved (set_session p slot (set_filter (get_session p slot) f)) ep)
            (next_local_index t)).
Proof.
  intros Ht Hi Hp He. split.
  - rewrite update_endpoint_eq by (done || apply Hp). unfold moved.
    replace (endpoint (set_session p slot _)) with (endpoint p) by (by destruct slot).
    by case_bool_decide.
  - by eapply set_peer_eq.
Qed.

(** ** One data packet *)

(** The table an accepted packet of peer [i] leaves. *)
Definition accept_put (t : vpn_peer_table_t) (i : nat) (p : vpn_peer_t) (slot : session_slot)
    (f : replay_filter_t) (ep : vpn_endpoint_t) : vpn_peer_table_t :=
  put t i (moved (set_session p slot (set_filter (get_session p slot) f)) ep) (next_local_index t).

(** The session in [slot] of peer [i] takes the packet, as [m]. *)
Definition takes (t : vpn_peer_table_t) (idx c : Z) (ct tag : bytes) (i : nat) (p : vpn_peer_t)
    (slot : session_slot) (m : bytes) (f : replay_filter_t) : Prop :=
  idx ≠ 0 ∧ list_find (λ p, is_Some (slot_of p idx)) (live t) = Some (i, p) ∧
  slot_of p idx = Some slot ∧
  replay_check (Some (replay_filter (get_session p slot))) c = Some 1 ∧
  unseal ct tag [] c (recv_key (get_session p slot)) = (0, m) ∧
  replay_update (Some (replay_filter (get_session p slot))) c = Some (Some f).

Lemma slot_of_state p idx slot : slot_of p idx = Some slot →
  state (get_session p slot) = SESSION_STATE_ESTABLISHED.
Proof.
  intros [H _]%slot_of_Some. unfold established in H. by case_bool_decide.
Qed.

(** The lookups and the window on a well-formed table. *)
Lemma session_found t idx c i p slot : table_ok t → is_u64 c →
  list_find (λ p, is_Some (slot_of p idx)) (live t) = Some (i, p) → slot_of p idx = Some slot →
  live t !! i = Some p ∧ get_peer t (Z.of_nat i) = Some p ∧ peer_ok p ∧
  length (recv_key (get_session p slot)) = 32%nat ∧
  (∃ b : bool, replay_check (Some (replay_filter (get_session p slot))) c = Some (if b then 1 else 0)) ∧
  ∃ f, replay_update (Some (replay_filter (get_session p slot))) c = Some (Some f).
Proof.
  intros Ht Hc Hfind Hslot. apply list_find_Some in Hfind as (Hi & _ & _).
  destruct (live_get t Ht i p Hi) as [Hget Hp].
  pose proof (get_session_ok p slot Hp) as [_ _ Hrk _ (hist & Hh & Hrep)].
  destruct (represents_update _ _ Hrep c Hc) as (f & Hup & _).
  split_and!; [done..| |by exists f]. exists (window_accepts hist c). by apply represents_check.
Qed.

Lemma takes_dec t idx c ct tag : table_ok t → is_u64 c →
  (∃ i p slot m f, takes t idx c ct tag i p slot m f) ∨
  ¬ (∃ i p slot m f, takes t idx c ct tag i p slot m f).
Proof.
  intros Ht Hc.
  assert (∀ P : Prop, (∀ i p slot m f, takes t idx c ct tag i p slot m f → False) →
    P ∨ ¬ ∃ i p slot m f, takes t idx c ct tag i p slot m f) as Hno.
  { intros P H. right. intros (i & p & slot & m & f & Htk). by eapply H. }
  destruct (decide (idx = 0)) as [|Hidx]; [by apply Hno; intros ? ? ? ? ? [H _]|].
  destruct (list_find (λ p, is_Some (slot_of p idx)) (live t)) as [[i p]|] eqn:Hf.
  2: { apply Hno. intros ? ? ? ? ? (_ & H & _). congruence. }
  pose proof Hf as H. apply list_find_Some in H as (_ & [slot Hs] & _).
  destruct (session_found t idx c i p slot Ht Hc Hf Hs) as (_ & _ & _ & _ & [[] Hck] & [f Hup]).
  2: { apply Hno. intros i' p' slot' m f' (_ & Hf' & Hs' & Hck' & _).
       rewrite Hf in Hf'. injection Hf' as <- <-. rewrite Hs in Hs'. injection Hs' as <-. congruence. }
  destruct (unseal ct tag [] c (recv_key (get_session p slot))) as [rc m] eqn:Hun.
  destruct (decide (rc = 0)) as [->|Hrc]; [left; by exists i, p, slot, m, f|].
  apply Hno. intros i' p' slot' m' f' (_ & Hf' & Hs' & _ & Hun' & _).
  rewrite Hf in Hf'. injection Hf' as <- <-. rewrite Hs in Hs'. injection Hs' as <-. congruence.
Qed.

Section inbound.
Variables (d : daemon) (ep : vpn_endpoint_t) (n : Z) (pd : packet_data_t) (ct tag rest : bytes).
Hypothesis (Hok : daemon_ok d).
Hypothesis (Hep : endpoint_ok ep).
Hypothesis (Hparse :
  packet_parse_data (Some (net_buf d)) n (Some (mk_packet_data 0 0 NULL 0 0)) = Some (0, Some pd)).
Hypothesis (Hc : is_u64 (pd_counter pd)).
Hypothesis (Htag : length tag = 16%nat).
Hypothesis (Hct : (length ct <= 1440)%nat).
Hypothesis (Hlen : pd_ciphertext_len pd = Z.of_nat (length ct)).
Hypothesis (Hat : pd_auth_tag pd = 16 + Z.of_nat (length ct)).
Hypothesis (Hptr : pd_ciphertext pd = (if pd_ciphertext_len pd >? 0 then Some 16 else NULL)).
Hypothesis (Hd : drop 16 (net_buf d) = ct ++ tag ++ rest).
Abbreviation idx := (pd_receiver_index pd).
Abbreviation c := (pd_counter pd).

Lemma plain_ok m : length m = length ct →
  daemon_ok (set_plain_buf d (m ++ drop (length ct) (plain_buf d))).
Proof.
  intros Hm. destruct Hok as [? ? ? ? ? ? ? Hpl ?]. split; try done.
  cbn [plain_buf set_plain_buf]. rewrite length_app, length_drop. lia.
Qed.

(** A packet no session takes changes nothing but the plaintext buffer. *)
Lemma handle_data_rejects h : ¬ (∃ i p slot m f, takes (table d) idx c ct tag i p slot m f) →
  wp any_call h (handle_data d ep n) (λ t d',
    t = h ∧ table d' = table d ∧ daemon_ok d' ∧ same_host d d').
Proof.
  intros Hno. pose proof (ok_table d Hok) as Ht. unfold handle_data. rewrite Hparse. do 4 wp_step.
  change (0 =? 0) with true. cbn iota. wp_step. rewrite find_by_index_eq by done. wp_step.
  destruct (Z.eqb_spec idx 0) as [|Hidx]; [by wp_step|].
  destruct (list_find _ (live (table d))) as [[i p]|] eqn:Hfind; cbn [mbind option_bind fst snd];
    [|by wp_step].
  pose proof Hfind as Hf. apply list_find_Some in Hf as (_ & [slot Hslot] & _).
  rewrite Hslot. cbn [mbind option_bind].
  destruct (session_found _ _ c _ _ _ Ht Hc Hfind Hslot) as (Hi & Hget & Hp & Hrk & [b Hck] & [f Hup]).
  rewrite Hget. do 2 wp_step. wp_step; [|by wp_step]. rewrite Hck. do 2 wp_step.
  destruct b; cbn [Z.eqb negb]; [|by wp_step].
  rewrite (decrypt_parsed d pd ct tag rest) by (done || apply Hok). do 3 wp_step. wp_step.
  pose proof (unseal_length ct tag [] c (recv_key (get_session p slot))) as Hml.
  destruct (unseal ct tag [] c (recv_key (get_session p slot))) as [urc m] eqn:Hun.
  cbn [fst snd] in *. destruct (Z.eqb_spec urc 0) as [->|_].
  - destruct Hno. by exists i, p, slot, m, f.
  - change (- EBADMSG =? 0) with false. cbn iota. wp_step. split_and!; [done|done|by apply plain_ok|done].
Qed.

(** A packet a session takes is authenticated, committed to the window and offered to
    the TUN device. *)
Lemma handle_data_accepts h i p slot m f : takes (table d) idx c ct tag i p slot m f →
  step (static_priv d) (static_pub d) (tun d) (table d)
    (Some (Ev_accept idx c m (bool_decide (deliverable (tun d) p m))))
    (accept_put (table d) i p slot f ep) ∧
  wp any_call h (handle_data d ep n)
    (did h d (Ev_accept idx c m (bool_decide (deliverable (tun d) p m)))
       (accept_put (table d) i p slot f ep)).
Proof.
  intros (Hidx & Hfind & Hslot & Hck & Hun & Hup). pose proof (ok_table d Hok) as Ht.
  assert (step (static_priv d) (static_pub d) (tun d) (table d)
    (Some (Ev_accept idx c m (bool_decide (deliverable (tun d) p m))))
    (accept_put (table d) i p slot f ep)) as Hstep by (by eapply step_accept).
  split; [done|].
  destruct (session_found _ _ c _ _ _ Ht Hc Hfind Hslot) as (Hi & Hget & Hp & Hrk & _ & _).
  pose proof (set_session_ok p slot _ Hp (set_filter_ok _ _ f (get_session_ok p slot Hp) Hc Hup)) as Hp'.
  destruct (accept_table (table d) i p slot f ep Ht Hi Hp' Hep) as [Hue Hsp].
  pose proof (unseal_length ct tag [] c (recv_key (get_session p slot))) as Hml.
  rewrite Hun in Hml. cbn [snd] in Hml. unfold handle_data. rewrite Hparse. do 4 wp_step.
  change (0 =? 0) with true. cbn iota. wp_step.
  rewrite find_by_index_eq by done. wp_step. destruct (Z.eqb_spec idx 0) as [|_]; [done|].
  rewrite Hfind. cbn [mbind option_bind fst snd]. rewrite Hslot. cbn [mbind option_bind].
  rewrite Hget. do 2 wp_step. rewrite bool_decide_true by (by eapply slot_of_state).
  rewrite Hck. do 2 wp_step. cbn [Z.eqb negb].
  rewrite (decrypt_parsed d pd ct tag rest), Hun by (done || apply Hok). do 3 wp_step. wp_step.
  cbn [fst snd Z.eqb]. cbn iota.
  rewrite Hup. do 2 wp_step. do 2 wp_step. rewrite Hue. do 2 wp_step. do 2 wp_step.
  wp_step. cbn [table set_plain_buf]. rewrite Hsp. wp_step. set (p' := moved _ ep).
  wp_step. eapply wp_mono; [|apply (deliver_wp h _ p' m (drop (length ct) (plain_buf d)) _ idx c);
    [by apply moved_ok|apply Hok|done|by rewrite Hml]].
  cbn beta. intros t _ Hout. wp_step. split_and!; [done| |done|].
  - pose proof (step_table_ok _ _ _ _ _ _ Hstep Ht). destruct (plain_ok m Hml). by split.
  - assert (networks p' = networks p) as Hnet
      by (unfold p'; by rewrite networks_moved, networks_set_session).
    cbn [set_table set_plain_buf tun] in Hout.
    by rewrite (bool_decide_ext _ _ (deliverable_same (tun d) p p' m Hnet)) in Hout.
Qed.
End inbound.

Lemma handle_data_wp h d ep n : daemon_ok d → endpoint_ok ep → n <= 2048 →
  wp any_call h (handle_data d ep n) (handled (udp_event (Z.to_nat n)) h d).
Proof.
  intros Hok Hep Hn. pose proof Hok as [Hpub Hpriv Ht Hsock Htun [Hnl Hnb] Htb Hpl Hci].
  destruct (parse_data_safe (net_buf d) n (mk_packet_data 0 0 NULL 0 0)) as
    (rc & o' & Hparse & _ & Herr & Hsome); [lia|].
  assert (is_Some o') as [pd ->] by (destruct (decide (rc = 0)); [auto|rewrite Herr by done; eauto]).
  destruct (decide (rc = 0)) as [->|Hrc0].
  2: { unfold handle_data. rewrite Hparse. do 4 wp_step. test_false (rc =? 0). wp_step.
       apply handled_silent; (done || apply outputs_nil). }
  destruct (parse_data_inv (net_buf d) n _ pd Hnb ltac:(lia) Hparse) as
    (Hri & Hrc & ct & tag & rest & Htag & Hct & Hlen & Hat & Hptr & Hd).
  destruct (takes_dec (table d) (pd_receiver_index pd) (pd_counter pd) ct tag Ht Hrc)
    as [(i & p & slot & m & f & Htk)|Hno].
  - destruct (handle_data_accepts d ep n pd ct tag rest Hok Hep Hparse Hrc Htag Hct Hlen Hat Hptr Hd
      h i p slot m f Htk) as [Hstep Hwp].
    eapply wp_mono; [intros t d'; apply did_handled; [by apply accept_udp_event|done]|exact Hwp].
  - eapply wp_mono; [|by eapply handle_data_rejects]. cbn beta. intros t d' (-> & Htab & Hok' & Hh).
    apply handled_silent; (done || apply outputs_nil).
Qed.

(** ** Inbound handshakes *)

Lemma resp_wire_length m : resp_ok m → length (resp_wire m) = 92%nat.
Proof.
  intros [_ _ He Hn H1 H2]. unfold resp_wire. rewrite !length_app, He, Hn, H1, H2. done.
Qed.

(** The table after a handshake, as the handler computes it. *)
Lemma handshake_table t next i p s now ep : table_ok t → live t !! i = Some p → peer_ok p →
  session_ok s → endpoint_ok ep →
  (∃ rc, peer_update_endpoint (Some (rekeyed p s now)) (Some ep) =
           Some (rc, Some (moved (rekeyed p s now) ep))) ∧
  set_peer (mk_table (peers t) (peer_count t) next) (Z.of_nat i) (moved (rekeyed p s now) ep) =
    Some (put t i (moved (rekeyed p s now) ep) next).
Proof.
  intros Ht Hi Hp Hs He. split.
  - rewrite update_endpoint_eq by (done || apply Hp). unfold moved.
    change (endpoint (rekeyed p s now)) with (endpoint p). by case_bool_decide; eexists.
  - unfold set_peer. cbn [peers peer_count next_local_index]. apply lookup_take_Some in Hi as [_ Hi].
    destruct Ht as [Hl Hc _ _ _]. rewrite wr_lt by lia. by rewrite Nat2Z.id.
Qed.

Section answer.
Variables (d : daemon) (ep : vpn_endpoint_t) (m : packet_handshake_init_t).
Variables (i : nat) (p : vpn_peer_t).
Hypothesis (Hok : daemon_ok d).
Hypothesis (Hep : endpoint_ok ep).
Hypothesis (Hm : init_ok m).
Hypothesis (Hacc : acceptable (static_priv d) (static_pub d) (table d) m i p).

Abbreviation ck := (ri_ck3 (static_priv d) (static_pub d) m).
Abbreviation hh := (ri_h3 (static_pub d) m).
Abbreviation idx := (next_local_index (table d)).

Lemma answer_peer : get_peer (table d) (Z.of_nat i) = Some p ∧ peer_ok p.
Proof. apply live_get; [apply Hok|apply Hacc]. Qed.

(** The response built from the drawn ephemeral key. *)
Lemma answer_response e : length e = 32%nat →
  handshake_create_response (Some (local PACKET_HANDSHAKE_RESP_LEN)) PACKET_HANDSHAKE_RESP_LEN
    (Some (static_priv d)) (Some (hi_unencrypted_ephemeral m)) (Some (public_key p)) idx
    (hi_sender_index m) (Some ck) (Some hh) (Some (local VPN_KEY_LEN)) (Some (local VPN_KEY_LEN)) e =
  Some (if ((crypto_scalarmult e (hi_unencrypted_ephemeral m)).1 =? 0) &&
           ((crypto_scalarmult e (public_key p)).1 =? 0)
        then (92, Some (resp_wire (resp_msg ck hh e (hi_unencrypted_ephemeral m) (public_key p) idx
                                     (hi_sender_index m))),
              Some (hkdf (session_ck (static_priv d) (static_pub d) m p e) [] 1),
              Some (hkdf (session_ck (static_priv d) (static_pub d) m p e) [] 2))
        else (- EFAULT, Some (local PACKET_HANDSHAKE_RESP_LEN), Some (local VPN_KEY_LEN),
              Some (local VPN_KEY_LEN))).
Proof.
  intros He. destruct answer_peer as [_ Hp]. destruct (peer_key p Hp) as [Hk _].
  rewrite (create_response_eq (local PACKET_HANDSHAKE_RESP_LEN) PACKET_HANDSHAKE_RESP_LEN);
    try done; try apply Hm; [|by apply ri_ck3_length|apply ri_h3_length|apply Hok].
  rewrite drop_ge, app_nil_r by done. done.
Qed.

Lemma answer_new_session e now : length e = 32%nat →
  session_ok (new_session idx (hi_sender_index m)
    (hkdf (session_ck (static_priv d) (static_pub d) m p e) [] 1)
    (hkdf (session_ck (static_priv d) (static_pub d) m p e) [] 2) now).
Proof.
  intros He. assert (length (session_ck (static_priv d) (static_pub d) m p e) = 32%nat)
    by (apply resp_ck_length, ri_ck3_length).
  apply new_session_ok; [apply Hok|apply Hm|by apply hkdf_length..].
Qed.

(** What the peer table becomes, and what is sent, for the ephemeral key [e]. *)
Definition answer_put (e : bytes) (now1 now2 : Z) : vpn_peer_table_t :=
  put (table d) i
    (moved (rekeyed p (new_session idx (hi_sender_index m)
       (hkdf (session_ck (static_priv d) (static_pub d) m p e) [] 1)
       (hkdf (session_ck (static_priv d) (static_pub d) m p e) [] 2) now1) now2) ep)
    (u32 (idx + 1)).
Definition answer_wire (e : bytes) : bytes :=
  resp_wire (resp_msg ck hh e (hi_unencrypted_ephemeral m) (public_key p) idx (hi_sender_index m)).

(** Both Diffie-Hellman computations of the response succeed. *)
Definition answerable (e : bytes) : Prop :=
  (crypto_scalarmult e (hi_unencrypted_ephemeral m)).1 = 0 ∧ (crypto_scalarmult e (public_key p)).1 = 0.

(** What answering did: a session and a response, or an index used up. *)
Definition answered (h t : trace) (d' : daemon) : Prop :=
  ∃ e, length e = 32%nat ∧
    ((answerable e ∧ ∃ now1 now2, did h d (Ev_handshake i idx (answer_wire e)) (answer_put e now1 now2) t d') ∨
     (¬ answerable e ∧ did h d (Ev_wasted idx)
        (mk_table (peers (table d)) (peer_count (table d)) (u32 (idx + 1))) t d')).

Lemma answered_handled h t d' : answered h t d' → handled (udp_event 148) h d t d'.
Proof.
  intros (e & He & [([H1 H2] & now1 & now2 & Hd)|[_ Hd]]); (eapply did_handled; [| |exact Hd]; [by split|]).
  - by apply (step_handshake _ _ _ (table d) m i p e now1 now2 ep).
  - by apply (step_wasted _ _ _ _ m i p).
Qed.

Lemma answer_wire_length e : length e = 32%nat → length (answer_wire e) = 92%nat.
Proof.
  intros He. apply resp_wire_length, resp_msg_ok; [by apply ri_ck3_length|done|apply Hok|apply Hm].
Qed.

Lemma answer_initiation_does h :
  wp any_call h (answer_initiation d ep (Z.of_nat i) m (Some ck) (Some hh)) (answered h).
Proof.
  pose proof (ok_table d Hok) as Ht. pose proof (acc_peer _ _ _ _ _ _ Hacc) as Hi.
  destruct answer_peer as [Hget Hp]. unfold answer_initiation. unfold get_peer at 1. cbn [peers].
  fold (get_peer (table d) (Z.of_nat i)). rewrite Hget. do 2 wp_step.
  wp_step. apply wp_call; [done|]. intros rand [_ [Hrand _]].
  assert (length (r_data rand) = 32%nat) as Hrl by lia. clear Hrand.
  rewrite answer_response by done. do 2 wp_step. destruct (_ && _) eqn:Hdh; wp_step.
  2: { change (- EFAULT >? 0) with false. cbn iota. wp_step. rewrite memzero_key by done. do 4 wp_step. wp_step.
       exists (r_data rand). split; [done|]. right. split; [unfold answerable; lia|].
       split_and!; [done| |done|apply (outputs_quiet h h); [done|split; by rewrite app_nil_r]].
       destruct Hok as [? ? [? ? ? ? ?] ? ? ? ? ? ?]. split; try done. split; try done. apply u32_uint. }
  change (92 >? 0) with true. cbn iota. apply andb_prop in Hdh as [Hd1 Hd2]. bool_to_prop.
  do 2 wp_step. do 2 wp_step. pose proof (answer_new_session (r_data rand) (r_ret r) Hrl) as Hs.
  rewrite init_session_eq; [|done|apply Hs|apply Hs]. do 2 wp_step.
  match goal with |- context [set_last_handshake_time (set_sessions p ?s ?q) ?now] =>
    change (set_last_handshake_time (set_sessions p s q) now) with (rekeyed p s now);
    destruct (handshake_table (table d) (u32 (idx + 1)) i p s now ep Ht Hi Hp Hs Hep)
      as [[rc Hue] Hsp] end.
  rewrite Hue. do 2 wp_step. do 2 wp_step. rewrite Hsp. do 2 wp_step.
  fold (answer_wire (r_data rand)). pose proof (answer_wire_length (r_data rand) Hrl) as Hrw.
  pose proof (step_handshake (static_priv d) (static_pub d) (tun d) (table d) m i p (r_data rand)
    (r_ret r) (r_ret r0) ep Hacc Hm Hrl Hep Hd1 Hd2) as Hstep.
  wp_step. eapply wp_mono; [|apply transport_send_wp; [apply Hok|done|done|by rewrite Hrw]].
  cbn beta. intros t _ [H1 H2]. wp_step. rewrite !memzero_key by apply Hs. do 4 wp_step. wp_step.
  exists (r_data rand). split; [done|]. left. split; [done|]. exists (r_ret r), (r_ret r0).
  split_and!; [done| |done|].
  - pose proof (step_table_ok _ _ _ _ _ _ Hstep Ht). destruct Hok. by split.
  - unfold outputs. rewrite H1, H2, !tun_writes_snoc, !udp_sends_snoc, !app_nil_r.
    rewrite take_ge by (rewrite Hrw; done). done.
Qed.
End answer.

(** The owner of the static key is the only peer an initiation can be attributed to. *)
Lemma acceptable_unique priv pub t m i p j q : table_ok t →
  acceptable priv pub t m i p → acceptable priv pub t m j q → i = j ∧ p = q.
Proof.
  intros Ht [Hi _ Hsi _ _ _] [Hj _ Hsj _ _ _]. assert (i = j) as <-; [|by simplify_eq].
  eapply (NoDup_lookup (keys t)); [apply Ht|..];
    unfold keys; rewrite list_lookup_fmap; [by rewrite Hi|]. rewrite Hj. cbn. congruence.
Qed.

(** An initiation is answered if it is acceptable and has no effect otherwise. *)
Lemma handle_initiation_does h d ep n : daemon_ok d → endpoint_ok ep → 0 <= n <= 2048 →
  wp any_call h (handle_initiation d ep n) (λ t d',
    (∃ m i p, packet_parse_handshake_init (Some (net_buf d)) n (Some zero_init_msg) = Some (0, Some m) ∧
       init_ok m ∧ acceptable (static_priv d) (static_pub d) (table d) m i p ∧ answered d ep m i p h t d') ∨
    (t = h ∧ d' = d ∧
     ∀ m i p, packet_parse_handshake_init (Some (net_buf d)) n (Some zero_init_msg) = Some (0, Some m) →
       ¬ acceptable (static_priv d) (static_pub d) (table d) m i p)).
Proof.
  intros Hok Hep Hn. pose proof Hok as [Hpub Hpriv Ht Hsock Htun [Hnl Hnb] Htb Hpl Hci].
  unfold handle_initiation.
  destruct (consume_initiation_any (static_priv d) (static_pub d) (table d) (net_buf d) n Hpriv Hpub
    Ht Hnb ltac:(lia) zero_init_msg (local VPN_KEY_LEN) (local 32) eq_refl eq_refl)
    as (rc & r & m & ck & hh & -> & Hcase). do 2 wp_step.
  destruct Hcase as [(_ & -> & Hno)|(-> & Hpa & Hm & Hmb & i & -> & Hv & -> & ->)].
  { wp_step. right. split_and!; [done..|]. intros m' i p Hpa Hacc. apply (Hno m' Hpa i).
    apply verdict_acceptable; [done|by exists p]. }
  change (0 =? 0) with true. cbn iota. apply verdict_acceptable in Hv as [p Hacc]; [|done].
  eapply wp_mono; [|by apply (answer_initiation_does d ep m i p)]. intros t d' Ha. left. by exists m, i, p.
Qed.

Lemma handle_initiation_wp h d ep n : daemon_ok d → endpoint_ok ep → 0 <= n <= 2048 →
  wp any_call h (handle_initiation d ep n) (handled (udp_event (Z.to_nat n)) h d).
Proof.
  intros Hok Hep Hn. eapply wp_mono; [|by apply handle_initiation_does]. cbn beta.
  intros t d' [(m & i & p & Hp & Hm & Hacc & Ha)|(-> & -> & _)].
  - destruct (parse_init_bytes (net_buf d) n zero_init_msg m) as [-> _]; [apply Hok|done|]. by apply answered_handled in Ha.
  - by apply handled_silent, outputs_nil.
Qed.

(** A handler run after quiet calls, on a state with the same host and table. *)
Lemma handled_after K h0 h d d1 t d' : outputs h0 h [] → same_host d d1 → table d1 = table d →
  handled K h d1 t d' → handled K h0 d t d'.
Proof.
  intros Ho (H1 & H2 & H3 & H4) Ht (oe & HK & Hs & Hok & (G1 & G2 & G3 & G4) & Hout).
  exists oe. rewrite <- H1, <- H2, <- H4, <- Ht. split; [done|]. split; [done|]. split; [done|]. split.
  - by split_and!; congruence.
  - exact (outputs_trans _ _ _ [] _ Ho Hout).
Qed.

(** The handler of a datagram [w] just received, as far as the inputs go. *)
Lemma served_after h t d d1 w k (p : prog daemon) : outputs h t [] → same_host d d1 → table d1 = table d →
  received t = received h ++ [w] → tun_reads t = tun_reads h → within acts k p →
  wp any_call t p (handled (udp_event (length w)) t d1) → wp any_call t p (served h d).
Proof.
  intros Ho Hh Ht Hr Hd Hw Hwp. eapply wp_mono; [|by eapply wp_within].
  cbn beta. intros t' d' [H (u & -> & Hu)]. apply acts_inputs in Hu as [Hu1 Hu2].
  eapply served_handled; [by eapply handled_after|]. intros oe. apply prompted_udp.
  - by rewrite received_app, Hu1, app_nil_r.
  - by rewrite tun_reads_app, Hu2, app_nil_r.
Qed.

Lemma handle_udp_wp h d : daemon_ok d → wp any_call h (handle_udp d) (served h d).
Proof.
  intros Hok. unfold handle_udp. wp_step.
  eapply wp_mono; [|apply transport_recv_wp; [apply Hok..|apply zero_endpoint_ok]].
  cbn beta. intros t r (Hout & n & ep & b' & -> & Hep & Hl & Hb & Hn & Hrd & rcv & Hrc & Hw).
  do 4 wp_step.
  set (d1 := set_net_buf d b').
  assert (daemon_ok d1) as Hok1 by (destruct Hok; by split).
  assert (served h d t d1) as Hsame.
  { apply served_silent; try done. exists rcv, []. rewrite app_nil_r. split_and!; (done || simpl; lia). }
  destruct (n >? 0) eqn:En; [|by wp_step]. rewrite Hw in Hrc by lia. clear Hw.
  unfold packet_peek_type. replace (n <? 1) with false by lia.
  destruct (rd_lt (net_buf d1) 0) as [x Hx]; [cbn; lia|]. rewrite Hx. bind_simpl. do 2 wp_step.
  repeat case_match; try (by wp_step);
    (eapply (served_after h t d d1); [done..| |];
      [apply handle_initiation_acts || apply handle_data_acts|]);
    (rewrite length_take_le by lia; apply handle_initiation_wp || apply handle_data_wp); (done || lia).
Qed.

(** ** Outbound packets *)

Lemma data_wire_bytes receiver counter ct tag : bytes_ok ct → bytes_ok tag →
  bytes_ok (data_wire receiver counter ct tag).
Proof.
  intros Hc Ht. unfold data_wire. repeat apply Forall_app_2; try done.
  - destruct (_ =? 0); by_computation.
  - apply le32_bytes_ok.
  - apply le64_bytes_ok.
Qed.

Lemma data_wire_length receiver counter ct tag : length tag = 16%nat →
  length (data_wire receiver counter ct tag) = (length ct + 32)%nat.
Proof.
  intros Ht. unfold data_wire. rewrite !length_app, length_le32_bytes, length_le64_bytes, Ht. simpl. lia.
Qed.

Lemma serialize_too_long b receiver counter cb n tag : 2016 < n <= 2048 →
  packet_serialize_data (Some b) VPN_MAX_PACKET_SIZE receiver counter (Some cb) n (Some tag) =
    Some (- ENOSPC, Some b).
Proof.
  intros Hn. unfold packet_serialize_data. rewrite bool_decide_true by eauto. cbn [negb].
  rewrite andb_false_r. change (PACKET_DATA_HEADER_LEN + n + VPN_AUTH_TAG_LEN) with (16 + n + 16).
  rewrite u64_small by (split; lia). by replace (VPN_MAX_PACKET_SIZE <? 16 + n + 16) with true
    by (unfold VPN_MAX_PACKET_SIZE; lia).
Qed.

Lemma daemon_ok_sent d t c b : daemon_ok d → table_ok t → length c = 2048%nat →
  length b = 2048%nat → bytes_ok b → daemon_ok (set_net_buf (set_cipher_buf (set_table d t) c) b).
Proof. intros [] ? ? ? ?. by split. Qed.

Lemma overwrite_length {A} (a b : list A) n : (length a <= length b)%nat → n = length a →
  length (a ++ drop n b) = length b.
Proof. intros ? ->. rewrite length_app, length_drop. lia. Qed.

(** The table a sent packet leaves, and what was sent. *)
Definition send_put (t : vpn_peer_table_t) (i : nat) (p : vpn_peer_t) : vpn_peer_table_t :=
  put t i (set_session p Current (set_sending_counter (current_session p)
    (u64 (sending_counter (current_session p) + 1)))) (next_local_index t).

Definition send_event (s : vpn_session_t) (m : bytes) : event :=
  let sealed := seal m [] (sending_counter s) (send_key s) in
  Ev_send (local_index s) (sending_counter s) m
    (if Z.of_nat (length m) + 32 <=? VPN_MAX_PACKET_SIZE
     then Some (data_wire (peer_index s) (sending_counter s) (ae_c sealed) (ae_mac sealed))
     else None).

Lemma send_to_peer_wp h d i p m rest : daemon_ok d → tun_buf d = m ++ rest →
  20 <= Z.of_nat (length m) →
  list_find (λ p, allows p (ip_of m 16)) (live (table d)) = Some (i, p) →
  state (current_session p) = SESSION_STATE_ESTABLISHED →
  wp any_call h (send_to_peer d (Z.of_nat i) p (Z.of_nat (length m)))
    (did h d (send_event (current_session p) m) (send_put (table d) i p)).
Proof.
  intros Hok Hbuf Hm Hfind Hst. unfold send_event, send_put. cbn zeta.
  pose proof Hok as [Hpub Hpriv Ht Hsock Htun [Hnl Hnb] [Htl Htb] Hpl Hci].
  pose proof Hfind as Hf. apply list_find_Some in Hf as (Hi & _ & _).
  destruct (live_get (table d) Ht i p Hi) as [_ Hp]. pose proof (peer_current p Hp) as [_ Hsk _ _ _].
  pose proof (step_send (static_priv d) (static_pub d) (tun d) (table d) i p m Hm Hfind Hst) as Hstep.
  cbn zeta in Hstep. pose proof (step_table_ok _ _ _ _ _ _ Hstep Ht) as Ht'.
  set (s := current_session p) in *. set (sl := seal m [] (sending_counter s) (send_key s)) in *.
  rewrite Hbuf in Htl, Htb. rewrite length_app in Htl. apply Forall_app in Htb as [Hmb Hrb].
  unfold send_to_peer. fold s. wp_step. rewrite (set_peer_eq _ _ _ p) by done. wp_step.
  cbn [cipher_buf tun_buf net_buf sock_fd set_table]. rewrite Hbuf.
  rewrite (aead_encrypt_app (cipher_buf d) _ m rest _ _ _ _ _ []) by (done || lia). fold sl.
  do 3 wp_step. wp_step. change (0 =? 0) with true. cbn iota.
  cbn [cipher_buf tun_buf net_buf sock_fd set_table set_cipher_buf].
  destruct (seal_lengths m [] (sending_counter s) (send_key s) Hsk) as [Hcl Hml]. fold sl in Hcl, Hml.
  destruct (aead_encrypt_bytes m [] (nonce_of (sending_counter s)) (send_key s) Hmb) as [Hcb Hmacb].
  change (bytes_ok (ae_c sl)) in Hcb. change (bytes_ok (ae_mac sl)) in Hmacb.
  destruct (Z.of_nat (length m) + 32 <=? VPN_MAX_PACKET_SIZE) eqn:Hfit;
    unfold VPN_MAX_PACKET_SIZE in Hfit.
  - rewrite <- Hcl. rewrite (serialize_data_eq _ _ _ _ (ae_c sl));
      try done; try (unfold VPN_MAX_PACKET_SIZE; lia); [|by left; eexists]. do 3 wp_step. wp_step.
    replace (Z.of_nat (length (ae_c sl)) + 32 >? 0) with true by lia.
    pose proof (data_wire_length (peer_index s) (sending_counter s) (ae_c sl) (ae_mac sl) Hml) as Hwl.
    wp_step. eapply wp_mono; [|apply transport_send_wp; cbn [sock_fd net_buf set_net_buf];
      [done|by apply Hp|unfold VPN_MAX_PACKET_SIZE; lia|rewrite length_app; lia]].
    cbn beta. intros t _ [H1 H2]. wp_step. split_and!; [done| |done|].
    + apply daemon_ok_sent; [done..| | |].
      * rewrite overwrite_length; lia.
      * rewrite overwrite_length; lia.
      * apply Forall_app_2; [by apply data_wire_bytes|by apply Forall_drop].
    + split; [by rewrite H1, app_nil_r|]. rewrite H2.
      cbn [net_buf set_net_buf option_list option_rect sent omap list_omap]. do 2 f_equal.
      replace (Z.to_nat _) with (length (data_wire (peer_index s) (sending_counter s) (ae_c sl) (ae_mac sl)))
        by lia. by rewrite take_app_length.
  - rewrite serialize_too_long by lia. do 3 wp_step. wp_step. change (- ENOSPC >? 0) with false.
    cbn iota. wp_step. split_and!; [done| |done|].
    + apply daemon_ok_sent; [done..| | |]; [rewrite overwrite_length; lia|done|done].
    + split; by rewrite app_nil_r.
Qed.

Lemma handle_tun_wp h d : daemon_ok d → 0 <= fd (tun d) →
  wp any_call h (handle_tun d) (served h d).
Proof.
  intros Hok Hfd. unfold handle_tun. wp_step. eapply wp_mono; [|apply tun_read_wp; [done|apply Hok..]].
  cbn beta. intros t r (Hout & n & b' & -> & Hl & Hb & Hn & Hrc & rd & Hrd & Hw). wp_step. wp_step.
  set (d1 := set_tun_buf d b').
  assert (daemon_ok d1) as Hok1 by (destruct Hok; by split).
  assert (served h d t d1) as Hsame.
  { apply served_silent; try done. exists [], rd. rewrite app_nil_r.
    split_and!; (done || apply sublist_nil_l || simpl; lia). }
  destruct (n >=? 20) eqn:En; [|by wp_step]. rewrite Hw in Hrd by lia. clear Hw. set (m := take (Z.to_nat n) b').
  assert (tun_buf d1 = m ++ drop (Z.to_nat n) b') as Hbuf by (symmetry; apply take_drop).
  assert (Z.of_nat (length m) = n) as Hml by (unfold m; rewrite length_take; lia).
  rewrite Hbuf. change (ip_at (m ++ drop (Z.to_nat n) b') 16)
    with (ip_at (m ++ drop (Z.to_nat n) b') (Z.of_nat 16)).
  rewrite ip_at_of by lia. do 2 wp_step. wp_step.
  rewrite find_by_dest_ip_eq by apply Hok1. wp_step.
  destruct (list_find _ (live (table d1))) as [[i p]|] eqn:Hfind; cbn [fmap option_fmap option_map fst];
    [|by wp_step].
  pose proof Hfind as Hf. apply list_find_Some in Hf as (Hi & _ & _).
  destruct (live_get (table d1) (ok_table d1 Hok1) i p Hi) as [-> Hp]. do 2 wp_step.
  case_bool_decide as Hst; [|by wp_step]. rewrite <- Hml.
  eapply wp_mono; [|eapply wp_within; [apply send_to_peer_acts|by eapply send_to_peer_wp; [..|lia| |]]].
  cbn beta. intros t' d' [H (u & -> & [Hu1 Hu2]%acts_inputs)].
  apply (did_handled (λ e, plaintexts [e] = [m] ∧ handed_out [e] = [])) in H;
    [|done|apply (step_send _ _ _ _ i p m); [lia|done|done]].
  eapply served_handled; [by eapply (handled_after _ h t d d1)|]. intros oe. apply prompted_tun.
  - by rewrite received_app, Hu1, app_nil_r.
  - by rewrite tun_reads_app, Hu2, app_nil_r.
Qed.
End handlers.
