(* ===== verification/Freshness.v ===== *)
(** * What a replayed initiation does

    The responder's only memory of past handshakes is [last_handshake_time], which
    [peer_init_session] sets from the responder's own clock, while the time it is
    compared with is the initiator's.  Whether a recorded initiation is accepted a
    second time therefore depends on which clock is ahead. *)

From S2P Require Import Prelude Config Libc Packet Sodium Crypto Kdf Os Inet Transport Tun Replay.
From S2P Require Import Routing Peer Handshake Machine Daemon Calls Refinement.
Local Open Scope c_scope.

Section freshness.
Context {S : Sodium} {SL : SodiumLaws S}.
Variables (priv pub : bytes) (t : vpn_peer_table_t) (m : packet_handshake_init_t).
Hypothesis (Ht : table_ok t).

Variables (i : nat) (p p' : vpn_peer_t) (next : Z).
Hypothesis (Hacc : acceptable priv pub t m i p).
Hypothesis (Hkey : public_key p' = public_key p).
Hypothesis (Hp' : peer_ok p').
Hypothesis (Hnext : is_u32 next).

(** After peer [i] was replaced by [p'], the initiation is accepted again exactly when
    its time is after the one [p'] remembers. *)
Lemma acceptable_again : (∃ j q, acceptable priv pub (put t i p' next) m j q) ↔
  last_handshake_time p' = 0 ∨ last_handshake_time p' < ri_sec priv pub m.
Proof.
  pose proof Hacc as [Hi H1 H2 H3 H4 H5].
  assert (live (put t i p' next) !! i = Some p') as Hi'.
  { unfold put. rewrite live_insert. apply list_lookup_insert_eq. by eapply lookup_lt_Some. }
  split.
  - intros (j & q & [Hj _ Hsj _ _ Hf]). assert (j = i) as ->.
    { assert (table_ok (put t i p' next)) as Ht' by (by eapply set_peer_ok).
      eapply (NoDup_lookup (keys (put t i p' next))); [apply Ht'|..]; unfold keys;
        rewrite list_lookup_fmap; [by rewrite Hj|]. rewrite Hi'. cbn. congruence. }
    rewrite Hi' in Hj. by injection Hj as <-.
  - intros Hf. exists i, p'. split; try done; by rewrite Hkey.
Qed.
End freshness.

(** ** Properties *)

(** C39: a recorded initiation can be replayed while the responder's clock is behind the
    initiator's.  Let an initiation be accepted for a peer and its session be installed
    with the responder's clock at [now2], as [peer_init_session] and
    [peer_update_endpoint] do.  Then the same packet, received again, is accepted
    exactly when [now2] is before the time the packet carries (or is 0), however long
    after it was first sent, and whoever sends it. *)
Theorem initiation_replay_by_clock {S : Sodium} {SL : SodiumLaws S}
    priv pub t m i p idx pidx sk rk now1 now2 ep p1 rc0 p2 t' o ck0 h0 :
  length priv = 32%nat → length pub = 32%nat → table_ok t → init_ok m → bytes_ok (init_wire m) →
  acceptable priv pub t m i p →
  is_u32 idx → is_u32 pidx → length sk = 32%nat → length rk = 32%nat → endpoint_ok ep →
  peer_init_session (Some p) idx pidx (Some sk) (Some rk) now1 now2 = Some (Some p1) →
  peer_update_endpoint (Some p1) (Some ep) = Some (rc0, Some p2) →
  set_peer t (Z.of_nat i) p2 = Some t' →
  length ck0 = 32%nat → length h0 = 32%nat →
  ∃ rc r parsed ck h,
    handshake_consume_initiation (Some (init_wire m)) 148 (Some priv) (Some pub) (Some t')
      (Some NULL) (Some o) (Some ck0) (Some h0) = Some (rc, Some r, Some parsed, Some ck, Some h) ∧
    (rc = 0 ↔ now2 = 0 ∨ now2 < ri_sec priv pub m).
Proof.
  intros Hpriv Hpub Ht Hm Hw Hacc Hidx Hpidx Hsk Hrk Hep Hinit Hupd Hset Hck Hh.
  destruct (live_get t Ht i p (acc_peer _ _ _ _ _ _ Hacc)) as [_ Hp].
  pose proof (new_session_ok idx pidx sk rk now1 Hidx Hpidx Hsk Hrk) as Hs.
  rewrite init_session_eq in Hinit by done. injection Hinit as <-. fold (rekeyed p (new_session idx pidx sk rk now1) now2) in *.
  destruct (handshake_table t (next_local_index t) i p (new_session idx pidx sk rk now1) now2 ep Ht
    (acc_peer _ _ _ _ _ _ Hacc) Hp Hs Hep) as [[rc1 Hu] Hset'].
  rewrite Hu in Hupd. injection Hupd as _ <-. destruct t as [ps cnt nxt]. cbn [peers peer_count next_local_index] in Hset'.
  rewrite Hset' in Hset. injection Hset as <-. set (t := mk_table ps cnt nxt) in *. set (p2 := moved _ ep) in *.
  assert (peer_ok p2) as Hp2 by (apply moved_ok; [by apply rekeyed_ok|done]).
  assert (table_ok (put t i p2 nxt)) as Ht2.
  { eapply set_peer_ok; [done|by eapply acc_peer|done| |apply Ht]. unfold p2. by rewrite moved_key. }
  destruct (consume_initiation_any priv pub (put t i p2 nxt) (init_wire m) 148 Hpriv Hpub Ht2 Hw
    ltac:(destruct Hm; unfold init_wire; len) o ck0 h0 Hck Hh) as (rc & r & parsed & ck & h & Heq & Hcase).
  exists rc, r, parsed, ck, h. split; [exact Heq|].
  pose proof (parse_init_wire m [] o Hm) as Hparse. rewrite app_nil_r in Hparse.
  pose proof (acceptable_again priv pub t m Ht i p p2 nxt Hacc ltac:(unfold p2; by rewrite moved_key) Hp2
    ltac:(apply Ht)) as Hiff.
  replace (last_handshake_time p2) with now2 in Hiff by (unfold p2, moved; by case_bool_decide).
  rewrite <- Hiff. destruct Hcase as [(Hrc & _ & Hno)|(-> & Hp' & _ & _ & j & _ & Hv & _)].
  - split; [lia|]. intros (j & q & Ha). destruct (Hno m Hparse j). apply verdict_acceptable; [done|by exists q].
  - split; [|done]. intros _. rewrite Hparse in Hp'. injection Hp' as <-.
    apply verdict_acceptable in Hv as [q Ha]; [by exists j, q|done].
Qed.

Module Replayed.
Definition sk : bytes := replicate 32 4.
Definition p1 : vpn_peer_t := rekeyed Demo.p0 (new_session 1 77 sk sk 100) 101.
Definition p2 : vpn_peer_t := moved p1 Demo.ep.
Definition t2 : vpn_peer_table_t := put demo_table 0 p2 (next_local_index demo_table).
End Replayed.

(** An initiation of 1700000000 accepted at 101 on the responder's clock is accepted again. *)
Lemma initiation_replay_by_clock_witness : let z := replicate 32 0 in
  acceptable (S := Toy.toy) Demo.key Demo.key demo_table demo_init_msg 0 Demo.p0 ∧
  ∃ rc r parsed ck h,
    handshake_consume_initiation (S := Toy.toy) (Some (init_wire demo_init_msg)) 148 (Some Demo.key)
      (Some Demo.key) (Some Replayed.t2) (Some NULL) (Some zero_init_msg) (Some z) (Some z)
      = Some (rc, Some r, Some parsed, Some ck, Some h) ∧
    (rc = 0 ↔ 101 = 0 ∨ 101 < ri_sec (S := Toy.toy) Demo.key Demo.key demo_init_msg).
Proof.
  split; [apply Demo.acceptable_init|].
  apply (initiation_replay_by_clock (S := Toy.toy) Demo.key Demo.key demo_table demo_init_msg 0 Demo.p0
    1 77 Replayed.sk Replayed.sk 100 101 Demo.ep Replayed.p1 1 Replayed.p2 Replayed.t2 zero_init_msg);
    try reflexivity; try done; [apply demo_table_ok|..].
  - by_computation.
  - apply Demo.acceptable_init.
  - apply Demo.ep_ok.
Defined.
