(* ===== verification/Loop.v ===== *)
(** * The running daemon

    Loop-level results: the loop as a run of [Machine], why it is left, and [main]
    itself from its first call to its last. *)

From stdpp Require Import strings.
From S2P Require Import Prelude Config Libc Keyhex Packet Sodium Crypto Kdf Os Inet Transport Tun Replay.
From S2P Require Import Routing Peer Handshake Machine Daemon Calls Refinement.
Local Open Scope c_scope.

(** ** The loop *)

Section loop.
Context {S : Sodium} {SL : SodiumLaws S}.

Lemma steps_trans priv pub dev t1 e1 t2 e2 t3 :
  steps priv pub dev t1 e1 t2 → steps priv pub dev t2 e2 t3 → steps priv pub dev t1 (e1 ++ e2) t3.
Proof.
  intros H1. induction 1 as [|evs t oe t' _ IH Hst]; [by rewrite app_nil_r|].
  rewrite app_assoc. by econstructor.
Qed.

(** The postcondition of a part of the loop: it was a run. *)
Definition ran (h : trace) (d : daemon) (t : trace) (d' : daemon) : Prop :=
  ∃ evs, steps (static_priv d) (static_pub d) (tun d) (table d) evs (table d') ∧
         daemon_ok d' ∧ same_host d d' ∧ outputs h t evs ∧ prompted h t evs.

Lemma ran_refl h t d : daemon_ok d → outputs h t [] → prompted h t [] → ran h d t d.
Proof. intros Hd Ho Hp. exists []. by split_and!; [constructor|..]. Qed.

(** Calls that neither receive nor send. *)
Lemma ran_call h d c r : daemon_ok d → quiet c → deaf c → ran h d (h ++ [(c, r)]) d.
Proof.
  intros Hd Hq Hc. apply ran_refl; [done| |by apply prompted_deaf].
  apply outputs_quiet; [done|apply outputs_nil].
Qed.

Lemma ran_ok h d t d' : ran h d t d' → daemon_ok d'.
Proof. by intros (evs & _ & H & _). Qed.

Lemma ran_trans h1 h2 h3 d1 d2 d3 : ran h1 d1 h2 d2 → ran h2 d2 h3 d3 → ran h1 d1 h3 d3.
Proof.
  intros (e1 & S1 & _ & (A1 & B1 & C1 & D1) & O1 & P1) (e2 & S2 & Hok & (A2 & B2 & C2 & D2) & O2 & P2).
  exists (e1 ++ e2). rewrite A1, B1, D1 in S2. split; [by eapply steps_trans|]. split; [done|].
  split; [by split_and!; congruence|]. split; [by eapply outputs_trans|by eapply prompted_trans].
Qed.

Lemma ran_served h d t d' : served h d t d' → ran h d t d'.
Proof.
  intros (oe & Hs & Hok & Hh & Ho & Hp). exists (option_list oe). split_and!; [|done..].
  apply (steps_snoc _ _ _ _ [] (table d) oe); [constructor|done].
Qed.

Lemma poll_fds_tun d : (1 <? Z.of_nat (length (poll_fds d))) = true → 0 <= fd (tun d).
Proof. unfold poll_fds. destruct (fd (tun d) >=? 0) eqn:E; [lia|done]. Qed.

Lemma main_iteration_wp h d : daemon_ok d →
  wp any_call h (main_iteration d) (λ t r, ran h d t r.2).
Proof.
  intros Hok. unfold main_iteration. wp_step. apply wp_call; [done|]. intros r _.
  set (h1 := h ++ _). assert (ran h d h1 d) as Ho by (by apply ran_call).
  wp_step.
  { wp_step; [by wp_step|]. wp_step. apply wp_log. intros r' _. wp_step.
    eapply ran_trans; [done|by apply ran_call]. }
  wp_step. apply (wp_mono _ _ _ (λ t d1, ran h d t d1)).
  2: { wp_step; [|by wp_step]. eapply wp_mono; [|by apply handle_udp_wp].
       intros t d1 H%ran_served. by eapply ran_trans. }
  intros t d1 H1. assert (daemon_ok d1) as Hok1 by (by eapply ran_ok). wp_step.
  apply (wp_mono _ _ _ (λ t d2, ran h d t d2)); [intros t2 d2 H2; by wp_step|].
  destruct (_ && _) eqn:E; [|by wp_step]. apply andb_prop in E as [E _].
  eapply wp_mono; [|apply handle_tun_wp; [done|by apply poll_fds_tun]].
  intros t2 d2 H%ran_served. by eapply ran_trans.
Qed.

Lemma main_loop_wp fuel h d : daemon_ok d →
  wp any_call h (main_loop fuel d) (λ t r, ran h d t r.2).
Proof.
  revert h d. induction fuel as [|fuel IH]; intros h d Hok; cbn [main_loop].
  { wp_step. apply ran_refl; [done|apply outputs_nil|apply prompted_nil]. }
  wp_step. wp_step. set (h1 := h ++ _).
  assert (ran h d h1 d) as H1 by (by apply ran_call).
  wp_step; [by wp_step|]. wp_step. eapply wp_mono; [|by apply main_iteration_wp].
  intros t [e d1] H2. cbn [snd] in H2. assert (ran h d t d1) as H3 by (by eapply ran_trans).
  destruct e; [|by wp_step..]. assert (daemon_ok d1) as Hok1 by (by eapply ran_ok).
  eapply wp_mono; [|by apply IH]. intros t' r' Hr. by eapply ran_trans.
Qed.

(** With enough replies the loop returns, and what it did is a run. *)
Lemma main_loop_exec fuel d rs res t : daemon_ok d → (13 * fuel <= length rs)%nat →
  exec (main_loop fuel d) rs = (res, t) → env_ok any_call t →
  ∃ e d', res = Done (e, d') ∧ ran [] d t d'.
Proof.
  intros Hok Hl Hx He.
  destruct (wp_adequate _ _ _ _ _ _ (main_loop_wp fuel [] d Hok) Hx He) as (Hub & _ & HΦ).
  destruct (within_exec _ _ _ _ _ _ (main_loop_within fuel d) Hl Hx) as (Hw & _).
  destruct res as [[e d']| |]; [|done..]. exists e, d'. split; [done|]. by apply (HΦ (e, d')).
Qed.

(** ** What runs deliver *)

Lemma put_networks t i p p' n : live t !! i = Some p → networks p' = networks p →
  networks <$> live (put t i p' n) = networks <$> live t.
Proof.
  intros Hi Hn. unfold put. rewrite live_insert, list_fmap_insert, Hn.
  apply list_insert_id. by rewrite list_lookup_fmap, Hi.
Qed.

Lemma step_networks priv pub dev t oe t' : step priv pub dev t oe t' →
  networks <$> live t' = networks <$> live t.
Proof.
  intros [| t0 i p sl idx c ct tag m f ep _ Hfind _ _ _ _ _ _
          | t0 m i p e_r n1 n2 ep Hacc _ _ _ _ _ | t0 m i p Hacc | t0 i p m _ Hfind _ s0 sl0].
  - done.
  - apply list_find_Some in Hfind as (Hi & _ & _). eapply put_networks; [done|].
    by rewrite networks_moved, networks_set_session.
  - eapply put_networks; [by eapply acc_peer|]. by rewrite networks_moved.
  - done.
  - apply list_find_Some in Hfind as (Hi & _ & _). by eapply put_networks.
Qed.

Lemma fmap_elem_of_eq {A B} (f : A → B) (l l' : list A) x : f <$> l = f <$> l' → x ∈ l →
  ∃ y, y ∈ l' ∧ f y = f x.
Proof.
  intros Hf Hx. assert (f x ∈ f <$> l') as H by (rewrite <- Hf; by apply list_elem_of_fmap_2).
  apply list_elem_of_fmap in H as (y & Hy & Hin). by exists y.
Qed.

(** Whatever a run delivers, some peer of its first table may send. *)
Lemma steps_deliver priv pub dev t0 evs t : steps priv pub dev t0 evs t →
  networks <$> live t = networks <$> live t0 ∧
  Forall (λ m, ∃ p, p ∈ live t0 ∧ deliverable dev p m) (delivered evs).
Proof.
  induction 1 as [|evs t oe t' _ [Hn Hd] Hst]; [by split; [|constructor]|].
  split; [by rewrite (step_networks _ _ _ _ _ _ Hst)|].
  unfold delivered. rewrite omap_app. apply Forall_app. split; [done|].
  destruct Hst as [| t0' i p sl idx c ct tag m f ep _ Hfind _ _ _ _ _ _| | |]; try constructor.
  cbn. case_bool_decide as Hdl; [|constructor]. apply Forall_singleton.
  apply list_find_Some in Hfind as (Hi & _ & _).
  destruct (fmap_elem_of_eq networks _ _ p Hn) as (q & Hq & Hnq); [by eapply list_elem_of_lookup_2|].
  exists q. split; [done|]. by apply (deliverable_same dev p q).
Qed.

(** A table without peers stays as it is and does nothing. *)
Lemma steps_no_peers priv pub dev t0 evs t : live t0 = [] → steps priv pub dev t0 evs t →
  t = t0 ∧ evs = [].
Proof.
  intros H0. induction 1 as [|evs t oe t' _ [-> ->] Hst]; [done|].
  destruct Hst as [| ? i p ? ? ? ? ? ? ? ? _ Hfind| ? ? ? ? ? ? ? ? Hacc| ? ? ? ? Hacc
                   | ? ? ? ? _ Hfind]; [done|..]; exfalso.
  - by rewrite H0 in Hfind.
  - apply acc_peer in Hacc. by rewrite H0 in Hacc.
  - apply acc_peer in Hacc. by rewrite H0 in Hacc.
  - by rewrite H0 in Hfind.
Qed.
End loop.

(** ** Why the loop is left *)

(** What each test of [g_running] read, in order. *)
Definition flags (t : trace) : list Z :=
  omap (λ cr, match cr.1 with Sys_running => Some (r_ret cr.2) | _ => None end) t.

(** The last thing in the trace is a [poll] that failed, and its log line. *)
Definition poll_gave_up (t : trace) : Prop :=
  ∃ u fds timeout r r', t = u ++ [(Sys_poll fds timeout, r); (Sys_log LOG_ERROR, r')] ∧
    r_ret r < 0 ∧ r_errno r ≠ EINTR.

(** What the tests [fs] of the flag and the trace say when the loop leaves with [e]. *)
Definition left_with (fuel : nat) (fs : list Z) (t : trace) (e : loop_exit) : Prop :=
  match e with
  | Keep_running => length fs = fuel ∧ Forall (λ v, v ≠ 0) fs
  | Terminated => (∃ fs', fs = fs' ++ [0] ∧ Forall (λ v, v ≠ 0) fs') ∧
                  (∃ u r, t = u ++ [(Sys_running, r)])
  | Poll_failed => Forall (λ v, v ≠ 0) fs ∧ poll_gave_up t
  end.

Lemma flags_app t u : flags (t ++ u) = flags t ++ flags u.
Proof. apply omap_app. Qed.

Lemma flags_serves u : Forall (λ cr, serves cr.1) u → flags u = [].
Proof. by induction 1 as [|[c r] u Hc _ IH]; [|destruct c]. Qed.

Lemma left_with_cons fuel v fs t e : v ≠ 0 → left_with fuel fs t e →
  left_with (Datatypes.S fuel) (v :: fs) t e.
Proof.
  intros Hv. destruct e; cbn [left_with].
  - intros [<- Hf]. split; [done|by constructor].
  - intros [Hf Hp]. split; [by constructor|done].
  - intros [(fs' & -> & Hf) Hu]. split; [|done]. exists (v :: fs'). split; [done|by constructor].
Qed.

Lemma filter_nonzero fs : Forall (λ v, v ≠ 0) fs → filter (λ v, v ≠ 0) fs = fs.
Proof. induction 1 as [|v fs Hv _ IH]; [done|]. by rewrite filter_cons_True, IH. Qed.

(** Reading the reason off the tests of the flag. *)
Lemma left_with_reads fuel fs t e : left_with fuel fs t e →
  (e = Terminated ↔ 0 ∈ fs) ∧ (e = Terminated → ∃ u r, t = u ++ [(Sys_running, r)]) ∧
  (e = Poll_failed → poll_gave_up t) ∧
  ((length (filter (λ v, v ≠ 0%Z) fs) < fuel)%nat → e ≠ Keep_running).
Proof.
  assert (∀ l, Forall (λ v, v ≠ 0) l → 0 ∉ l) as Hno
    by (intros l Hl Hin; by apply (proj1 (Forall_forall _ _) Hl 0 Hin)).
  destruct e; cbn [left_with].
  - intros [Hn Hf]. split_and!; [|done..|].
    + split; [done|]. by intros ?%Hno.
    + intros Hlt _. rewrite filter_nonzero in Hlt by done. lia.
  - intros [Hf Hp]. split_and!; [|done..]. split; [done|]. by intros ?%Hno.
  - intros [(fs' & -> & Hf) Hu]. split_and!; [|done..]. split; [intros _|done].
    apply elem_of_app. right. by apply list_elem_of_singleton.
Qed.

Section flag.
Context {S : Sodium} {SL : SodiumLaws S}.

(** An iteration leaves the loop only when [poll] fails. *)
Lemma main_iteration_exit h d : daemon_ok d →
  wp any_call h (main_iteration d) (λ t r, daemon_ok r.2 ∧ r.1 ≠ Terminated ∧
    (r.1 = Poll_failed → poll_gave_up t)).
Proof.
  intros Hok. unfold main_iteration. wp_step. apply wp_call; [done|]. intros r _. wp_step.
  { wp_step; [by wp_step|]. wp_step. apply wp_log. intros r' _. wp_step. split_and!; [done..|].
    intros _. exists h, (poll_fds d), 1000, r, r'. rewrite <- app_assoc. split_and!; [done|lia..]. }
  wp_step. apply (wp_mono _ _ _ (λ _ d1, daemon_ok d1)).
  2: { wp_step; [|by wp_step]. eapply wp_mono; [|by apply handle_udp_wp].
       intros t d1 H%ran_served. by eapply ran_ok. }
  intros t d1 Hok1. wp_step.
  apply (wp_mono _ _ _ (λ _ d2, daemon_ok d2)); [intros t2 d2 H2; by wp_step|].
  destruct (_ && _) eqn:E; [|by wp_step]. apply andb_prop in E as [E _].
  eapply wp_mono; [|apply handle_tun_wp; [done|by apply poll_fds_tun]].
  intros t2 d2 H%ran_served. by eapply ran_ok.
Qed.

Lemma main_loop_flags fuel h d : daemon_ok d →
  wp any_call h (main_loop fuel d) (λ t r, ∃ fs, flags t = flags h ++ fs ∧ left_with fuel fs t r.1).
Proof.
  revert h d. induction fuel as [|fuel IH]; intros h d Hok; cbn [main_loop].
  { wp_step. exists []. by rewrite app_nil_r. }
  wp_step. apply wp_call; [done|]. intros r _. set (h1 := h ++ _).
  assert (flags h1 = flags h ++ [r_ret r]) as H1 by apply flags_app. wp_step.
  { wp_step. exists [r_ret r]. split; [done|]. split; [exists []; split; [cbn; f_equal; lia|done]|by exists h, r]. }
  wp_step. eapply wp_mono; [|eapply wp_within; [apply main_iteration_within|by apply main_iteration_exit]].
  cbn beta. intros t [e d1] [(Hok1 & Hne & Hpoll) (u & -> & Hu)]. cbn [fst snd] in *.
  assert (flags (h1 ++ u) = flags h ++ [r_ret r]) as H2
    by (by rewrite flags_app, (flags_serves u Hu), app_nil_r).
  destruct e; [|wp_step|done].
  - eapply wp_mono; [|by apply IH]. cbn beta. intros t [e' d'] (fs & Hfs & Hl).
    exists (r_ret r :: fs). rewrite Hfs, H2, <- app_assoc. split; [done|].
    apply left_with_cons; [lia|done].
  - exists [r_ret r]. split; [done|]. split; [apply Forall_singleton; lia|by apply Hpoll].
Qed.
End flag.

(** ** Setting up and cleaning up *)

(** The descriptors a daemon holds. *)
Definition held (d : daemon) : list Z :=
  if fd (tun d) >=? 0 then [fd (tun d); sock_fd d] else [sock_fd d].

Lemma open_fds_keeps h u : Forall (λ cr, keeps_fds cr.1) u → open_fds (h ++ u) = open_fds h.
Proof.
  induction u as [|[c r] u IH] using rev_ind; intros Hu; [by rewrite app_nil_r|].
  apply Forall_app in Hu as [Hu Hc]. rewrite app_assoc, open_fds_snoc, IH by done.
  apply Forall_cons in Hc as [Hc _]. by apply fd_step_neutral.
Qed.

Lemma outputs_quiet_trace h u : Forall (λ cr, quiet cr.1) u → outputs h (h ++ u) [].
Proof.
  induction u as [|[c r] u IH] using rev_ind; intros Hu; [rewrite app_nil_r; apply outputs_nil|].
  apply Forall_app in Hu as [Hu Hc]. rewrite app_assoc. apply Forall_cons in Hc as [Hc _].
  apply outputs_quiet; [done|by apply IH].
Qed.

Section main.
Context {S : Sodium} {SL : SodiumLaws S}.

(** A daemon [main] has just set up. *)
Definition set_up (t : trace) (d : daemon) : Prop :=
  daemon_ok d ∧ live (table d) = [] ∧ fd (tun d) ≠ sock_fd d ∧ open_fds t = held d.

Lemma fresh_table_ok : table_ok (mk_table (peers zero_table) (peer_count zero_table) 1).
Proof. split; [done|done|done|constructor|constructor]. Qed.

Lemma daemon_ok_setup pub priv sock dev : length pub = 32%nat → length priv = 32%nat →
  0 <= sock → mtu dev = VPN_DEFAULT_INNER_MTU →
  let buf := local VPN_MAX_PACKET_SIZE in
  daemon_ok (mk_daemon pub priv (mk_table (peers zero_table) (peer_count zero_table) 1) sock dev
               buf buf buf buf).
Proof.
  intros Hpub Hpriv Hs Hm buf. split; cbn [static_pub static_priv table sock_fd tun net_buf tun_buf
    plain_buf cipher_buf]; try done.
  - apply fresh_table_ok.
  - rewrite Hm. unfold VPN_DEFAULT_INNER_MTU, VPN_DEFAULT_OUTER_MTU, VPN_WIRE_OVERHEAD,
      VPN_MAX_PACKET_SIZE. lia.
  - split; [done|]. by apply Forall_replicate.
  - split; [done|]. by apply Forall_replicate.
Qed.

Lemma main_setup_wp argv :
  wp any_call [] (main_setup argv) (λ t r,
    match r with None => open_fds t = [] | Some d => set_up t d end).
Proof.
  unfold main_setup. do 2 wp_step. wp_step. apply wp_log. intros r0 _. wp_step.
  { wp_step. apply wp_log. intros r1 _. by wp_step. }
  wp_step. apply wp_call; [done|]. intros ra _. wp_step. apply wp_call; [done|]. intros rb _. wp_step. apply wp_call; [done|]. intros rand [_ [Hrand _]].
  assert (length (r_data rand) = 32%nat) as Hrl by lia. clear Hrand.
  destruct (scalarmult_base_ok (r_data rand) Hrl) as [Hpl _].
  rewrite generate_keypair_eq by done. do 2 wp_step. do 4 wp_step. wp_step.
  rewrite key_to_hex_eq by done. do 2 wp_step. apply wp_log. intros r1 _.
  cbn [peer_table_init]. do 2 wp_step. wp_step.
  eapply wp_mono; [|by apply transport_open_wp]. cbn beta. intros t sock Ht. wp_step.
  { wp_step. apply wp_log. intros r2 _. wp_step.
    change VPN_PRIVKEY_LEN with VPN_KEY_LEN. rewrite memzero_key by done. do 2 wp_step.
    by rewrite open_fds_snoc, Ht. }
  wp_step.
  eapply wp_mono; [|apply tun_open_wp; by vm_compute].
  intros t1 [rc od] (dev & Hd & Hok & Hmtu & Hc). cbn [fst snd] in *. subst od. wp_step.
  apply (wp_mono _ _ _ (λ t2 _, fd dev ≠ sock ∧ open_fds t2 = if fd dev >=? 0 then [fd dev; sock] else [sock])).
  - intros t2 _ [Hne Ht2]. do 2 wp_step. wp_step. apply wp_log. intros r2 _. wp_step. split_and!.
    + apply daemon_ok_setup; (done || lia).
    + done.
    + done.
    + by rewrite open_fds_snoc, Ht2.
  - destruct Hc as [(Hrc & Hfd & Ho)|(-> & Hfd & Hnew & Ho)].
    + test_false (rc =? 0). wp_step. apply wp_log. intros r2 _. wp_step. rewrite Hfd.
      split; [lia|]. by rewrite open_fds_snoc, Ho, Ht.
    + cbn [Z.eqb]. wp_step. eapply wp_mono; [|by apply tun_set_ip_wp]. intros t2 rc2 [_ Ho2].
      wp_step. eapply wp_mono; [|by apply tun_set_up_wp]. intros t3 rc3 [_ Ho3]. wp_step.
      rewrite Ht in *. split; [intros E; apply Hnew; rewrite E; left|].
      rewrite Ho3, Ho2, Ho. by test_true (fd dev >=? 0).
Qed.

(** What cleanup leaves. *)
Definition wiped (d : daemon) : Prop :=
  static_priv d = replicate 32 0 ∧ table d = zero_table ∧ sock_fd d = -1 ∧ fd (tun d) < 0.

Lemma main_cleanup_wp h d : daemon_ok d → fd (tun d) ≠ sock_fd d → open_fds h = held d →
  wp any_call h (main_cleanup d) (λ t d', open_fds t = [] ∧ wiped d').
Proof.
  intros Hok Hne Hh. pose proof (ok_sock d Hok) as Hs. unfold main_cleanup.
  wp_step. apply wp_log. intros r0 _.
  rewrite table_destroy_eq by apply Hok. do 4 wp_step. wp_step. unfold transport_close.
  test_true (sock_fd d >=? 0). do 1 wp_step. apply wp_log. intros r1 _. do 3 wp_step. do 2 wp_step. wp_step.
  unfold tun_close. unfold held in Hh. destruct (fd (tun d) >=? 0) eqn:Hfd.
  - wp_step. apply wp_log. intros rk _. do 3 wp_step. do 2 wp_step.
    change VPN_PRIVKEY_LEN with VPN_KEY_LEN. rewrite memzero_key by apply Hok. do 4 wp_step.
    wp_step. apply wp_log. intros rl _. wp_step. split; [|by split_and!].
    rewrite !open_fds_snoc, Hh. cbn [fd_step fst].
    by rewrite filter_ne_pair, filter_ne_singleton.
  - wp_step. do 2 wp_step.
    change VPN_PRIVKEY_LEN with VPN_KEY_LEN. rewrite memzero_key by apply Hok. do 4 wp_step.
    wp_step. apply wp_log. intros rl _. wp_step. split; [|split_and!; cbn [tun]; (done || lia)].
    rewrite !open_fds_snoc, Hh. cbn [fd_step fst]. apply filter_ne_singleton.
Qed.

Lemma main_within argv fuel : within (λ _, True) (46 + 13 * fuel) (main argv fuel).
Proof.
  unfold main. eapply within_bind; [eapply within_weaken, main_setup_within; done|lia|].
  intros [d|]; [|exact I].
  eapply within_bind; [eapply within_weaken, main_loop_within; done|lia|]. intros [e d'].
  destruct e; [exact I| |];
    (eapply within_bind; [eapply within_weaken, main_cleanup_within; done|lia|]; intros ?; exact I).
Qed.

Lemma flags_offline u : Forall (λ cr, offline cr.1) u → flags u = [].
Proof. by induction 1 as [|[c r] u Hc _ IH]; [|destruct c]. Qed.

Lemma outputs_offline h u : Forall (λ cr, offline cr.1) u → outputs h (h ++ u) [].
Proof. intros Hu. apply outputs_quiet_trace. eapply Forall_impl; [exact Hu|]. by intros [[] r]. Qed.

(** Where [fuel] iterations leave [main]: still in the loop, with the flag found set
    that many times, or returned with everything closed and wiped. *)
Definition ended (fuel : nat) (t : trace) (r : main_end) : Prop :=
  match r with
  | Running d => length (flags t) = fuel ∧ 0 ∉ flags t
  | Returned code d =>
      open_fds t = [] ∧
      (code = 1 ∧ d = None ∧ flags t = [] ∨ code = 0 ∧ ∃ d', d = Some d' ∧ wiped d')
  end.

Lemma main_loop_ends fuel h d : daemon_ok d → live (table d) = [] → flags h = [] →
  fd (tun d) ≠ sock_fd d → open_fds h = held d →
  wp any_call h (main_loop fuel d) (λ t r, outputs h t [] ∧ daemon_ok r.2 ∧
    fd (tun r.2) ≠ sock_fd r.2 ∧ open_fds t = held r.2 ∧
    (r.1 = Keep_running → length (flags t) = fuel ∧ 0 ∉ flags t)).
Proof.
  intros Hok Hl Hf Hne Ho.
  eapply wp_mono; [|apply wp_and; [by apply main_loop_flags|
    eapply wp_within; [apply main_loop_within|by apply main_loop_wp]]].
  cbn beta. intros t [e d'] [(fs & Hfs & Hw) [(evs & Hst & Hok' & (_ & _ & Hs & Htun) & O & _) (u & -> & K)]].
  cbn [fst snd] in *. destruct (steps_no_peers _ _ _ _ _ _ Hl Hst) as [_ ->].
  split; [done|]. split; [done|]. split; [by rewrite Hs, Htun|]. split.
  - rewrite open_fds_keeps by done. unfold held. by rewrite Hs, Htun.
  - intros ->. rewrite Hfs, Hf. destruct Hw as [Hn Hall]. split; [done|]. intros Hin.
    by apply (proj1 (Forall_forall _ _) Hall 0 Hin).
Qed.

Lemma main_wp argv fuel :
  wp any_call [] (main argv fuel) (λ t r, outputs [] t [] ∧ ended fuel t r).
Proof.
  unfold main. wp_step.
  eapply wp_mono; [|eapply wp_within; [apply main_setup_within|apply main_setup_wp]].
  cbn beta. intros t1 [d|] [H1 (u1 & -> & Q1)]; apply (outputs_offline []) in Q1 as O1;
    apply flags_offline in Q1; cbn [app] in *.
  2: { wp_step. split; [done|]. split; [done|]. by left. }
  destruct H1 as (Hok & Hl & Hne & Ho). wp_step.
  eapply wp_mono; [|by apply main_loop_ends].
  cbn beta. intros t2 [e d'] (O2 & Hok' & Hne' & Ho' & Hk). cbn [fst snd] in *.
  apply (outputs_trans _ _ _ [] [] O1) in O2.
  assert (wp any_call t2 (main_cleanup d' ≫= λ d, mret (Returned 0 (Some d)))
            (λ t r, outputs [] t [] ∧ ended fuel t r)) as Hc;
    [|destruct e; [wp_step; split; [done|by apply Hk]|exact Hc..]].
  wp_step. eapply wp_mono; [|eapply wp_within; [apply main_cleanup_within|by apply main_cleanup_wp]].
  cbn beta. intros t3 d3 [[Hf Hw] (u3 & -> & Q3)]. wp_step.
  split; [apply (outputs_trans _ _ _ [] [] O2), outputs_offline, Q3|].
  split; [done|]. right. split; [done|]. by exists d3.
Qed.

(** With enough replies [main] gets to its end or through the fuel. *)
Lemma main_exec argv fuel rs res t : (46 + 13 * fuel <= length rs)%nat →
  exec (main argv fuel) rs = (res, t) → env_ok any_call t →
  ∃ r, res = Done r ∧ outputs [] t [] ∧ ended fuel t r.
Proof.
  intros Hl Hx He. destruct (wp_adequate _ _ _ _ _ _ (main_wp argv fuel) Hx He) as (Hub & _ & HΦ).
  destruct (within_exec _ _ _ _ _ _ (main_within argv fuel) Hl Hx) as (Hw & _).
  destruct res as [r| |]; [|done..]. exists r. split; [done|]. by apply HΦ.
Qed.
End main.

(** ** A trace: an initiation, a packet in, a packet out, then a signal *)

Module Live.
Definition d0 : daemon :=
  let buf := replicate 2048 0 in
  mk_daemon Demo.key Demo.key demo_table 4 Demo.dev buf buf buf buf.

Definition datagram (data : bytes) : reply :=
  mk_reply (Z.of_nat (length data)) 1 data (addr Demo.ep) 16 [].
Definition ready (revents : list Z) : reply := mk_reply 1 1 [] [] 0 revents.

Definition replies : list reply :=
  [ok_reply 1; ready [1; 0]; datagram (init_wire demo_init_msg);
     mk_reply 0 1 Demo.e_r [] 0 []; ok_reply 100; ok_reply 101; ok_reply 92;
   ok_reply 1; ready [1; 0]; datagram (data_wire 1 5 (ae_c Demo.sealed_in) (ae_mac Demo.sealed_in));
     ok_reply 20;
   ok_reply 1; ready [0; 1]; mk_reply 20 1 Demo.ip_packet [] 0 []; ok_reply 52] ++
  replicate 52 (ok_reply 0).

Definition outcome : result (loop_exit * daemon) * trace :=
  Eval vm_compute in exec (main_loop (S := Toy.toy) 4 d0) replies.

Lemma live_ran : exec (main_loop (S := Toy.toy) 4 d0) replies = outcome.
Proof. by vm_compute. Qed.

Lemma live_ok : daemon_ok d0.
Proof.
  split; try done; [apply demo_table_ok|..]; (split; [done|by_computation]).
Qed.

Lemma live_env : env_ok any_call outcome.2.
Proof. unfold outcome. cbn [snd]. by_env. Qed.
End Live.

(** ** Properties *)

(** C1: the event loop refines the state machine.  From any well-formed daemon,
    against any well-behaved kernel, network and random generator, [fuel] iterations
    of the loop issue at most 13 calls each, have no undefined behaviour and return;
    the peer table they leave is reached by a run of the machine, and the packets
    written to the TUN device and the datagrams sent on the socket are, in order,
    exactly those of the events of that run. *)
Theorem main_loop_refines {S : Sodium} {SL : SodiumLaws S} fuel d rs res t :
  daemon_ok d → (13 * fuel <= length rs)%nat →
  exec (main_loop fuel d) rs = (res, t) → env_ok any_call t →
  ∃ e d' evs, res = Done (e, d') ∧
    steps (static_priv d) (static_pub d) (tun d) (table d) evs (table d') ∧ daemon_ok d' ∧
    tun_writes t = delivered evs ∧ udp_sends t = sent evs.
Proof.
  intros Hok Hl Hx He.
  destruct (main_loop_exec fuel d rs res t Hok Hl Hx He) as (e & d' & -> & evs & Hs & Hok' & _ & [H1 H2] & _).
  by exists e, d', evs.
Qed.

Lemma main_loop_refines_witness :
  ∃ e d' evs, Live.outcome.1 = Done (e, d') ∧
    steps (S := Toy.toy) Demo.key Demo.key Demo.dev demo_table evs (table d') ∧ daemon_ok d' ∧
    [Demo.ip_packet] = delivered evs ∧ udp_sends Live.outcome.2 = sent evs.
Proof.
  apply (main_loop_refines (S := Toy.toy) 4 Live.d0 Live.replies Live.outcome.1 Live.outcome.2);
    [apply Live.live_ok|vm_compute; lia|rewrite Live.live_ran; by destruct Live.outcome|apply Live.live_env].
Defined.

(** C4: cryptographic routing holds on the wire.  Every packet the loop writes to
    the TUN device is an IPv4-sized packet within the interface's MTU whose source
    address lies in the AllowedIPs of a configured peer. *)
Theorem tun_writes_authorised {S : Sodium} {SL : SodiumLaws S} fuel d rs res t :
  daemon_ok d → (13 * fuel <= length rs)%nat →
  exec (main_loop fuel d) rs = (res, t) → env_ok any_call t →
  Forall (λ m, 20 <= Z.of_nat (length m) <= mtu (tun d) ∧
               ∃ p, p ∈ live (table d) ∧ allows p (ip_of m 12)) (tun_writes t).
Proof.
  intros Hok Hl Hx He.
  destruct (main_loop_exec fuel d rs res t Hok Hl Hx He) as (e & d' & -> & evs & Hs & _ & _ & [H1 _] & _).
  rewrite H1. cbn [tun_writes omap list_omap app].
  eapply Forall_impl; [apply (steps_deliver _ _ _ _ _ _ Hs)|].
  cbn beta. intros m (p & Hp & Hm & _ & Ha). split; [done|]. by exists p.
Qed.

Lemma tun_writes_authorised_witness :
  Forall (λ m, 20 <= Z.of_nat (length m) <= 1440 ∧
               ∃ p, p ∈ live demo_table ∧ allows p (ip_of m 12)) [Demo.ip_packet].
Proof.
  apply (tun_writes_authorised (S := Toy.toy) 4 Live.d0 Live.replies Live.outcome.1 Live.outcome.2);
    [apply Live.live_ok|vm_compute; lia|rewrite Live.live_ran; by destruct Live.outcome|apply Live.live_env].
Defined.

(** C23: [main] cleans up.  Whatever the kernel answers, [main] runs without
    undefined behaviour, and after [fuel] iterations it is still in its loop only if
    the flag [g_running] was tested [fuel] times and found set every time; so once a
    test reads 0, or if the flag is tested fewer than [fuel] times because set-up or [poll]
    failed, it has returned.  When it has returned, every descriptor it opened is closed; the code is 1
    only if the loop was never entered, and otherwise 0, and then the static private key
    and the peer table with its session keys are zeroed and both descriptors are marked
    closed. *)
Theorem main_cleans_up {S : Sodium} {SL : SodiumLaws S} argv fuel rs res t :
  (46 + 13 * fuel <= length rs)%nat → exec (main argv fuel) rs = (res, t) → env_ok any_call t →
  (∃ d, res = Done (Running d) ∧ length (flags t) = fuel ∧ 0 ∉ flags t) ∨
  (open_fds t = [] ∧
   (res = Done (Returned 1 None) ∧ flags t = [] ∨
    ∃ d, res = Done (Returned 0 (Some d)) ∧ static_priv d = replicate 32 0 ∧ table d = zero_table ∧
         sock_fd d = -1 ∧ fd (tun d) < 0)).
Proof.
  intros Hl Hx He. destruct (main_exec argv fuel rs res t Hl Hx He) as (r & -> & _ & Hr).
  destruct r as [d|code d]; [left; by exists d|right]. destruct Hr as [Ho Hr]. split; [done|].
  destruct Hr as [(-> & -> & Hf)|(-> & d' & -> & Hw)]; [by left|right]. by exists d'.
Qed.

(** C40: the daemon as built forwards nothing: [main] never adds a peer to its
    table, so whatever arrives it answers no handshake, writes no packet to the TUN
    device and sends no datagram. *)
Theorem main_forwards_nothing {S : Sodium} {SL : SodiumLaws S} argv fuel rs res t :
  (46 + 13 * fuel <= length rs)%nat → exec (main argv fuel) rs = (res, t) → env_ok any_call t →
  tun_writes t = [] ∧ udp_sends t = [].
Proof. intros Hl Hx He. by destruct (main_exec argv fuel rs res t Hl Hx He) as (r & _ & Ho & _). Qed.

(** A start without a TUN device, one initiation received, then a signal. *)
Module Start.
Definition replies : list reply :=
  [ok_reply 0; ok_reply 0; ok_reply 0; ok_reply 0; mk_reply 0 1 (replicate 32 3) [] 0 []; ok_reply 0;
   ok_reply 7; ok_reply 0; ok_reply 0; ok_reply 0;
   mk_reply (-1) 2 [] [] 0 []; mk_reply 0 2 [] [] 0 []; ok_reply 0; ok_reply 0;
   ok_reply 1; Live.ready [1]; Live.datagram (init_wire demo_init_msg)] ++ replicate 72 (ok_reply 0).

Definition outcome : result main_end * trace :=
  Eval vm_compute in exec (main (S := Toy.toy) [] 2) replies.

Lemma start_ran : exec (main (S := Toy.toy) [] 2) replies = outcome.
Proof. by vm_compute. Qed.

Lemma start_env : env_ok any_call outcome.2.
Proof. unfold outcome. cbn [snd]. by_env. Qed.
End Start.

(** The second test of the flag reads 0, so the fuel of two iterations does not run out. *)
Lemma main_cleans_up_witness :
  flags Start.outcome.2 = [1; 0] ∧ open_fds Start.outcome.2 = [] ∧
  ∃ d, Start.outcome.1 = Done (Returned 0 (Some d)) ∧ static_priv d = replicate 32 0 ∧
       table d = zero_table ∧ sock_fd d = -1 ∧ fd (tun d) < 0.
Proof.
  split; [by vm_compute|].
  destruct (main_cleans_up (S := Toy.toy) [] 2 Start.replies Start.outcome.1 Start.outcome.2)
    as [(d & _ & _ & Hn)|(Ho & Hr)];
    [vm_compute; lia|rewrite Start.start_ran; by destruct Start.outcome|apply Start.start_env| |].
  - destruct Hn. unfold Start.outcome. cbn. right. by left.
  - split; [exact Ho|]. destruct Hr as [[_ Hf]|Hd]; [by vm_compute in Hf|exact Hd].
Defined.

Lemma main_forwards_nothing_witness :
  tun_writes Start.outcome.2 = [] ∧ udp_sends Start.outcome.2 = [].
Proof.
  apply (main_forwards_nothing (S := Toy.toy) [] 2 Start.replies Start.outcome.1);
    [vm_compute; lia|rewrite Start.start_ran; by destruct Start.outcome|apply Start.start_env].
Defined.
