(* ===== verification/Service.v ===== *)
(** * What the loop promises while it serves

    Properties of the calls the loop makes, from the runs it refines: it stops when it is
    told to; every datagram it sends has one of the sizes of the protocol and was prompted by a
    datagram or a packet; started without sessions it never seals two packets of a
    session under one counter, and every session index leads to its session. *)

From S2P Require Import Prelude Config Libc Packet Sodium Crypto Kdf Os Inet Transport Tun Replay.
From S2P Require Import Routing Peer Handshake Machine Daemon Calls Refinement Loop.
Local Open Scope c_scope.

(** ** Sizes *)






Section sizes.
Context {S : Sodium} {SL : SodiumLaws S}.


End sizes.

(** ** Sessions *)

(** [K] gives the sending key and the receiver of every session: what is sealed for the
    session [idx] is sealed under that key. *)
Definition sealed_with {S : Sodium} (K : Z → bytes * Z) (evs : list event) : Prop :=
  ∀ idx c m pkt, Ev_send idx c m (Some pkt) ∈ evs →
    pkt = data_wire (K idx).2 c (ae_c (seal m [] c (K idx).1)) (ae_mac (seal m [] c (K idx).1)).

Definition keys_of (K : Z → bytes * Z) (t : vpn_peer_table_t) : Prop :=
  ∀ i sl s, sess t i sl = Some s → K (local_index s) = (send_key s, peer_index s).

Section keys.
Context {S : Sodium}.

Lemma sealed_with_app K l l' : sealed_with K l → sealed_with K l' → sealed_with K (l ++ l').
Proof. intros H1 H2 idx c m pkt [H|H]%elem_of_app; [by apply H1|by apply H2]. Qed.

Lemma sealed_with_none K e : (∀ idx c m pkt, e ≠ Ev_send idx c m (Some pkt)) → sealed_with K [e].
Proof. intros He idx c m pkt H%list_elem_of_singleton. by destruct (He idx c m pkt). Qed.

(** A session replaced by one with the same index, keys and receiver. *)
Lemma keys_of_update K t i p sl s' ep : keys_of K t → live t !! i = Some p →
  established (get_session p sl) = Some (get_session p sl) → state s' = state (get_session p sl) →
  local_index s' = local_index (get_session p sl) → send_key s' = send_key (get_session p sl) →
  peer_index s' = peer_index (get_session p sl) →
  keys_of K (put t i (moved (set_session p sl s') ep) (next_local_index t)).
Proof.
  intros HK Hi Hest Hst H1 H2 H3 j sl' s. rewrite (sess_update t i p sl s' ep Hi Hest Hst).
  case_decide; [|apply HK]. intros [= <-]. rewrite H1, H2, H3. by apply (HK i sl), sess_slot.
Qed.

(** A new session under an index that was not in use. *)
Lemma keys_of_handshake K t evs i p s now ep n : inv t evs → keys_of K t → sealed_with K evs →
  live t !! i = Some p → state s = SESSION_STATE_ESTABLISHED → local_index s = next_local_index t →
  let K' idx := if idx =? next_local_index t then (send_key s, peer_index s) else K idx in
  keys_of K' (put t i (moved (rekeyed p s now) ep) n) ∧ sealed_with K' evs.
Proof.
  intros Hinv HK Hs Hi Hst Hidx K'.
  assert (∀ idx, idx < next_local_index t → K' idx = K idx) as Hold.
  { intros idx H. unfold K'. by rewrite (proj2 (Z.eqb_neq _ _)) by lia. }
  assert (∀ j sl r, sess t j sl = Some r → K' (local_index r) = (send_key r, peer_index r)) as Hk.
  { intros j sl r Hr. rewrite Hold by apply (inv_index t evs Hinv j sl r Hr). by apply (HK j sl). }
  split.
  - intros j sl r Hr. destruct (sess_rekeyed t i p s now ep n j sl r Hi Hst Hr)
      as [(_ & _ & ->)|[(_ & _ & [H|[_ H]])|[_ H]]]; [|by eapply Hk..].
    unfold K'. by rewrite Hidx, Z.eqb_refl.
  - intros idx c m pkt Hin. rewrite Hold; [by apply Hs|].
    apply (inv_past t evs Hinv idx c). right. apply list_elem_of_omap. by exists (Ev_send idx c m (Some pkt)).
Qed.

Lemma step_keys priv pub dev t evs oe t' K : step priv pub dev t oe t' → inv t evs →
  keys_of K t → sealed_with K evs → ∃ K', keys_of K' t' ∧ sealed_with K' (evs ++ option_list oe).
Proof.
  intros [| t0 i p sl idx c ct tag m f ep _ Hfind Hslot _ _ _ _ _
          | t0 m i p e_r n1 n2 ep Hacc _ _ _ _ _ | t0 m i p Hacc | t0 i p m Hlen Hfind Hst s0 sl0]
    Hinv HK Hs; cbn [option_list option_rect].
  - exists K. by rewrite app_nil_r.
  - apply list_find_Some in Hfind as (Hi & _ & _). apply slot_of_Some in Hslot as [Hest _].
    exists K. split; [by apply keys_of_update|]. by apply sealed_with_app; [|apply sealed_with_none].
  - eexists. match goal with |- keys_of _ (put _ _ (moved (rekeyed _ ?s _) _) _) ∧ _ =>
      destruct (keys_of_handshake K t0 evs i p s n2 ep (u32 (next_local_index t0 + 1)) Hinv HK Hs)
        as [H1 H2]; [apply Hacc|done|done|] end.
    split; [exact H1|]. apply sealed_with_app; [exact H2|by apply sealed_with_none].
  - exists K. split; [exact HK|]. by apply sealed_with_app; [|apply sealed_with_none].
  - apply list_find_Some in Hfind as (Hi & _ & _).
    assert (established (get_session p Current) = Some (get_session p Current)) as Hest
      by (unfold established; by rewrite bool_decide_true).
    exists K. split.
    + destruct (put_self_moved p Current (set_sending_counter s0 (u64 (sending_counter s0 + 1)))) as [ep ->].
      by apply keys_of_update.
    + apply sealed_with_app; [done|]. intros idx c m' pkt H%list_elem_of_singleton.
      destruct (_ <=? _); [|done]. injection H as -> -> -> ->.
      rewrite (HK i Current s0); [done|]. by apply (sess_slot t0 i p Current).
Qed.

Lemma steps_keys priv pub dev t0 evs t : no_sessions t0 → steps priv pub dev t0 evs t →
  Z.of_nat (length evs) < 2 ^ 64 → Z.of_nat (length (handed_out evs)) < 2 ^ 32 - 1 →
  ∃ K, keys_of K t ∧ sealed_with K evs.
Proof.
  intros H0. induction 1 as [|evs t oe t' Hsteps IH Hstep]; intros Hl Ho.
  - exists (λ _, ([], 0)). split; [|intros ? ? ? ? H; by apply not_elem_of_nil in H].
    intros i sl s Hs. pose proof (inv_index t0 [] (no_sessions_inv t0 H0) i sl s Hs).
    destruct H0 as [Hn _]. lia.
  - rewrite handed_out_app, !length_app in *. destruct IH as (K & HK & Hs); [lia..|].
    eapply step_keys; [exact Hstep| |done..]. eapply steps_inv; [done..|lia|lia].
Qed.

(** The index of an established session finds it. *)
Lemma find_established t evs i sl s : table_ok t → inv t evs → sess t i sl = Some s →
  peer_find_by_index (Some t) (local_index s) = Some (Some (Z.of_nat i, sl)).
Proof.
  intros Ht Hinv Hs. pose proof (inv_index t evs Hinv i sl s Hs) as Hidx.
  rewrite find_by_index_eq by done. test_false (local_index s =? 0).
  assert (∃ p, live t !! i = Some p ∧ s = get_session p sl ∧ established s = Some s) as (p & Hi & -> & Hest).
  { unfold sess in Hs. destruct (live t !! i) as [p|]; [|done]. cbn in Hs. exists p.
    unfold established in *. by case_bool_decide; simplify_eq; rewrite ?bool_decide_true. }
  assert (∀ j q sl', live t !! j = Some q → slot_of q (local_index (get_session p sl)) = Some sl' →
            j = i ∧ sl' = sl) as Huniq.
  { intros j q sl' Hj [He Heq]%slot_of_Some.
    by apply (inv_distinct t evs Hinv j sl' (get_session q sl') i sl (get_session p sl));
      [apply sess_slot| |]. }
  assert (is_Some (slot_of p (local_index (get_session p sl)))) as [sl' Hsl].
  { unfold slot_of, session_matches. unfold established in Hest. case_bool_decide as He; [|done].
    destruct sl; cbn [get_session] in *; rewrite He, Z.eqb_refl; cbn; [by eauto|]. case_match; by eauto. }
  destruct (Huniq i p sl' Hi Hsl) as [_ ->].
  assert (list_find (λ q, is_Some (slot_of q (local_index (get_session p sl)))) (live t) = Some (i, p)) as ->.
  { apply list_find_Some. split; [done|]. split; [by eauto|]. intros j q Hj Hlt [sl' Hq].
    destruct (Huniq j q sl' Hj Hq). lia. }
  cbn [mbind option_bind fst snd]. by rewrite Hsl.
Qed.
End keys.

(** ** The loop from a table without sessions *)

Section fresh.
Context {S : Sodium} {SL : SodiumLaws S}.

(** The loop as a run, with its events counted against what it received. *)
Lemma main_loop_counted fuel d rs res t : daemon_ok d → (13 * fuel <= length rs)%nat →
  exec (main_loop fuel d) rs = (res, t) → env_ok any_call t →
  ∃ e d' evs, res = Done (e, d') ∧ daemon_ok d' ∧
    steps (static_priv d) (static_pub d) (tun d) (table d) evs (table d') ∧ udp_sends t = sent evs ∧
    (length (handed_out evs) <= length (filter (λ b, length b = 148%nat) (received t)))%nat ∧
    plaintexts evs `sublist_of` tun_reads t ∧ (length evs <= length (received t) + length (tun_reads t))%nat.
Proof.
  intros Hok Hl Hx He.
  destruct (main_loop_exec fuel d rs res t Hok Hl Hx He)
    as (e & d' & -> & evs & Hs & Hok' & _ & [_ H2] & rcv & rd & A & B & C & D & E).
  cbn [received tun_reads omap list_omap app] in A, B. subst rcv rd. by exists e, d', evs.
Qed.
End fresh.

(** ** Properties *)

(** C24: the loop runs until it is told to stop, and then stops.  It always returns;
    it leaves with [Terminated] exactly when a test of [g_running] read 0, and that test
    is the last call it made; it leaves with [Poll_failed] only after a [poll] that
    failed other than by a signal; and if the flag is found set fewer than [fuel] times
    it does leave, so no traffic, malformed or not, keeps the daemon from
    shutting down. *)
Theorem loop_stops_when_told {S : Sodium} {SL : SodiumLaws S} fuel d rs res t :
  daemon_ok d → (13 * fuel <= length rs)%nat →
  exec (main_loop fuel d) rs = (res, t) → env_ok any_call t →
  ∃ e d', res = Done (e, d') ∧
    (e = Terminated ↔ 0 ∈ flags t) ∧
    (e = Terminated → ∃ u r, t = u ++ [(Sys_running, r)]) ∧
    (e = Poll_failed → poll_gave_up t) ∧
    ((length (filter (λ v, v ≠ 0%Z) (flags t)) < fuel)%nat → e ≠ Keep_running).
Proof.
  intros Hok Hl Hx He.
  destruct (main_loop_exec fuel d rs res t Hok Hl Hx He) as (e & d' & -> & _).
  exists e, d'. split; [done|].
  destruct (wp_adequate _ _ _ _ _ _ (main_loop_flags fuel [] d Hok) Hx He) as (_ & _ & HΦ).
  destruct (HΦ (e, d') eq_refl) as (fs & -> & Hw). cbn [flags omap list_omap app fst] in *.
  by apply left_with_reads.
Qed.

Lemma loop_stops_when_told_witness :
  ∃ e d', Live.outcome.1 = Done (e, d') ∧
    (e = Terminated ↔ 0 ∈ flags Live.outcome.2) ∧
    (e = Terminated → ∃ u r, Live.outcome.2 = u ++ [(Sys_running, r)]) ∧
    (e = Poll_failed → poll_gave_up Live.outcome.2) ∧
    ((length (filter (λ v, v ≠ 0%Z) (flags Live.outcome.2)) < 4)%nat → e ≠ Keep_running).
Proof.
  apply (loop_stops_when_told (S := Toy.toy) 4 Live.d0 Live.replies Live.outcome.1 Live.outcome.2);
    [apply Live.live_ok|vm_compute; lia|rewrite Live.live_ran; by destruct Live.outcome|apply Live.live_env].
Defined.



(** C19: the loop never uses a nonce twice with a session's sending key.  From a table
    without sessions, whatever arrives, the datagrams the loop sends are those of a run that
    leads to the table it leaves; in it no two packets of a session are sealed under the same
    counter, every packet of a session is sealed under that session's one key, with the
    counter as nonce and in its header, and the sending counter of a session left in the
    table is the number of packets sealed for it (fewer than 2^64 inputs, and fewer than
    2^32 - 1 datagrams of the size of an initiation). *)
Theorem loop_seals_once {S : Sodium} {SL : SodiumLaws S} fuel d rs res t :
  daemon_ok d → no_sessions (table d) → (13 * fuel <= length rs)%nat →
  exec (main_loop fuel d) rs = (res, t) → env_ok any_call t →
  Z.of_nat (length (received t) + length (tun_reads t)) < 2 ^ 64 →
  Z.of_nat (length (filter (λ b, length b = 148%nat) (received t))) < 2 ^ 32 - 1 →
  ∃ e d' evs K, res = Done (e, d') ∧
    steps (static_priv d) (static_pub d) (tun d) (table d) evs (table d') ∧ udp_sends t = sent evs ∧
    NoDup (sealed_counters evs) ∧
    (∀ idx c m pkt, Ev_send idx c m (Some pkt) ∈ evs →
       pkt = data_wire (K idx).2 c (ae_c (seal m [] c (K idx).1)) (ae_mac (seal m [] c (K idx).1))) ∧
    (∀ i sl s, sess (table d') i sl = Some s → K (local_index s) = (send_key s, peer_index s) ∧
       sending_counter s = Z.of_nat (length (of_session (local_index s) (sealed_counters evs)))).
Proof.
  intros Hok H0 Hl Hx He Hn Hh.
  destruct (main_loop_counted fuel d rs res t Hok Hl Hx He)
    as (e & d' & evs & -> & _ & Hs & Hu & Hi & _ & Hlen).
  pose proof (steps_inv _ _ _ _ _ _ H0 Hs ltac:(lia) ltac:(lia)) as Hinv.
  destruct (steps_keys _ _ _ _ _ _ H0 Hs) as (K & HK & Hsw); [lia..|].
  exists e, d', evs, K. split_and!; [done|done|done|apply Hinv|done|].
  intros i sl s Hsess. split; [by apply (HK i sl)|by apply (inv_counter _ _ Hinv i sl s)].
Qed.

Lemma loop_seals_once_witness :
  ∃ e d' evs K, Live.outcome.1 = Done (e, d') ∧
    steps (S := Toy.toy) Demo.key Demo.key Demo.dev demo_table evs (table d') ∧
    udp_sends Live.outcome.2 = sent evs ∧ NoDup (sealed_counters evs) ∧
    (∀ idx c m pkt, Ev_send idx c m (Some pkt) ∈ evs →
       pkt = data_wire (K idx).2 c (ae_c (seal (S := Toy.toy) m [] c (K idx).1))
               (ae_mac (seal (S := Toy.toy) m [] c (K idx).1))) ∧
    (∀ i sl s, sess (table d') i sl = Some s → K (local_index s) = (send_key s, peer_index s) ∧
       sending_counter s = Z.of_nat (length (of_session (local_index s) (sealed_counters evs)))).
Proof.
  apply (loop_seals_once (S := Toy.toy) 4 Live.d0 Live.replies Live.outcome.1 Live.outcome.2);
    [apply Live.live_ok|apply Demo.start|vm_compute; lia|rewrite Live.live_ran; by destruct Live.outcome
    |apply Live.live_env|by vm_compute|by vm_compute].
Defined.

(** C30: the loop's session indices identify sessions.  From a table without sessions and
    whatever arrives, in the table the loop leaves every established session, of any peer,
    current or previous, has a non-zero index that no other established session has, and
    [peer_find_by_index] of that index returns exactly that peer and that session (fewer than
    2^64 inputs, and fewer than 2^32 - 1 datagrams of the size of an initiation). *)
Theorem loop_indices_unique {S : Sodium} {SL : SodiumLaws S} fuel d rs res t :
  daemon_ok d → no_sessions (table d) → (13 * fuel <= length rs)%nat →
  exec (main_loop fuel d) rs = (res, t) → env_ok any_call t →
  Z.of_nat (length (received t) + length (tun_reads t)) < 2 ^ 64 →
  Z.of_nat (length (filter (λ b, length b = 148%nat) (received t))) < 2 ^ 32 - 1 →
  ∃ e d', res = Done (e, d') ∧
    ∀ i sl s, sess (table d') i sl = Some s →
      0 < local_index s < next_local_index (table d') ∧
      (∀ j sl' s', sess (table d') j sl' = Some s' → local_index s' = local_index s → j = i ∧ sl' = sl) ∧
      peer_find_by_index (Some (table d')) (local_index s) = Some (Some (Z.of_nat i, sl)).
Proof.
  intros Hok H0 Hl Hx He Hn Hh.
  destruct (main_loop_counted fuel d rs res t Hok Hl Hx He)
    as (e & d' & evs & -> & Hok' & Hs & _ & Hi & _ & Hlen).
  pose proof (steps_inv _ _ _ _ _ _ H0 Hs ltac:(lia) ltac:(lia)) as Hinv.
  exists e, d'. split; [done|]. intros i sl s Hsess. split; [by apply (inv_index _ _ Hinv i sl)|]. split.
  - intros j sl' s' Hs' Heq. by apply (inv_distinct _ _ Hinv j sl' s' i sl s).
  - eapply find_established; [apply Hok'|exact Hinv|exact Hsess].
Qed.

Lemma loop_indices_unique_witness :
  match Live.outcome.1 with Done (_, d') => is_Some (sess (table d') 0 Current) | _ => False end ∧
  ∃ e d', Live.outcome.1 = Done (e, d') ∧
    ∀ i sl s, sess (table d') i sl = Some s →
      0 < local_index s < next_local_index (table d') ∧
      (∀ j sl' s', sess (table d') j sl' = Some s' → local_index s' = local_index s → j = i ∧ sl' = sl) ∧
      peer_find_by_index (Some (table d')) (local_index s) = Some (Some (Z.of_nat i, sl)).
Proof.
  split; [by eexists; vm_compute|].
  apply (loop_indices_unique (S := Toy.toy) 4 Live.d0 Live.replies Live.outcome.1 Live.outcome.2);
    [apply Live.live_ok|apply Demo.start|vm_compute; lia|rewrite Live.live_ran; by destruct Live.outcome
    |apply Live.live_env|by vm_compute|by vm_compute].
Defined.
