(* ===== verification/Tunnel.v ===== *)
(** * Through the tunnel

    Two daemons and the network between them: a packet one reads from its TUN
    device, the datagram it sends, and the packet the other writes to its own TUN
    device when that datagram arrives, once and however often it arrives. *)

From S2P Require Import Prelude Config Libc Packet Sodium Crypto Kdf Os Inet Transport Tun Replay.
From S2P Require Import Routing Peer Handshake Machine Daemon Calls Refinement Loop.
Local Open Scope c_scope.

(** ** Executions whose first reply is known *)

(** The replies begin with [data], and there are enough of them for a handler. *)
Definition fed (data : bytes) (rs : list reply) : Prop :=
  ∃ r rs', rs = r :: rs' ∧ r_data r = data ∧ r_ret r = Z.of_nat (length data) ∧ (7 <= length rs)%nat.

Definition first_reply (r0 : reply) : protocol :=
  mk_protocol (λ _, True) (λ h c r, sys_returns h c r ∧ (h = [] → r = r0)).

Lemma wp_first_reply {A} r0 h (p : prog A) Φ : wp any_call h p Φ → wp (first_reply r0) h p Φ.
Proof.
  revert h. induction p as [a| |c k IH]; intros h; cbn [wp]; [done..|].
  intros [_ Hk]. split; [done|]. intros r [Hr _]. by apply IH, Hk.
Qed.

Lemma env_ok_first_reply r0 c t :
  env_ok any_call ((c, r0) :: t) → env_ok (first_reply r0) ((c, r0) :: t).
Proof.
  intros [Hr Ht]. split; [done|]. cbn [app] in *. revert Ht.
  assert ([(c, r0)] ≠ []) as Hh by done. revert Hh. generalize [(c, r0)] as h.
  induction t as [|[c' r'] t IH]; [done|]. intros h Hh [Hr' Ht]. split; [by split|].
  apply IH; [by destruct h|done].
Qed.

(** Such an execution returns, and ends in the postcondition. *)
Lemma fed_exec {A} Q (p : prog A) Φ data rs res t :
  within Q 7 p → fed data rs →
  (∀ r0, r_data r0 = data → r_ret r0 = Z.of_nat (length data) → wp (first_reply r0) [] p Φ) →
  exec p rs = (res, t) → env_ok any_call t → ∃ a, res = Done a ∧ Φ t a.
Proof.
  intros Hw (r0 & rs' & -> & Hd & Hr & Hl) Hp Hx He. specialize (Hp r0 Hd Hr).
  destruct (within_exec _ _ _ _ _ _ Hw Hl Hx) as (Hres & _).
  assert (env_ok (first_reply r0) t) as He'.
  { destruct p as [a| |c k]; [by injection Hx as <- <-..|]. cbn [exec] in Hx.
    destruct (exec (k r0) rs') as [res' t']. injection Hx as <- <-. by apply env_ok_first_reply. }
  destruct (wp_adequate _ _ _ _ _ _ Hp Hx He') as (Hub & _ & HΦ).
  destruct res as [a| |]; [|done..]. exists a. split; [done|]. by apply HΦ.
Qed.

Section tunnel.
Context {S : Sodium} {SL : SodiumLaws S}.

(** ** The sender *)

Lemma did_after h0 h d d1 e tb t d' : outputs h0 h [] → same_host d d1 →
  did h d1 e tb t d' → did h0 d e tb t d'.
Proof.
  intros Ho (A1 & A2 & A3 & A4) (Ht & Hok & (B1 & B2 & B3 & B4) & Hout).
  split_and!; [done|done|by split_and!; congruence|].
  exact (outputs_trans _ _ _ [] _ Ho Hout).
Qed.

Lemma overwritten_ok (b m : bytes) n : length b = n → bytes_ok b → bytes_ok m → (length m <= n)%nat →
  length (m ++ drop (length m) b) = n ∧ bytes_ok (m ++ drop (length m) b).
Proof.
  intros Hb Hbb Hm Hl. split; [rewrite overwrite_length; lia|].
  apply Forall_app_2; [done|by apply Forall_drop].
Qed.

(** A packet from the TUN device for a peer with a session is sealed and sent. *)
Lemma handle_tun_sends d i p m r0 : daemon_ok d → 0 <= fd (tun d) →
  r_data r0 = m → r_ret r0 = Z.of_nat (length m) → 20 <= Z.of_nat (length m) →
  list_find (λ p, allows p (ip_of m 16)) (live (table d)) = Some (i, p) →
  state (current_session p) = SESSION_STATE_ESTABLISHED →
  wp (first_reply r0) [] (handle_tun d)
    (did [] d (send_event (current_session p) m) (send_put (table d) i p)).
Proof.
  intros Hok Hfd Hd Hr Hm Hfind Hst. unfold handle_tun, tun_read.
  change (VPN_MAX_PACKET_SIZE =? 0) with false. test_false ((fd (tun d) <? 0) || false).
  do 2 wp_step. apply wp_call; [done|]. intros r [[_ Hret] Hr0]. rewrite (Hr0 eq_refl) in *. clear Hr0.
  rewrite Hr, Hd in Hret. destruct Hret as (_ & Hmax & Hmb); [lia|]. unfold VPN_MAX_PACKET_SIZE in Hmax.
  rewrite Hr, Hd. test_false (Z.of_nat (length m) <? 0).
  pose proof Hok as [_ _ _ _ _ _ [Htl Htb] _ _]. rewrite blit_front by lia.
  do 2 wp_step. wp_step. do 2 wp_step. set (d1 := set_tun_buf d _).
  assert (daemon_ok d1) as Hok1.
  { destruct (overwritten_ok (tun_buf d) m 2048); [done..|lia|]. destruct Hok. by split. }
  test_true (Z.of_nat (length m) >=? 20). change (tun_buf d1) with (m ++ drop (length m) (tun_buf d)).
  change 16 with (Z.of_nat 16). rewrite ip_at_of by lia. do 2 wp_step. wp_step.
  rewrite find_by_dest_ip_eq by apply Hok1. wp_step. change (table d1) with (table d) at 1.
  rewrite Hfind. cbn [fmap option_fmap option_map fst].
  pose proof Hfind as Hf. apply list_find_Some in Hf as (Hi & _ & _).
  destruct (live_get (table d1) (ok_table d1 Hok1) i p Hi) as [-> Hp]. do 2 wp_step.
  rewrite bool_decide_true by done. apply wp_first_reply.
  eapply wp_mono; [|by apply (send_to_peer_wp _ d1 i p m (drop (length m) (tun_buf d)))].
  intros t d'. apply did_after; [|done]. apply (outputs_quiet [] [] []); [done|apply outputs_nil].
Qed.

(** ** The receiver *)

(** The handler the first byte of a datagram selects. *)
Definition handles (w : bytes) (handler : daemon → vpn_endpoint_t → Z → prog daemon) : Prop :=
  (w !! 0%nat = Some 1 ∧ handler = handle_initiation) ∨
  (w !! 0%nat = Some 3 ∧ handler = handle_data) ∨ (w !! 0%nat = Some 4 ∧ handler = handle_data).

Lemma handle_udp_receives d w r0 handler (Φ : trace → daemon → Prop) : daemon_ok d →
  r_data r0 = w → r_ret r0 = Z.of_nat (length w) → handles w handler →
  (∀ h ep, endpoint_ok ep → outputs [] h [] →
     let d1 := set_net_buf d (w ++ drop (length w) (net_buf d)) in
     daemon_ok d1 → Z.of_nat (length w) <= 2048 →
     wp any_call h (handler d1 ep (Z.of_nat (length w))) Φ) →
  wp (first_reply r0) [] (handle_udp d) Φ.
Proof.
  intros Hok Hd Hr Hw HΦ. unfold handle_udp, transport_recv.
  pose proof Hok as [_ _ _ Hsock _ [Hnl Hnb] _ _ _].
  change (VPN_MAX_PACKET_SIZE =? 0) with false. test_false ((sock_fd d <? 0) || false).
  do 2 wp_step. apply wp_call; [done|]. intros r [[_ Hret] Hr0]. rewrite (Hr0 eq_refl) in *. clear Hr0.
  rewrite Hr, Hd in Hret. destruct Hret as (_ & Hmax & Hmb & Ha & Hab & Hal); [lia|].
  unfold VPN_MAX_PACKET_SIZE in Hmax. rewrite Hr, Hd. test_false (Z.of_nat (length w) <? 0).
  rewrite blit_front by lia. do 2 wp_step. wp_step. do 4 wp_step. set (d1 := set_net_buf d _).
  assert (0 < length w)%nat as Hpos by (destruct w; [by destruct Hw as [[]|[[]|[]]]|simpl; lia]).
  test_true (Z.of_nat (length w) >? 0). unfold packet_peek_type.
  test_false (Z.of_nat (length w) <? 1).
  change ((net_buf d1).[0]) with ((net_buf d1).[Z.of_nat 0]). rewrite rd_nat.
  assert (net_buf d1 !! 0%nat = w !! 0%nat) as -> by (by apply lookup_app_l).
  assert (wp any_call ([] ++ [(Sys_recvfrom (sock_fd d) 2048, r0)])
    (handler d1 (mk_endpoint (r_addr r0) (r_addrlen r0)) (Z.of_nat (length w))) Φ) as Hwp.
  { apply HΦ; [by split| |..|done].
    - apply (outputs_quiet [] [] []); [done|apply outputs_nil].
    - destruct (overwritten_ok (net_buf d) w 2048); [done..|lia|]. destruct Hok. by split. }
  destruct Hw as [[-> ->]|[[-> ->]|[-> ->]]]; bind_simpl; do 2 wp_step; by apply wp_first_reply.
Qed.

(** A datagram [data_wire] builds, as the receive path sees it. *)
Lemma wire_parsed d receiver c ct tag rest n : daemon_ok d →
  net_buf d = data_wire receiver c ct tag ++ rest → n = Z.of_nat (length ct) + 32 →
  is_u32 receiver → is_u64 c → length tag = 16%nat → (length ct <= 1440)%nat →
  ∃ pd, packet_parse_data (Some (net_buf d)) n (Some (mk_packet_data 0 0 NULL 0 0)) = Some (0, Some pd) ∧
    pd_receiver_index pd = receiver ∧ pd_counter pd = c ∧
    pd_ciphertext_len pd = Z.of_nat (length ct) ∧ pd_auth_tag pd = 16 + Z.of_nat (length ct) ∧
    pd_ciphertext pd = (if pd_ciphertext_len pd >? 0 then Some 16 else NULL) ∧
    drop 16 (net_buf d) = ct ++ tag ++ rest.
Proof.
  intros Hok Hbuf -> Hr Hc Htag Hct. pose proof Hok as [_ _ _ _ _ [Hnl Hnb] _ _ _].
  destruct (parse_data_wire receiver c ct tag rest (mk_packet_data 0 0 NULL 0 0)
    (Z.of_nat (length ct))) as (pd & Hp & H1 & H2 & H3 & H4 & _ & _); [done..|
    change PACKET_DATA_MAX_PAYLOAD with 1440; lia|].
  exists pd. rewrite Hbuf. split; [done|].
  rewrite <- Hbuf in Hp. assert (Z.of_nat (length ct) + 32 <= Z.of_nat (length (net_buf d))) as Hle
    by (rewrite Hbuf, length_app, data_wire_length by done; lia).
  destruct (parse_data_inv _ _ _ _ Hnb Hle Hp) as (_ & _ & ct' & _ & _ & _ & _ & Hl' & Hat & _).
  split_and!; [done..|congruence|done|].
  unfold data_wire. rewrite <- !app_assoc. by destruct (_ =? 0).
Qed.

(** ** The second time *)

Lemma list_find_replace {A} (P : A → Prop) `{!∀ x, Decision (P x)} l i x y :
  list_find P l = Some (i, x) → P y → list_find P (<[i := y]> l) = Some (i, y).
Proof.
  intros (Hi & _ & Hlt)%list_find_Some Hy. apply list_find_Some. split_and!.
  - apply list_lookup_insert_eq. by eapply lookup_lt_Some.
  - done.
  - intros j z Hz Hj. rewrite list_lookup_insert_ne in Hz by lia. by apply (Hlt j).
Qed.

Lemma slot_of_committed p slot f ep idx :
  slot_of (moved (set_session p slot (set_filter (get_session p slot) f)) ep) idx = slot_of p idx.
Proof. unfold slot_of, moved. case_bool_decide; by destruct slot. Qed.

Lemma replay_check_committed f c f' : (∃ h, Forall is_u64 h ∧ represents f h) → is_u64 c →
  replay_update (Some f) c = Some (Some f') → replay_check (Some f') c = Some 0.
Proof.
  intros (h & Hh & Hrep) Hc Hup. destruct (represents_update _ _ Hrep c Hc) as (g & Hg & Hrep').
  rewrite Hup in Hg. injection Hg as <-. rewrite (represents_check _ _ Hrep' c Hc).
  destruct (window_accepts (h ++ [c]) c) eqn:E; [|done].
  apply window_accepts_new in E. destruct E. apply elem_of_app. right. by left.
Qed.

(** A packet that was taken is not taken again. *)
Lemma takes_once t idx c ct tag i p slot m f ep : table_ok t → is_u64 c →
  takes t idx c ct tag i p slot m f →
  ¬ ∃ i' p' slot' m' f', takes (accept_put t i p slot f ep) idx c ct tag i' p' slot' m' f'.
Proof.
  intros Ht Hc (_ & Hfind & Hslot & _ & _ & Hup) (i' & p' & slot' & m' & f' & _ & Hf' & Hs' & Hck & _).
  destruct (session_found _ _ c _ _ _ Ht Hc Hfind Hslot) as (_ & _ & Hp & _).
  unfold accept_put, put in Hf'. rewrite live_insert in Hf'.
  rewrite (list_find_replace _ _ _ _ _ Hfind) in Hf' by (rewrite slot_of_committed; eauto).
  injection Hf' as <- <-. rewrite slot_of_committed, Hslot in Hs'. injection Hs' as <-.
  rewrite get_session_moved, get_session_set, decide_True in Hck by done. cbn [replay_filter set_filter] in Hck.
  pose proof (get_session_ok p slot Hp) as [_ _ _ _ Hrep].
  by rewrite (replay_check_committed _ c f Hrep Hc Hup) in Hck.
Qed.

(** ** A datagram [data_wire] builds *)

Section datagram.
Variables (d : daemon) (idx c : Z) (ct tag : bytes).
Hypothesis (Hok : daemon_ok d).
Hypothesis (Hidx : is_u32 idx).
Hypothesis (Hc : is_u64 c).
Hypothesis (Htag : length tag = 16%nat).
Hypothesis (Hct : (length ct <= 1440)%nat).
Abbreviation w := (data_wire idx c ct tag).

Lemma wire_type : handles w handle_data.
Proof. unfold handles, data_wire. right. destruct (_ =? 0); [by right|by left]. Qed.

Lemma udp_accepts rs res t i p slot m f : takes (table d) idx c ct tag i p slot m f → fed w rs →
  exec (handle_udp d) rs = (res, t) → env_ok any_call t →
  ∃ d' ep, res = Done d' ∧ endpoint_ok ep ∧
    did [] d (Ev_accept idx c m (bool_decide (deliverable (tun d) p m)))
      (accept_put (table d) i p slot f ep) t d'.
Proof.
  intros Htk Hfed Hx He.
  destruct (fed_exec serves (handle_udp d) (λ t d', ∃ ep, endpoint_ok ep ∧
    did [] d (Ev_accept idx c m (bool_decide (deliverable (tun d) p m)))
      (accept_put (table d) i p slot f ep) t d') w rs res t) as (d' & -> & ep & Hep & Hdid);
    [apply handle_udp_within|done| |done|done|by exists d', ep].
  intros r0 Hd Hr. apply (handle_udp_receives d w r0 handle_data); [done..|apply wire_type|].
  intros h ep Hep Ho d1 Hok1 Hl.
  destruct (wire_parsed d1 idx c ct tag (drop (length w) (net_buf d)) (Z.of_nat (length w)))
    as (pd & Hp & Hpi & Hpc & H1 & H2 & H3 & H4);
    [exact Hok1|reflexivity|rewrite data_wire_length by exact Htag; lia|assumption..|].
  rewrite <- Hpi, <- Hpc in Htk |- *. rewrite <- Hpc in Hc.
  destruct (handle_data_accepts d1 ep _ pd ct tag _ Hok1 Hep Hp Hc Htag Hct H1 H2 H3 H4 h
    i p slot m f Htk) as [_ Hwp].
  eapply wp_mono; [|exact Hwp]. intros t' d' Hdid. exists ep. split; [exact Hep|].
  apply (did_after [] h d d1); [exact Ho|repeat split|exact Hdid].
Qed.

Lemma udp_rejects rs res t : ¬ (∃ i p slot m f, takes (table d) idx c ct tag i p slot m f) → fed w rs →
  exec (handle_udp d) rs = (res, t) → env_ok any_call t →
  ∃ d', res = Done d' ∧ table d' = table d ∧ outputs [] t [].
Proof.
  intros Hno Hfed Hx He.
  destruct (fed_exec serves (handle_udp d) (λ t d', table d' = table d ∧ outputs [] t [])
    w rs res t) as (d' & -> & Ht & Ho);
    [apply handle_udp_within|done| |done|done|by exists d'].
  intros r0 Hd Hr. apply (handle_udp_receives d w r0 handle_data); [done..|apply wire_type|].
  intros h ep Hep Ho d1 Hok1 Hl.
  destruct (wire_parsed d1 idx c ct tag (drop (length w) (net_buf d)) (Z.of_nat (length w)))
    as (pd & Hp & Hpi & Hpc & H1 & H2 & H3 & H4);
    [exact Hok1|reflexivity|rewrite data_wire_length by exact Htag; lia|assumption..|].
  rewrite <- Hpi, <- Hpc in Hno. rewrite <- Hpc in Hc.
  eapply wp_mono; [|by apply (handle_data_rejects d1 ep _ pd ct tag _ Hok1 Hp Hc Htag Hct H1 H2 H3 H4 h Hno)].
  by intros t' d' (-> & Ht & _).
Qed.
End datagram.
End tunnel.

(** ** From one TUN device to the other *)

(** The current session of peer [p] of [a] and the session in [slot] of peer [q] of
    [b] are the two ends of a connection on which [a] may send [m] to [b]: routing
    chooses [p], [b] knows the index, the keys agree, the window has not seen the
    counter, and [b] may deliver the packet. *)
Record connected (a b : daemon) (m : bytes) (i j : nat) (p q : vpn_peer_t) (slot : session_slot)
    : Prop := {
  con_route : list_find (λ p, allows p (ip_of m 16)) (live (table a)) = Some (i, p);
  con_state : state (current_session p) = SESSION_STATE_ESTABLISHED;
  con_index : peer_index (current_session p) ≠ 0;
  con_find : list_find (λ q, is_Some (slot_of q (peer_index (current_session p)))) (live (table b))
               = Some (j, q);
  con_slot : slot_of q (peer_index (current_session p)) = Some slot;
  con_key : recv_key (get_session q slot) = send_key (current_session p);
  con_fresh : replay_check (Some (replay_filter (get_session q slot)))
                (sending_counter (current_session p)) = Some 1;
  con_deliver : deliverable (tun b) q m
}.

Section ends.
Context {S : Sodium} {SL : SodiumLaws S}.
Variables (a b : daemon) (m : bytes) (i j : nat) (p q : vpn_peer_t) (slot : session_slot).
Hypothesis (Ha : daemon_ok a).
Hypothesis (Hb : daemon_ok b).
Hypothesis (Hm : Z.of_nat (length m) <= 1440).
Hypothesis (Hcon : connected a b m i j p q slot).

Abbreviation s := (current_session p).
Abbreviation sl := (seal m [] (sending_counter s) (send_key s)).
Abbreviation w := (data_wire (peer_index s) (sending_counter s) (ae_c sl) (ae_mac sl)).

Lemma connected_sender : session_ok s ∧ length (ae_c sl) = length m ∧ length (ae_mac sl) = 16%nat.
Proof.
  destruct Hcon as [Hroute _ _ _ _ _ _ _]. apply list_find_Some in Hroute as (Hi & _ & _).
  destruct (live_get _ (ok_table a Ha) i p Hi) as [_ Hp]. split; [by apply Hp|].
  apply seal_lengths, Hp.
Qed.

(** [b] takes what [a] seals. *)
Lemma connected_takes : ∃ f,
  takes (table b) (peer_index s) (sending_counter s) (ae_c sl) (ae_mac sl) j q slot m f.
Proof.
  destruct connected_sender as ([_ Hsk _ Hc _] & _). destruct Hcon as [_ _ Hidx Hfind Hslot Hkey Hck _].
  destruct (session_found _ _ _ _ _ _ (ok_table b Hb) Hc Hfind Hslot) as (_ & _ & _ & _ & _ & [f Hf]).
  exists f. split_and!; try done. rewrite Hkey. by apply unseal_seal.
Qed.

Lemma connected_sends rs res t : 0 <= fd (tun a) → fed m rs →
  exec (handle_tun a) rs = (res, t) → env_ok any_call t →
  ∃ a', res = Done a' ∧ daemon_ok a' ∧ table a' = send_put (table a) i p ∧
        udp_sends t = [w] ∧ tun_writes t = [].
Proof.
  intros Hfd Hfed Hx He. destruct Hcon as [Hroute Hst _ _ _ _ _ (Hl & _)].
  destruct (fed_exec serves (handle_tun a) (did [] a (send_event s m) (send_put (table a) i p))
    m rs res t) as (a' & -> & Ht & Hok & _ & Ho); [|done| |done|done|].
  - eapply within_le; [|apply handle_tun_within]. lia.
  - intros r0 Hd Hr. by apply handle_tun_sends; [..|lia| |].
  - exists a'. destruct Ho as [Hw Hs]. split_and!; [done..| |].
    + rewrite Hs. unfold send_event. cbn zeta.
      change VPN_MAX_PACKET_SIZE with 2048. by test_true (Z.of_nat (length m) + 32 <=? 2048).
    + by rewrite Hw.
Qed.
End ends.

(** ** Properties *)

(** C2: the tunnel carries packets, once.  Let the current session of the peer that
    daemon [a] routes a packet to and a session of daemon [b] be the two ends of a
    connection.  When [a] reads the packet (at most 1440 bytes) from its TUN device
    it sends exactly one datagram; when [b] receives that datagram, from whatever
    address, it writes exactly that packet to its TUN device and sends nothing; and
    when it receives the datagram again it writes and sends nothing and its peer
    table is unchanged.  All three handlers return, whatever the kernel answers. *)
Theorem tunnel_delivers_once {S : Sodium} {SL : SodiumLaws S} a b m i j p q slot rs res t :
  daemon_ok a → daemon_ok b → Z.of_nat (length m) <= 1440 → 0 <= fd (tun a) →
  connected a b m i j p q slot →
  fed m rs → exec (handle_tun a) rs = (res, t) → env_ok any_call t →
  ∃ a' w, res = Done a' ∧ daemon_ok a' ∧ udp_sends t = [w] ∧ tun_writes t = [] ∧
    ∀ rs1 res1 t1, fed w rs1 → exec (handle_udp b) rs1 = (res1, t1) → env_ok any_call t1 →
    ∃ b', res1 = Done b' ∧ daemon_ok b' ∧ tun_writes t1 = [m] ∧ udp_sends t1 = [] ∧
      ∀ rs2 res2 t2, fed w rs2 → exec (handle_udp b') rs2 = (res2, t2) → env_ok any_call t2 →
      ∃ b'', res2 = Done b'' ∧ tun_writes t2 = [] ∧ udp_sends t2 = [] ∧ table b'' = table b'.
Proof.
  intros Ha Hb Hm Hfd Hcon Hfed Hx He.
  destruct (connected_sends a b m i j p q slot Ha Hm Hcon rs res t Hfd Hfed Hx He)
    as (a' & -> & Ha' & _ & Hs & Hw).
  eexists a', _. split_and!; [done..|]. clear Hfed Hx He.
  destruct (connected_sender a b m i j p q slot Ha Hcon) as ([[_ Hpi] _ _ Hc _] & Hcl & Htl).
  destruct (connected_takes a b m i j p q slot Ha Hb Hcon) as [f Htk].
  intros rs1 res1 t1 Hfed Hx He.
  edestruct (udp_accepts b) as (b' & ep & -> & Hep & Htb & Hb' & Hh & Hw1 & Hs1); try done; [lia|].
  exists b'. split_and!; [done|done| |by rewrite Hs1|].
  { rewrite Hw1, bool_decide_true; [done|by destruct Hcon]. }
  intros rs2 res2 t2 Hfed2 Hx2 He2.
  edestruct (udp_rejects b') as (b'' & -> & Hb'' & Hw2 & Hs2); try done; [lia| |by exists b''].
  rewrite Htb. by eapply takes_once; [apply Hb|..].
Qed.

(** Two daemons connected by the session of [Demo]. *)
Module Pair.
Definition buf : bytes := replicate 2048 0.
Definition a : daemon := mk_daemon Demo.key Demo.key Demo.t1 4 Demo.dev buf buf buf buf.
Definition s2 : vpn_session_t :=
  new_session 77 1 (recv_key Demo.s1) (send_key Demo.s1) 100.
Definition q : vpn_peer_t := moved (rekeyed Demo.p0 s2 101) Demo.ep.
Definition b : daemon :=
  mk_daemon Demo.key Demo.key (put demo_table 0 q 78) 4 Demo.dev buf buf buf buf.
Definition replies : list reply :=
  mk_reply 20 1 Demo.ip_packet [] 0 [] :: replicate 6 (ok_reply 52).
Definition outcome : result daemon * trace :=
  Eval vm_compute in exec (handle_tun (S := Toy.toy) a) replies.

Lemma pair_ran : exec (handle_tun (S := Toy.toy) a) replies = outcome.
Proof. by vm_compute. Qed.
Lemma pair_env : env_ok any_call outcome.2.
Proof. unfold outcome. cbn [snd]. by_env. Qed.

(** The demo table with a session of its first peer. *)
Lemma session_table_ok s ep next : session_ok s → endpoint_ok ep → is_u32 next →
  table_ok (put demo_table 0 (moved (rekeyed Demo.p0 s 101) ep) next).
Proof.
  intros Hs He Hn. apply (set_peer_ok demo_table 0 _ Demo.p0); [apply demo_table_ok|done| | |done].
  - apply moved_ok; [|done]. apply rekeyed_ok; [|done]. by apply demo_peer_ok; split.
  - unfold moved. by case_bool_decide.
Qed.

Lemma a_ok : daemon_ok a.
Proof.
  split; try done; try (split; [done|by_computation]).
  apply session_table_ok; [by apply new_session_ok|apply Demo.ep_ok|done].
Qed.
Lemma b_ok : daemon_ok b.
Proof.
  split; try done; try (split; [done|by_computation]).
  apply session_table_ok; [by apply new_session_ok|apply Demo.ep_ok|done].
Qed.

Lemma pair_connected : connected a b Demo.ip_packet 0 0 Demo.p1 q Current.
Proof.
  split; [by vm_compute|by vm_compute|by vm_compute|by vm_compute|by vm_compute|by vm_compute
         |by vm_compute|].
  apply (bool_decide_unpack _). by vm_compute.
Qed.
End Pair.

Lemma tunnel_delivers_once_witness :
  ∃ a' w, Pair.outcome.1 = Done a' ∧ daemon_ok a' ∧ udp_sends Pair.outcome.2 = [w] ∧
    tun_writes Pair.outcome.2 = [] ∧
    ∀ rs1 res1 t1, fed w rs1 → exec (handle_udp (S := Toy.toy) Pair.b) rs1 = (res1, t1) →
      env_ok any_call t1 →
    ∃ b', res1 = Done b' ∧ daemon_ok b' ∧ tun_writes t1 = [Demo.ip_packet] ∧ udp_sends t1 = [] ∧
      ∀ rs2 res2 t2, fed w rs2 → exec (handle_udp b') rs2 = (res2, t2) → env_ok any_call t2 →
      ∃ b'', res2 = Done b'' ∧ tun_writes t2 = [] ∧ udp_sends t2 = [] ∧ table b'' = table b'.
Proof.
  apply (tunnel_delivers_once (S := Toy.toy) Pair.a Pair.b Demo.ip_packet 0 0 Demo.p1 Pair.q Current
    Pair.replies Pair.outcome.1 Pair.outcome.2);
    [apply Pair.a_ok|apply Pair.b_ok|done|done|apply Pair.pair_connected| |
     rewrite Pair.pair_ran; by destruct Pair.outcome|apply Pair.pair_env].
  eexists _, _. split_and!; [done|done|done|]. cbn. lia.
Defined.
