(* ===== verification/Session.v ===== *)
(** * From a handshake to a tunnel

    The handshake functions, the responder's daemon and the two peer tables put
    together: an initiator that knows the responder's public key sends an initiation,
    the responder's event loop answers it, and the initiator installs the session it
    derives from the answer.  The two sessions are then the two ends of a connection
    in the sense of [Tunnel], in both directions. *)

From S2P Require Import Prelude Config Libc Packet Sodium Crypto Kdf Os Inet Transport Tun Replay.
From S2P Require Import Routing Peer Handshake Machine Daemon Calls Refinement Loop Tunnel.
Local Open Scope c_scope.

(** No session of the table answers to the index. *)
Definition unused (t : vpn_peer_table_t) (idx : Z) : Prop :=
  Forall (λ p, slot_of p idx = None) (live t).

(** The initiator [a] has the responder at position [i] of its table and has chosen a
    free index; the responder [b] has the initiator's public key at position [j] and has
    not seen a later handshake from it. *)
Record introduced {S : Sodium} (a b : daemon) (s_i : bytes) (idx_i : Z) (ts : timespec) (i j : nat)
    (p q : vpn_peer_t) : Prop := {
  int_pub : static_pub b = crypto_scalarmult_base (static_priv b);
  int_p : live (table a) !! i = Some p;
  int_q : live (table b) !! j = Some q;
  int_key : public_key q = crypto_scalarmult_base s_i;
  int_fresh : last_handshake_time q = 0 ∨ last_handshake_time q < tv_sec ts;
  int_idx_i : idx_i ≠ 0 ∧ unused (table a) idx_i;
  int_idx_r : next_local_index (table b) ≠ 0 ∧ unused (table b) (next_local_index (table b))
}.

(** ** Two new sessions *)

(** [p] is [p0] with a new current session. *)
Definition renewed (p0 p : vpn_peer_t) (s : vpn_session_t) : Prop :=
  current_session p = s ∧ networks p = networks p0.

Lemma renewed_rekeyed p s now : renewed p (rekeyed p s now) s.
Proof. done. Qed.
Lemma renewed_moved p q s ep : renewed p q s → renewed p (moved q ep) s.
Proof. intros [H1 H2]. split; [|by rewrite networks_moved]. rewrite <- H1. exact (get_session_moved q ep Current). Qed.

Lemma renewed_slot p0 p li pi sk rk now : renewed p0 p (new_session li pi sk rk now) →
  slot_of p li = Some Current.
Proof.
  intros [H _]. unfold slot_of, session_matches. rewrite H. cbn [new_session state local_index].
  by rewrite bool_decide_true, Z.eqb_refl.
Qed.

Lemma list_find_put {A} (P : A → Prop) `{!∀ x, Decision (P x)} l j x y :
  l !! j = Some x → Forall (λ z, ¬ P z) l → P y → list_find P (<[j := y]> l) = Some (j, y).
Proof.
  intros Hj Hl Hy. apply list_find_Some. split_and!.
  - apply list_lookup_insert_eq. by eapply lookup_lt_Some.
  - done.
  - intros k z Hz Hk. rewrite list_lookup_insert_ne in Hz by lia. by eapply (Forall_lookup_1 _ _ _ _ Hl).
Qed.

(** Two daemons that have just installed the two ends of a session. *)
Lemma renewed_connected da db ta tb m i j p0 q0 p q li ri sk rk n n' :
  list_find (λ p, allows p (ip_of m 16)) (live ta) = Some (i, p0) →
  live (table da) = <[i := p]> (live ta) → renewed p0 p (new_session li ri sk rk n) →
  live tb !! j = Some q0 → ri ≠ 0 → unused tb ri →
  live (table db) = <[j := q]> (live tb) → renewed q0 q (new_session ri li rk sk n') →
  deliverable (tun db) q0 m →
  connected da db m i j p q Current.
Proof.
  intros Hf Ha [Hp Hnp] Hj Hri Hun Hb Hq Hdel. pose proof (renewed_slot _ _ _ _ _ _ _ Hq) as Hsl.
  destruct Hq as [Hq Hnq].
  split; rewrite ?Hp; cbn [new_session peer_index state send_key recv_key sending_counter get_session].
  - rewrite Ha. apply (list_find_replace _ _ _ p0); [done|]. apply list_find_Some in Hf as (_ & Hal & _).
    unfold allows in *. by rewrite Hnp.
  - done.
  - done.
  - rewrite Hb. apply (list_find_put _ _ _ q0); [done| |by eexists].
    eapply Forall_impl; [exact Hun|]. cbn beta. intros x ->. by intros [].
  - done.
  - by rewrite Hq.
  - rewrite Hq. by vm_compute.
  - by apply (deliverable_same _ q0 q).
Qed.

(** ** The responder *)

Section meeting.
Context {S : Sodium} {SL : SodiumLaws S}.
Variables (a b : daemon) (s_i e_i : bytes) (idx_i : Z) (ts : timespec) (i j : nat) (p q : vpn_peer_t).
Hypothesis (Ha : daemon_ok a).
Hypothesis (Hb : daemon_ok b).
Hypothesis (Hsi : length s_i = 32%nat).
Hypothesis (Hei : length e_i = 32%nat).
Hypothesis (Hidx : is_u32 idx_i).
Hypothesis (Hts : 0 <= tv_sec ts < 2 ^ 63).
Hypothesis (Hint : introduced a b s_i idx_i ts i j p q).

Abbreviation base := crypto_scalarmult_base.
Abbreviation s_r := (static_priv b).
Abbreviation idx_r := (next_local_index (table b)).
Abbreviation msg := (init_msg e_i s_i (base s_i) (base s_r) idx_i ts).
Abbreviation st := (init_state e_i s_i (base s_i) (base s_r) idx_i ts).

Lemma meeting_ok : init_ok msg.
Proof. by apply honest_msg_ok. Qed.

Lemma meeting_acceptable : acceptable s_r (static_pub b) (table b) msg j q.
Proof.
  destruct Hint as [Hpub _ Hq Hk Hf _ _]. pose proof (honest_verdict e_i s_i s_r idx_i ts Hei Hsi
    (ok_priv b Hb) (table b) j q (ok_table b Hb) Hq Hk Hts Hf) as Hv.
  rewrite Hpub. apply verdict_acceptable in Hv as [q' Hacc]; [|apply Hb].
  pose proof (acc_peer _ _ _ _ _ _ Hacc) as Hq'. rewrite Hq in Hq'. injection Hq' as <-. done.
Qed.

Lemma meeting_answerable e : length e = 32%nat → answerable msg q e.
Proof.
  intros He. destruct Hint as [_ _ _ Hk _ _ _]. split; [by apply dh_ok|]. rewrite Hk. by apply dh_ok.
Qed.

(** Receiving the initiation installs a session and sends the response. *)
Lemma meeting_answered rs res t : fed (init_wire msg) rs →
  exec (handle_udp b) rs = (res, t) → env_ok any_call t →
  ∃ b' e ep now1 now2, res = Done b' ∧ length e = 32%nat ∧
    did [] b (Ev_handshake j idx_r (answer_wire b msg q e)) (answer_put b ep msg j q e now1 now2) t b'.
Proof.
  intros Hfed Hx He. assert (length (init_wire msg) = 148%nat) as Hl
    by (destruct meeting_ok; unfold init_wire; len).
  destruct (fed_exec serves (handle_udp b) (λ t b', ∃ e ep now1 now2, length e = 32%nat ∧
    did [] b (Ev_handshake j idx_r (answer_wire b msg q e)) (answer_put b ep msg j q e now1 now2) t b')
    (init_wire msg) rs res t) as (b' & -> & e & ep & now1 & now2 & Hdid);
    [apply handle_udp_within|done| |done|done|by exists b', e, ep, now1, now2].
  intros r0 Hd Hr. apply (handle_udp_receives b (init_wire msg) r0 handle_initiation); [done..|by left|].
  intros h ep Hep Ho d1 Hok1 _. rewrite Hl.
  eapply wp_mono; [|apply (handle_initiation_does h d1 ep 148); (done || lia)]. cbn beta.
  assert (packet_parse_handshake_init (Some (net_buf d1)) 148 (Some zero_init_msg) = Some (0, Some msg)) as Hp
    by apply parse_init_wire, meeting_ok.
  intros t' b' [(m & j' & q' & Hp' & _ & Hacc & e & He' & Hans)|(_ & _ & Hno)].
  - rewrite Hp in Hp'. injection Hp' as <-.
    destruct (acceptable_unique _ _ _ _ _ _ _ _ (ok_table b Hb) meeting_acceptable Hacc) as [<- <-].
    destruct Hans as [(_ & now1 & now2 & Hdid)|[Hna _]]; [|by destruct Hna; apply meeting_answerable].
    exists e, ep, now1, now2. split; [done|]. by apply (did_after [] h b d1).
  - by destruct (Hno msg j q Hp meeting_acceptable).
Qed.

(** The keys of both ends. *)
Abbreviation key e n := (hkdf (honest_ck e_i s_i s_r idx_i ts e) [] n).

Lemma meeting_keys e : session_ck s_r (static_pub b) msg q e = honest_ck e_i s_i s_r idx_i ts e.
Proof.
  destruct Hint as [Hpub _ _ Hk _ _ _]. unfold session_ck, honest_ck.
  rewrite Hpub, honest_ck3, Hk by (done || apply Hb). done.
Qed.

Lemma meeting_wire e : answer_wire b msg q e =
  resp_wire (resp_msg (hs_chaining_key st) (hs_hash st) e (base e_i) (base s_i) idx_r idx_i).
Proof.
  destruct Hint as [Hpub _ _ Hk _ _ _]. unfold answer_wire.
  rewrite Hpub, honest_ck3, Hk by (done || apply Hb). done.
Qed.

Lemma meeting_key_length e n : length (key e (Datatypes.S n)) = 32%nat.
Proof. by apply hkdf_length, resp_ck_length, honest_ck_length. Qed.

(** The initiator installs its end, and each daemon is connected to the other. *)
Lemma meeting_connected b' e ep now1 now2 now1' now2' :
  table b' = answer_put b ep msg j q e now1 now2 → tun b' = tun b →
  ∃ p' ta' q',
    peer_init_session (Some p) idx_i idx_r (Some (key e 2)) (Some (key e 1)) now1' now2' = Some (Some p') ∧
    set_peer (table a) (Z.of_nat i) p' = Some ta' ∧ daemon_ok (set_table a ta') ∧
    (∀ m, list_find (λ p, allows p (ip_of m 16)) (live (table a)) = Some (i, p) →
       deliverable (tun b) q m → connected (set_table a ta') b' m i j p' q' Current) ∧
    (∀ m, list_find (λ p, allows p (ip_of m 16)) (live (table b)) = Some (j, q) →
       deliverable (tun a) p m → connected b' (set_table a ta') m j i q' p' Current).
Proof.
  intros Htab Htun. pose proof Hint as [_ Hp Hq _ _ [Hi0 Hiu] [Hr0 Hru]].
  destruct (live_get _ (ok_table a Ha) i p Hp) as [_ Hpok].
  set (s := new_session idx_i idx_r (key e 2) (key e 1) now1').
  set (s' := new_session idx_r idx_i (key e 1) (key e 2) now1).
  assert (session_ok s) as Hs by (apply new_session_ok; [done|apply Hb|apply meeting_key_length..]).
  exists (rekeyed p s now2'), (put (table a) i (rekeyed p s now2') (next_local_index (table a))),
    (moved (rekeyed q s' now2) ep).
  assert (live (table b') = <[j := moved (rekeyed q s' now2) ep]> (live (table b))) as Hlb.
  { rewrite Htab. unfold answer_put. rewrite meeting_keys. apply live_insert. }
  split_and!.
  - by rewrite init_session_eq by (done || apply meeting_key_length).
  - by apply (set_peer_eq _ _ _ p (ok_table a Ha)).
  - assert (table_ok (put (table a) i (rekeyed p s now2') (next_local_index (table a)))) as Hta.
    { eapply set_peer_ok; [apply Ha|done|by apply rekeyed_ok|done|apply Ha]. }
    destruct Ha. by split.
  - intros m Hf Hdel. apply (renewed_connected _ _ (table a) (table b) m i j p q _ _
      idx_i idx_r (key e 2) (key e 1) now1' now1); try done.
    + apply live_insert.
    + apply renewed_moved, renewed_rekeyed.
    + by rewrite Htun.
  - intros m Hf Hdel. apply (renewed_connected _ _ (table b) (table a) m j i q p _ _
      idx_r idx_i (key e 1) (key e 2) now1 now1'); try done.
    + apply renewed_moved, renewed_rekeyed.
    + apply live_insert.
Qed.
End meeting.

(** ** Properties *)

(** C3: a handshake connects two daemons.  Let initiator and responder know each other's
    public keys, the initiator's time be later than the responder's last handshake
    with it, and both indices be free.  Then the initiation the initiator creates, given
    to the responder's event loop, is answered with exactly one datagram and nothing on
    the TUN device; the initiator accepts that datagram, learns the responder's index
    and installs the session with [peer_init_session]; and from then on the two
    daemons are connected in both directions, so that a packet either routes to the other
    is delivered there. *)
Theorem handshake_connects {S : Sodium} {SL : SodiumLaws S}
    a b s_i e_i idx_i ts i j p q buf st0 j0 k3 k4 :
  daemon_ok a → daemon_ok b → length s_i = 32%nat → length e_i = 32%nat → is_u32 idx_i →
  0 <= tv_sec ts < 2 ^ 63 → introduced a b s_i idx_i ts i j p q →
  length buf = 148%nat →
  Forall (λ b, length b = 32%nat) [hs_ephemeral_private st0; hs_chaining_key st0; hs_hash st0; k3; k4] →
  let base := crypto_scalarmult_base in let s_r := static_priv b in
  let idx_r := next_local_index (table b) in
  ∃ pkt1 st,
    handshake_create_initiation (Some buf) 148 (Some s_i) (Some (base s_i)) (Some (base s_r)) idx_i
      (Some st0) e_i ts = Some (148, Some pkt1, Some st) ∧
    ∀ rs res t, fed pkt1 rs → exec (handle_udp b) rs = (res, t) → env_ok any_call t →
    ∃ b' pkt2 send recv,
      res = Done b' ∧ daemon_ok b' ∧ udp_sends t = [pkt2] ∧ tun_writes t = [] ∧
      handshake_consume_response (Some pkt2) 92 (Some s_i) (Some st) (Some (base s_r))
        (Some j0) (Some k3) (Some k4) = Some (0, Some idx_r, Some send, Some recv) ∧
      ∀ now1 now2, ∃ p' ta' q',
        peer_init_session (Some p) idx_i idx_r (Some send) (Some recv) now1 now2 = Some (Some p') ∧
        set_peer (table a) (Z.of_nat i) p' = Some ta' ∧ daemon_ok (set_table a ta') ∧
        (∀ m, list_find (λ p, allows p (ip_of m 16)) (live (table a)) = Some (i, p) →
           deliverable (tun b) q m → connected (set_table a ta') b' m i j p' q' Current) ∧
        (∀ m, list_find (λ p, allows p (ip_of m 16)) (live (table b)) = Some (j, q) →
           deliverable (tun a) p m → connected b' (set_table a ta') m j i q' p' Current).
Proof.
  intros Ha Hb Hsi Hei Hidx Hts Hint Hbuf Hkeys base s_r idx_r.
  repeat rewrite Forall_cons in Hkeys. destruct Hkeys as (H1 & H2 & H3 & H4 & H5 & _).
  eexists _, _. split; [apply honest_create; (done || apply Hb)|]. intros rs res t Hfed Hx He.
  edestruct (meeting_answered a b s_i e_i idx_i ts i j p q) as
    (b' & e & ep & now1 & now2 & -> & Hel & Htab & Hok & (_ & _ & _ & Htun) & Hw & Hs); try done.
  eexists b', _, _, _. split_and!; [done|done|exact Hs|exact Hw| |].
  - rewrite (meeting_wire a b s_i e_i idx_i ts i j p q) by done.
    apply honest_complete; (done || apply Hb).
  - intros now1' now2'. by eapply meeting_connected.
Qed.

(** The initiator and responder of [Demo], which have not met yet. *)
Module Strangers.
Definition s_i : bytes := replicate 32 7.
Definition ts : timespec := mk_timespec 1700000000 5.
Definition a : daemon := mk_daemon s_i s_i demo_table 4 Demo.dev Pair.buf Pair.buf Pair.buf Pair.buf.

Lemma stranger_ok : daemon_ok a.
Proof. split; try done; [apply demo_table_ok|..]; (split; [done|by_computation]). Qed.

Lemma unused_demo idx : unused demo_table idx.
Proof. by repeat constructor. Qed.

Lemma strangers : introduced (S := Toy.toy) a Live.d0 s_i 77 ts 0 0 Demo.p0 Demo.p0.
Proof.
  split; [by vm_compute..|by left| |]; (split; [done|apply unused_demo]).
Qed.
End Strangers.

Lemma handshake_connects_witness :
  let base := crypto_scalarmult_base (Sodium := Toy.toy) in let s_r := Demo.key in
  ∃ pkt1 st,
    handshake_create_initiation (S := Toy.toy) (Some (replicate 148 0)) 148 (Some Strangers.s_i)
      (Some (base Strangers.s_i)) (Some (base s_r)) 77 (Some demo_init_state) (replicate 32 11)
      Strangers.ts = Some (148, Some pkt1, Some st) ∧
    ∀ rs res t, fed pkt1 rs → exec (handle_udp (S := Toy.toy) Live.d0) rs = (res, t) → env_ok any_call t →
    ∃ b' pkt2 send recv,
      res = Done b' ∧ daemon_ok b' ∧ udp_sends t = [pkt2] ∧ tun_writes t = [] ∧
      handshake_consume_response (S := Toy.toy) (Some pkt2) 92 (Some Strangers.s_i) (Some st)
        (Some (base s_r)) (Some 0) (Some (replicate 32 0)) (Some (replicate 32 0))
        = Some (0, Some 1, Some send, Some recv) ∧
      ∀ now1 now2, ∃ p' ta' q',
        peer_init_session (Some Demo.p0) 77 1 (Some send) (Some recv) now1 now2 = Some (Some p') ∧
        set_peer demo_table 0 p' = Some ta' ∧ daemon_ok (set_table Strangers.a ta') ∧
        (∀ m, list_find (λ p, allows p (ip_of m 16)) (live demo_table) = Some (0%nat, Demo.p0) →
           deliverable Demo.dev Demo.p0 m → connected (set_table Strangers.a ta') b' m 0 0 p' q' Current) ∧
        (∀ m, list_find (λ p, allows p (ip_of m 16)) (live demo_table) = Some (0%nat, Demo.p0) →
           deliverable Demo.dev Demo.p0 m → connected b' (set_table Strangers.a ta') m 0 0 q' p' Current).
Proof.
  apply (handshake_connects (S := Toy.toy) Strangers.a Live.d0 Strangers.s_i (replicate 32 11) 77
    Strangers.ts 0 0 Demo.p0 Demo.p0 (replicate 148 0) demo_init_state 0 (replicate 32 0) (replicate 32 0));
    [apply Strangers.stranger_ok|apply Live.live_ok|done|done|done|done|apply Strangers.strangers|done|by_computation].
Defined.
